(* ===== verification/_CoqProject ===== *)
-Q . S2P
Prelude.v
Uapi.v
Buckets.v
EffAddr.v
KernelApi.v
KTypes.v
Tables.v
Callchain.v
Handlers.v
Sampling.v
HitSpec.v
Lifecycle.v
Session.v
SessionInv.v
RdModule.v
KernelDemo.v
LiveRef.v
ModuleLoad.v
CText.v
AsmDecode.v
Objdump.v
ProcMaps.v
Hotspots.v
SpePacket.v
RingDrain.v
LoadTargets.v
Effects.v
PerfEvents.v
Manifest.v
Pipeline.v
TargetedCtl.v
Monitor.v
MonitorInv.v
MonitorState.v
MonitorSpec.v
MonitorInfo.v
SampleBooks.v
MonitorDemo.v
Periodic.v
PeriodicSpec.v
PeriodicDemo.v
SamplerThread.v
PthreadHook.v
CtlInv.v
CtlKernel.v
CtlSpec.v
CtlDemo.v
ResultFiles.v
RawEvents.v
ResultText.v
ResultKernel.v
ResultSpec.v
ResultDemo.v
Starter.v
StarterSpec.v
StarterDemo.v
