(* ===== verification/Prelude.v ===== *)
(** * RD_SPE_TOOL: a verification development

    RD_SPE_TOOL measures reuse distances in two phases.  Phase one preloads a
    library into a program, samples its loads and stores with ARM SPE, ranks the
    instructions by samples and latency and writes the hottest to a manifest.
    Phase two preloads the same library, decodes each hot instruction, and drives
    a kernel module that sets an execute breakpoint on it; at a hit the module
    recovers the address that is accessed, arms a watchpoint on it and counts
    memory accesses until the address is touched again.  The distances are kept
    in [log2] histograms, per instruction and per pair of call contexts, which
    user space downloads and writes to result files.

    ** Parts of the program and the files that model them

    Kernel module, [src/kernel/rd_wpctl.c]:
    - [Uapi.v]: the records and requests of [include/uapi/rd_wpctl_ioctl.h];
    - [KernelApi.v]: the Linux interfaces it calls, as the class [KernelApi] with
      the laws [KernelLaws], and a small concrete kernel ([Toy]);
    - [KTypes.v]: [rd_session], [rd_thread_ctx] and the table entries;
    - [Buckets.v]: [rd_log2_bucket], with [bucket_lo] and [bucket_hi] of user space;
    - [EffAddr.v]: [rd_compute_effective_address] and [rd_validate_target];
    - [Tables.v]: the context and pair tables;
    - [Callchain.v]: the frame-pointer walk and the DWARF snapshot;
    - [Handlers.v]: [rd_handle_bp_hit], [rd_handle_wp_hit], the slot reservoir and
      the reset; [Sampling.v] and [HitSpec.v] hold their theorems;
    - [Lifecycle.v]: event set-up, detach and destruction of a thread;
    - [Session.v]: every ioctl, open, release and the two kprobe entries;
      [SessionInv.v] has the invariant of the whole module;
    - [RdModule.v]: the module as a transition system and its theorems;
      [KernelDemo.v] is a concrete run;
    - [LiveRef.v]: the race of hits with the release of their thread (RCU,
      [live_refs], the completion), one memory access per step;
    - [ModuleLoad.v]: loading and unloading of the module.

    Text and effects: [CText.v] (strings, [strtol], streams, number output and
    [RdException]) and [Effects.v] (programs with state, exceptions and crashes,
    and their weakest preconditions).

    Phase one, [src/src/monitor.cc], [periodic_profiler.cc]:
    - [ProcMaps.v]: [/proc/self/maps] and [stat] readers of both phases;
    - [SpePacket.v], [RingDrain.v]: SPE packets and the drain of a ring buffer;
    - [Hotspots.v], [Manifest.v]: the hotspot table, its ranking, the manifest;
    - [PerfEvents.v]: perf attributes and descriptors, with the class [PerfApi];
    - [Monitor.v]: the class [Monitor]: threads, slots, windows, counters, its
      constructor and destructor; [MonitorInv.v] ([PerfLaws], resources),
      [MonitorState.v] (the invariant), [MonitorSpec.v] (theorems),
      [MonitorInfo.v] (the [.info] file and the whole destructor),
      [SampleBooks.v] (samples written against samples counted) and
      [MonitorDemo.v] (a concrete system);
    - [SamplerThread.v]: the hand-shake with the sampler thread as a step relation;
    - [Periodic.v], [PeriodicSpec.v], [PeriodicDemo.v]: [PeriodicProfiler].

    Phase two, [src/src/targeted_rd.cc]:
    - [AsmDecode.v], [Objdump.v]: decoding of an operand and of a disassembly;
    - [LoadTargets.v]: the manifest reader and the choice of targets;
    - [Pipeline.v]: phase one and the start of phase two composed, from the samples
      of a run to the breakpoint addresses of a later one;
    - [TargetedCtl.v]: the controller (environment, session, CPUs, threads,
      windows); [CtlInv.v] proves its invariant from the interface [RdDevice],
      [CtlKernel.v] shows that the module implements it, [CtlSpec.v] has the
      protocol theorems and [CtlDemo.v] a run;
    - [ResultFiles.v], [RawEvents.v], [ResultText.v], [ResultKernel.v],
      [ResultSpec.v], [ResultDemo.v]: the writers, their formats and the destructor.

    Entry points: [Starter.v] ([starter.cc]) and [PthreadHook.v]
    ([pthread_hook.cc]) with [StarterSpec.v] and [StarterDemo.v];
    [get_threads] of [threads.cc] is in [TargetedCtl.v] and [nano_clock] of
    [clock.cc] in [PerfEvents.v].

    ** How code becomes definitions

    A pure function is a function on [Z], [list] and [text]; machine words are
    [Z] with [u64], [u32], [s32] written where the C type wraps.  Kernel code is
    state passing in [option], where [None] is a fault; user-space code is a
    program of [Effects.v], where a throw keeps what was changed before it and
    [None] is a crash.  Records have the fields of the structs; a pointer that can
    be null is an [option].  The kernel, perf and the C library are classes or
    arguments, with laws that state their documentation and concrete instances
    that obey them.  A handler, an ioctl or a call under a lock is one step; the
    places where threads meet without a lock are step relations of their own
    ([LiveRef.v], [SamplerThread.v], [PthreadHook.v]).

    ** What the theorems show

    - The module: an entry point faults in a reachable state only when a
      breakpoint is hit whose target shifts its index by 64 or more, which the
      validation lets through; counters and histograms of every thread balance,
      also as downloaded; every perf event and task reference is given back; a
      failed ioctl changes nothing; a thread is freed under every schedule and
      never while a hit still uses it; a seed and a reuse add one to the bucket
      that contains the distance between their counter values; addresses, contexts
      and pairs are those of the architecture and of the call chain.
    - The two halves agree: addresses decoded from text are computed by the
      module, bucket intervals printed are bucket choices, the manifest survives
      from phase one to phase two and every breakpoint is on a sampled instruction
      wherever the loader puts the binary, the controller's tables agree with the
      session under any interleaving, and the files written at the end read back
      as what the module recorded, when the disk and the memory suffice; a thread
      that was registered again leaves the file of its last context.
    - Phase one: any sequence of SPE packets decodes to the samples of its groups,
      a ring drains completely unless the driver marks AUX records truncated, the
      table holds the counts, sums and event bits of the samples, the ranking is
      the Pareto order, every count of every thread is in exactly one window and
      in the numbers of the [.info] file, every sample in the files is counted in
      a window, all descriptors and mappings are given back, and the sampler
      thread is joined under every schedule.
    - Entry points: one process and one profiler are selected, program threads are
      registered and unregistered once and own threads never, buffer sizes are
      rounded down.

    ** Bounds and fuel

    [iter_loop k] runs [2^k] iterations: 64 covers the frame walk, whose frame
    pointer grows below [2^64]; 6 covers the chunks of a stack snapshot and the
    doubling of a 32-bit size.  The record loop of a ring has one unit of fuel per
    byte between tail and head, and reports a loop that does not end as a crash.
    Number printers take 64 digits.  Lemmas in each file show that the bound is
    not reached, or, for [parse_bufsize], exactly when the loop has no end.  The
    theorems on the monitor take buffer sizes below 2048 MiB, above which the
    [int] product in the source overflows, and assume ([pl_fits] of [PerfLaws])
    that the PMU has room for the pinned sampler events: one that does not fit
    reads end-of-file, on which the source throws.

    ** Not modelled

    The demonstration programs of [bin/]; the Python post-processing, of which
    only the layout of the event file appears ([RawEvents.v]); messages to the log
    and to standard error.  Data races between operations that the source runs
    without a lock (the tag string of [PeriodicProfiler], the list of windows) are
    outside the model, in which each operation is one step. *)

From stdpp Require Export base list gmap numbers strings sorting.
From Stdlib Require Export ZArith Lia.

Open Scope Z_scope.

(** * Machine words

    A [w]-bit unsigned integer is a [Z]; every operation of the source that can
    wrap is followed by [u64], [u32] or [u8]. *)

Definition u8 (z : Z) : Z := z mod 256.
Definition u32 (z : Z) : Z := z mod 4294967296.
Definition u64 (z : Z) : Z := z mod 18446744073709551616.

(** Signed views: the two's-complement reading of the low bits. *)
Definition s32 (z : Z) : Z :=
  if u32 z <? 2147483648 then u32 z else u32 z - 4294967296.
Definition s64 (z : Z) : Z :=
  if u64 z <? 9223372036854775808 then u64 z else u64 z - 18446744073709551616.

Definition U64_MAX : Z := 18446744073709551615.

Abbreviation is_u64 z := (0 <= z < 18446744073709551616) (only parsing).
Abbreviation is_u32 z := (0 <= z < 4294967296) (only parsing).

Lemma u64_range z : is_u64 (u64 z).
Proof. unfold u64; apply Z.mod_pos_bound; lia. Qed.

Lemma u32_range z : is_u32 (u32 z).
Proof. unfold u32; apply Z.mod_pos_bound; lia. Qed.

Lemma u8_range z : 0 <= u8 z < 256.
Proof. unfold u8; apply Z.mod_pos_bound; lia. Qed.

Lemma u64_id z : is_u64 z -> u64 z = z.
Proof. intros; unfold u64; apply Z.mod_small; lia. Qed.

Lemma u32_id z : is_u32 z -> u32 z = z.
Proof. intros; unfold u32; apply Z.mod_small; lia. Qed.

(** Congruence modulo [2^64]: the equivalence under which wrapping counters
    obey the linear laws that unbounded counters obey. *)
Definition eqm64 (a b : Z) : Prop := exists k, a = b + k * 18446744073709551616.
Infix "≡₆₄" := eqm64 (at level 70, no associativity).

Lemma eqm64_u64 a b : a ≡₆₄ b <-> u64 a = u64 b.
Proof.
  unfold eqm64, u64; split.
  - intros [k ->]; apply Z.mod_add; lia.
  - intros H; exists (a / 18446744073709551616 - b / 18446744073709551616).
    pose proof (Z_div_mod_eq_full a 18446744073709551616).
    pose proof (Z_div_mod_eq_full b 18446744073709551616); lia.
Qed.

#[export] Instance eqm64_equiv : Equivalence eqm64.
Proof. split; red; setoid_rewrite eqm64_u64; congruence. Qed.

#[export] Instance eqm64_add : Proper (eqm64 ==> eqm64 ==> eqm64) Z.add.
Proof. intros a b [k ->] c d [j ->]; exists (k + j); lia. Qed.

#[export] Instance eqm64_sub : Proper (eqm64 ==> eqm64 ==> eqm64) Z.sub.
Proof. intros a b [k ->] c d [j ->]; exists (k - j); lia. Qed.

#[export] Instance eqm64_mul : Proper (eqm64 ==> eqm64 ==> eqm64) Z.mul.
Proof.
  intros a b [k ->] c d [j ->]; exists (b * j + d * k + k * j * 18446744073709551616); lia.
Qed.

Lemma u64_eqm z : u64 z ≡₆₄ z.
Proof. apply eqm64_u64; unfold u64; apply Z.mod_mod; lia. Qed.

Lemma eqm64_of_eq a b : a = b -> a ≡₆₄ b.
Proof. intros ->; reflexivity. Qed.

Lemma eqm64_small a b : is_u64 a -> is_u64 b -> a ≡₆₄ b -> a = b.
Proof. intros Ha Hb; rewrite eqm64_u64, !u64_id by lia; auto. Qed.

(** * Functional record update

    [r ⟦ f := v ⟧] is the record [r] with field [f] replaced.  A record opts in
    by giving its eta-expansion as an instance of [Eta]. *)

Class Eta (R : Type) := eta : R -> R.
Class Setter {R T : Type} (proj : R -> T) := upd : (T -> T) -> R -> R.
Arguments upd {R T} proj {_} _ _.

Ltac derive_setter :=
  lazymatch goal with
  | |- @Setter ?R ?T ?p =>
      let inst := constr:(_ : Eta R) in
      let e := eval hnf in inst in
      let e' := eval pattern p in e in
      lazymatch e' with
      | ?F p => exact (fun (f : T -> T) => F (fun r : R => f (p r)))
      end
  end.
#[export] Hint Extern 0 (Setter _) => derive_setter : typeclass_instances.

Declare Scope rd_scope.
Delimit Scope rd_scope with rd.
Open Scope rd_scope.
Notation "r ⟦ p := v ⟧" := (upd p (fun _ => v) r)
  (at level 12, left associativity, p at level 9, v at level 200) : rd_scope.
Notation "r ⟦ p '::=' f ⟧" := (upd p f r)
  (at level 12, left associativity, p at level 9, f at level 200) : rd_scope.

(** Incrementing a wrapping counter, the [x++] of the source. *)
Definition inc64 (z : Z) : Z := u64 (z + 1).
Definition inc32 (z : Z) : Z := u32 (z + 1).

Lemma inc64_eqm z : inc64 z ≡₆₄ z + 1.
Proof. apply u64_eqm. Qed.

(** * Arrays

    C arrays are lists; [arr !!z i] is the element at the non-negative index
    [i] and [None] outside the bounds, which the model treats as an invalid
    memory access. *)

Definition zlookup {A} (l : list A) (i : Z) : option A :=
  if (0 <=? i) && (i <? Z.of_nat (length l)) then l !! Z.to_nat i else None.
Definition zinsert {A} (l : list A) (i : Z) (x : A) : option (list A) :=
  if (0 <=? i) && (i <? Z.of_nat (length l)) then Some (<[Z.to_nat i := x]> l) else None.
Notation "l !!z i" := (zlookup l i) (at level 20, i at level 20) : rd_scope.
Abbreviation zlen l := (Z.of_nat (length l)).

Section arrays.
Context {A : Type}.
Implicit Types (l : list A) (x y : A) (i : Z).

Lemma zlookup_Some l i x :
  l !!z i = Some x <-> 0 <= i < zlen l /\ l !! Z.to_nat i = Some x.
Proof.
  unfold zlookup; destruct (_ && _) eqn:E; split.
  - intros; split; [lia|done].
  - by intros [_ ?].
  - done.
  - intros [? _]; lia.
Qed.

Lemma zlookup_is_Some l i : is_Some (l !!z i) <-> 0 <= i < zlen l.
Proof.
  split; [intros [x Hx]; by apply zlookup_Some in Hx as [? _]|]; intros Hi.
  destruct (lookup_lt_is_Some_2 l (Z.to_nat i)) as [x Hx]; [lia|].
  exists x; apply zlookup_Some; auto.
Qed.

Lemma zinsert_Some l i x l' :
  zinsert l i x = Some l' <-> 0 <= i < zlen l /\ l' = <[Z.to_nat i := x]> l.
Proof.
  unfold zinsert; destruct (_ && _) eqn:E; split.
  - intros; simplify_eq; split; [lia|done].
  - by intros [_ ->].
  - done.
  - intros [? _]; lia.
Qed.

Lemma zinsert_is_Some l i x : 0 <= i < zlen l -> zinsert l i x = Some (<[Z.to_nat i := x]> l).
Proof. intros; apply zinsert_Some; auto. Qed.

Lemma zlookup_of_nat l (n : nat) : l !!z (Z.of_nat n) = l !! n.
Proof.
  unfold zlookup; destruct (_ && _) eqn:E; [by rewrite Nat2Z.id|].
  symmetry; apply lookup_ge_None; lia.
Qed.

Lemma zlookup_in_range l i : 0 <= i < zlen l -> l !!z i = l !! Z.to_nat i.
Proof. intros; unfold zlookup; destruct (_ && _) eqn:E; [done|lia]. Qed.

Lemma list_insert_cases l (n m : nat) x y :
  <[n := y]> l !! m = Some x -> (m = n /\ x = y) \/ (m <> n /\ l !! m = Some x).
Proof.
  rewrite list_lookup_insert; case_decide as H; [destruct H as [<- _]; intros [= ->]; by left|].
  intros Hm; right; split; [|done]; intros ->; apply H; split; [done|].
  by eapply lookup_lt_Some.
Qed.

End arrays.

(** * Sums and counts over arrays *)

Definition sumZ (l : list Z) : Z := foldr Z.add 0 l.
Definition zcount {A} (p : A -> bool) (l : list A) : Z :=
  sumZ ((fun a => if p a then 1 else 0) <$> l).

Lemma sumZ_app l1 l2 : sumZ (l1 ++ l2) = sumZ l1 + sumZ l2.
Proof. induction l1 as [|x l1 IH]; simpl; [done|]; rewrite IH; unfold sumZ; lia. Qed.

Lemma sumZ_cons x l : sumZ (x :: l) = x + sumZ l.
Proof. reflexivity. Qed.

Lemma sumZ_insert l (i : nat) x y :
  l !! i = Some x -> sumZ (<[i := y]> l) = sumZ l - x + y.
Proof.
  revert i; induction l as [|z l IH]; intros [|i]; simpl; intros; simplify_eq.
  - lia.
  - rewrite IH by done; lia.
Qed.

Lemma sumZ_replicate n x : sumZ (replicate n x) = Z.of_nat n * x.
Proof. induction n as [|n IH]; simpl; [done|]; rewrite IH; lia. Qed.

Lemma sumZ_zero l : Forall (fun x => x = 0) l -> sumZ l = 0.
Proof. induction 1; simpl in *; lia. Qed.

Lemma zcount_cons {A} (p : A -> bool) x l :
  zcount p (x :: l) = (if p x then 1 else 0) + zcount p l.
Proof. reflexivity. Qed.

Lemma zcount_app {A} (p : A -> bool) l1 l2 :
  zcount p (l1 ++ l2) = zcount p l1 + zcount p l2.
Proof. unfold zcount; rewrite fmap_app; apply sumZ_app. Qed.

Lemma zcount_insert {A} (p : A -> bool) l (i : nat) x y :
  l !! i = Some x ->
  zcount p (<[i := y]> l) =
  zcount p l - (if p x then 1 else 0) + (if p y then 1 else 0).
Proof.
  intros Hi; unfold zcount; rewrite list_fmap_insert.
  apply sumZ_insert; rewrite list_lookup_fmap, Hi; done.
Qed.

Lemma zcount_range {A} (p : A -> bool) l : 0 <= zcount p l <= zlen l.
Proof. induction l; [done|]; rewrite zcount_cons; simpl length; destruct (p _); lia. Qed.

Lemma zcount_fmap {A B} (p : B -> bool) (f : A -> B) l : zcount p (f <$> l) = zcount (fun a => p (f a)) l.
Proof. unfold zcount; by rewrite <- list_fmap_compose. Qed.

Lemma zcount_exists {A} (p : A -> bool) l : 0 < zcount p l -> exists (i : nat) x, l !! i = Some x /\ p x = true.
Proof.
  induction l as [|y l IH]; [done|]; rewrite zcount_cons; destruct (p y) eqn:Ey.
  - by exists 0%nat, y.
  - intros H; destruct IH as (i & x & Hx & Hp); [lia|]; by exists (S i), x.
Qed.

Lemma zcount_zero {A} (p : A -> bool) l :
  Forall (fun a => p a = false) l -> zcount p l = 0.
Proof. induction 1 as [|x l Hx _ IH]; [done|]; by rewrite zcount_cons, Hx, IH. Qed.

Lemma zcount_full {A} (p : A -> bool) l :
  Forall (fun a => p a = true) l -> zcount p l = zlen l.
Proof.
  induction 1 as [|x l Hx _ IH]; [done|]; rewrite zcount_cons, Hx, IH; simpl; lia.
Qed.

Lemma zcount_full_inv {A} (p : A -> bool) l n x :
  zcount p l = zlen l -> l !! n = Some x -> p x = true.
Proof.
  revert n; induction l as [|y l IH]; intros [|n]; rewrite ?zcount_cons; simpl; intros Hc Hx;
    simplify_eq; pose proof (zcount_range p l).
  - destruct (p x); [done|lia].
  - apply (IH n); [destruct (p y); lia|done].
Qed.

Lemma zcount_replicate {A} (p : A -> bool) n x :
  zcount p (replicate n x) = if p x then Z.of_nat n else 0.
Proof.
  unfold zcount; rewrite fmap_replicate, sumZ_replicate; destruct (p x); lia.
Qed.

#[global] Arguments zcount : simpl never.
#[global] Arguments sumZ : simpl never.

(** Stepping through a chain of fallible calls, one equation at a time. *)
Lemma some_bind {A B} (x : A) (f : A -> option B) : (Some x ≫= f) = f x.
Proof. reflexivity. Qed.

(** * Loops

    A [while] loop is its body [step]: [inl] the state of the next iteration,
    [inr] the value the loop leaves with.  [iter_loop k] runs up to [2^k]
    iterations and stops early, so that a loop bounded by a 64-bit measure is a
    total, executable function. *)

Section loops.
Context {St R : Type} (step : St -> St + R).

Fixpoint iter_loop (k : nat) (s : St) : St + R :=
  match k with
  | O => step s
  | S k' => match iter_loop k' s with
            | inl s' => iter_loop k' s'
            | inr r => inr r
            end
  end.

(** The big-step meaning of the loop, without a bound. *)
Inductive loops : St -> R -> Prop :=
| loops_done s r : step s = inr r -> loops s r
| loops_step s s' r : step s = inl s' -> loops s' r -> loops s r.

Lemma iter_loop_inv (I : St -> Prop) (Q : R -> Prop) :
  (forall s, I s -> match step s with inl s' => I s' | inr r => Q r end) ->
  forall k s, I s -> match iter_loop k s with inl s' => I s' | inr r => Q r end.
Proof.
  intros Hstep k; induction k as [|k IH]; intros s HI; simpl; [by apply Hstep|].
  pose proof (IH s HI) as H; destruct (iter_loop k s); [by apply IH|done].
Qed.

Lemma iter_loop_measure (I : St -> Prop) (m : St -> Z) :
  (forall s s', I s -> step s = inl s' -> I s' /\ 0 <= m s' < m s) ->
  forall k s s', I s -> iter_loop k s = inl s' -> I s' /\ 0 <= m s' <= m s - 2 ^ Z.of_nat k.
Proof.
  intros Hstep k; induction k as [|k IH]; intros s s' HI; cbn [iter_loop].
  - intros [? ?]%Hstep; auto; rewrite Z.pow_0_r; split; [done|lia].
  - destruct (iter_loop k s) as [s1|r] eqn:E1; [|done]; intros E2.
    apply IH in E1 as [HI1 Hm1]; [|done]; apply IH in E2 as [HI2 Hm2]; [|done].
    rewrite Nat2Z.inj_succ, Z.pow_succ_r by lia; split; [done|lia].
Qed.

(** A loop whose body decreases a measure below [2^k] leaves within [2^k]
    iterations. *)
Lemma iter_loop_terminates (I : St -> Prop) (m : St -> Z) k s :
  (forall s s', I s -> step s = inl s' -> I s' /\ 0 <= m s' < m s) ->
  I s -> m s < 2 ^ Z.of_nat k -> exists r, iter_loop k s = inr r.
Proof.
  intros Hstep HI Hm; destruct (iter_loop k s) as [s'|r] eqn:E; [|eauto].
  eapply iter_loop_measure in E as [_ E]; eauto; lia.
Qed.

Lemma loops_after k s s' r : iter_loop k s = inl s' -> loops s' r -> loops s r.
Proof.
  revert s s'; induction k as [|k IH]; simpl; intros s s' E Hr.
  - by eapply loops_step.
  - destruct (iter_loop k s) as [s1|] eqn:E1; [|done]; eauto.
Qed.

Lemma iter_loop_sound k s r : iter_loop k s = inr r -> loops s r.
Proof.
  revert s; induction k as [|k IH]; simpl; intros s; [by constructor|].
  destruct (iter_loop k s) as [s1|] eqn:E1; intros; simplify_eq; eauto using loops_after.
Qed.

Lemma loops_det s r1 r2 : loops s r1 -> loops s r2 -> r1 = r2.
Proof.
  induction 1 as [s r E|s s' r E H IH]; intros H2; inversion H2; try congruence.
  apply IH; congruence.
Qed.

End loops.

(** * Schedules *)

Section schedules.
Context {St : Type} (step : St -> St -> Prop).

(** Every schedule reaches [P]. *)
Inductive inevitable (P : St -> Prop) (s : St) : Prop :=
| inevitable_now : P s -> inevitable P s
| inevitable_later : (exists s', step s s') -> (forall s', step s s' -> inevitable P s') -> inevitable P s.

(** An invariant under which a run is never stuck before [P], with a measure that
    every step decreases, makes [P] inevitable. *)
Lemma inevitable_by_invariant (I P : St -> Prop) (m : St -> nat) s :
  (forall s, I s -> P s \/ exists s', step s s') -> (forall s s', I s -> step s s' -> I s' /\ (m s' < m s)%nat) ->
  I s -> inevitable P s.
Proof.
  intros Hp Hs; remember (m s) as k eqn:Ek; revert s Ek.
  induction (lt_wf k) as [k _ IH]; intros s -> Hi; destruct (Hp s Hi) as [H|H]; [by apply inevitable_now|].
  apply inevitable_later; [done|]; intros s' Hc; destruct (Hs s s' Hi Hc) as [Hi' Hm]; by eapply IH.
Qed.

End schedules.

(** [for (i = 0; i < n; i++)] with a body that can fault. *)
Fixpoint for_upto {St} (n : nat) (body : Z -> St -> option St) (s : St) : option St :=
  match n with
  | O => Some s
  | S n' => s ← for_upto n' body s; body (Z.of_nat n') s
  end.

Lemma for_upto_inv {St} (I : nat -> St -> Prop) (body : Z -> St -> option St) n s :
  (forall i s, (i < n)%nat -> I i s -> exists s', body (Z.of_nat i) s = Some s' /\ I (S i) s') ->
  I 0%nat s -> exists s', for_upto n body s = Some s' /\ I n s'.
Proof.
  induction n as [|n IH]; intros Hb H0; simpl; [eauto|].
  destruct IH as (s1 & -> & HI); [|done|]; [intros; apply Hb; [lia|done]|].
  apply Hb; [lia|done].
Qed.

(** * Proof automation *)

Create HintDb rd.
Create Rewrite HintDb rd.
#[export] Hint Resolve u64_range u32_range u64_eqm inc64_eqm : rd.
#[export] Hint Rewrite @length_insert @length_replicate @length_fmap @length_app : rd.

(** Case analysis on the guards of a definition, boolean or [decide]d. *)
Ltac split_if :=
  match goal with
  | |- context [if ?b then _ else _] => let E := fresh "G" in destruct b eqn:E
  | H : context [if ?b then _ else _] |- _ => let E := fresh "G" in destruct b eqn:E
  end.
Ltac guards := repeat (split_if; simplify_eq/=).

(** Linear goals over wrapping counters: rewrite every [u64] away. *)
Ltac eqm64_norm :=
  unfold inc64 in *; repeat (setoid_rewrite u64_eqm).
Ltac eqm64_lia := apply eqm64_of_eq; lia.
