(* ===== verification/Uapi.v ===== *)
(** The user/kernel interface of [include/uapi/rd_wpctl_ioctl.h]: limits, the
    effective-address template of a hotspot, the configuration records and the
    request records that the device copies in and out.  Integer fields keep
    their C width as ranges; one-byte flags are raw bytes tested against 0. *)
From S2P Require Import Prelude.

Definition RD_WPCTL_LOG2_BUCKETS : Z := 64.
Definition RD_WPCTL_MAX_PAIR_HISTS : Z := 4096.
Definition RD_WPCTL_MAX_CALLCHAIN_DEPTH : Z := 8.
Definition RD_WPCTL_MAX_CONTEXTS : Z := 4096.
Definition RD_WPCTL_MAX_DWARF_STACK_BYTES : Z := 8192.

Definition RD_CALLCHAIN_OFF : Z := 0.
Definition RD_CALLCHAIN_FP : Z := 1.
Definition RD_CALLCHAIN_DWARF : Z := 2.

Definition RD_EXT_NONE : Z := 0.
Definition RD_EXT_LSL : Z := 1.
Definition RD_EXT_UXTW : Z := 2.
Definition RD_EXT_SXTW : Z := 3.
Definition RD_EXT_UXTX : Z := 4.
Definition RD_EXT_SXTX : Z := 5.

(** Errno values, returned negated by the module. *)
Definition EPERM : Z := 1.
Definition ENOENT : Z := 2.
Definition ESRCH : Z := 3.
Definition ENOMEM : Z := 12.
Definition EFAULT : Z := 14.
Definition EBUSY : Z := 16.
Definition EEXIST : Z := 17.
Definition EINVAL : Z := 22.
Definition ENOTTY : Z := 25.

(** The C test of an integer used as a condition. *)
Definition truthy (z : Z) : bool := negb (z =? 0).

Record rd_wpctl_decode := mk_decode {
  access_size : Z;
  base_reg : Z;
  base_is_sp : Z;
  has_imm : Z;
  has_index : Z;
  index_is_32 : Z;
  index_is_zero : Z;
  extend : Z;
  shift : Z;
  index_reg : Z;
  imm : Z;
}.

Record rd_wpctl_target := mk_target {
  pc_offset : Z;
  abs_pc : Z;
  aggregated_samples : Z;
  decode : rd_wpctl_decode;
}.

Record rd_wpctl_session_cfg := mk_session_cfg {
  cfg_wp_capacity : Z;
  cfg_callchain_mode : Z;
  cfg_bp_sample_period : Z;
  cfg_dwarf_stack_bytes : Z;
  cfg_dwarf_event_capacity : Z;
}.

Record rd_wpctl_thread_register := mk_thread_register {
  reg_tid : Z;
  reg_cpu : Z;
  reg_scratch_base : Z;
  reg_scratch_stride : Z;
}.

Record rd_wpctl_layout := mk_layout {
  layout_target_count : Z;
  layout_thread_count : Z;
  layout_bucket_count : Z;
}.

Record rd_wpctl_thread_stats := mk_thread_stats {
  st_index : Z;
  st_tid : Z;
  st_cpu : Z;
  st_active : Z;
  st_candidate_samples : Z;
  st_reservoir_seen : Z;
  st_reservoir_accepted : Z;
  st_reservoir_rejected : Z;
  st_hits : Z;
  st_evictions : Z;
  st_dropped : Z;
  st_pair_hist_used : Z;
  st_pair_hist_dropped : Z;
  st_context_used : Z;
  st_context_dropped : Z;
  st_callchain_failed : Z;
  st_callchain_truncated : Z;
  st_dwarf_event_used : Z;
  st_dwarf_event_dropped : Z;
  st_dwarf_stack_copy_failed : Z;
  st_dwarf_stack_bytes : Z;
}.

Record rd_wpctl_pair_hist_req := mk_pair_hist_req {
  phr_thread_index : Z;
  phr_entry_index : Z;
  phr_used : Z;
  phr_seed_context_id : Z;
  phr_reuse_context_id : Z;
  phr_seed_pc_offset : Z;
  phr_reuse_pc : Z;
  phr_buckets : list Z;
}.

Record rd_wpctl_context_req := mk_context_req {
  cr_thread_index : Z;
  cr_context_id : Z;
  cr_used : Z;
  cr_depth : Z;
  cr_ips : list Z;
}.

Record rd_wpctl_dwarf_snapshot := mk_dwarf_snapshot {
  snap_regs : list Z;
  snap_sp : Z;
  snap_pc : Z;
  snap_pstate : Z;
  snap_stack_base : Z;
  snap_stack_size : Z;
  snap_stack : list Z;
}.

Record rd_wpctl_dwarf_event_req := mk_dwarf_event_req {
  ev_thread_index : Z;
  ev_event_index : Z;
  ev_used : Z;
  ev_bucket : Z;
  ev_tid : Z;
  ev_target_index : Z;
  ev_seed_pc_offset : Z;
  ev_seed_pc : Z;
  ev_reuse_pc : Z;
  ev_seed_access : Z;
  ev_hit_access : Z;
  ev_delta : Z;
  ev_seed : rd_wpctl_dwarf_snapshot;
  ev_reuse : rd_wpctl_dwarf_snapshot;
}.

(** [memset(&x, 0, sizeof x)] for the records above.  Of the 8 KiB stack array
    of a snapshot the model keeps the [stack_size] bytes that were copied, as
    [snap_stack]; a zeroed snapshot has none. *)
Definition zero_snapshot : rd_wpctl_dwarf_snapshot :=
  {| snap_regs := replicate 31 0; snap_sp := 0; snap_pc := 0; snap_pstate := 0;
     snap_stack_base := 0; snap_stack_size := 0; snap_stack := [] |}.

Definition zero_dwarf_event : rd_wpctl_dwarf_event_req :=
  {| ev_thread_index := 0; ev_event_index := 0; ev_used := 0; ev_bucket := 0;
     ev_tid := 0; ev_target_index := 0; ev_seed_pc_offset := 0; ev_seed_pc := 0;
     ev_reuse_pc := 0; ev_seed_access := 0; ev_hit_access := 0; ev_delta := 0;
     ev_seed := zero_snapshot; ev_reuse := zero_snapshot |}.

#[export] Instance eta_pair_hist_req : Eta rd_wpctl_pair_hist_req := fun r =>
  mk_pair_hist_req (phr_thread_index r) (phr_entry_index r) (phr_used r)
    (phr_seed_context_id r) (phr_reuse_context_id r) (phr_seed_pc_offset r)
    (phr_reuse_pc r) (phr_buckets r).

#[export] Instance eta_dwarf_snapshot : Eta rd_wpctl_dwarf_snapshot := fun r =>
  mk_dwarf_snapshot (snap_regs r) (snap_sp r) (snap_pc r) (snap_pstate r)
    (snap_stack_base r) (snap_stack_size r) (snap_stack r).

#[export] Instance eta_dwarf_event_req : Eta rd_wpctl_dwarf_event_req := fun r =>
  mk_dwarf_event_req (ev_thread_index r) (ev_event_index r) (ev_used r) (ev_bucket r)
    (ev_tid r) (ev_target_index r) (ev_seed_pc_offset r) (ev_seed_pc r) (ev_reuse_pc r)
    (ev_seed_access r) (ev_hit_access r) (ev_delta r) (ev_seed r) (ev_reuse r).

#[export] Instance decode_eq_dec : EqDecision rd_wpctl_decode.
Proof. solve_decision. Defined.
