(* ===== verification/Buckets.v ===== *)
(** The [log2] histogram axis: [rd_log2_bucket] of [kernel/rd_wpctl.c] chooses
    the bucket of a reuse distance and [bucket_lo]/[bucket_hi] of
    [src/targeted_rd.cc] print the interval of a bucket.  The two are separate
    pieces of code on the two sides of the ioctl; the theorems show that they
    agree on every 64-bit distance. *)
From S2P Require Import Prelude Uapi.

Module Buckets.

(** [fls64]: one-based index of the most significant set bit, 0 for 0. *)
Definition fls64 (x : Z) : Z := if x =? 0 then 0 else Z.log2 x + 1.

Definition rd_log2_bucket (delta : Z) : Z :=
  if delta =? 0 then 0 else
  let bucket := fls64 delta in
  if RD_WPCTL_LOG2_BUCKETS <=? bucket then RD_WPCTL_LOG2_BUCKETS - 1 else bucket.

Definition bucket_lo (bucket : Z) : Z :=
  if bucket =? 0 then 0 else
  if bucket =? 1 then 1 else
  u64 (Z.shiftl 1 (bucket - 1)).

Definition bucket_hi (bucket : Z) : Z :=
  if bucket =? 0 then 0 else
  if bucket =? 1 then 1 else
  if 63 <=? bucket then U64_MAX else
  u64 (u64 (Z.shiftl 1 bucket) - 1).

Lemma shiftl_1_u64 n : 0 <= n < 64 -> u64 (Z.shiftl 1 n) = 2 ^ n.
Proof.
  intros Hn; rewrite Z.shiftl_1_l; apply u64_id.
  change 18446744073709551616 with (2 ^ 64); split; [lia|].
  apply Z.pow_lt_mono_r; lia.
Qed.

(** The interval of each bucket in closed form. *)
Lemma bucket_lo_pow b : 1 <= b < 64 -> bucket_lo b = 2 ^ (b - 1).
Proof.
  intros Hb; unfold bucket_lo; repeat split_if; try lia.
  - replace b with 1 by lia; reflexivity.
  - apply shiftl_1_u64; lia.
Qed.

Lemma bucket_hi_pow b : 1 <= b < 63 -> bucket_hi b = 2 ^ b - 1.
Proof.
  intros Hb; unfold bucket_hi; repeat split_if; try lia.
  - replace b with 1 by lia; reflexivity.
  - rewrite shiftl_1_u64 by lia; apply u64_id.
    assert (2 ^ b < 2 ^ 64) by (apply Z.pow_lt_mono_r; lia); lia.
Qed.

Lemma rd_log2_bucket_range delta : is_u64 delta -> 0 <= rd_log2_bucket delta < 64.
Proof.
  intros Hd; unfold rd_log2_bucket, fls64, RD_WPCTL_LOG2_BUCKETS.
  pose proof (Z.log2_nonneg delta); repeat split_if; lia.
Qed.

Lemma bucket_interval_iff delta b :
  is_u64 delta -> 0 <= b < 64 ->
  rd_log2_bucket delta = b <-> bucket_lo b <= delta <= bucket_hi b.
Proof.
  intros Hd Hb.
  destruct (decide (b = 0)) as [->|].
  { unfold rd_log2_bucket, fls64, RD_WPCTL_LOG2_BUCKETS; change (bucket_lo 0) with 0;
      change (bucket_hi 0) with 0.
    pose proof (Z.log2_nonneg delta); repeat split_if; lia. }
  destruct (decide (delta = 0)) as [->|].
  { change (rd_log2_bucket 0) with 0; rewrite bucket_lo_pow by lia.
    assert (0 < 2 ^ (b - 1)) by (apply Z.pow_pos_nonneg; lia); lia. }
  rewrite bucket_lo_pow by lia.
  destruct (Z.log2_spec delta) as [Hlo Hhi]; [lia|].
  assert (Hl64 : Z.log2 delta < 64).
  { apply (Z.pow_lt_mono_r_iff 2); [lia|lia|]. change (2 ^ 64) with 18446744073709551616; lia. }
  pose proof (Z.log2_nonneg delta) as Hl0.
  assert (Hiff : 2 ^ (b - 1) <= delta <-> b - 1 <= Z.log2 delta) by (apply Z.log2_le_pow2; lia).
  unfold rd_log2_bucket, fls64, RD_WPCTL_LOG2_BUCKETS.
  destruct (decide (b = 63)) as [->|].
  { change (bucket_hi 63) with U64_MAX; unfold U64_MAX; repeat split_if; lia. }
  rewrite bucket_hi_pow by lia.
  assert (Hiff2 : delta < 2 ^ b <-> Z.log2 delta < b) by (apply Z.log2_lt_pow2; lia).
  repeat split_if; lia.
Qed.

Lemma bucket_of_distance delta b :
  is_u64 delta -> b = rd_log2_bucket delta -> bucket_lo b <= delta <= bucket_hi b.
Proof. intros Hd ->; by apply bucket_interval_iff; [|apply rd_log2_bucket_range|]. Qed.

(** C19. Every 64-bit reuse distance lands in a bucket whose printed interval
    contains it, and in no other bucket: for [0 <= b < 64], the kernel chooses
    [b] exactly when user space would print [b] with an interval that contains
    the distance. *)
Theorem log2_bucket_partition (delta b : Z) (Hd : is_u64 delta) (Hb : 0 <= b < 64) :
  rd_log2_bucket delta = b <-> bucket_lo b <= delta <= bucket_hi b.
Proof. by apply bucket_interval_iff. Qed.

Lemma log2_bucket_partition_witness :
  is_u64 5000 /\ (rd_log2_bucket 5000 = 13 <-> bucket_lo 13 <= 5000 <= bucket_hi 13).
Proof.
  split; [lia|]. apply (log2_bucket_partition 5000 13); lia.
Defined.

(** Consecutive printed intervals are adjacent: no distance falls between two
    buckets and none is counted twice. *)
Lemma bucket_intervals_adjacent b : 0 <= b < 63 -> bucket_lo (b + 1) = bucket_hi b + 1.
Proof.
  intros Hb; destruct (decide (b = 0)) as [->|]; [reflexivity|].
  rewrite bucket_lo_pow, bucket_hi_pow by lia.
  replace (b + 1 - 1) with b by lia; lia.
Qed.

End Buckets.
