(* ===== verification/EffAddr.v ===== *)
(** Effective-address recovery: [rd_read_perf_reg], [rd_compute_effective_address]
    and [rd_validate_target] of [kernel/rd_wpctl.c].  On a breakpoint hit the
    module rebuilds the address of the hot load or store from the saved user
    registers and the template user space decoded.  The reference definition
    [ea_spec] is the A64 addressing rule over unbounded integers; the theorems
    relate the two modulo [2^64]. *)
From S2P Require Import Prelude Uapi.

(** Register numbers of [asm/perf_regs.h]. *)
Definition PERF_REG_ARM64_X0 : Z := 0.
Definition PERF_REG_ARM64_X29 : Z := 29.
Definition PERF_REG_ARM64_LR : Z := 30.
Definition PERF_REG_ARM64_SP : Z := 31.
Definition PERF_REG_ARM64_PC : Z := 32.

(** The fields of arm64 [struct pt_regs] the module reads. *)
Record pt_regs := mk_pt_regs {
  pr_regs : list Z;
  pr_sp : Z;
  pr_pc : Z;
  pr_pstate : Z;
}.

(** Saved registers: 31 general registers, every value 64 bits wide. *)
Definition pt_regs_wf (r : pt_regs) : Prop :=
  length (pr_regs r) = 31%nat /\ Forall (fun x => is_u64 x) (pr_regs r) /\
  is_u64 (pr_sp r) /\ is_u64 (pr_pc r) /\ is_u64 (pr_pstate r).

Module EffAddr.

(** [regs->regs[i]]; the array has 31 elements. *)
Definition rd_read_perf_reg (regs : pt_regs) (perf_reg : Z) (is_sp : bool) : option Z :=
  if is_sp || (perf_reg =? PERF_REG_ARM64_SP) then Some (pr_sp regs) else
  if (PERF_REG_ARM64_X0 <=? perf_reg) && (perf_reg <=? PERF_REG_ARM64_X29) then
    pr_regs regs !!z perf_reg else
  if perf_reg =? PERF_REG_ARM64_LR then pr_regs regs !!z 30 else
  if perf_reg =? PERF_REG_ARM64_PC then Some (pr_pc regs) else
  Some 0.

(** [x << n] on a 64-bit operand: undefined in C for a count of 64 or more. *)
Definition shl64 (x n : Z) : option Z :=
  if (0 <=? n) && (n <? 64) then Some (u64 (Z.shiftl x n)) else None.

(** The [switch (dec->extend)]: the extended and shifted index. *)
Definition extended_index (dec : rd_wpctl_decode) (raw : Z) : option Z :=
  let narrowed := if truthy (index_is_32 dec) then u32 raw else raw in
  if extend dec =? RD_EXT_NONE then Some narrowed else
  if extend dec =? RD_EXT_LSL then shl64 narrowed (shift dec) else
  if extend dec =? RD_EXT_UXTW then shl64 (u32 raw) (shift dec) else
  if extend dec =? RD_EXT_SXTW then shl64 (u64 (s32 raw)) (shift dec) else
  if extend dec =? RD_EXT_UXTX then shl64 raw (shift dec) else
  if extend dec =? RD_EXT_SXTX then shl64 (s64 raw) (shift dec) else
  Some 0.

Definition rd_compute_effective_address (dec : rd_wpctl_decode) (regs : pt_regs) : option Z :=
  base ← rd_read_perf_reg regs (base_reg dec) (truthy (base_is_sp dec));
  let addr := if truthy (has_imm dec) then u64 (base + imm dec) else base in
  if truthy (has_index dec) then
    raw ← (if truthy (index_is_zero dec) then Some 0
           else rd_read_perf_reg regs (index_reg dec) false);
    index ← extended_index dec raw;
    Some (u64 (addr + index))
  else Some addr.

Definition rd_validate_target (t : rd_wpctl_target) : Z :=
  let d := decode t in
  if abs_pc t =? 0 then - EINVAL else
  if negb (access_size d =? 1) && negb (access_size d =? 2) &&
     negb (access_size d =? 4) && negb (access_size d =? 8) then - EINVAL else
  if (base_reg d <? 0) || (PERF_REG_ARM64_SP <? base_reg d) then - EINVAL else
  if truthy (has_index d) && negb (truthy (index_is_zero d)) &&
     ((index_reg d <? 0) || (PERF_REG_ARM64_LR <? index_reg d)) then - EINVAL else
  if RD_EXT_SXTX <? extend d then - EINVAL else
  0.

(** * The A64 addressing rule

    Register operand [n] of an address: 31 is the stack pointer. *)
Definition reg_value (regs : pt_regs) (n : Z) : Z :=
  if n =? 31 then pr_sp regs else default 0 (pr_regs regs !! Z.to_nat n).

(** [ExtendReg]: zero- or sign-extend the low 32 or 64 bits, then scale. *)
Definition extend_reg (dec : rd_wpctl_decode) (raw : Z) : Z :=
  if extend dec =? RD_EXT_NONE then (if truthy (index_is_32 dec) then u32 raw else raw) else
  if extend dec =? RD_EXT_LSL then
    (if truthy (index_is_32 dec) then u32 raw else raw) * 2 ^ shift dec else
  if extend dec =? RD_EXT_UXTW then u32 raw * 2 ^ shift dec else
  if extend dec =? RD_EXT_SXTW then s32 raw * 2 ^ shift dec else
  if extend dec =? RD_EXT_UXTX then raw * 2 ^ shift dec else
  s64 raw * 2 ^ shift dec.

Definition ea_spec (dec : rd_wpctl_decode) (regs : pt_regs) : Z :=
  (if truthy (base_is_sp dec) then pr_sp regs else reg_value regs (base_reg dec)) +
  (if truthy (has_imm dec) then imm dec else 0) +
  (if truthy (has_index dec) then
     extend_reg dec (if truthy (index_is_zero dec) then 0 else reg_value regs (index_reg dec))
   else 0).

(** The facts [rd_validate_target] establishes about an accepted template. *)
Definition decode_valid (d : rd_wpctl_decode) : Prop :=
  (access_size d = 1 \/ access_size d = 2 \/ access_size d = 4 \/ access_size d = 8) /\
  0 <= base_reg d <= 31 /\
  (truthy (has_index d) = true -> truthy (index_is_zero d) = false -> 0 <= index_reg d <= 30) /\
  extend d <= 5.

(** A shift of the index by a count that C leaves undefined, which
    [rd_validate_target] does not reject. *)
Definition shift_undefined (d : rd_wpctl_decode) : bool :=
  truthy (has_index d) && negb (extend d =? RD_EXT_NONE) && (64 <=? shift d).

Lemma rd_validate_target_ok t :
  rd_validate_target t = 0 <-> abs_pc t <> 0 /\ decode_valid (decode t).
Proof.
  unfold rd_validate_target, decode_valid, EINVAL, PERF_REG_ARM64_SP, PERF_REG_ARM64_LR, RD_EXT_SXTX.
  destruct (truthy (has_index (decode t))), (truthy (index_is_zero (decode t))); simpl;
    repeat split_if; split; intros; try lia; repeat split; try lia; intros; try lia; try congruence.
  all: destruct_and?; try lia; exfalso; naive_solver lia.
Qed.

Lemma read_reg_spec regs n sp :
  pt_regs_wf regs -> 0 <= n <= 31 ->
  rd_read_perf_reg regs n sp = Some (if sp then pr_sp regs else reg_value regs n).
Proof.
  intros (Hlen & _) Hn; unfold rd_read_perf_reg, reg_value, PERF_REG_ARM64_SP,
    PERF_REG_ARM64_X0, PERF_REG_ARM64_X29, PERF_REG_ARM64_LR, PERF_REG_ARM64_PC.
  destruct sp; simpl; [done|].
  assert (Hz : forall m, 0 <= m <= 30 ->
    pr_regs regs !!z m = Some (default 0 (pr_regs regs !! Z.to_nat m))).
  { intros m Hm; rewrite zlookup_in_range by lia.
    destruct (lookup_lt_is_Some_2 (pr_regs regs) (Z.to_nat m)) as [x ->]; [lia|done]. }
  repeat split_if; try lia; try done.
  - apply Hz; lia.
  - replace n with 30 by lia; apply Hz; lia.
Qed.

Lemma shl64_spec x n : 0 <= n < 64 -> exists y, shl64 x n = Some y /\ y ≡₆₄ x * 2 ^ n.
Proof.
  intros Hn; unfold shl64; destruct (_ && _) eqn:E; [|lia].
  eexists; split; [done|]; rewrite u64_eqm, Z.shiftl_mul_pow2 by lia; reflexivity.
Qed.

Lemma s32_eqm32 z : u32 (s32 z) = u32 z.
Proof.
  unfold s32; split_if; unfold u32 in *; [by apply Z.mod_mod|].
  rewrite Zminus_mod, Z_mod_same_full, Z.sub_0_r, !Z.mod_mod; lia.
Qed.

Lemma extended_index_spec dec raw :
  0 <= extend dec <= 5 -> 0 <= shift dec -> negb (extend dec =? RD_EXT_NONE) && (64 <=? shift dec) = false ->
  exists y, extended_index dec raw = Some y /\ y ≡₆₄ extend_reg dec raw.
Proof.
  unfold extended_index, extend_reg, RD_EXT_NONE, RD_EXT_LSL, RD_EXT_UXTW, RD_EXT_SXTW, RD_EXT_UXTX, RD_EXT_SXTX.
  intros He H0 H64; destruct (extend dec =? 0) eqn:E0; [by eexists|]; cbn in H64.
  assert (Hs : 0 <= shift dec < 64) by lia.
  destruct (extend dec =? 1) eqn:E1; [by apply shl64_spec|].
  destruct (extend dec =? 2) eqn:E2; [by apply shl64_spec|].
  destruct (extend dec =? 3) eqn:E3.
  { destruct (shl64_spec (u64 (s32 raw)) _ Hs) as (y & -> & Hy).
    eexists; split; [done|]; rewrite Hy, u64_eqm; reflexivity. }
  destruct (extend dec =? 4) eqn:E4; [by apply shl64_spec|].
  destruct (extend dec =? 5) eqn:E5; [by apply shl64_spec|lia].
Qed.

(** A shift by 64 or more has no value. *)
Lemma extended_index_undefined dec raw :
  0 <= extend dec <= 5 -> extend dec <> RD_EXT_NONE -> 64 <= shift dec -> extended_index dec raw = None.
Proof.
  unfold extended_index, shl64, RD_EXT_NONE, RD_EXT_LSL, RD_EXT_UXTW, RD_EXT_SXTW, RD_EXT_UXTX, RD_EXT_SXTX.
  intros He Hn Hs; rewrite (proj2 (Z.ltb_ge (shift dec) 64)), andb_false_r by done; repeat split_if; done || lia.
Qed.

Lemma compute_ea_undefined d regs :
  pt_regs_wf regs -> decode_valid d -> 0 <= extend d -> shift_undefined d = true ->
  rd_compute_effective_address d regs = None.
Proof.
  intros Hregs (_ & Hbase & Hidx & Hext') Hext [[Hi Hn]%andb_true_iff Hs]%andb_true_iff.
  unfold rd_compute_effective_address; rewrite (read_reg_spec _ _ _ Hregs Hbase), Hi; cbn [mbind option_bind].
  assert (Hx : forall raw, extended_index d raw = None).
  { intros raw; apply extended_index_undefined; [lia| |lia]; by apply Z.eqb_neq, negb_true_iff. }
  destruct (truthy (index_is_zero d)); cbn [mbind option_bind]; [by rewrite Hx|].
  rewrite (read_reg_spec _ _ _ Hregs) by (specialize (Hidx Hi eq_refl); lia); cbn [mbind option_bind]; by rewrite Hx.
Qed.

Lemma compute_ea_spec d regs :
  pt_regs_wf regs -> decode_valid d -> 0 <= extend d -> 0 <= shift d -> shift_undefined d = false ->
  exists a, rd_compute_effective_address d regs = Some a /\ is_u64 a /\ a = u64 (ea_spec d regs).
Proof.
  intros Hregs (_ & Hbase & Hidx & Hext') Hext Hshift Hdef.
  unfold rd_compute_effective_address, ea_spec, shift_undefined in *.
  rewrite (read_reg_spec _ _ _ Hregs Hbase); simpl.
  set (base := if truthy (base_is_sp _) then _ else _).
  assert (Hb : is_u64 base).
  { destruct Hregs as (Hlen & Hall & Hsp & _); subst base; unfold reg_value.
    destruct (truthy (base_is_sp _)); [lia|]; split_if; [lia|].
    destruct (pr_regs regs !! Z.to_nat (base_reg d)) eqn:E; simpl; [|lia].
    eapply Forall_lookup_1 in Hall; eauto. }
  set (addr := if truthy (has_imm _) then u64 _ else base).
  assert (Ha : is_u64 addr) by (subst addr; split_if; auto using u64_range).
  assert (Hae : addr ≡₆₄ base + (if truthy (has_imm d) then imm d else 0)).
  { subst addr; split_if; [apply u64_eqm|by rewrite Z.add_0_r]. }
  destruct (truthy (has_index _)) eqn:Hi; simpl.
  - set (raw := if truthy (index_is_zero _) then 0 else reg_value _ _).
    assert (Hraw : (if truthy (index_is_zero d) then Some 0
       else rd_read_perf_reg regs (index_reg d) false) = Some raw).
    { subst raw; destruct (truthy (index_is_zero _)); [done|].
      rewrite read_reg_spec by (auto; specialize (Hidx eq_refl eq_refl); lia); done. }
    rewrite Hraw; simpl.
    destruct (extended_index_spec d raw) as (y & -> & Hy); [lia|lia|done|]; simpl.
    eexists; split; [done|]; split; [apply u64_range|].
    apply eqm64_u64; by rewrite Hae, Hy.
  - eexists; split; [done|]; split; [done|].
    rewrite Z.add_0_r; rewrite <- (u64_id addr) by done; by apply eqm64_u64.
Qed.

(** C18. On every template that [rd_validate_target] accepts, with the unsigned
    bytes [extend] and [shift], the computation either is undefined, which is when
    an index is shifted by 64 or more (a count that the validation does not
    reject), or yields the A64 effective address modulo [2^64], a 64-bit value. *)
Theorem effective_address_correct (t : rd_wpctl_target) (regs : pt_regs)
    (Hregs : pt_regs_wf regs) (Hval : rd_validate_target t = 0)
    (Hext : 0 <= extend (decode t)) (Hshift : 0 <= shift (decode t)) :
  if truthy (has_index (decode t)) && negb (extend (decode t) =? RD_EXT_NONE) && (64 <=? shift (decode t))
  then rd_compute_effective_address (decode t) regs = None
  else exists a, rd_compute_effective_address (decode t) regs = Some a /\
    is_u64 a /\ a = u64 (ea_spec (decode t) regs).
Proof.
  apply rd_validate_target_ok in Hval as [_ Hval]; fold (shift_undefined (decode t)).
  destruct (shift_undefined (decode t)) eqn:E; [by apply compute_ea_undefined|by apply compute_ea_spec].
Qed.

Definition demo_regs : pt_regs :=
  {| pr_regs := (fun n => Z.of_nat n * 4096) <$> seq 0 31; pr_sp := 65536; pr_pc := 4198400;
     pr_pstate := 0 |}.
(** [ldr x0, [x1, w2, sxtw #3]] *)
Definition demo_target : rd_wpctl_target :=
  mk_target 12920 4198400 7 (mk_decode 8 1 0 0 1 1 0 RD_EXT_SXTW 3 2 0).

Lemma demo_regs_wf : pt_regs_wf demo_regs.
Proof.
  split; [done|]; split; [|cbv; intuition congruence].
  apply Forall_fmap, Forall_seq; intros j Hj; simpl; lia.
Qed.

Lemma effective_address_correct_witness :
  exists a, rd_compute_effective_address (decode demo_target) demo_regs = Some a /\
    is_u64 a /\ a = u64 (ea_spec (decode demo_target) demo_regs).
Proof.
  apply (effective_address_correct demo_target demo_regs demo_regs_wf); [reflexivity|cbv; discriminate..].
Defined.

(** [rd_validate_target] does not bound the shift count: a target with a
    shift of 64 passes validation, and computing its effective address then
    shifts a 64-bit value by 64, which C leaves undefined. *)
Theorem validated_target_with_undefined_shift :
  let t := mk_target 0 1 0 (mk_decode 8 0 0 0 1 0 0 RD_EXT_LSL 64 0 0) in
  rd_validate_target t = 0 /\
  forall regs, pt_regs_wf regs -> rd_compute_effective_address (decode t) regs = None.
Proof.
  split; [reflexivity|]; intros regs Hr; unfold rd_compute_effective_address.
  rewrite read_reg_spec by (try done; cbn; lia); cbn [mbind option_bind].
  rewrite read_reg_spec by (try done; cbn; lia); reflexivity.
Qed.

Lemma validated_target_with_undefined_shift_witness :
  rd_compute_effective_address (mk_decode 8 0 0 0 1 0 0 RD_EXT_LSL 64 0 0) demo_regs = None.
Proof. apply (proj2 validated_target_with_undefined_shift demo_regs demo_regs_wf). Defined.

End EffAddr.
