(* ===== verification/KernelApi.v ===== *)
(** The Linux interfaces that [kernel/rd_wpctl.c] calls and this repository does
    not contain: perf events, hardware breakpoints, tasks, allocation and user
    memory access.  They are operations of a class, over an abstract kernel
    state [world], so that every definition and theorem about the module holds
    for any implementation of them.  [KernelLaws] states what their
    documentation promises about the resources they hand out, and is required
    only by the theorems on resource accounting.  [Toy] is a small concrete
    kernel used to evaluate the model. *)
From S2P Require Import Prelude Uapi EffAddr.

Definition PERF_TYPE_RAW : Z := 4.
Definition PERF_TYPE_BREAKPOINT : Z := 5.
Definition HW_BREAKPOINT_LEN_4 : Z := 4.
Definition HW_BREAKPOINT_LEN_8 : Z := 8.
Definition HW_BREAKPOINT_RW : Z := 3.
Definition HW_BREAKPOINT_X : Z := 4.

(** The fields of [struct perf_event_attr] that the module sets or reads. *)
Record perf_event_attr := mk_attr {
  attr_type : Z;
  attr_config : Z;
  attr_bp_type : Z;
  attr_bp_addr : Z;
  attr_bp_len : Z;
  attr_sample_period : Z;
  attr_pinned : bool;
  attr_disabled : bool;
  attr_exclude_kernel : bool;
  attr_exclude_hv : bool;
}.

#[export] Instance eta_attr : Eta perf_event_attr := fun r =>
  mk_attr (attr_type r) (attr_config r) (attr_bp_type r) (attr_bp_addr r) (attr_bp_len r)
    (attr_sample_period r) (attr_pinned r) (attr_disabled r) (attr_exclude_kernel r)
    (attr_exclude_hv r).

Definition zero_attr : perf_event_attr := mk_attr 0 0 0 0 0 0 false false false false.

(** Pointers to kernel objects ([struct perf_event], [struct task_struct]) are
    non-zero integers; an operation that returns [IS_ERR] returns [inl] of the
    negative error number. *)
Class KernelApi := {
  world : Type;
  hw_breakpoint_init : perf_event_attr -> perf_event_attr;
  perf_event_create_kernel_counter : perf_event_attr -> Z -> Z -> world -> (Z + Z) * world;
  register_user_hw_breakpoint : perf_event_attr -> Z -> world -> (Z + Z) * world;
  modify_user_hw_breakpoint : Z -> perf_event_attr -> world -> Z * world;
  unregister_hw_breakpoint : Z -> world -> world;
  perf_event_release_kernel : Z -> world -> world;
  perf_event_enable : Z -> world -> world;
  perf_event_disable : Z -> world -> world;
  perf_event_read_value : Z -> world -> Z * world;
  event_attr : Z -> world -> perf_event_attr;
  get_pid_task : Z -> world -> option Z * world;
  put_task_struct : Z -> world -> world;
  task_tgid : Z -> world -> Z;
  task_cpus_mask : Z -> world -> gset Z;
  nr_cpu_ids : Z;
  kcalloc : Z -> Z -> world -> bool * world;
  sizeof_session : Z;
  sizeof_thread_ctx : Z;
  memdup_user_targets : Z -> Z -> world -> (Z + list rd_wpctl_target) * world;
  user_mode : pt_regs -> bool;
  instruction_pointer : pt_regs -> Z;
  access_ok : Z -> Z -> bool;
  copy_from_user_nofault : Z -> Z -> world -> option (list Z);
}.

(** Resource accounting that the documentation of these interfaces promises: a
    created event is a new one and stays allocated until it is released or
    unregistered; the other operations neither create nor destroy events; task
    references are counted. *)
Class KernelLaws (K : KernelApi) := {
  live_events : world -> gset Z;
  task_refs : world -> Z -> Z;
  create_counter_ok a c t w e w' :
    perf_event_create_kernel_counter a c t w = (inr e, w') ->
    (e ∉ live_events w) /\ live_events w' = {[e]} ∪ live_events w /\ task_refs w' = task_refs w;
  create_counter_err a c t w x w' :
    perf_event_create_kernel_counter a c t w = (inl x, w') ->
    x < 0 /\ live_events w' = live_events w /\ task_refs w' = task_refs w;
  register_bp_ok a t w e w' :
    register_user_hw_breakpoint a t w = (inr e, w') ->
    (e ∉ live_events w) /\ live_events w' = {[e]} ∪ live_events w /\ task_refs w' = task_refs w;
  register_bp_err a t w x w' :
    register_user_hw_breakpoint a t w = (inl x, w') ->
    x < 0 /\ live_events w' = live_events w /\ task_refs w' = task_refs w;
  modify_bp_keeps e a w :
    live_events (modify_user_hw_breakpoint e a w).2 = live_events w /\
    task_refs (modify_user_hw_breakpoint e a w).2 = task_refs w;
  unregister_bp_law e w :
    live_events (unregister_hw_breakpoint e w) = live_events w ∖ {[e]} /\
    task_refs (unregister_hw_breakpoint e w) = task_refs w;
  release_law e w :
    live_events (perf_event_release_kernel e w) = live_events w ∖ {[e]} /\
    task_refs (perf_event_release_kernel e w) = task_refs w;
  enable_keeps e w :
    live_events (perf_event_enable e w) = live_events w /\
    task_refs (perf_event_enable e w) = task_refs w;
  disable_keeps e w :
    live_events (perf_event_disable e w) = live_events w /\
    task_refs (perf_event_disable e w) = task_refs w;
  read_keeps e w :
    live_events (perf_event_read_value e w).2 = live_events w /\
    task_refs (perf_event_read_value e w).2 = task_refs w;
  get_task_ok tid w t w' :
    get_pid_task tid w = (Some t, w') ->
    live_events w' = live_events w /\
    forall t', task_refs w' t' = task_refs w t' + (if decide (t' = t) then 1 else 0);
  get_task_none tid w w' :
    get_pid_task tid w = (None, w') ->
    live_events w' = live_events w /\ task_refs w' = task_refs w;
  put_task_law t w :
    live_events (put_task_struct t w) = live_events w /\
    forall t', task_refs (put_task_struct t w) t' =
               task_refs w t' - (if decide (t' = t) then 1 else 0);
  kcalloc_keeps n s w :
    live_events (kcalloc n s w).2 = live_events w /\ task_refs (kcalloc n s w).2 = task_refs w;
  memdup_keeps p n w :
    live_events (memdup_user_targets p n w).2 = live_events w /\
    task_refs (memdup_user_targets p n w).2 = task_refs w;
}.

(** What the counter and register values of the platform look like: 64 bits. *)
Class KernelValues (K : KernelApi) := {
  read_value_range e w : is_u64 (perf_event_read_value e w).1;
  instruction_pointer_range r : pt_regs_wf r -> is_u64 (instruction_pointer r);
  user_bytes_range a n w l :
    copy_from_user_nofault a n w = Some l ->
    zlen l = n /\ Forall (fun b => 0 <= b < 256) l;
  memdup_length p n w l w' : memdup_user_targets p n w = (inr l, w') -> zlen l = n;
  memdup_error p n w x w' : memdup_user_targets p n w = (inl x, w') -> x < 0;
}.

(** * A concrete kernel *)
Module Toy.

Record toy := mk_toy {
  ty_next : Z;
  ty_live : gset Z;
  ty_refs : gmap Z Z;
  ty_clock : Z;
  ty_attrs : gmap Z perf_event_attr;
  ty_mem : gmap Z Z;
  ty_targets : list rd_wpctl_target;
}.

#[export] Instance eta_toy : Eta toy := fun r =>
  mk_toy (ty_next r) (ty_live r) (ty_refs r) (ty_clock r) (ty_attrs r) (ty_mem r) (ty_targets r).

Definition alloc_event (a : perf_event_attr) (w : toy) : (Z + Z) * toy :=
  let e := 1 + set_fold Z.max 0 (ty_live w) in
  (inr e, w ⟦ ty_live ::= union {[e]} ⟧ ⟦ ty_attrs ::= <[e := a]> ⟧).

Definition free_event (e : Z) (w : toy) : toy :=
  w ⟦ ty_live ::= fun s => s ∖ {[e]} ⟧.

(** Tasks have identifiers 100 to 199, their [task_struct] at [1000 + tid], all
    in thread group 100 and pinned to CPU [tid mod 8]; the access counter grows
    by 10 at each read; memory is the byte map [ty_mem]. *)
#[export] Instance toy_kernel : KernelApi := {|
  world := toy;
  hw_breakpoint_init _ := zero_attr ⟦ attr_type := PERF_TYPE_BREAKPOINT ⟧ ⟦ attr_pinned := true ⟧;
  perf_event_create_kernel_counter a _ _ w := alloc_event a w;
  register_user_hw_breakpoint a _ w := alloc_event a w;
  modify_user_hw_breakpoint e a w := (0, w ⟦ ty_attrs ::= <[e := a]> ⟧);
  unregister_hw_breakpoint e w := free_event e w;
  perf_event_release_kernel e w := free_event e w;
  perf_event_enable e w := w;
  perf_event_disable e w := w;
  perf_event_read_value e w := (u64 (ty_clock w), w ⟦ ty_clock ::= Z.add 10 ⟧);
  event_attr e w := default zero_attr (ty_attrs w !! e);
  get_pid_task tid w :=
    if (100 <=? tid) && (tid <? 200) then
      (Some (1000 + tid),
       w ⟦ ty_refs ::= fun m => <[1000 + tid := default 0 (m !! (1000 + tid)%Z) + 1]> m ⟧)
    else (None, w);
  put_task_struct t w := w ⟦ ty_refs ::= fun m => <[t := default 0 (m !! t) - 1]> m ⟧;
  task_tgid t w := 100;
  task_cpus_mask t w := {[ (t - 1000) mod 8 ]};
  nr_cpu_ids := 8;
  kcalloc n s w := (true, w);
  sizeof_session := 128;
  sizeof_thread_ctx := 512;
  memdup_user_targets p n w :=
    (if zlen (ty_targets w) =? n then inr (ty_targets w) else inl (- EFAULT), w);
  user_mode r := pr_pstate r =? 0;
  instruction_pointer r := pr_pc r;
  access_ok a n := (0 <=? a) && (a + n <? 281474976710656);
  copy_from_user_nofault a n w :=
    if n <? 0 then None else
    mapM (fun i => b ← ty_mem w !! (a + i)%Z; guard (0 <= b < 256);; Some b) (seqZ 0 n);
|}.

Definition toy0 : toy := mk_toy 1 ∅ ∅ 1000 ∅ ∅ [].

Lemma set_fold_max_le (s : gset Z) x : x ∈ s -> x <= set_fold Z.max 0 s.
Proof.
  revert s; refine (set_fold_ind_L (fun m (s : gset Z) => x ∈ s -> x <= m) Z.max 0 _ _ ).
  - set_solver.
  - intros y s m Hy IH [->%elem_of_singleton|Hx]%elem_of_union; [lia|].
    specialize (IH Hx); lia.
Qed.

Lemma alloc_event_fresh w : 1 + set_fold Z.max 0 (ty_live w) ∉ ty_live w.
Proof. intros H%set_fold_max_le; lia. Qed.

#[export] Instance toy_laws : KernelLaws toy_kernel.
Proof.
  refine {| live_events := (ty_live : world -> gset Z);
            task_refs := fun (w : world) t => default 0 (ty_refs w !! t) |}.
  all: simpl; intros; unfold alloc_event, free_event in *; simplify_eq/=;
    try (split_and!; try done; apply alloc_event_fresh).
  - case_match; simplify_eq/=; split; [done|]; intros t'.
    rewrite lookup_insert; repeat case_decide; subst; simpl; try congruence; lia.
  - case_match; simplify_eq/=; done.
  - split; [done|]; intros t'; rewrite lookup_insert.
    repeat case_decide; subst; simpl; try congruence; lia.
Defined.

#[export] Instance toy_values : KernelValues toy_kernel.
Proof.
  split; simpl.
  - intros; apply u64_range.
  - intros r (_ & _ & _ & H & _); done.
  - intros a n w l; case_match; [done|]; intros Hm%mapM_Some; split.
    + apply Forall2_length in Hm; rewrite <- Hm, length_seqZ; lia.
    + eapply Forall2_Forall_r; [done|]; apply Forall_forall; intros i _ b.
      intros; simplify_option_eq; lia.
  - intros; case_match; simplify_eq; lia.
  - intros; case_match; simplify_eq; done.
Qed.

End Toy.
