(* ===== verification/KTypes.v ===== *)
(** The data of [kernel/rd_wpctl.c]: watchpoint slots, histogram and call-context
    tables, the per-thread context [rd_thread_ctx] and the session [rd_session].

    The parallel per-slot arrays [wp_states], [wp_idle_addr], [wp_seed_va], ...
    of [rd_thread_ctx] have the same length and are allocated and freed
    together; they are one array [wp_slots] of records here.  A pointer that can
    be [NULL] is an [option].  Structures that the C code reaches through a
    pointer to another component ([thread->session]) are passed as arguments;
    [t_session] keeps the pointer. *)
From S2P Require Import Prelude Uapi.

Definition RD_IDLE_WP_LEN : Z := 8.
Definition RD_ARM64_MEM_ACCESS_RAW_EVENT : Z := 19.
Definition RD_INVALID_INDEX : Z := 4294967295.
Definition RD_RNG_SEED : Z := 11400714819323198485.

Inductive rd_wp_state := RD_WP_IDLE | RD_WP_ARMED.

#[export] Instance rd_wp_state_eq_dec : EqDecision rd_wp_state.
Proof. solve_decision. Defined.

Definition is_armed (s : rd_wp_state) : bool :=
  match s with RD_WP_ARMED => true | RD_WP_IDLE => false end.

Record rd_pair_hist_entry := mk_pair_entry {
  pe_used : bool;
  pe_seed_context_id : Z;
  pe_reuse_context_id : Z;
  pe_seed_pc_offset : Z;
  pe_reuse_pc : Z;
  pe_buckets : list Z;
}.

#[export] Instance eta_pair_entry : Eta rd_pair_hist_entry := fun r =>
  mk_pair_entry (pe_used r) (pe_seed_context_id r) (pe_reuse_context_id r)
    (pe_seed_pc_offset r) (pe_reuse_pc r) (pe_buckets r).

Definition zero_pair_entry : rd_pair_hist_entry :=
  mk_pair_entry false 0 0 0 0 (replicate 64 0).

(** A zeroed pair table. *)
Definition zero_pair_table : list rd_pair_hist_entry :=
  replicate (Z.to_nat RD_WPCTL_MAX_PAIR_HISTS) zero_pair_entry.
#[global] Arguments zero_pair_table : simpl never.

Record rd_context_entry := mk_context_entry {
  ce_used : bool;
  ce_depth : Z;
  ce_ips : list Z;
}.

#[export] Instance eta_context_entry : Eta rd_context_entry := fun r =>
  mk_context_entry (ce_used r) (ce_depth r) (ce_ips r).

Definition zero_context_entry : rd_context_entry := mk_context_entry false 0 (replicate 8 0).

(** A zeroed context table. *)
Definition zero_context_table : list rd_context_entry :=
  replicate (Z.to_nat RD_WPCTL_MAX_CONTEXTS) zero_context_entry.
#[global] Arguments zero_context_table : simpl never.

(** The result of one user-space frame-pointer walk. *)
Record rd_callchain_key := mk_callchain_key {
  ck_depth : Z;
  ck_ips : list Z;
}.

#[export] Instance eta_callchain_key : Eta rd_callchain_key := fun r =>
  mk_callchain_key (ck_depth r) (ck_ips r).

Definition zero_callchain_key : rd_callchain_key := mk_callchain_key 0 (replicate 8 0).

(** One watchpoint slot: element [i] of each per-slot array. *)
Record wp_slot := mk_wp_slot {
  wp_state : rd_wp_state;
  wp_idle_addr : Z;
  wp_seed_va : Z;
  wp_seed_access : Z;
  wp_seed_pc_offset : Z;
  wp_seed_context_id : Z;
  wp_access_size : Z;
  wp_target_index : Z;
  wp_generation : Z;
  wp_skip_first_hit : Z;
  wp_samples : Z;
}.

#[export] Instance eta_wp_slot : Eta wp_slot := fun r =>
  mk_wp_slot (wp_state r) (wp_idle_addr r) (wp_seed_va r) (wp_seed_access r)
    (wp_seed_pc_offset r) (wp_seed_context_id r) (wp_access_size r) (wp_target_index r)
    (wp_generation r) (wp_skip_first_hit r) (wp_samples r).

(** [kcalloc] of the per-slot arrays. *)
Definition zero_slot : wp_slot := mk_wp_slot RD_WP_IDLE 0 0 0 0 0 0 0 0 0 0.

Definition slot_armed (s : wp_slot) : bool := is_armed (wp_state s).

Record rd_thread_ctx := mk_thread {
  t_session : Z;
  t_task : option Z;
  t_tid : Z;
  t_cpu : Z;
  t_active : bool;
  t_live_detached : bool;
  t_scratch_base : Z;
  t_scratch_stride : Z;
  t_live_refs : Z;
  t_live_refs_zero : bool;
  t_mem_event : option Z;
  t_bp_events : option (list (option Z));
  t_wp_events : option (list (option Z));
  t_log2_hist : option (list Z);
  t_pair_hist : option (list rd_pair_hist_entry);
  t_contexts : option (list rd_context_entry);
  t_dwarf_events : option (list rd_wpctl_dwarf_event_req);
  t_seed_snaps : option (list rd_wpctl_dwarf_snapshot);
  t_reuse_snaps : option (list rd_wpctl_dwarf_snapshot);
  t_wp_slots : option (list wp_slot);
  candidate_samples : Z;
  reservoir_seen : Z;
  reservoir_accepted : Z;
  reservoir_rejected : Z;
  hits : Z;
  evictions : Z;
  dropped : Z;
  pair_hist_used : Z;
  pair_hist_dropped : Z;
  context_used : Z;
  context_dropped : Z;
  callchain_failed : Z;
  callchain_truncated : Z;
  dwarf_event_used : Z;
  dwarf_event_dropped : Z;
  dwarf_stack_copy_failed : Z;
  t_rng : Z;
}.

#[export] Instance eta_thread : Eta rd_thread_ctx := fun r =>
  mk_thread (t_session r) (t_task r) (t_tid r) (t_cpu r) (t_active r) (t_live_detached r)
    (t_scratch_base r) (t_scratch_stride r) (t_live_refs r) (t_live_refs_zero r)
    (t_mem_event r) (t_bp_events r) (t_wp_events r) (t_log2_hist r) (t_pair_hist r)
    (t_contexts r) (t_dwarf_events r) (t_seed_snaps r) (t_reuse_snaps r) (t_wp_slots r)
    (candidate_samples r) (reservoir_seen r) (reservoir_accepted r) (reservoir_rejected r)
    (hits r) (evictions r) (dropped r) (pair_hist_used r) (pair_hist_dropped r)
    (context_used r) (context_dropped r) (callchain_failed r) (callchain_truncated r)
    (dwarf_event_used r) (dwarf_event_dropped r) (dwarf_stack_copy_failed r) (t_rng r).

(** The seed of the slot-replacement generator of a thread. *)
Definition rng_seed (tid : Z) : Z := Z.lxor RD_RNG_SEED (u32 tid).

(** [kzalloc] of a thread context. *)
Definition zero_thread : rd_thread_ctx :=
  mk_thread 0 None 0 0 false false 0 0 0 false None None None None None None None None None None
    0 0 0 0 0 0 0 0 0 0 0 0 0 0 0 0 0.

(** [struct rd_target] has the fields of [struct rd_wpctl_target]. *)
Abbreviation rd_target := rd_wpctl_target.

(** [threads] holds the thread pointers in list order. *)
Record rd_session := mk_session {
  s_threads : list Z;
  owner_tgid : Z;
  s_running : bool;
  configured : bool;
  targets_loaded : bool;
  wp_capacity : Z;
  callchain_mode : Z;
  dwarf_stack_bytes : Z;
  dwarf_event_capacity : Z;
  bp_sample_period : Z;
  target_count : Z;
  targets : list rd_target;
}.

#[export] Instance eta_session : Eta rd_session := fun r =>
  mk_session (s_threads r) (owner_tgid r) (s_running r) (configured r) (targets_loaded r)
    (wp_capacity r) (callchain_mode r) (dwarf_stack_bytes r) (dwarf_event_capacity r)
    (bp_sample_period r) (target_count r) (targets r).

(** [kzalloc] of a session, with its owner. *)
Definition fresh_session (tgid : Z) : rd_session :=
  mk_session [] tgid false false false 0 0 0 0 0 0 [].
