(* ===== verification/Tables.v ===== *)
(** The two fixed-size lookup tables a thread fills while it runs: call contexts
    ([rd_get_context_id_locked]) and use-reuse pair histograms
    ([rd_add_pair_hist_locked]).  Both scan the whole table for a used entry with
    the key and remember the first unused entry on the way; the scan is modelled
    once, and its lemmas serve both tables. *)
From S2P Require Import Prelude Uapi KTypes.

(** * The scan shared by both tables

    [inl i]: the first used entry with the key is at [i]; [inr free]: there is
    none, and [free] is the first unused entry, if any. *)
Fixpoint scan_table {A} (used matches : A -> bool) (l : list A) (i : Z)
    (free : option Z) : Z + option Z :=
  match l with
  | [] => inr free
  | e :: l' =>
      if used e then
        if matches e then inl i else scan_table used matches l' (i + 1) free
      else scan_table used matches l' (i + 1) (if free is None then Some i else free)
  end.

Section scan.
Context {A : Type} (used matches : A -> bool).
Implicit Types l : list A.

Lemma scan_table_found l i free j :
  scan_table used matches l i free = inl j ->
  exists n e, j = i + Z.of_nat n /\ l !! n = Some e /\ used e = true /\ matches e = true.
Proof.
  revert i free; induction l as [|e l IH]; simpl; intros i free H; [done|].
  destruct (used e) eqn:Hu; [destruct (matches e) eqn:Hm|].
  - simplify_eq; exists 0%nat, e; split; [lia|done].
  - apply IH in H as (n & e' & -> & ?); exists (S n), e'; split; [lia|done].
  - apply IH in H as (n & e' & -> & ?); exists (S n), e'; split; [lia|done].
Qed.

Lemma scan_table_absent l i free f :
  scan_table used matches l i free = inr f ->
  forall n e, l !! n = Some e -> used e = true -> matches e = false.
Proof.
  revert i free; induction l as [|e l IH]; simpl; intros i free H; [done|].
  intros [|n] e' Hl Hu; simplify_eq/=.
  - rewrite Hu in H; by destruct (matches e').
  - destruct (used e); [destruct (matches e)|]; simplify_eq; eauto.
Qed.

Lemma scan_table_free l i free f :
  scan_table used matches l i free = inr f ->
  match free with
  | Some _ => f = free
  | None =>
      match f with
      | Some j => exists n e, j = i + Z.of_nat n /\ l !! n = Some e /\ used e = false
      | None => forall n e, l !! n = Some e -> used e = true
      end
  end.
Proof.
  revert i free; induction l as [|e l IH]; simpl; intros i free H; simplify_eq.
  { destruct f; [done|]; intros; by rewrite lookup_nil in *. }
  destruct (used e) eqn:Hu; [destruct (matches e); [done|]|].
  - apply IH in H; destruct free; [done|]; destruct f as [j|].
    + destruct H as (n & e' & -> & ?); exists (S n), e'; split; [lia|done].
    + intros [|n] e' Hl; simplify_eq/=; eauto.
  - apply IH in H; destruct free; [done|]; subst f.
    exists 0%nat, e; split; [lia|done].
Qed.

Lemma scan_table_complete l i free n e :
  l !! n = Some e -> used e = true -> matches e = true ->
  exists j, scan_table used matches l i free = inl j.
Proof.
  intros Hl Hu Hm; destruct (scan_table _ _ _ _ _) as [j|f] eqn:E; [eauto|].
  eapply scan_table_absent in E; [|done..]; congruence.
Qed.

End scan.

(** * Call contexts *)
Module Contexts.

Definition key_matches (key : rd_callchain_key) (e : rd_context_entry) : bool :=
  (ce_depth e =? ck_depth key) &&
  bool_decide (take (Z.to_nat (ck_depth key)) (ce_ips e) =
               take (Z.to_nat (ck_depth key)) (ck_ips key)).

(** [memcpy(free_entry->ips, key->ips, 8 * depth)] and the header fields. *)
Definition fill_entry (key : rd_callchain_key) (e : rd_context_entry) : rd_context_entry :=
  let d := Z.to_nat (ck_depth key) in
  mk_context_entry true (ck_depth key) (take d (ck_ips key) ++ drop d (ce_ips e)).

Definition rd_get_context_id_locked (th : rd_thread_ctx) (key : rd_callchain_key)
    : option (Z * rd_thread_ctx) :=
  match t_contexts th with
  | None => Some (0, th ⟦ context_dropped ::= inc64 ⟧)
  | Some tbl =>
      if ck_depth key =? 0 then Some (0, th ⟦ context_dropped ::= inc64 ⟧) else
      match scan_table ce_used (key_matches key) tbl 0 None with
      | inl i => Some (u32 (i + 1), th)
      | inr None => Some (0, th ⟦ context_dropped ::= inc64 ⟧)
      | inr (Some i) =>
          e ← tbl !!z i;
          tbl' ← zinsert tbl i (fill_entry key e);
          Some (u32 (i + 1),
                th ⟦ t_contexts := Some tbl' ⟧ ⟦ context_used ::= inc32 ⟧)
      end
  end.

(** The call chain an entry stands for. *)
Definition chain_of (e : rd_context_entry) : list Z := take (Z.to_nat (ce_depth e)) (ce_ips e).
Definition key_chain (k : rd_callchain_key) : list Z := take (Z.to_nat (ck_depth k)) (ck_ips k).

Definition key_wf (k : rd_callchain_key) : Prop :=
  0 <= ck_depth k <= 8 /\ length (ck_ips k) = 8%nat.

Definition entry_wf (e : rd_context_entry) : Prop :=
  0 <= ce_depth e <= 8 /\ length (ce_ips e) = 8%nat /\ (ce_used e = true -> 0 < ce_depth e).

(** The table: 4096 entries, [context_used] of them used, no chain twice. *)
Record ctx_wf (tbl : list rd_context_entry) (used : Z) : Prop := {
  ctx_len : zlen tbl = RD_WPCTL_MAX_CONTEXTS;
  ctx_entries : Forall entry_wf tbl;
  ctx_used : used = zcount ce_used tbl;
  ctx_distinct : forall i j e1 e2, tbl !! i = Some e1 -> tbl !! j = Some e2 ->
    ce_used e1 = true -> ce_used e2 = true -> chain_of e1 = chain_of e2 -> i = j;
}.

Lemma key_matches_chain key e :
  key_wf key -> entry_wf e ->
  key_matches key e = true <-> chain_of e = key_chain key.
Proof.
  intros [Hk Hlk] (He & Hle & _); unfold key_matches, chain_of, key_chain.
  rewrite andb_true_iff, bool_decide_eq_true; split.
  - intros [->%Z.eqb_eq ?]; done.
  - intros H; assert (ce_depth e = ck_depth key) as Hd.
    { apply (f_equal length) in H; rewrite !length_take in H; lia. }
    split; [lia|congruence].
Qed.

Lemma fill_entry_wf key e :
  key_wf key -> 0 < ck_depth key -> entry_wf e -> entry_wf (fill_entry key e).
Proof.
  intros [Hk Hlk] Hpos (He & Hle & _); unfold fill_entry; split_and!; simpl; try lia.
  rewrite length_app, length_take, length_drop; lia.
Qed.

Lemma fill_entry_chain key e : key_wf key -> chain_of (fill_entry key e) = key_chain key.
Proof.
  intros [Hk Hlk]; unfold chain_of, key_chain, fill_entry; simpl.
  rewrite take_app_le by (rewrite length_take; lia).
  rewrite take_take; f_equal; lia.
Qed.

Lemma zero_contexts_wf : ctx_wf zero_context_table 0.
Proof.
  unfold zero_context_table; split.
  - by rewrite length_replicate.
  - apply Forall_replicate; split_and!; simpl; try done; lia.
  - by rewrite zcount_replicate.
  - intros i j e1 e2 [-> _]%lookup_replicate; done.
Qed.

(** Outcome of a lookup on a well-formed table, case by case. *)
Inductive ctx_outcome (th : rd_thread_ctx) (key : rd_callchain_key) (tbl : list rd_context_entry)
    : Z -> rd_thread_ctx -> Prop :=
| ctx_dropped :
    ck_depth key = 0 \/
      ((forall n e, tbl !! n = Some e -> ce_used e = true) /\
       (forall n e, tbl !! n = Some e -> chain_of e <> key_chain key)) ->
    ctx_outcome th key tbl 0 (th ⟦ context_dropped ::= inc64 ⟧)
| ctx_found n e :
    0 < ck_depth key -> tbl !! n = Some e -> ce_used e = true -> chain_of e = key_chain key ->
    ctx_outcome th key tbl (Z.of_nat n + 1) th
| ctx_added n e :
    0 < ck_depth key -> tbl !! n = Some e -> ce_used e = false ->
    (forall m e', tbl !! m = Some e' -> ce_used e' = true -> chain_of e' <> key_chain key) ->
    ctx_outcome th key tbl (Z.of_nat n + 1)
      (th ⟦ t_contexts := Some (<[n := fill_entry key e]> tbl) ⟧ ⟦ context_used ::= inc32 ⟧).

Lemma get_context_outcome th key tbl :
  t_contexts th = Some tbl -> ctx_wf tbl (context_used th) -> key_wf key ->
  exists id th', rd_get_context_id_locked th key = Some (id, th') /\ ctx_outcome th key tbl id th'.
Proof.
  intros Ht [Hlen Hent _ _] Hk; unfold rd_get_context_id_locked; rewrite Ht.
  unfold RD_WPCTL_MAX_CONTEXTS in Hlen.
  destruct (ck_depth key =? 0) eqn:Hd; [eexists _, _; split; [done|]; constructor; lia|].
  assert (Hpos : 0 < ck_depth key) by (destruct Hk; lia).
  assert (Hidx : forall n e, tbl !! n = Some e -> u32 (0 + Z.of_nat n + 1) = Z.of_nat n + 1).
  { intros n e ?%lookup_lt_Some; rewrite u32_id; lia. }
  assert (Hab : forall f, scan_table ce_used (key_matches key) tbl 0 None = inr f ->
    forall m e', tbl !! m = Some e' -> ce_used e' = true -> chain_of e' <> key_chain key).
  { intros f Hf m e' Hm Hu Hc; eapply scan_table_absent in Hf as Hf'; [|done..].
    eapply key_matches_chain in Hc; eauto; [congruence|].
    by eapply Forall_lookup_1 in Hent. }
  destruct (scan_table _ _ _ _ _) as [i|[i|]] eqn:E.
  - apply scan_table_found in E as (n & e & -> & Hl & Hu & Hm).
    eapply Forall_lookup_1 in Hent as He; [|done].
    rewrite (Hidx _ _ Hl); eexists _, _; split; [done|].
    eapply ctx_found; eauto; by apply key_matches_chain.
  - apply scan_table_free in E as Hf; destruct Hf as (n & e & -> & Hl & Hu).
    rewrite (Hidx _ _ Hl); rewrite Z.add_0_l, zlookup_of_nat, Hl; simpl.
    apply lookup_lt_Some in Hl as Hlt.
    rewrite zinsert_is_Some by lia; simpl; rewrite Nat2Z.id.
    eexists _, _; split; [done|]; eapply ctx_added; eauto.
  - apply scan_table_free in E as Hf; eexists _, _; split; [done|].
    constructor; right; split; [done|]; intros n e Hl; eapply Hab; eauto.
Qed.

Lemma ctx_outcome_wf th key tbl id th' :
  t_contexts th = Some tbl -> ctx_wf tbl (context_used th) -> key_wf key ->
  ctx_outcome th key tbl id th' ->
  exists tbl', t_contexts th' = Some tbl' /\ ctx_wf tbl' (context_used th').
Proof.
  intros Ht Hwf Hk [| |n e Hpos Hl Hu Hab]; simpl; eauto.
  destruct Hwf as [Hlen Hent Hused Hdis]; eexists; split; [done|].
  eapply Forall_lookup_1 in Hent as He; [|done]; unfold RD_WPCTL_MAX_CONTEXTS in *.
  split.
  - by rewrite length_insert.
  - apply Forall_insert; [done|]; by apply fill_entry_wf.
  - simpl; rewrite (zcount_insert _ _ _ _ _ Hl), Hu; simpl; unfold inc32.
    pose proof (zcount_range ce_used tbl); rewrite Hused; rewrite u32_id; lia.
  - intros i j e1 e2 Hi Hj U1 U2 Hc; apply lookup_lt_Some in Hl as Hlt.
    rewrite list_lookup_insert in Hi, Hj.
    repeat case_decide; simplify_eq; destruct_and?; subst; try done; eauto.
    + rewrite fill_entry_chain in Hc by done; exfalso; eapply Hab; eauto.
    + rewrite fill_entry_chain in Hc by done; exfalso; eapply Hab; eauto.
Qed.

Lemma ctx_outcome_keeps_used th key tbl id th' tbl' :
  t_contexts th = Some tbl -> ctx_outcome th key tbl id th' -> t_contexts th' = Some tbl' ->
  forall n e, tbl !! n = Some e -> ce_used e = true -> tbl' !! n = Some e.
Proof.
  intros Ht Ho Ht' n e Hn Hused; destruct Ho as [| |m e' _ Hm Hu _]; simplify_eq/=; try done.
  rewrite list_lookup_insert_ne; [done|]; intros ->; congruence.
Qed.

(** C17. Context identifiers name call chains.  On a well-formed table a lookup
    of a non-empty chain always succeeds or drops; a non-zero identifier [id]
    designates, in the new table, a used entry at [id - 1] that holds exactly
    the chain; entries used before keep their place, so identifiers handed out
    earlier keep their meaning; asking again for the same chain returns the same
    identifier and changes nothing; and identifier 0 is returned only when the
    table is full and holds no such chain.  The table stays well formed: no
    chain is stored twice and [context_used] counts the used entries. *)
Theorem context_id_names_chain (th : rd_thread_ctx) (key : rd_callchain_key)
    (tbl : list rd_context_entry)
    (Ht : t_contexts th = Some tbl) (Hwf : ctx_wf tbl (context_used th))
    (Hk : key_wf key) (Hd : 0 < ck_depth key) :
  exists id th' tbl',
    rd_get_context_id_locked th key = Some (id, th') /\
    t_contexts th' = Some tbl' /\ ctx_wf tbl' (context_used th') /\
    0 <= id <= RD_WPCTL_MAX_CONTEXTS /\
    (forall n e, tbl !! n = Some e -> ce_used e = true -> tbl' !! n = Some e) /\
    (id = 0 -> tbl' = tbl /\ (forall n e, tbl !! n = Some e -> ce_used e = true) /\
               (forall n e, tbl !! n = Some e -> chain_of e <> key_chain key)) /\
    (id <> 0 -> exists e, tbl' !!z (id - 1) = Some e /\ ce_used e = true /\
                  chain_of e = key_chain key /\
                  rd_get_context_id_locked th' key = Some (id, th')).
Proof.
  destruct (get_context_outcome th key tbl Ht Hwf Hk) as (id & th' & Hget & Ho).
  destruct (ctx_outcome_wf _ _ _ _ _ Ht Hwf Hk Ho) as (tbl' & Ht' & Hwf').
  pose proof (ctx_outcome_keeps_used _ _ _ _ _ _ Ht Ho Ht') as Hkeep.
  assert (Hnamed : id <> 0 -> exists n e, id = Z.of_nat n + 1 /\ tbl' !! n = Some e /\
            ce_used e = true /\ chain_of e = key_chain key).
  { destruct Ho as [|n e _ Hn ? ?|n e _ Hn ? ?]; [done|..]; intros _; simplify_eq/=.
    - eauto 10.
    - exists n, (fill_entry key e); split_and!; [done| |done|by apply fill_entry_chain].
      apply list_lookup_insert_eq; by eapply lookup_lt_Some. }
  exists id, th', tbl'; split_and!; try done.
  - destruct Ho; lia.
  - destruct (decide (id = 0)) as [|Hid]; [unfold RD_WPCTL_MAX_CONTEXTS; lia|].
    destruct Hnamed as (n & e & -> & Hn & _); [done|]; apply lookup_lt_Some in Hn.
    pose proof (ctx_len _ _ Hwf'); lia.
  - intros ->; inversion Ho as [[?|[? ?]]| |]; simplify_eq/=; try lia; eauto.
  - intros (n & e & -> & Hn & Hu & Hc)%Hnamed.
    exists e; replace (Z.of_nat n + 1 - 1) with (Z.of_nat n) by lia.
    rewrite zlookup_of_nat; split_and!; try done.
    destruct (get_context_outcome th' key tbl' Ht' Hwf' Hk) as (id2 & th2 & -> & Ho2).
    destruct Ho2 as [[?|[_ ?]]|m e' _ Hm Hu' Hc'|m e' _ Hm Hu' Hno]; [lia|naive_solver| |].
    + assert (m = n) as ->; [|done].
      eapply (ctx_distinct _ _ Hwf'); eauto; congruence.
    + by apply Hno in Hn.
Qed.

Definition demo_key : rd_callchain_key := mk_callchain_key 2 [4096; 8192; 0; 0; 0; 0; 0; 0].
Definition demo_thread : rd_thread_ctx :=
  zero_thread ⟦ t_contexts := Some zero_context_table ⟧.

Lemma context_id_names_chain_witness :
  exists id th' tbl',
    rd_get_context_id_locked demo_thread demo_key = Some (id, th') /\
    t_contexts th' = Some tbl' /\ (id <> 0 -> exists e, tbl' !!z (id - 1) = Some e).
Proof.
  destruct (context_id_names_chain demo_thread demo_key zero_context_table)
    as (id & th' & tbl' & H1 & H2 & _ & _ & _ & _ & H3).
  - reflexivity.
  - exact zero_contexts_wf.
  - split; [split; discriminate|reflexivity].
  - reflexivity.
  - exists id, th', tbl'; split; [exact H1|]; split; [exact H2|].
    intros Hid; destruct (H3 Hid) as (e & He & _); exists e; exact He.
Defined.

End Contexts.

(** * Use-reuse pair histograms *)
Module PairHist.

(** (seed_pc_offset, seed_context_id, reuse_pc, reuse_context_id) *)
Abbreviation pair_key := (Z * Z * Z * Z)%type.

Definition entry_key (e : rd_pair_hist_entry) : pair_key :=
  (pe_seed_pc_offset e, pe_seed_context_id e, pe_reuse_pc e, pe_reuse_context_id e).

Definition pair_matches (seed_pc_offset seed_context_id reuse_pc reuse_context_id : Z)
    (e : rd_pair_hist_entry) : bool :=
  (pe_seed_pc_offset e =? seed_pc_offset) &&
  (pe_seed_context_id e =? seed_context_id) &&
  (pe_reuse_pc e =? reuse_pc) &&
  (pe_reuse_context_id e =? reuse_context_id).

Definition rd_add_pair_hist_locked (th : rd_thread_ctx)
    (seed_pc_offset seed_context_id reuse_pc reuse_context_id bucket : Z)
    : option rd_thread_ctx :=
  match t_pair_hist th with
  | None => Some (th ⟦ pair_hist_dropped ::= inc64 ⟧)
  | Some tbl =>
      if (reuse_pc =? 0) || (RD_WPCTL_LOG2_BUCKETS <=? bucket) then
        Some (th ⟦ pair_hist_dropped ::= inc64 ⟧) else
      match scan_table pe_used
              (pair_matches seed_pc_offset seed_context_id reuse_pc reuse_context_id)
              tbl 0 None with
      | inl i =>
          e ← tbl !!z i;
          v ← pe_buckets e !!z bucket;
          bs ← zinsert (pe_buckets e) bucket (inc64 v);
          tbl' ← zinsert tbl i (e ⟦ pe_buckets := bs ⟧);
          Some (th ⟦ t_pair_hist := Some tbl' ⟧)
      | inr None => Some (th ⟦ pair_hist_dropped ::= inc64 ⟧)
      | inr (Some i) =>
          e ← tbl !!z i;
          bs ← zinsert (pe_buckets e) bucket 1;
          tbl' ← zinsert tbl i
                   (mk_pair_entry true seed_context_id reuse_context_id seed_pc_offset reuse_pc bs);
          Some (th ⟦ t_pair_hist := Some tbl' ⟧ ⟦ pair_hist_used ::= inc32 ⟧)
      end
  end.

(** * The abstract table: a finite map from pairs to histograms *)

Definition pair_map (tbl : list rd_pair_hist_entry) : gmap pair_key (list Z) :=
  list_to_map ((fun e => (entry_key e, pe_buckets e)) <$> filter (fun e => pe_used e = true) tbl).

Definition bump (b : Z) (bs : list Z) : list Z :=
  <[Z.to_nat b := inc64 (default 0 (bs !! Z.to_nat b))]> bs.

Definition abs_add (k : pair_key) (b : Z) (m : gmap pair_key (list Z)) : gmap pair_key (list Z) :=
  <[k := bump b (default (replicate 64 0) (m !! k))]> m.

Definition pair_entry_wf (e : rd_pair_hist_entry) : Prop :=
  length (pe_buckets e) = 64%nat /\ (pe_used e = false -> pe_buckets e = replicate 64 0).

Record pair_wf (tbl : list rd_pair_hist_entry) (used : Z) : Prop := {
  pair_len : zlen tbl = RD_WPCTL_MAX_PAIR_HISTS;
  pair_entries : Forall pair_entry_wf tbl;
  pair_used : used = zcount pe_used tbl;
  pair_distinct : forall i j e1 e2, tbl !! i = Some e1 -> tbl !! j = Some e2 ->
    pe_used e1 = true -> pe_used e2 = true -> entry_key e1 = entry_key e2 -> i = j;
}.

(** All counts of all pairs. *)
Definition pair_total (tbl : list rd_pair_hist_entry) : Z :=
  sumZ ((fun e => sumZ (pe_buckets e)) <$> tbl).

Lemma pair_matches_key a b c d e : pair_matches a b c d e = true <-> entry_key e = (a, b, c, d).
Proof.
  unfold pair_matches, entry_key; rewrite !andb_true_iff, !Z.eqb_eq; split; [|naive_solver].
  intros [[[-> ->] ->] ->]; done.
Qed.

(** The map holds exactly the used entries. *)
Lemma pair_map_lookup tbl used k bs :
  pair_wf tbl used ->
  pair_map tbl !! k = Some bs <->
  exists n e, tbl !! n = Some e /\ pe_used e = true /\ entry_key e = k /\ pe_buckets e = bs.
Proof.
  intros Hwf; unfold pair_map.
  assert (Hnd : NoDup ((fun e => (entry_key e, pe_buckets e)) <$>
                        filter (fun e => pe_used e = true) tbl).*1).
  { rewrite <- list_fmap_compose. pose proof (pair_distinct _ _ Hwf) as Hd; clear Hwf k bs used.
    induction tbl as [|e tbl IH]; [constructor|]; rewrite filter_cons; case_decide as Hu.
    - simpl; constructor.
      + intros (e' & Hk & [Hu' Hin]%list_elem_of_filter)%list_elem_of_fmap.
        apply list_elem_of_lookup in Hin as [n Hn].
        by specialize (Hd 0%nat (S n) e e' eq_refl Hn Hu Hu' Hk).
      + apply IH; intros i j e1 e2 H1 H2 ?? ?; specialize (Hd (S i) (S j) e1 e2 H1 H2); lia || naive_solver.
    - apply IH; intros i j e1 e2 H1 H2 ?? ?; specialize (Hd (S i) (S j) e1 e2 H1 H2); naive_solver. }
  rewrite <- elem_of_list_to_map by done; rewrite list_elem_of_fmap; split.
  - intros (e & [= -> ->] & [Hu Hin]%list_elem_of_filter).
    apply list_elem_of_lookup in Hin as [n Hn]; eauto 10.
  - intros (n & e & Hn & Hu & <- & <-); exists e; split; [done|].
    apply list_elem_of_filter; split; [done|]; apply list_elem_of_lookup; eauto.
Qed.

Lemma pair_map_absent tbl used k :
  pair_wf tbl used ->
  (forall n e, tbl !! n = Some e -> pe_used e = true -> entry_key e <> k) ->
  pair_map tbl !! k = None.
Proof.
  intros Hwf Hno; destruct (pair_map tbl !! k) eqn:E; [|done].
  eapply pair_map_lookup in E as (n & e & ? & ? & ? & ?); [|done]; naive_solver.
Qed.

Lemma zero_pairs_wf : pair_wf zero_pair_table 0.
Proof.
  unfold zero_pair_table; split.
  - by rewrite length_replicate.
  - apply Forall_replicate; split; [done|]; reflexivity.
  - by rewrite zcount_replicate.
  - intros i j e1 e2 [-> _]%lookup_replicate; done.
Qed.

(** Replacing one entry by a used one with a key no other entry has. *)
Lemma zero_pairs_total : pair_total zero_pair_table = 0.
Proof.
  unfold pair_total, zero_pair_table; rewrite fmap_replicate, sumZ_replicate.
  change (sumZ (pe_buckets zero_pair_entry)) with 0; apply Z.mul_0_r.
Qed.

Lemma pair_wf_insert tbl used n e e' :
  pair_wf tbl used -> tbl !! n = Some e -> pe_used e' = true -> length (pe_buckets e') = 64%nat ->
  (forall m e2, tbl !! m = Some e2 -> pe_used e2 = true -> entry_key e2 = entry_key e' -> m = n) ->
  pair_wf (<[n := e']> tbl) (if pe_used e then used else used + 1).
Proof.
  intros [Hlen Hent Hused Hdis] Hn Hu' Hl' Huniq; apply lookup_lt_Some in Hn as Hlt; split.
  - by rewrite length_insert.
  - apply Forall_insert; [done|]; split; [done|congruence].
  - rewrite (zcount_insert _ _ _ _ _ Hn), Hu'; destruct (pe_used e); lia.
  - intros i j e1 e2 [[-> ->]|[? Hi]]%list_insert_cases [[-> ->]|[? Hj]]%list_insert_cases
      U1 U2 Hk; try done; eauto.
    symmetry; eapply Huniq; eauto.
Qed.

Lemma pair_map_insert tbl used n e e' :
  pair_wf tbl used -> tbl !! n = Some e -> pe_used e' = true -> length (pe_buckets e') = 64%nat ->
  (pe_used e = true -> entry_key e = entry_key e') ->
  (forall m e2, tbl !! m = Some e2 -> pe_used e2 = true -> entry_key e2 = entry_key e' -> m = n) ->
  pair_map (<[n := e']> tbl) = <[entry_key e' := pe_buckets e']> (pair_map tbl).
Proof.
  intros Hwf Hn Hu' Hl' Hsame Huniq; apply map_eq; intros k.
  pose proof (pair_wf_insert _ _ _ _ _ Hwf Hn Hu' Hl' Huniq) as Hwf'.
  apply lookup_lt_Some in Hn as Hlt; apply option_eq; intros bs.
  rewrite (pair_map_lookup _ _ _ _ Hwf'), lookup_insert; case_decide as Hk.
  - split; [|intros [= <-]; exists n, e'; by rewrite list_lookup_insert_eq by done].
    intros (m & e2 & [[-> ->]|[Hne Hm]]%list_insert_cases & Hu2 & Hk2 & <-); [done|].
    by rewrite <- Hk in Hk2; eapply Huniq in Hk2.
  - rewrite (pair_map_lookup _ _ _ _ Hwf); split.
    + intros (m & e2 & [[-> ->]|[Hne Hm]]%list_insert_cases & Hu2 & Hk2 & Hb); [done|]; eauto 10.
    + intros (m & e2 & Hm & Hu2 & Hk2 & Hb).
      exists m, e2; rewrite list_lookup_insert_ne; [eauto|]; intros ->.
      rewrite Hn in Hm; injection Hm as ->; by rewrite Hsame in Hk2.
Qed.

Lemma pair_total_insert tbl n e e' :
  tbl !! n = Some e ->
  pair_total (<[n := e']> tbl) = pair_total tbl - sumZ (pe_buckets e) + sumZ (pe_buckets e').
Proof.
  intros Hn; unfold pair_total; rewrite list_fmap_insert.
  apply sumZ_insert; by rewrite list_lookup_fmap, Hn.
Qed.

(** Outcome of one update on a well-formed table. *)
Inductive pair_outcome (th : rd_thread_ctx) (tbl : list rd_pair_hist_entry) (k : pair_key)
    (b : Z) : rd_thread_ctx -> Prop :=
| pair_dropped :
    k.1.2 = 0 \/ 64 <= b \/
      ((forall n e, tbl !! n = Some e -> pe_used e = true) /\ pair_map tbl !! k = None) ->
    pair_outcome th tbl k b (th ⟦ pair_hist_dropped ::= inc64 ⟧)
| pair_counted tbl' used' :
    k.1.2 <> 0 -> pair_wf tbl' used' -> pair_map tbl' = abs_add k b (pair_map tbl) ->
    pair_total tbl' ≡₆₄ pair_total tbl + 1 ->
    pair_outcome th tbl k b (th ⟦ t_pair_hist := Some tbl' ⟧ ⟦ pair_hist_used := used' ⟧).

Lemma sumZ_bump b bs :
  0 <= b < zlen bs -> sumZ (bump b bs) ≡₆₄ sumZ bs + 1.
Proof.
  intros Hb; destruct (lookup_lt_is_Some_2 bs (Z.to_nat b)) as [v Hv]; [lia|].
  unfold bump; rewrite Hv; simpl; rewrite (sumZ_insert _ _ _ _ Hv), inc64_eqm.
  eqm64_lia.
Qed.

Lemma bump_range b bs : Forall (fun x => is_u64 x) bs -> Forall (fun x => is_u64 x) (bump b bs).
Proof. intros H; apply Forall_insert; [done|apply u64_range]. Qed.

Lemma bump_zinsert b bs v :
  bs !!z b = Some v -> zinsert bs b (inc64 v) = Some (bump b bs).
Proof.
  intros [Hr Hv]%zlookup_Some; rewrite zinsert_is_Some by done; unfold bump; by rewrite Hv.
Qed.

(** The branch that finds the pair. *)
Lemma pair_found_outcome th tbl k bk n e :
  pair_wf tbl (pair_hist_used th) -> k.1.2 <> 0 -> 0 <= bk < 64 ->
  tbl !! n = Some e -> pe_used e = true -> entry_key e = k ->
  pair_outcome th tbl k bk
    (th ⟦ t_pair_hist := Some (<[n := e ⟦ pe_buckets := bump bk (pe_buckets e) ⟧]> tbl) ⟧).
Proof.
  intros Hwf Hpc Hbk Hn Hu Hk; set (e' := e ⟦ pe_buckets := _ ⟧).
  destruct (Forall_lookup_1 _ _ _ _ (pair_entries _ _ Hwf) Hn) as [Hl _].
  assert (Hl' : length (pe_buckets e') = 64%nat) by (simpl; unfold bump; by rewrite length_insert).
  assert (Huniq : forall m e2, tbl !! m = Some e2 -> pe_used e2 = true ->
            entry_key e2 = entry_key e' -> m = n).
  { intros m e2 Hm2 Hu2 Hk2; eapply (pair_distinct _ _ Hwf); eauto. }
  replace (th ⟦ t_pair_hist := _ ⟧) with
    (th ⟦ t_pair_hist := Some (<[n := e']> tbl) ⟧ ⟦ pair_hist_used := pair_hist_used th ⟧)
    by (by destruct th).
  eapply pair_counted; [done|..].
  - pose proof (pair_wf_insert _ _ _ _ e' Hwf Hn Hu Hl' Huniq) as H; by rewrite Hu in H.
  - rewrite (pair_map_insert _ _ _ _ e' Hwf Hn) by done; unfold abs_add.
    change (entry_key e') with (entry_key e); rewrite Hk.
    assert (pair_map tbl !! k = Some (pe_buckets e)) as ->; [|done].
    eapply pair_map_lookup; eauto 10.
  - rewrite (pair_total_insert _ _ _ e' Hn); subst e'; simpl.
    rewrite sumZ_bump by lia; eqm64_lia.
Qed.

(** The branch that takes the first unused entry. *)
Lemma pair_added_outcome th tbl a b c d bk n e :
  pair_wf tbl (pair_hist_used th) -> c <> 0 -> 0 <= bk < 64 ->
  tbl !! n = Some e -> pe_used e = false ->
  (forall m e2, tbl !! m = Some e2 -> pe_used e2 = true -> entry_key e2 <> (a, b, c, d)) ->
  pair_outcome th tbl (a, b, c, d) bk
    (th ⟦ t_pair_hist := Some (<[n := mk_pair_entry true b d a c (bump bk (replicate 64 0))]> tbl) ⟧
        ⟦ pair_hist_used ::= inc32 ⟧).
Proof.
  intros Hwf Hpc Hbk Hn Hu Hno; set (e' := mk_pair_entry _ _ _ _ _ _).
  destruct (Forall_lookup_1 _ _ _ _ (pair_entries _ _ Hwf) Hn) as [_ Hz]; specialize (Hz Hu).
  assert (Hl' : length (pe_buckets e') = 64%nat) by (simpl; unfold bump; by rewrite length_insert).
  assert (Huniq : forall m e2, tbl !! m = Some e2 -> pe_used e2 = true ->
            entry_key e2 = entry_key e' -> m = n) by (intros m e2 Hm2 Hu2 Hk2; by apply Hno in Hm2).
  assert (Hinc : inc32 (pair_hist_used th) = pair_hist_used th + 1).
  { pose proof (zcount_range pe_used tbl); rewrite (pair_used _ _ Hwf).
    pose proof (pair_len _ _ Hwf); unfold RD_WPCTL_MAX_PAIR_HISTS in *; apply u32_id; lia. }
  replace (upd pair_hist_used inc32 _) with
    (th ⟦ t_pair_hist := Some (<[n := e']> tbl) ⟧ ⟦ pair_hist_used := pair_hist_used th + 1 ⟧)
    by (unfold upd; cbn; by rewrite Hinc).
  eapply pair_counted; [done|..].
  - pose proof (pair_wf_insert _ _ _ _ e' Hwf Hn eq_refl Hl' Huniq) as H; by rewrite Hu in H.
  - rewrite (pair_map_insert _ _ _ _ e' Hwf Hn) by (try done; congruence); unfold abs_add.
    by rewrite (pair_map_absent _ _ _ Hwf Hno).
  - rewrite (pair_total_insert _ _ _ e' Hn); subst e'; cbn [pe_buckets]; rewrite Hz.
    rewrite sumZ_bump by (rewrite length_replicate; lia); eqm64_lia.
Qed.

Lemma add_pair_outcome th tbl a b c d bk :
  t_pair_hist th = Some tbl -> pair_wf tbl (pair_hist_used th) -> 0 <= bk ->
  exists th', rd_add_pair_hist_locked th a b c d bk = Some th' /\
              pair_outcome th tbl (a, b, c, d) bk th'.
Proof.
  intros Ht Hwf Hbk; unfold rd_add_pair_hist_locked, RD_WPCTL_LOG2_BUCKETS; rewrite Ht.
  destruct (_ || _) eqn:G; [eexists; split; [done|]; constructor; simpl; lia|].
  pose proof (pair_entries _ _ Hwf) as Hent.
  assert (Hab : forall f, scan_table pe_used (pair_matches a b c d) tbl 0 None = inr f ->
    forall m e2, tbl !! m = Some e2 -> pe_used e2 = true -> entry_key e2 <> (a, b, c, d)).
  { intros f Hf m e2 Hm2 Hu2 Hk2%pair_matches_key.
    eapply scan_table_absent in Hf; [|done..]; congruence. }
  destruct (scan_table _ _ _ _ _) as [i|[i|]] eqn:E.
  - apply scan_table_found in E as (n & e & -> & Hn & Hu & Hm%pair_matches_key).
    rewrite Z.add_0_l, zlookup_of_nat, Hn; simpl.
    destruct (Forall_lookup_1 _ _ _ _ Hent Hn) as [Hl _].
    destruct (proj2 (zlookup_is_Some (pe_buckets e) bk)) as [v Hv]; [lia|].
    rewrite Hv; simpl; rewrite (bump_zinsert _ _ _ Hv); simpl.
    apply lookup_lt_Some in Hn as Hlt; rewrite zinsert_is_Some by lia; simpl; rewrite Nat2Z.id.
    eexists; split; [done|]; apply pair_found_outcome; simpl; try done; lia.
  - apply scan_table_free in E as Hf; destruct Hf as (n & e & -> & Hn & Hu).
    rewrite Z.add_0_l, zlookup_of_nat, Hn; simpl.
    destruct (Forall_lookup_1 _ _ _ _ Hent Hn) as [Hl Hz]; specialize (Hz Hu).
    apply lookup_lt_Some in Hn as Hlt.
    rewrite Hz, zinsert_is_Some by (rewrite length_replicate; lia); simpl.
    rewrite zinsert_is_Some by lia; simpl; rewrite Nat2Z.id.
    replace (<[Z.to_nat bk := 1]> (replicate 64 0)) with (bump bk (replicate 64 0))
      by (unfold bump; rewrite lookup_replicate_2 by lia; reflexivity).
    eexists; split; [done|]; eapply pair_added_outcome; eauto; lia.
  - apply scan_table_free in E as Hf; eexists; split; [done|].
    constructor; right; right; split; [done|]; eapply pair_map_absent; eauto.
Qed.

(** C16. The pair table refines a finite map from
    (seed PC, seed context, reuse PC, reuse context) to histograms.  An update
    of a well-formed table either adds one to bucket [b] of the histogram of the
    pair (creating it empty first when the pair is new) and changes no other
    histogram, or drops the sample and counts the drop; it drops only for a
    missing reuse PC or when all 4096 entries are used by other pairs.  The
    table stays well formed: one entry per pair, [pair_hist_used] of them. *)
Theorem pair_hist_refines_map (th : rd_thread_ctx) (tbl : list rd_pair_hist_entry)
    (seed_pc seed_ctx reuse_pc reuse_ctx b : Z)
    (Ht : t_pair_hist th = Some tbl) (Hwf : pair_wf tbl (pair_hist_used th))
    (Hb : 0 <= b < RD_WPCTL_LOG2_BUCKETS) :
  let k := (seed_pc, seed_ctx, reuse_pc, reuse_ctx) in
  exists th' tbl',
    rd_add_pair_hist_locked th seed_pc seed_ctx reuse_pc reuse_ctx b = Some th' /\
    t_pair_hist th' = Some tbl' /\ pair_wf tbl' (pair_hist_used th') /\
    ((pair_map tbl' = abs_add k b (pair_map tbl) /\
      pair_hist_dropped th' = pair_hist_dropped th) \/
     (tbl' = tbl /\ pair_hist_dropped th' = inc64 (pair_hist_dropped th) /\
      (reuse_pc = 0 \/ pair_map tbl !! k = None /\ zcount pe_used tbl = RD_WPCTL_MAX_PAIR_HISTS))).
Proof.
  intros k; unfold RD_WPCTL_LOG2_BUCKETS in Hb.
  destruct (add_pair_outcome th tbl seed_pc seed_ctx reuse_pc reuse_ctx b Ht Hwf)
    as (th' & Hadd & Ho); [lia|].
  destruct Ho as [Hd|tbl' used' Hpc Hwf' Hmap Htot]; [exists (th ⟦ pair_hist_dropped ::= inc64 ⟧), tbl|
    eexists _, tbl'; split_and!; eauto].
  split_and!; try done; right; split_and!; try done.
  destruct Hd as [?|[?|[Hfull Hnone]]]; [by left|lia|right; split; [done|]].
  rewrite zcount_full; [apply (pair_len _ _ Hwf)|].
  by apply Forall_lookup_2.
Qed.

Definition demo_thread : rd_thread_ctx :=
  zero_thread ⟦ t_pair_hist := Some zero_pair_table ⟧.

Lemma pair_hist_refines_map_witness :
  exists th', rd_add_pair_hist_locked demo_thread 12920 0 4198404 0 13 = Some th'.
Proof.
  destruct (pair_hist_refines_map demo_thread zero_pair_table
              12920 0 4198404 0 13 eq_refl zero_pairs_wf) as (th' & _ & H & _).
  - split; [discriminate|reflexivity].
  - exists th'; exact H.
Defined.

End PairHist.
