(* ===== verification/Callchain.v ===== *)
(** Call-context capture of [kernel/rd_wpctl.c]: the user frame-pointer walk
    [rd_capture_callchain] and the register and stack snapshot of DWARF mode
    ([rd_copy_user_stack_snapshot], [rd_capture_dwarf_snapshot]).

    User memory is read through [access_ok] and [copy_from_user_nofault] of
    [KernelApi].  The walk is a loop whose only progress guarantee is that frame
    pointers grow; [iter_loop 64] is enough for any 64-bit frame pointer. *)
From S2P Require Import Prelude Uapi KTypes EffAddr KernelApi Tables.

(** Little-endian 64-bit load from raw bytes. *)
Definition le_u64 (bs : list Z) : Z := foldr (fun b acc => u8 b + 256 * acc) 0 (take 8 bs).

Lemma le_fold_range bs :
  0 <= foldr (fun b acc => u8 b + 256 * acc) 0 bs < 256 ^ zlen bs.
Proof.
  induction bs as [|b bs IH]; simpl foldr; [by cbn|].
  pose proof (u8_range b); replace (zlen (b :: bs)) with (Z.succ (zlen bs)) by (simpl; lia).
  rewrite Z.pow_succ_r by lia; lia.
Qed.

Lemma le_u64_range bs : is_u64 (le_u64 bs).
Proof.
  unfold le_u64; pose proof (le_fold_range (take 8 bs)) as [H1 H2]; split; [done|].
  eapply Z.lt_le_trans; [done|]; change 18446744073709551616 with (256 ^ 8).
  apply Z.pow_le_mono_r; [lia|]; rewrite length_take; lia.
Qed.

Module Callchain.
Section callchain.
Context `{K : KernelApi}.

(** One frame record [{prev_fp, lr}] at [fp], when it can be read; the four
    reasons to stop before using it are the first four tests of the loop. *)
Definition read_frame (w : world) (fp : Z) : option (Z * Z) :=
  if fp =? 0 then None else
  if negb (Z.land fp 7 =? 0) then None else
  if negb (access_ok fp 16) then None else
  bs ← copy_from_user_nofault fp 16 w;
  Some (le_u64 bs, le_u64 (drop 8 bs)).

(** One iteration of the [while (key->depth < MAX)] loop.  The loop leaves with
    the key and whether the chain was cut at the depth limit; [None] would be an
    access outside [key->ips]. *)
Definition capture_step (w : world) (st : rd_callchain_key * Z)
    : (rd_callchain_key * Z) + option (rd_callchain_key * bool) :=
  let '(key, fp) := st in
  if ck_depth key <? RD_WPCTL_MAX_CALLCHAIN_DEPTH then
    match read_frame w fp with
    | None => inr (Some (key, false))
    | Some (prev_fp, lr) =>
        if lr =? 0 then inr (Some (key, false)) else
        match ck_ips key !!z (ck_depth key - 1) with
        | None => inr None
        | Some last =>
            match (if negb (lr =? last) then
                     ips ← zinsert (ck_ips key) (ck_depth key) lr;
                     Some (mk_callchain_key (u8 (ck_depth key + 1)) ips)
                   else Some key) with
            | None => inr None
            | Some key' =>
                if prev_fp =? 0 then inr (Some (key', false)) else
                if prev_fp <=? fp then inr (Some (key', false)) else
                inl (key', prev_fp)
            end
        end
    end
  else inr (Some (key, negb (fp =? 0))).

Definition rd_capture_callchain (th : rd_thread_ctx) (regs : option pt_regs) (w : world)
    : option (rd_callchain_key * rd_thread_ctx) :=
  match regs with
  | None => Some (zero_callchain_key, th ⟦ callchain_failed ::= inc64 ⟧)
  | Some r =>
      if negb (user_mode r) || (instruction_pointer r =? 0) then
        Some (zero_callchain_key, th ⟦ callchain_failed ::= inc64 ⟧) else
      ips ← zinsert (ck_ips zero_callchain_key) 0 (instruction_pointer r);
      fp ← pr_regs r !!z 29;
      match iter_loop (capture_step w) 64 (mk_callchain_key 1 ips, fp) with
      | inr (Some (key, truncated)) =>
          Some (key, if truncated then th ⟦ callchain_truncated ::= inc64 ⟧ else th)
      | _ => None
      end
  end.

(** * Specification of the walk *)

(** The frame record at [fp]: two little-endian words of user memory at an
    address that is not null, aligned to 8 bytes and readable. *)
Definition frame_at (w : world) (fp prev lr : Z) : Prop :=
  fp <> 0 /\ Z.land fp 7 = 0 /\ access_ok fp 16 = true /\
  exists bs, copy_from_user_nofault fp 16 w = Some bs /\ prev = le_u64 bs /\ lr = le_u64 (drop 8 bs).

(** The return addresses met by following frame records upward from [fp] for as
    long as they are readable, have a return address, and grow. *)
Inductive fp_walk (w : world) : Z -> list Z -> Prop :=
| walk_end fp :
    (forall prev lr, frame_at w fp prev lr -> lr = 0) -> fp_walk w fp []
| walk_last fp prev lr :
    frame_at w fp prev lr -> lr <> 0 -> prev <= fp -> fp_walk w fp [lr]
| walk_more fp prev lr lrs :
    frame_at w fp prev lr -> lr <> 0 -> fp < prev -> fp_walk w prev lrs ->
    fp_walk w fp (lr :: lrs).

Lemma read_frame_spec w fp prev lr : read_frame w fp = Some (prev, lr) <-> frame_at w fp prev lr.
Proof.
  unfold read_frame, frame_at; destruct (fp =? 0) eqn:H0; cbn; [split; [done|intros (? & _); lia]|].
  destruct (Z.land fp 7 =? 0) eqn:H7; cbn; [|split; [done|intros (_ & ? & _); lia]].
  destruct (access_ok fp 16); cbn; [|split; [done|by intros (_ & _ & ? & _)]].
  destruct (copy_from_user_nofault fp 16 w) as [bs|]; cbn; [|split; [done|by intros (_ & _ & _ & ? & ? & _)]].
  split; [intros [= <- <-]; split_and!; eauto; lia|intros (_ & _ & _ & ? & [= <-] & -> & ->); done].
Qed.

(** Drop each return address equal to the one kept before it. *)
Fixpoint push_chain (last : Z) (lrs : list Z) : list Z :=
  match lrs with
  | [] => []
  | lr :: rest => if lr =? last then push_chain last rest else lr :: push_chain lr rest
  end.

Lemma read_frame_range w fp prev lr :
  read_frame w fp = Some (prev, lr) -> fp <> 0 /\ is_u64 prev /\ is_u64 lr.
Proof.
  unfold read_frame; destruct (fp =? 0) eqn:Hfp; [done|].
  destruct (negb _); [done|]; destruct (negb _); [done|].
  destruct (copy_from_user_nofault fp 16 w); cbn; [intros [= <- <-]|done].
  split; [lia|]; split; apply le_u64_range.
Qed.

Lemma fp_walk_exists w fp : is_u64 fp -> exists lrs, fp_walk w fp lrs.
Proof.
  intros Hfp; remember (Z.to_nat (18446744073709551616 - fp)) as n eqn:Hn.
  revert fp Hfp Hn; induction n as [n IH] using lt_wf_ind; intros fp Hfp Hn.
  destruct (read_frame w fp) as [[prev lr]|] eqn:E;
    [|exists []; apply walk_end; intros ? ? H%read_frame_spec; congruence].
  destruct (decide (lr = 0)) as [->|Hlr]; [exists []; apply walk_end; intros ? ? H%read_frame_spec; congruence|].
  apply read_frame_range in E as Hr; destruct Hr as (_ & Hp & _); apply read_frame_spec in E.
  destruct (decide (prev <= fp)) as [Hle|Hgt]; [eexists; by eapply walk_last|].
  destruct (IH (Z.to_nat (18446744073709551616 - prev))) with (fp := prev) as [lrs Hw]; try lia.
  eexists; eapply walk_more; eauto; lia.
Qed.

(** * The loop computes the specification *)

(** Invariant: a key of depth 1 to 8 that holds the chain so far. *)
Definition key_inv (key : rd_callchain_key) : Prop :=
  1 <= ck_depth key <= 8 /\ length (ck_ips key) = 8%nat.

Definition key_last (key : rd_callchain_key) : Z :=
  default 0 (ck_ips key !! Z.to_nat (ck_depth key - 1)).

Lemma key_last_lookup key : key_inv key -> ck_ips key !!z (ck_depth key - 1) = Some (key_last key).
Proof.
  intros [Hd Hl]; unfold key_last; rewrite zlookup_in_range by lia.
  destruct (lookup_lt_is_Some_2 (ck_ips key) (Z.to_nat (ck_depth key - 1))) as [x ->]; [lia|done].
Qed.

(** [key->ips[key->depth++] = lr]. *)
Definition key_push (key : rd_callchain_key) (lr : Z) : rd_callchain_key :=
  mk_callchain_key (ck_depth key + 1) (<[Z.to_nat (ck_depth key) := lr]> (ck_ips key)).

Lemma key_push_spec key lr :
  key_inv key -> ck_depth key < 8 ->
  key_inv (key_push key lr) /\ key_last (key_push key lr) = lr /\
  Contexts.key_chain (key_push key lr) = Contexts.key_chain key ++ [lr].
Proof.
  intros [Hd Hl] Hlt; unfold key_push, key_inv, key_last, Contexts.key_chain; simpl.
  rewrite length_insert; split_and!; try lia.
  - replace (Z.to_nat (ck_depth key + 1 - 1)) with (Z.to_nat (ck_depth key)) by lia.
    rewrite list_lookup_insert_eq by lia; done.
  - replace (Z.to_nat (ck_depth key + 1)) with (S (Z.to_nat (ck_depth key))) by lia.
    erewrite take_S_r by (apply list_lookup_insert_eq; lia).
    by rewrite take_insert_ge by lia.
Qed.

(** The body in terms of [key_push]. *)
Lemma capture_step_eq w key fp :
  key_inv key -> 0 <= fp ->
  capture_step w (key, fp) =
  if ck_depth key <? 8 then
    match read_frame w fp with
    | None => inr (Some (key, false))
    | Some (prev_fp, lr) =>
        if lr =? 0 then inr (Some (key, false)) else
        let key' := if lr =? key_last key then key else key_push key lr in
        if prev_fp <=? fp then inr (Some (key', false)) else inl (key', prev_fp)
    end
  else inr (Some (key, negb (fp =? 0))).
Proof.
  intros Hk Hpos; unfold capture_step, RD_WPCTL_MAX_CALLCHAIN_DEPTH; rewrite (key_last_lookup _ Hk).
  destruct Hk as [Hd Hl]; destruct (ck_depth key <? 8) eqn:Hlt; [|done].
  destruct (read_frame w fp) as [[prev lr]|] eqn:Hf; [|done].
  destruct (lr =? 0) eqn:Hlr; [done|].
  apply read_frame_range in Hf as (Hfp & _ & _).
  assert (Hu : u8 (ck_depth key + 1) = ck_depth key + 1) by (unfold u8; apply Z.mod_small; lia).
  destruct (lr =? key_last key); cbn [negb];
    rewrite ?zinsert_is_Some by lia; cbn [mbind option_bind]; rewrite ?Hu;
    repeat split_if; try done; try lia.
Qed.

Lemma capture_step_measure w st st' :
  key_inv st.1 /\ is_u64 st.2 -> capture_step w st = inl st' ->
  (key_inv st'.1 /\ is_u64 st'.2) /\
  0 <= 18446744073709551616 - st'.2 < 18446744073709551616 - st.2.
Proof.
  destruct st as [key fp], st' as [key' fp']; cbn [fst snd]; intros [Hk Hfp].
  rewrite capture_step_eq by (done || lia); intros H.
  destruct (ck_depth key <? 8) eqn:Hlt; [|done].
  destruct (read_frame w fp) as [[prev lr]|] eqn:E; [|done].
  apply read_frame_range in E as (_ & Hprev & _).
  destruct (lr =? 0); [done|]; destruct (prev <=? fp) eqn:Hle; [done|]; injection H as <- <-.
  split; [split; [|lia]|lia].
  destruct (lr =? key_last key); [done|]; by apply key_push_spec; [|lia].
Qed.

Lemma capture_loop_total w key fp :
  key_inv key -> is_u64 fp -> exists r, iter_loop (capture_step w) 64 (key, fp) = inr r.
Proof.
  intros Hk Hfp.
  destruct (iter_loop (capture_step w) 64 (key, fp)) as [st|r] eqn:E; [|by eexists].
  pose proof (iter_loop_measure (capture_step w) (fun st => key_inv st.1 /\ is_u64 st.2)
    (fun st => 18446744073709551616 - st.2) (capture_step_measure w) 64 (key, fp) st) as H.
  destruct H as [[_ H1] H2]; [done|done|]; cbn [snd] in *.
  change (2 ^ Z.of_nat 64) with 18446744073709551616 in H2; exfalso.
  destruct (decide (fp = 0)) as [->|]; [|lia].
  (* from a null frame pointer the loop leaves at once *)
  assert (E0 : exists r, capture_step w (key, 0) = inr r).
  { rewrite capture_step_eq by (done || lia); destruct (ck_depth key <? 8); by eexists. }
  destruct E0 as [r0 E0]; assert (Hall : forall k, iter_loop (capture_step w) k (key, 0) = inr r0).
  { induction k as [|k IH]; simpl; [done|by rewrite IH]. }
  by rewrite Hall in E.
Qed.

Lemma push_chain_unfold last lr lrs :
  push_chain last (lr :: lrs) =
  (if lr =? last then [] else [lr]) ++ push_chain (if lr =? last then last else lr) lrs.
Proof. simpl; by destruct (lr =? last). Qed.

Lemma key_next key lr :
  key_inv key -> ck_depth key < 8 ->
  let key' := if lr =? key_last key then key else key_push key lr in
  key_inv key' /\
  Contexts.key_chain key ++ push_chain (key_last key) [lr] = Contexts.key_chain key' /\
  key_last key' = (if lr =? key_last key then key_last key else lr).
Proof.
  intros Hk Hlt; rewrite push_chain_unfold; simpl; rewrite app_nil_r.
  destruct (lr =? key_last key); [by rewrite app_nil_r|].
  destruct (key_push_spec key lr Hk Hlt) as (? & ? & ->); done.
Qed.

Lemma key_chain_length key : key_inv key -> zlen (Contexts.key_chain key) = ck_depth key.
Proof. intros [Hd Hl]; unfold Contexts.key_chain; rewrite length_take; lia. Qed.

Lemma capture_loops_inv w key fp r :
  key_inv key -> 0 <= fp -> loops (capture_step w) (key, fp) r ->
  (ck_depth key = 8 /\ exists t, r = Some (key, t)) \/
  (ck_depth key < 8 /\
   match read_frame w fp with
   | None => r = Some (key, false)
   | Some (prev, lr) =>
       if lr =? 0 then r = Some (key, false) else
       let key' := if lr =? key_last key then key else key_push key lr in
       if prev <=? fp then r = Some (key', false) else loops (capture_step w) (key', prev) r
   end).
Proof.
  intros Hk Hfp Hr; assert (Hcase : capture_step w (key, fp) = inr r \/
      exists st', capture_step w (key, fp) = inl st' /\ loops (capture_step w) st' r)
    by (inversion Hr; eauto).
  rewrite capture_step_eq in Hcase by done; destruct Hk.
  destruct (ck_depth key <? 8) eqn:Hd; [right; split; [lia|]|left; split; [lia|]]; [|naive_solver].
  destruct (read_frame w fp) as [[prev lr]|]; [|naive_solver].
  destruct (lr =? 0); [naive_solver|]; destruct (prev <=? fp); naive_solver.
Qed.

(** From an intermediate state the loop appends the rest of the walk, cut to
    eight entries. *)
Lemma capture_loops_spec w fp lrs :
  fp_walk w fp lrs -> 0 <= fp -> forall key r,
  key_inv key -> loops (capture_step w) (key, fp) r ->
  exists key' t, r = Some (key', t) /\ key_inv key' /\ (t = true -> ck_depth key' = 8) /\
    Contexts.key_chain key' = take 8 (Contexts.key_chain key ++ push_chain (key_last key) lrs).
Proof.
  assert (Hfull : forall key, key_inv key -> Contexts.key_chain key = take 8 (Contexts.key_chain key ++ [])).
  { intros key Hk; pose proof (key_chain_length key Hk); destruct Hk.
    by rewrite app_nil_r, take_ge by lia. }
  intros Hw; induction Hw as [fp Hend|fp prev lr Hf%read_frame_spec Hlr Hle|fp prev lr lrs Hf%read_frame_spec Hlr Hgt Hw IH];
    intros Hpos key r Hk Hr; apply capture_loops_inv in Hr as [[Hd [t ->]]|[Hd Hr]]; try done.
  1,3,5: pose proof (key_chain_length key Hk) as Hl; exists key, t; split_and!; try done;
    rewrite take_app_le, take_ge by lia; done.
  - exists key, false; split_and!; [|done|done|by apply Hfull].
    destruct (read_frame w fp) as [[prev lr]|] eqn:E; [apply read_frame_spec, Hend in E as ->|]; done.
  - rewrite Hf, (proj2 (Z.eqb_neq lr 0) Hlr), (proj2 (Z.leb_le _ _) Hle) in Hr; cbn zeta in Hr; subst r.
    destruct (key_next key lr Hk Hd) as (Hk' & -> & _).
    eexists _, _; split_and!; [done|done|done|]; rewrite (Hfull _ Hk') at 1; by rewrite app_nil_r.
  - rewrite Hf, (proj2 (Z.eqb_neq lr 0) Hlr), (proj2 (Z.leb_gt _ _) Hgt) in Hr; cbn zeta in Hr.
    destruct (key_next key lr Hk Hd) as (Hk' & Hc & Hl').
    destruct (IH ltac:(lia) _ _ Hk' Hr) as (key' & t & -> & Hki & Ht & Hchain).
    exists key', t; split_and!; try done; rewrite Hchain, Hl', <- Hc.
    rewrite (push_chain_unfold _ lr lrs), (push_chain_unfold _ lr []), <- !app_assoc; done.
Qed.

(** C22. In user mode with a non-null PC the frame-pointer capture terminates on
    every user memory.  The chain it stores is the PC followed by the return
    addresses of the frame walk, where a return address equal to the one kept
    before it is dropped (so direct recursion shows once), cut to eight entries.
    The stored depth is between 1 and 8, no access leaves the eight-entry buffer,
    and the truncation counter moves only when eight entries are stored. *)
Theorem callchain_is_cut_frame_walk (th : rd_thread_ctx) (r : pt_regs) (w : world) (fp : Z)
    (Hmode : user_mode r = true) (Hip : instruction_pointer r <> 0)
    (Hfp : pr_regs r !!z 29 = Some fp) (Hfp64 : is_u64 fp) :
  exists key th' lrs,
    rd_capture_callchain th (Some r) w = Some (key, th') /\
    fp_walk w fp lrs /\ 1 <= ck_depth key <= RD_WPCTL_MAX_CALLCHAIN_DEPTH /\
    length (ck_ips key) = 8%nat /\
    Contexts.key_chain key =
      take 8 (instruction_pointer r :: push_chain (instruction_pointer r) lrs) /\
    (th' = th \/ (ck_depth key = 8 /\ th' = th ⟦ callchain_truncated ::= inc64 ⟧)).
Proof.
  unfold rd_capture_callchain; rewrite Hmode, (proj2 (Z.eqb_neq _ 0) Hip); cbn [negb orb].
  rewrite zinsert_is_Some by done; cbn [mbind option_bind]; rewrite Hfp; cbn [mbind option_bind].
  set (key0 := mk_callchain_key 1 _).
  assert (Hk0 : key_inv key0) by (split; [split; discriminate|done]).
  destruct (capture_loop_total w key0 fp Hk0 Hfp64) as [res Hres].
  destruct (fp_walk_exists w fp Hfp64) as [lrs Hw].
  destruct (capture_loops_spec w fp lrs Hw ltac:(lia) key0 res Hk0) as (key & t & -> & Hk & Ht & Hchain);
    [by eapply iter_loop_sound|].
  rewrite Hres; exists key, (if t then th ⟦ callchain_truncated ::= inc64 ⟧ else th), lrs.
  unfold RD_WPCTL_MAX_CALLCHAIN_DEPTH; destruct Hk; split_and!; try done; [lia..|].
  destruct t; [right; split; [by apply Ht|done]|by left].
Qed.

Lemma capture_callchain_wf th regs w :
  (forall r, regs = Some r -> pt_regs_wf r) ->
  exists key th', rd_capture_callchain th regs w = Some (key, th') /\ Contexts.key_wf key /\
    (th' = th \/ th' = th ⟦ callchain_failed ::= inc64 ⟧ \/
     th' = th ⟦ callchain_truncated ::= inc64 ⟧).
Proof.
  intros Hwf; unfold rd_capture_callchain; destruct regs as [r|].
  2: { eexists _, _; split_and!; [done|split; [split; discriminate|done]|auto]. }
  destruct (_ || _) eqn:G.
  { eexists _, _; split_and!; [done|split; [split; discriminate|done]|auto]. }
  destruct (Hwf r eq_refl) as (Hlen & Hall & _).
  rewrite zinsert_is_Some by done; cbn [mbind option_bind].
  destruct (proj2 (zlookup_is_Some (pr_regs r) 29)) as [fp Hfp]; [lia|]; rewrite Hfp; cbn [mbind option_bind].
  apply zlookup_Some in Hfp as [_ Hfp]; eapply Forall_lookup_1 in Hall; [|done].
  set (key0 := mk_callchain_key 1 _).
  assert (Hk0 : key_inv key0) by (split; [split; discriminate|done]).
  destruct (capture_loop_total w key0 fp Hk0 Hall) as [res Hres].
  destruct (fp_walk_exists w fp Hall) as [lrs Hw].
  destruct (capture_loops_spec w fp lrs Hw ltac:(lia) key0 res Hk0) as (key & t & -> & Hk & _);
    [by eapply iter_loop_sound|].
  rewrite Hres; eexists _, _; split_and!; [done| |destruct t; auto].
  destruct Hk; split; [lia|done].
Qed.

End callchain.

(** Two frames above a leaf: [main] called through one intermediate function. *)
Definition demo_world : @world Toy.toy_kernel :=
  Toy.mk_toy 1 ∅ ∅ 1000 ∅
    (list_to_map (imap (fun i b => (Z.of_nat (4096 + i), b))
       ([32; 16; 0; 0; 0; 0; 0; 0; 0; 32; 64; 0; 0; 0; 0; 0] ++ replicate 16 0 ++
        [0; 0; 0; 0; 0; 0; 0; 0; 0; 64; 64; 0; 0; 0; 0; 0]))) [].
Definition demo_regs : pt_regs :=
  mk_pt_regs (<[29%nat := 4096]> (replicate 31 7)) 4000 4198400 0.

Example demo_chain :
  (Contexts.key_chain ∘ fst) <$>
    rd_capture_callchain (K := Toy.toy_kernel) zero_thread (Some demo_regs) demo_world =
  Some [4198400; 4202496; 4210688].
Proof. vm_compute. reflexivity. Qed.

Lemma callchain_is_cut_frame_walk_witness :
  exists key th' lrs,
    rd_capture_callchain (K := Toy.toy_kernel) zero_thread (Some demo_regs) demo_world
      = Some (key, th') /\ fp_walk demo_world 4096 lrs.
Proof.
  destruct (callchain_is_cut_frame_walk (K := Toy.toy_kernel) zero_thread demo_regs demo_world 4096)
    as (key & th' & lrs & H1 & H2 & _).
  - reflexivity.
  - discriminate.
  - reflexivity.
  - split; [discriminate|reflexivity].
  - exists key, th', lrs; split; [exact H1|exact H2].
Defined.

End Callchain.

(** * Register and stack snapshots *)
Module Snapshot.
Section snapshot.
Context `{K : KernelApi}.

(** One iteration of the copy loop; the state is [copied] and the bytes. *)
Definition copy_chunk (w : world) (sp want : Z) (st : Z * list Z)
    : (Z * list Z) + (Z * list Z) :=
  let '(copied, bytes) := st in
  if copied <? want then
    let chunk := Z.min 256 (want - copied) in
    let src := u64 (sp + copied) in
    if negb (access_ok src chunk) then inr st else
    match copy_from_user_nofault src chunk w with
    | None => inr st
    | Some bs => inl (copied + chunk, bytes ++ bs)
    end
  else inr st.

Definition copy_loop (w : world) (sp want : Z) : Z * list Z :=
  match iter_loop (copy_chunk w sp want) 6 (0, []) with inl st => st | inr st => st end.

Definition rd_copy_user_stack_snapshot (ses : rd_session) (th : rd_thread_ctx)
    (snap : rd_wpctl_dwarf_snapshot) (sp : Z) (w : world)
    : rd_wpctl_dwarf_snapshot * rd_thread_ctx :=
  let want := if RD_WPCTL_MAX_DWARF_STACK_BYTES <? dwarf_stack_bytes ses
              then RD_WPCTL_MAX_DWARF_STACK_BYTES else dwarf_stack_bytes ses in
  let snap := snap ⟦ snap_stack_base := sp ⟧ ⟦ snap_stack_size := 0 ⟧ in
  if (want =? 0) || (sp =? 0) then (snap, th) else
  let '(copied, bytes) := copy_loop w sp want in
  (snap ⟦ snap_stack_size := copied ⟧ ⟦ snap_stack := bytes ⟧,
   if copied =? 0 then th ⟦ dwarf_stack_copy_failed ::= inc64 ⟧ else th).

Definition rd_capture_dwarf_snapshot (ses : rd_session) (th : rd_thread_ctx)
    (regs : option pt_regs) (w : world) : rd_wpctl_dwarf_snapshot * rd_thread_ctx :=
  match regs with
  | None => (zero_snapshot, th)
  | Some r =>
      if negb (user_mode r) then (zero_snapshot, th) else
      let snap := zero_snapshot ⟦ snap_regs := take 31 (pr_regs r) ⟧ ⟦ snap_sp := pr_sp r ⟧
                    ⟦ snap_pc := instruction_pointer r ⟧ ⟦ snap_pstate := pr_pstate r ⟧ in
      rd_copy_user_stack_snapshot ses th snap (pr_sp r) w
  end.

(** [n] bytes of user stack from [sp], as chunks of at most 256 bytes that were
    each readable. *)
Inductive copied_stack (w : world) (sp want : Z) : Z -> list Z -> Prop :=
| cs_nil : copied_stack w sp want 0 []
| cs_chunk c bytes bs :
    copied_stack w sp want c bytes -> c < want ->
    access_ok (u64 (sp + c)) (Z.min 256 (want - c)) = true ->
    copy_from_user_nofault (u64 (sp + c)) (Z.min 256 (want - c)) w = Some bs ->
    copied_stack w sp want (c + Z.min 256 (want - c)) (bytes ++ bs).

(** The copy stopped: at the requested size or before an unreadable chunk. *)
Definition copy_stopped (w : world) (sp want c : Z) : Prop :=
  want <= c \/ access_ok (u64 (sp + c)) (Z.min 256 (want - c)) = false \/
  copy_from_user_nofault (u64 (sp + c)) (Z.min 256 (want - c)) w = None.

Lemma copy_loop_spec w sp want :
  0 <= want <= 8192 ->
  let '(c, bytes) := copy_loop w sp want in
  copied_stack w sp want c bytes /\ 0 <= c <= want /\ copy_stopped w sp want c.
Proof.
  intros Hw; set (I := fun st : Z * list Z => copied_stack w sp want st.1 st.2 /\ 0 <= st.1 <= want
    /\ (st.1 mod 256 = 0 \/ st.1 = want)).
  set (Q := fun st : Z * list Z => copied_stack w sp want st.1 st.2 /\ 0 <= st.1 <= want /\
                                   copy_stopped w sp want st.1).
  assert (Hstep : forall st, I st ->
            match copy_chunk w sp want st with
            | inl st' => I st' /\ st.1 < st'.1 /\ want - st'.1 <= Z.max 0 (want - st.1 - 256)
            | inr r => Q r
            end).
  { intros [c bytes] (Hc & Hr & Hm); unfold copy_chunk, Q, copy_stopped; cbn [fst snd] in *.
    destruct (c <? want) eqn:Hlt; cbn [fst snd]; [|split_and!; auto; lia].
    destruct (access_ok _ _) eqn:Ha; cbn [negb fst snd]; [|auto].
    destruct (copy_from_user_nofault _ _ _) eqn:Hcp; cbn [fst snd]; [|auto].
    unfold I; cbn [fst snd]; split; [|lia]; split_and!; [apply cs_chunk; [done|lia|done|done]|lia|lia|].
    destruct Hm as [Hm|]; [|lia]; destruct (decide (want - c <= 256)); [right; lia|left].
    rewrite Z.min_l by lia; rewrite Z.add_mod, Hm by lia; reflexivity. }
  unfold copy_loop; destruct (iter_loop _ 6 (0, [])) as [[c bytes]|[c bytes]] eqn:E.
  - exfalso; apply (iter_loop_measure _ I (fun st => (want - st.1 + 255) / 256)) in E.
    + destruct E as [_ E]; cbn in E; assert ((want - 0 + 255) / 256 < 64) by (apply Z.div_lt_upper_bound; lia).
      lia.
    + intros st st' HI Hs; pose proof (Hstep st HI) as H; rewrite Hs in H.
      destruct H as (HI' & Hlt & Hle); split; [done|].
      destruct HI' as (_ & [_ Hw'] & _), HI as (_ & [_ Hw0] & _).
      split; [apply Z.div_pos; lia|].
      apply Z.div_lt_upper_bound; [lia|].
      pose proof (Z_div_mod_eq_full (want - st.1 + 255) 256).
      pose proof (Z.mod_pos_bound (want - st.1 + 255) 256); lia.
    + split; [constructor|cbn; split; [lia|by left]].
  - pose proof (iter_loop_inv (copy_chunk w sp want) I Q) as H.
    specialize (H ltac:(intros st HI; specialize (Hstep st HI);
      destruct (copy_chunk w sp want st); naive_solver) 6%nat (0, [])).
    rewrite E in H; apply H; split; [constructor|cbn; split; [lia|by left]].
Qed.

Lemma copied_stack_length `{!KernelValues K} w sp want c bytes :
  copied_stack w sp want c bytes -> zlen bytes = c.
Proof.
  induction 1 as [|c bytes bs _ IH _ _ [Hl _]%user_bytes_range]; [done|].
  rewrite length_app; lia.
Qed.

(** C23. A DWARF snapshot taken in user mode holds the 31 general registers, the
    stack pointer, the PC and the processor state, and a copy of the user stack
    from the stack pointer on.  The copy is made of whole chunks of 256 bytes (the
    last one shorter at the requested size), each of which was readable, and stops
    at the requested size or before the first chunk that is not readable as a
    whole; the requested size is the configured one, at most 8192, and 0 for a null
    stack pointer.  [stack_size] is the number of bytes held, and a copy that was
    requested but is empty is counted as a failure. *)
Theorem dwarf_snapshot_is_stack_prefix `{!KernelValues K} (ses : rd_session) (th : rd_thread_ctx)
    (r : pt_regs) (w : world)
    (Hmode : user_mode r = true) (Hregs : pt_regs_wf r) (Hbytes : 0 <= dwarf_stack_bytes ses) :
  let want := if pr_sp r =? 0 then 0 else Z.min 8192 (dwarf_stack_bytes ses) in
  let '(snap, th') := rd_capture_dwarf_snapshot ses th (Some r) w in
  snap_regs snap = pr_regs r /\ snap_sp snap = pr_sp r /\ snap_pc snap = instruction_pointer r /\
  snap_pstate snap = pr_pstate r /\ snap_stack_base snap = pr_sp r /\
  copied_stack w (pr_sp r) want (snap_stack_size snap) (snap_stack snap) /\
  zlen (snap_stack snap) = snap_stack_size snap /\ 0 <= snap_stack_size snap <= want /\
  copy_stopped w (pr_sp r) want (snap_stack_size snap) /\
  th' = (if (0 <? want) && (snap_stack_size snap =? 0) then th ⟦ dwarf_stack_copy_failed ::= inc64 ⟧ else th).
Proof.
  unfold rd_capture_dwarf_snapshot, rd_copy_user_stack_snapshot,
    RD_WPCTL_MAX_DWARF_STACK_BYTES in *; rewrite Hmode; cbn [negb].
  destruct Hregs as (Hlen & _); assert (Hreg : take 31 (pr_regs r) = pr_regs r) by (by rewrite take_ge by lia).
  replace (if 8192 <? dwarf_stack_bytes ses then 8192 else dwarf_stack_bytes ses) with (Z.min 8192 (dwarf_stack_bytes ses))
    by (split_if; lia).
  destruct ((_ =? 0) || (_ =? 0)) eqn:Hz.
  - assert (Hw0 : (if pr_sp r =? 0 then 0 else Z.min 8192 (dwarf_stack_bytes ses)) = 0) by (split_if; lia).
    rewrite Hw0; cbn; split_and!; try done; [constructor|by left].
  - apply orb_false_iff in Hz as [Hz1 ->].
    pose proof (copy_loop_spec w (pr_sp r) (Z.min 8192 (dwarf_stack_bytes ses))) as Hl.
    destruct (copy_loop _ _ _) as [c bytes]; destruct Hl as (Hc & Hr & Hs); [lia|].
    apply copied_stack_length in Hc as Hlc; cbn; rewrite (proj2 (Z.ltb_lt 0 _)) by lia; split_and!; try done; lia.
Qed.

Lemma capture_dwarf_snapshot_frame ses th regs w :
  let '(snap, th') := rd_capture_dwarf_snapshot ses th regs w in
  th' = th \/ th' = th ⟦ dwarf_stack_copy_failed ::= inc64 ⟧.
Proof.
  unfold rd_capture_dwarf_snapshot, rd_copy_user_stack_snapshot.
  destruct regs as [r|]; [|by left]; destruct (negb _); [by left|].
  destruct (_ || _); [by left|]; destruct (copy_loop _ _ _) as [c b].
  destruct (c =? 0); auto.
Qed.

End snapshot.

Definition demo_session : rd_session := fresh_session 1 ⟦ dwarf_stack_bytes := 16 ⟧.
Definition demo_regs : pt_regs := mk_pt_regs (replicate 31 7) 4096 4198400 0.

Lemma snapshot_regs_wf : pt_regs_wf demo_regs.
Proof. split; [reflexivity|]; split; [apply Forall_replicate; lia|cbn; lia]. Qed.

Lemma dwarf_snapshot_is_stack_prefix_witness :
  let '(snap, th') := rd_capture_dwarf_snapshot (K := Toy.toy_kernel) demo_session zero_thread
                        (Some demo_regs) Callchain.demo_world in
  zlen (snap_stack snap) = snap_stack_size snap.
Proof.
  generalize (dwarf_snapshot_is_stack_prefix (K := Toy.toy_kernel)
    (KernelValues0 := Toy.toy_values) demo_session zero_thread demo_regs Callchain.demo_world
    eq_refl snapshot_regs_wf ltac:(discriminate)).
  generalize (rd_capture_dwarf_snapshot (K := Toy.toy_kernel) demo_session zero_thread
    (Some demo_regs) Callchain.demo_world).
  intros [snap th'] (_ & _ & _ & _ & _ & _ & H & _); exact H.
Defined.

End Snapshot.
