(* ===== verification/Handlers.v ===== *)
(** The sampling path of [kernel/rd_wpctl.c]: what one breakpoint hit and one
    watchpoint hit do to a thread context, with the slot reservoir, the debug
    budget, the attribute initialisers and the reset of a thread.

    The handlers of one thread run on that thread with its events pinned to it,
    so each is one transition.  A definition returns [None] exactly where the C
    code would dereference a null pointer, index outside an array or shift by
    an undefined count; the theorems show when that cannot happen.  [env] is
    the kernel state together with the debug tokens. *)
From S2P Require Import Prelude Uapi Buckets EffAddr KernelApi KTypes Tables Callchain.
Import Buckets EffAddr Contexts PairHist Callchain Snapshot.

(** [rd_debug_take_token], as one atomic step. *)
Definition rd_debug_take_token (tokens : Z) : bool * Z :=
  if tokens <=? 0 then (false, tokens) else (true, tokens - 1).

(** xorshift64*: the output and the next state. *)
Definition rd_next_random (state : Z) : Z * Z :=
  let x := if state =? 0 then RD_RNG_SEED else state in
  let x := Z.lxor x (Z.shiftr x 12) in
  let x := Z.lxor x (u64 (Z.shiftl x 25)) in
  let x := Z.lxor x (Z.shiftr x 27) in
  (u64 (x * 2685821657736338717), x).

(** The first [n] elements of an array, [None] when it has fewer: the reads of
    a loop over the indices below [n]. *)
Definition array_prefix {A} (l : list A) (n : Z) : option (list A) :=
  if (0 <=? n) && (n <=? zlen l) then Some (take (Z.to_nat n) l) else None.

(** * Slot choice *)

Fixpoint find_idle (slots : list wp_slot) (i : Z) : option Z :=
  match slots with
  | [] => None
  | s :: rest => if slot_armed s then find_idle rest (i + 1) else Some i
  end.

(** The replacement loop: per slot one draw, a draw divisible by the slot's
    sample count replaces it. *)
Fixpoint replace_scan (slots : list wp_slot) (i rng : Z) : option Z * list wp_slot * Z :=
  match slots with
  | [] => (None, [], rng)
  | s :: rest =>
      let samples := if wp_samples s =? 0 then 1 else wp_samples s in
      let '(draw, rng) := rd_next_random rng in
      let s' := if wp_samples s =? U64_MAX then s else s ⟦ wp_samples ::= inc64 ⟧ in
      if draw mod samples =? 0 then (Some i, s' :: rest, rng) else
      let '(found, rest', rng) := replace_scan rest (i + 1) rng in
      (found, s' :: rest', rng)
  end.

(** [Some (slot_index, is_replacement)] when the candidate is accepted. *)
Definition rd_pick_wp_slot (ses : rd_session) (th : rd_thread_ctx)
    : option (option (Z * bool) * rd_thread_ctx) :=
  let capacity := wp_capacity ses in
  let th := th ⟦ reservoir_seen ::= inc64 ⟧ in
  if capacity =? 0 then Some (None, th) else
  slots ← t_wp_slots th;
  pre ← array_prefix slots capacity;
  match find_idle pre 0 with
  | Some i => Some (Some (i, false), th ⟦ reservoir_accepted ::= inc64 ⟧)
  | None =>
      let '(found, pre', rng) := replace_scan pre 0 (t_rng th) in
      let th := th ⟦ t_wp_slots := Some (pre' ++ drop (Z.to_nat capacity) slots) ⟧
                   ⟦ t_rng := rng ⟧ in
      match found with
      | Some i => Some (Some (i, true), th ⟦ reservoir_accepted ::= inc64 ⟧)
      | None => Some (None, th ⟦ reservoir_rejected ::= inc64 ⟧)
      end
  end.

(** * Slot metadata *)

(** The fields cleared; [idle_addr] and [generation] are kept. *)
Definition cleared_slot (s : wp_slot) : wp_slot :=
  mk_wp_slot RD_WP_IDLE (wp_idle_addr s) 0 0 0 0 0 0 (wp_generation s) 0 1.

Definition rd_clear_slot_metadata (ses : rd_session) (th : rd_thread_ctx) (slot_index : Z)
    : option rd_thread_ctx :=
  if wp_capacity ses <=? slot_index then Some th else
  slots ← t_wp_slots th;
  s ← slots !!z slot_index;
  slots' ← zinsert slots slot_index (cleared_slot s);
  let th := th ⟦ t_wp_slots := Some slots' ⟧ in
  match t_seed_snaps th with
  | None => Some th
  | Some snaps =>
      snaps' ← zinsert snaps slot_index zero_snapshot;
      Some (th ⟦ t_seed_snaps := Some snaps' ⟧)
  end.

(** Claim a raw event slot for a DWARF-mode hit. *)
Definition rd_reserve_dwarf_event_locked (ses : rd_session) (th : rd_thread_ctx)
    : option Z * rd_thread_ctx :=
  if negb (callchain_mode ses =? RD_CALLCHAIN_DWARF) ||
     bool_decide (t_dwarf_events th = None) ||
     (dwarf_event_capacity ses =? 0) then (None, th) else
  if dwarf_event_capacity ses <=? dwarf_event_used th then
    (None, th ⟦ dwarf_event_dropped ::= inc64 ⟧) else
  (Some (dwarf_event_used th), th ⟦ dwarf_event_used ::= inc32 ⟧).

Section handlers.
Context `{K : KernelApi}.

Record env := mk_env { e_world : world; e_tokens : Z }.

(** * Attributes *)

Definition rd_init_bp_attr (pc period : Z) : perf_event_attr :=
  hw_breakpoint_init zero_attr ⟦ attr_bp_type := HW_BREAKPOINT_X ⟧ ⟦ attr_bp_addr := pc ⟧
    ⟦ attr_bp_len := HW_BREAKPOINT_LEN_4 ⟧ ⟦ attr_sample_period := period ⟧
    ⟦ attr_disabled := true ⟧ ⟦ attr_exclude_kernel := true ⟧ ⟦ attr_exclude_hv := true ⟧.

Definition rd_init_wp_attr (addr len : Z) : perf_event_attr :=
  hw_breakpoint_init zero_attr ⟦ attr_bp_type := HW_BREAKPOINT_RW ⟧ ⟦ attr_bp_addr := addr ⟧
    ⟦ attr_bp_len := len ⟧ ⟦ attr_sample_period := 1 ⟧
    ⟦ attr_disabled := true ⟧ ⟦ attr_exclude_kernel := true ⟧ ⟦ attr_exclude_hv := true ⟧.

Definition rd_init_mem_attr : perf_event_attr :=
  zero_attr ⟦ attr_type := PERF_TYPE_RAW ⟧ ⟦ attr_config := RD_ARM64_MEM_ACCESS_RAW_EVENT ⟧
    ⟦ attr_pinned := true ⟧ ⟦ attr_disabled := true ⟧ ⟦ attr_exclude_kernel := true ⟧
    ⟦ attr_exclude_hv := true ⟧.

(** * Events of a thread *)

(** [None] is the [-EINVAL] of a thread without its access counter. *)
Definition rd_read_mem_access (th : rd_thread_ctx) (w : world) : option Z * world :=
  match t_mem_event th with
  | None => (None, w)
  | Some ev => let '(v, w) := perf_event_read_value ev w in (Some v, w)
  end.

(** [f] on each non-null event of an array, in index order. *)
Definition each_event (f : Z -> world -> world) (evs : list (option Z)) (w : world) : world :=
  foldl (fun w ev => match ev with Some ev => f ev w | None => w end) w evs.

Definition rd_enable_thread_events (ses : rd_session) (th : rd_thread_ctx) (w : world)
    : option world :=
  let w := each_event perf_event_enable [t_mem_event th] w in
  bps ← t_bp_events th;
  bps ← array_prefix bps (target_count ses);
  wps ← t_wp_events th;
  wps ← array_prefix wps (wp_capacity ses);
  Some (each_event perf_event_enable wps (each_event perf_event_enable bps w)).

Definition rd_disable_thread_events (ses : rd_session) (th : rd_thread_ctx) (w : world)
    : option world :=
  wps ← t_wp_events th;
  wps ← array_prefix wps (wp_capacity ses);
  bps ← t_bp_events th;
  bps ← array_prefix bps (target_count ses);
  let w := each_event perf_event_disable bps (each_event perf_event_disable wps w) in
  Some (each_event perf_event_disable [t_mem_event th] w).

Definition rd_modify_slot (ses : rd_session) (th : rd_thread_ctx) (slot_index addr len : Z)
    (w : world) : option (Z * world) :=
  match t_wp_events th with
  | None => Some (- EINVAL, w)
  | Some evs =>
      if wp_capacity ses <=? slot_index then Some (- EINVAL, w) else
      ev ← evs !!z slot_index;
      match ev with
      | None => Some (- EINVAL, w)
      | Some ev =>
          let attr := rd_init_wp_attr addr len in
          let attr := if s_running ses && t_active th then attr ⟦ attr_disabled := false ⟧
                      else attr in
          Some (modify_user_hw_breakpoint ev attr w)
      end
  end.

(** * A breakpoint hit *)

(** The slot contents written under the lock for an accepted candidate. *)
Definition armed_slot (s : wp_slot) (seed_va seed_access pc_off ctx size target_index : Z)
    : wp_slot :=
  let g := u32 (wp_generation s + 1) in
  mk_wp_slot RD_WP_ARMED (wp_idle_addr s) seed_va seed_access pc_off ctx size target_index
    (if g =? 0 then 1 else g) 1 1.

Definition arm_slot (th : rd_thread_ctx) (slot_index : Z) (is_replacement : bool)
    (fill : wp_slot -> wp_slot) : option (Z * rd_thread_ctx) :=
  slots ← t_wp_slots th;
  s ← slots !!z slot_index;
  let th := if is_replacement && slot_armed s then th ⟦ evictions ::= inc64 ⟧ else th in
  slots' ← zinsert slots slot_index (fill s);
  Some (wp_idle_addr s, th ⟦ t_wp_slots := Some slots' ⟧).

(** The DWARF seed snapshot of a slot, taken after it is armed. *)
Definition take_seed_snapshot (ses : rd_session) (th : rd_thread_ctx) (slot_index : Z)
    (regs : option pt_regs) (w : world) : option rd_thread_ctx :=
  match callchain_mode ses =? RD_CALLCHAIN_DWARF, t_seed_snaps th with
  | true, Some snaps =>
      let '(snap, th) := rd_capture_dwarf_snapshot ses th regs w in
      snaps' ← zinsert snaps slot_index snap;
      Some (th ⟦ t_seed_snaps := Some snaps' ⟧)
  | _, _ => Some th
  end.

(** Point the hardware slot at the seed; on failure drop the candidate and
    return the slot to its idle address. *)
Definition program_slot (ses : rd_session) (th : rd_thread_ctx)
    (slot_index seed_va size idle_addr : Z) (w : world) : option (rd_thread_ctx * world) :=
  '(ret, w) ← rd_modify_slot ses th slot_index seed_va size w;
  if truthy ret then
    th ← rd_clear_slot_metadata ses (th ⟦ dropped ::= inc64 ⟧) slot_index;
    '(_, w) ← rd_modify_slot ses th slot_index idle_addr RD_IDLE_WP_LEN w;
    Some (th, w)
  else Some (th, w).

Definition rd_handle_bp_hit (ses : rd_session) (th : rd_thread_ctx) (target_index : Z)
    (regs : option pt_regs) (e : env) : option (rd_thread_ctx * env) :=
  match regs with
  | None => Some (th, e)
  | Some r =>
      if negb (t_active th) || negb (s_running ses) || (target_count ses <=? target_index)
      then Some (th, e) else
      target ← targets ses !!z target_index;
      seed_va ← rd_compute_effective_address (decode target) r;
      let size := access_size (decode target) in
      match rd_read_mem_access th (e_world e) with
      | (None, w) => Some (th, mk_env w (e_tokens e))
      | (Some seed_access, w) =>
          '(seed_callchain, th) ←
            (if callchain_mode ses =? RD_CALLCHAIN_FP then rd_capture_callchain th regs w
             else Some (zero_callchain_key, th));
          '(picked, th) ← rd_pick_wp_slot ses (th ⟦ candidate_samples ::= inc64 ⟧);
          match picked with
          | None => Some (th, mk_env w (e_tokens e))
          | Some (slot_index, is_replacement) =>
              if wp_capacity ses <=? slot_index then
                Some (th ⟦ reservoir_rejected ::= inc64 ⟧, mk_env w (e_tokens e)) else
              '(ctx, th) ←
                (if (callchain_mode ses =? RD_CALLCHAIN_FP) && truthy (ck_depth seed_callchain)
                 then rd_get_context_id_locked th seed_callchain else Some (0, th));
              '(idle_addr, th) ← arm_slot th slot_index is_replacement
                (fun s => armed_slot s seed_va seed_access (pc_offset target) ctx size target_index);
              th ← take_seed_snapshot ses th slot_index regs w;
              let tokens := (rd_debug_take_token (e_tokens e)).2 in
              '(th, w) ← program_slot ses th slot_index seed_va size idle_addr w;
              Some (th, mk_env w tokens)
          end
      end
  end.

(** * A watchpoint hit *)

(** The per-target histogram increment. *)
Definition bump_log2_hist (ses : rd_session) (th : rd_thread_ctx) (target_index bucket : Z)
    : option rd_thread_ctx :=
  let hist_index := target_index * RD_WPCTL_LOG2_BUCKETS + bucket in
  match t_log2_hist th with
  | None => Some th
  | Some h =>
      if (target_index <? target_count ses) &&
         (hist_index <? target_count ses * RD_WPCTL_LOG2_BUCKETS) then
        v ← h !!z hist_index;
        h' ← zinsert h hist_index (inc64 v);
        Some (th ⟦ t_log2_hist := Some h' ⟧)
      else Some th
  end.

(** The raw event of a DWARF-mode hit. *)
Definition write_dwarf_event (th : rd_thread_ctx) (slot_index event_index bucket target_index
    seed_pc_offset reuse_pc seed_access hit_access delta : Z) : option rd_thread_ctx :=
  events ← t_dwarf_events th;
  seed ← match t_seed_snaps th with
         | None => Some None
         | Some snaps => s ← snaps !!z slot_index; Some (Some s)
         end;
  reuse ← match t_reuse_snaps th with
          | None => Some None
          | Some snaps => s ← snaps !!z slot_index; Some (Some s)
          end;
  events' ← zinsert events event_index
    (mk_dwarf_event_req 0 event_index 1 bucket (t_tid th) target_index seed_pc_offset
       (default 0 (snap_pc <$> seed)) reuse_pc seed_access hit_access delta
       (default zero_snapshot seed) (default zero_snapshot reuse));
  Some (th ⟦ t_dwarf_events := Some events' ⟧).

Definition take_reuse_snapshot (ses : rd_session) (th : rd_thread_ctx) (slot_index : Z)
    (regs : option pt_regs) (w : world) : option rd_thread_ctx :=
  match callchain_mode ses =? RD_CALLCHAIN_DWARF, t_reuse_snaps th with
  | true, Some snaps =>
      let '(snap, th) := rd_capture_dwarf_snapshot ses th regs w in
      snaps' ← zinsert snaps slot_index snap;
      Some (th ⟦ t_reuse_snaps := Some snaps' ⟧)
  | _, _ => Some th
  end.

(** [delta = hit - seed - 1], 0 when the counter did not advance. *)
Definition reuse_delta (seed_access hit_access : Z) : Z :=
  if seed_access <? hit_access then u64 (hit_access - seed_access - 1) else 0.

(** A measured hit: context, histograms, event, [hits++]. *)
Definition record_hit (ses : rd_session) (th : rd_thread_ctx) (s : wp_slot) (slot_index : Z)
    (reuse_callchain : rd_callchain_key) (reuse_pc hit_access : Z) : option rd_thread_ctx :=
  let delta := reuse_delta (wp_seed_access s) hit_access in
  let bucket := rd_log2_bucket delta in
  '(reuse_ctx, th) ←
    (if (callchain_mode ses =? RD_CALLCHAIN_FP) && truthy (ck_depth reuse_callchain)
     then rd_get_context_id_locked th reuse_callchain else Some (0, th));
  th ← bump_log2_hist ses th (wp_target_index s) bucket;
  th ← rd_add_pair_hist_locked th (wp_seed_pc_offset s) (wp_seed_context_id s)
         reuse_pc reuse_ctx bucket;
  let '(event, th) := if callchain_mode ses =? RD_CALLCHAIN_DWARF
                      then rd_reserve_dwarf_event_locked ses th else (None, th) in
  let th := th ⟦ hits ::= inc64 ⟧ in
  match event with
  | None => Some th
  | Some event_index =>
      write_dwarf_event th slot_index event_index bucket (wp_target_index s)
        (wp_seed_pc_offset s) reuse_pc (wp_seed_access s) hit_access delta
  end.

(** Back to idle: metadata, then the hardware slot. *)
Definition retire_slot (ses : rd_session) (th : rd_thread_ctx) (slot_index idle_addr : Z)
    (w : world) : option (rd_thread_ctx * world) :=
  th ← rd_clear_slot_metadata ses th slot_index;
  '(_, w) ← rd_modify_slot ses th slot_index idle_addr RD_IDLE_WP_LEN w;
  Some (th, w).

Definition rd_handle_wp_hit (ses : rd_session) (th : rd_thread_ctx) (slot_index : Z)
    (regs : option pt_regs) (e : env) : option (rd_thread_ctx * env) :=
  if negb (t_active th) || negb (s_running ses) then Some (th, e) else
  if wp_capacity ses <=? slot_index then Some (th, e) else
  slots ← t_wp_slots th;
  s ← slots !!z slot_index;
  if negb (slot_armed s) then Some (th, e) else
  if truthy (wp_skip_first_hit s) then
    slots' ← zinsert slots slot_index (s ⟦ wp_skip_first_hit := 0 ⟧);
    Some (th ⟦ t_wp_slots := Some slots' ⟧,
          mk_env (e_world e) (rd_debug_take_token (e_tokens e)).2)
  else if target_count ses <=? wp_target_index s then
    '(th, w) ← retire_slot ses (th ⟦ dropped ::= inc64 ⟧) slot_index (wp_idle_addr s) (e_world e);
    Some (th, mk_env w (e_tokens e))
  else
  let reuse_pc := match regs with Some r => instruction_pointer r | None => 0 end in
  '(reuse_callchain, th) ←
    (if callchain_mode ses =? RD_CALLCHAIN_FP then rd_capture_callchain th regs (e_world e)
     else Some (zero_callchain_key, th));
  th ← take_reuse_snapshot ses th slot_index regs (e_world e);
  '(th, w, tokens) ←
    match rd_read_mem_access th (e_world e) with
    | (Some hit_access, w) =>
        th ← record_hit ses th s slot_index reuse_callchain reuse_pc hit_access;
        Some (th, w, (rd_debug_take_token (e_tokens e)).2)
    | (None, w) => Some (th ⟦ dropped ::= inc64 ⟧, w, e_tokens e)
    end;
  slots ← t_wp_slots th;
  s' ← slots !!z slot_index;
  th ← (if slot_armed s' then rd_clear_slot_metadata ses th slot_index else Some th);
  '(_, w) ← rd_modify_slot ses th slot_index (wp_idle_addr s) RD_IDLE_WP_LEN w;
  Some (th, mk_env w tokens).

(** * Reset *)

(** [memset] of the first [n] elements of an array to zero. *)
Definition zero_prefix {A} (z : A) (l : list A) (n : Z) : option (list A) :=
  if (0 <=? n) && (n <=? zlen l) then Some (replicate (Z.to_nat n) z ++ drop (Z.to_nat n) l)
  else None.

(** The same on an array that may not be allocated. *)
Definition zero_array {A} (z : A) (l : option (list A)) (n : Z) : option (option (list A)) :=
  match l with
  | None => Some None
  | Some l => l' ← zero_prefix z l n; Some (Some l')
  end.

(** Every slot back to its idle address; the first error is kept. *)
Definition reset_slot_addresses (ses : rd_session) (th : rd_thread_ctx) (w : world)
    : option (Z * world) :=
  match t_active th, t_wp_events th, t_wp_slots th with
  | true, Some _, Some slots =>
      for_upto (Z.to_nat (wp_capacity ses))
        (fun i '(ret, w) =>
           s ← slots !!z i;
           '(mod_ret, w) ← rd_modify_slot ses th i (wp_idle_addr s) RD_IDLE_WP_LEN w;
           Some (if (ret =? 0) && truthy mod_ret then mod_ret else ret, w)) (0, w)
  | _, _, _ => Some (0, w)
  end.

(** Metadata and generation of every slot. *)
Definition reset_slot_metadata (ses : rd_session) (th : rd_thread_ctx) : option rd_thread_ctx :=
  match t_wp_slots th with
  | None => Some th
  | Some _ =>
      for_upto (Z.to_nat (wp_capacity ses))
        (fun i th =>
           th ← rd_clear_slot_metadata ses th i;
           slots ← t_wp_slots th;
           s ← slots !!z i;
           slots' ← zinsert slots i (s ⟦ wp_generation := 0 ⟧);
           Some (th ⟦ t_wp_slots := Some slots' ⟧)) th
  end.

(** The counters and the generator at their starting values. *)
Definition reset_counters (th : rd_thread_ctx) : rd_thread_ctx :=
  th ⟦ candidate_samples := 0 ⟧ ⟦ reservoir_seen := 0 ⟧ ⟦ reservoir_accepted := 0 ⟧
     ⟦ reservoir_rejected := 0 ⟧ ⟦ hits := 0 ⟧ ⟦ evictions := 0 ⟧ ⟦ dropped := 0 ⟧
     ⟦ pair_hist_used := 0 ⟧ ⟦ pair_hist_dropped := 0 ⟧ ⟦ context_used := 0 ⟧
     ⟦ context_dropped := 0 ⟧ ⟦ callchain_failed := 0 ⟧ ⟦ callchain_truncated := 0 ⟧
     ⟦ dwarf_event_used := 0 ⟧ ⟦ dwarf_event_dropped := 0 ⟧ ⟦ dwarf_stack_copy_failed := 0 ⟧
     ⟦ t_rng := rng_seed (t_tid th) ⟧.

Definition rd_reset_thread_locked (ses : rd_session) (th : rd_thread_ctx) (w : world)
    : option (Z * rd_thread_ctx * world) :=
  '(ret, w) ← reset_slot_addresses ses th w;
  let th := reset_counters th in
  hist ← zero_array 0 (t_log2_hist th) (target_count ses * RD_WPCTL_LOG2_BUCKETS);
  pairs ← zero_array zero_pair_entry (t_pair_hist th) RD_WPCTL_MAX_PAIR_HISTS;
  ctxs ← zero_array zero_context_entry (t_contexts th) RD_WPCTL_MAX_CONTEXTS;
  events ← zero_array zero_dwarf_event (t_dwarf_events th) (dwarf_event_capacity ses);
  seeds ← zero_array zero_snapshot (t_seed_snaps th) (wp_capacity ses);
  reuses ← zero_array zero_snapshot (t_reuse_snaps th) (wp_capacity ses);
  th ← reset_slot_metadata ses
         (th ⟦ t_log2_hist := hist ⟧ ⟦ t_pair_hist := pairs ⟧ ⟦ t_contexts := ctxs ⟧
             ⟦ t_dwarf_events := events ⟧ ⟦ t_seed_snaps := seeds ⟧ ⟦ t_reuse_snaps := reuses ⟧);
  Some (ret, th, w).

End handlers.
