(* ===== verification/Sampling.v ===== *)
(** Correctness of the sampling path: the handlers of [Handlers.v] never fault
    on a well-formed thread, keep it well formed, and move its counters along
    fixed rows, so that every accepted candidate is accounted for as a hit, an
    eviction, a drop or an armed slot. *)
From S2P Require Import Prelude Uapi Buckets EffAddr KernelApi KTypes Tables Callchain.
From S2P Require Import Handlers.
Import Buckets EffAddr Contexts PairHist Callchain Snapshot.

(** * Slot choice *)

Lemma array_prefix_full {A} (l : list A) n : zlen l = n -> array_prefix l n = Some l.
Proof.
  intros <-; unfold array_prefix; rewrite Z.leb_refl, (proj2 (Z.leb_le 0 _)) by lia.
  by rewrite take_ge by lia.
Qed.

(** Draw number [n] of the generator started at [rng]. *)
Definition rng_after (rng : Z) (n : nat) : Z := Nat.iter n (fun r => (rd_next_random r).2) rng.
Definition draw_at (rng : Z) (n : nat) : Z := (rd_next_random (rng_after rng n)).1.

Lemma rng_after_S rng n : rng_after rng (S n) = rng_after (rd_next_random rng).2 n.
Proof. induction n as [|n IH]; [done|]; simpl in *; by rewrite IH. Qed.

(** The divisor of the replacement test and the saturating sample count. *)
Definition slot_odds (s : wp_slot) : Z := if wp_samples s =? 0 then 1 else wp_samples s.
Definition resampled (s : wp_slot) : wp_slot :=
  if wp_samples s =? U64_MAX then s else s ⟦ wp_samples ::= inc64 ⟧.
Definition replaces (rng : Z) (n : nat) (s : wp_slot) : Prop :=
  draw_at rng n mod slot_odds s = 0.

Lemma find_idle_spec slots i :
  match find_idle slots i with
  | Some j => exists n s, j = i + Z.of_nat n /\ slots !! n = Some s /\ slot_armed s = false /\
                forall m s', (m < n)%nat -> slots !! m = Some s' -> slot_armed s' = true
  | None => Forall (fun s => slot_armed s = true) slots
  end.
Proof.
  revert i; induction slots as [|s l IH]; intros i; simpl; [constructor|].
  destruct (slot_armed s) eqn:Hs.
  - specialize (IH (i + 1)); destruct (find_idle l (i + 1)).
    + destruct IH as (n & s' & -> & Hn & Hi & Hb); exists (S n), s'; split_and!; [lia|done..|].
      intros [|m] s2 Hm; simpl; [naive_solver|]; apply Hb; lia.
    + by constructor.
  - exists 0%nat, s; split_and!; [lia|done..|]; intros; lia.
Qed.

Lemma replace_scan_spec slots i rng :
  let '(found, slots', rng') := replace_scan slots i rng in
  match found with
  | Some j => exists n s, j = i + Z.of_nat n /\ slots !! n = Some s /\ replaces rng n s /\
      (forall m s', (m < n)%nat -> slots !! m = Some s' -> ~ replaces rng m s') /\
      slots' = (resampled <$> take (S n) slots) ++ drop (S n) slots /\
      rng' = rng_after rng (S n)
  | None => (forall m s', slots !! m = Some s' -> ~ replaces rng m s') /\
      slots' = resampled <$> slots /\ rng' = rng_after rng (length slots)
  end.
Proof.
  revert i rng; induction slots as [|s l IH]; intros i rng; [done|].
  cbn [replace_scan]; fold (slot_odds s) (resampled s).
  destruct (rd_next_random rng) as [draw r] eqn:E.
  assert (Hd : draw_at rng 0 = draw) 
    by (change (draw_at rng 0) with (rd_next_random rng).1; by rewrite E).
  assert (Hn : forall n, draw_at rng (S n) = draw_at r n).
  { intros n; unfold draw_at; rewrite rng_after_S, E; done. }
  assert (Hr : forall n, rng_after rng (S n) = rng_after r n).
  { intros n; rewrite rng_after_S, E; done. }
  destruct (draw mod slot_odds s =? 0) eqn:G.
  - exists 0%nat, s; unfold replaces; rewrite Hd, Hr; split_and!; try done; intros; lia.
  - specialize (IH (i + 1) r); destruct (replace_scan l (i + 1) r) as [[[j|] l'] r'].
    + destruct IH as (n & s' & -> & Hl & Hrep & Hno & -> & ->).
      exists (S n), s'; unfold replaces in *; rewrite Hn, Hr; split_and!; try done; [lia|].
      intros [|m] s2 Hm; cbn [lookup]; [intros [= <-]; rewrite Hd; lia|].
      rewrite Hn; apply Hno; lia.
    + destruct IH as (Hno & -> & ->); cbn [length fmap list_fmap]; rewrite Hr; split_and!; try done.
      unfold replaces in *; intros [|m] s2; cbn [lookup]; [intros [= <-]; rewrite Hd; lia|].
      rewrite Hn; apply Hno.
Qed.

(** Outcome of [rd_pick_wp_slot] on a thread with [slots]. *)
Inductive pick_outcome (th : rd_thread_ctx) (slots : list wp_slot)
    : option (Z * bool) -> rd_thread_ctx -> Prop :=
| pick_idle n s :
    slots !! n = Some s -> slot_armed s = false ->
    (forall m s', (m < n)%nat -> slots !! m = Some s' -> slot_armed s' = true) ->
    pick_outcome th slots (Some (Z.of_nat n, false))
      (th ⟦ reservoir_seen ::= inc64 ⟧ ⟦ reservoir_accepted ::= inc64 ⟧)
| pick_replace n s :
    Forall (fun s => slot_armed s = true) slots ->
    slots !! n = Some s -> replaces (t_rng th) n s ->
    (forall m s', (m < n)%nat -> slots !! m = Some s' -> ~ replaces (t_rng th) m s') ->
    pick_outcome th slots (Some (Z.of_nat n, true))
      (th ⟦ reservoir_seen ::= inc64 ⟧
          ⟦ t_wp_slots := Some ((resampled <$> take (S n) slots) ++ drop (S n) slots) ⟧
          ⟦ t_rng := rng_after (t_rng th) (S n) ⟧ ⟦ reservoir_accepted ::= inc64 ⟧)
| pick_reject :
    Forall (fun s => slot_armed s = true) slots ->
    (forall m s', slots !! m = Some s' -> ~ replaces (t_rng th) m s') ->
    pick_outcome th slots None
      (th ⟦ reservoir_seen ::= inc64 ⟧ ⟦ t_wp_slots := Some (resampled <$> slots) ⟧
          ⟦ t_rng := rng_after (t_rng th) (length slots) ⟧ ⟦ reservoir_rejected ::= inc64 ⟧).

Lemma pick_slot_outcome ses th slots :
  t_wp_slots th = Some slots -> 0 < wp_capacity ses -> zlen slots = wp_capacity ses ->
  exists picked th', rd_pick_wp_slot ses th = Some (picked, th') /\
                     pick_outcome th slots picked th'.
Proof.
  intros Hs Hcap Hlen; unfold rd_pick_wp_slot.
  rewrite (proj2 (Z.eqb_neq _ 0)) by lia.
  change (t_wp_slots (th ⟦ reservoir_seen ::= inc64 ⟧)) with (t_wp_slots th); rewrite Hs.
  cbn [mbind option_bind]; rewrite (array_prefix_full _ _ Hlen); cbn [mbind option_bind].
  pose proof (find_idle_spec slots 0) as Hf; destruct (find_idle slots 0) as [i|].
  { destruct Hf as (n & s & -> & Hn & Hi & Hb); rewrite Z.add_0_l.
    eexists _, _; split; [done|]; by eapply pick_idle. }
  change (t_rng (th ⟦ reservoir_seen ::= inc64 ⟧)) with (t_rng th).
  pose proof (replace_scan_spec slots 0 (t_rng th)) as Hr.
  destruct (replace_scan slots 0 (t_rng th)) as [[[i|] l'] r'].
  - destruct Hr as (n & s & -> & Hn & Hrep & Hno & -> & ->); rewrite Z.add_0_l.
    rewrite (drop_ge slots (Z.to_nat _)), app_nil_r by lia.
    eexists _, _; split; [done|]; by eapply pick_replace.
  - destruct Hr as (Hno & -> & ->).
    rewrite drop_ge, app_nil_r by lia; eexists _, _; split; [done|]; by apply pick_reject.
Qed.

(** The reservoir policy of [rd_pick_wp_slot].  An idle slot is taken first,
    and the first of them; only when every slot is armed is one replaced: the
    first slot whose draw of the thread's generator is divisible by its sample
    count.  Every slot drawn for counts one more sample, the others are
    untouched, and the candidate is rejected exactly when no draw divides. *)
Theorem pick_slot_reservoir (ses : rd_session) (th : rd_thread_ctx) (slots : list wp_slot)
    (Hs : t_wp_slots th = Some slots) (Hcap : 0 < wp_capacity ses)
    (Hlen : zlen slots = wp_capacity ses) :
  exists picked th', rd_pick_wp_slot ses th = Some (picked, th') /\
    match picked with
    | Some (i, false) =>
        (exists s, slots !!z i = Some s /\ slot_armed s = false) /\
        (forall j s', j < i -> slots !!z j = Some s' -> slot_armed s' = true) /\
        t_wp_slots th' = Some slots /\ t_rng th' = t_rng th
    | Some (i, true) =>
        zcount slot_armed slots = wp_capacity ses /\
        (exists s, slots !!z i = Some s /\ replaces (t_rng th) (Z.to_nat i) s) /\
        (forall j s', j < i -> slots !!z j = Some s' -> ~ replaces (t_rng th) (Z.to_nat j) s') /\
        t_wp_slots th' = Some ((resampled <$> take (S (Z.to_nat i)) slots) ++
                               drop (S (Z.to_nat i)) slots)
    | None =>
        zcount slot_armed slots = wp_capacity ses /\
        (forall j s', slots !!z j = Some s' -> ~ replaces (t_rng th) (Z.to_nat j) s') /\
        t_wp_slots th' = Some (resampled <$> slots)
    end.
Proof.
  destruct (pick_slot_outcome ses th slots Hs Hcap Hlen) as (picked & th' & Hp & Ho).
  exists picked, th'; split; [done|]; destruct Ho as [n s Hn Hi Hb|n s Ha Hn Hr Hb|Ha Hb].
  - split_and!; try done; [exists s; by rewrite zlookup_of_nat|].
    intros j s' Hj [? Hl]%zlookup_Some; eapply Hb; [|done]; lia.
  - rewrite Nat2Z.id; split_and!; try done; [by rewrite zcount_full|exists s; by rewrite zlookup_of_nat|].
    intros j s' Hj [? Hl]%zlookup_Some; eapply Hb; [|done]; lia.
  - split_and!; try done; [by rewrite zcount_full|].
    intros j s' [? Hl]%zlookup_Some; eapply Hb; done.
Qed.

(** * Well-formed sessions and threads *)

(** What CONFIG_SESSION and LOAD_TARGETS establish; [extend] and [shift] are
    unsigned bytes. *)
Record session_ok (ses : rd_session) : Prop := {
  so_cap : 0 < wp_capacity ses < 4294967296;
  so_count : zlen (targets ses) = target_count ses;
  so_targets : Forall (fun t => decode_valid (decode t) /\ 0 <= extend (decode t) /\
                                0 <= shift (decode t)) (targets ses);
  so_events : 0 <= dwarf_event_capacity ses < 4294967296;
  so_dwarf : callchain_mode ses = RD_CALLCHAIN_DWARF -> 0 < dwarf_event_capacity ses;
}.

Definition slot_ok (ses : rd_session) (s : wp_slot) : Prop :=
  slot_armed s = true -> 0 <= wp_target_index s < target_count ses.

Definition snaps_ok (ses : rd_session) (snaps : option (list rd_wpctl_dwarf_snapshot)) : Prop :=
  match snaps with
  | Some l => callchain_mode ses = RD_CALLCHAIN_DWARF /\ zlen l = wp_capacity ses
  | None => callchain_mode ses <> RD_CALLCHAIN_DWARF
  end.

(** The arrays and events of an active thread. *)
Record live_ok (ses : rd_session) (th : rd_thread_ctx) : Prop := {
  lv_mem : is_Some (t_mem_event th);
  lv_bps : exists l, t_bp_events th = Some l /\ zlen l = target_count ses /\ Forall is_Some l;
  lv_wps : exists l, t_wp_events th = Some l /\ zlen l = wp_capacity ses /\ Forall is_Some l;
  lv_slots : exists l, t_wp_slots th = Some l /\ zlen l = wp_capacity ses /\ Forall (slot_ok ses) l;
  lv_seeds : snaps_ok ses (t_seed_snaps th);
  lv_reuses : snaps_ok ses (t_reuse_snaps th);
}.

(** Event [i] of the raw event array is marked used exactly below the count. *)
Definition events_ok (ses : rd_session) (evs : option (list rd_wpctl_dwarf_event_req)) (used : Z)
    : Prop :=
  match evs with
  | Some l => callchain_mode ses = RD_CALLCHAIN_DWARF /\ zlen l = dwarf_event_capacity ses /\
      0 <= used <= dwarf_event_capacity ses /\
      forall i e, l !!z i = Some e -> ev_used e = if i <? used then 1 else 0
  | None => callchain_mode ses <> RD_CALLCHAIN_DWARF
  end.

(** The result tables, which outlive the perf events of the thread. *)
Record results_ok (ses : rd_session) (th : rd_thread_ctx) : Prop := {
  rs_hist : exists h, t_log2_hist th = Some h /\ zlen h = target_count ses * 64 /\ Forall (fun x => is_u64 x) h;
  rs_pairs : exists t, t_pair_hist th = Some t /\ pair_wf t (pair_hist_used th);
  rs_ctxs : exists t, t_contexts th = Some t /\ ctx_wf t (context_used th);
  rs_events : events_ok ses (t_dwarf_events th) (dwarf_event_used th);
}.

Definition thread_ok (ses : rd_session) (th : rd_thread_ctx) : Prop :=
  live_ok ses th /\ results_ok ses th.

(** The sample counts of the slots; see [full_reservoir_evicts_slot_0]. *)
Definition samples_one (th : rd_thread_ctx) : Prop :=
  forall l, t_wp_slots th = Some l -> Forall (fun s => wp_samples s = 1) l.

(** * The tally of a thread

    The columns: candidates, seen, accepted, rejected, hits, evictions, drops,
    armed slots, per-target histogram total, pair histogram total with its
    drops, raw events with their drops. *)
Definition armed_slots (th : rd_thread_ctx) : Z :=
  match t_wp_slots th with Some l => zcount slot_armed l | None => 0 end.
Definition hist_total (th : rd_thread_ctx) : Z :=
  match t_log2_hist th with Some h => sumZ h | None => 0 end.
Definition pairs_total (th : rd_thread_ctx) : Z :=
  match t_pair_hist th with Some t => pair_total t | None => 0 end + pair_hist_dropped th.
Definition events_total (th : rd_thread_ctx) : Z := dwarf_event_used th + dwarf_event_dropped th.

Definition tally (th : rd_thread_ctx) : list Z :=
  [candidate_samples th; reservoir_seen th; reservoir_accepted th; reservoir_rejected th;
   hits th; evictions th; dropped th; armed_slots th; hist_total th; pairs_total th;
   events_total th].

Definition row_add : list Z -> list Z -> list Z := zip_with Z.add.
Definition row_zero : list Z := [0; 0; 0; 0; 0; 0; 0; 0; 0; 0; 0].
Definition row_candidate : list Z := [1; 0; 0; 0; 0; 0; 0; 0; 0; 0; 0].
Definition row_pick : list Z := [0; 1; 1; 0; 0; 0; 0; 0; 0; 0; 0].
(** A replaced slot was armed and stays armed; an idle one becomes armed. *)
Definition row_arm (replaced : bool) : list Z :=
  if replaced then [0; 0; 0; 0; 0; 1; 0; 0; 0; 0; 0] else [0; 0; 0; 0; 0; 0; 0; 1; 0; 0; 0].
Definition row_drop : list Z := [0; 0; 0; 0; 0; 0; 1; 0; 0; 0; 0].
Definition row_disarm : list Z := [0; 0; 0; 0; 0; 0; 0; -1; 0; 0; 0].
Definition row_hit (dwarf : bool) : list Z :=
  [0; 0; 0; 0; 1; 0; 0; 0; 1; 1; if dwarf then 1 else 0].

(** The identity and the perf resources of a thread, which a handler keeps. *)
Definition resources (th : rd_thread_ctx) :=
  (t_session th, t_task th, t_tid th, t_cpu th, t_active th, t_live_detached th,
   t_live_refs th, t_live_refs_zero th, t_mem_event th, t_bp_events th, t_wp_events th).

Record moves (d : list Z) (th th' : rd_thread_ctx) : Prop := {
  mv_tally : Forall2 eqm64 (tally th') (row_add (tally th) d);
  mv_res : resources th' = resources th;
}.

Lemma row_add_eqm a b d : Forall2 eqm64 a b -> Forall2 eqm64 (row_add a d) (row_add b d).
Proof.
  intros H; revert d; induction H as [|x y a b Hxy _ IH]; intros [|z d]; simpl; constructor; auto.
  by rewrite Hxy.
Qed.

Lemma row_add_assoc a b c : row_add (row_add a b) c = row_add a (row_add b c).
Proof.
  revert b c; induction a as [|x a IH]; intros [|y b] [|z c]; simpl; try done.
  unfold row_add in *; simpl; f_equal; [lia|apply IH].
Qed.

Lemma moves_trans d1 d2 th1 th2 th3 :
  moves d1 th1 th2 -> moves d2 th2 th3 -> moves (row_add d1 d2) th1 th3.
Proof.
  intros [H1 R1] [H2 R2]; split; [|congruence].
  rewrite <- row_add_assoc; etrans; [exact H2|]; by apply row_add_eqm.
Qed.

Definition kept (th th' : rd_thread_ctx) : Prop :=
  reservoir_rejected th' = reservoir_rejected th /\ t_log2_hist th' = t_log2_hist th.

(** Slots, per-target histogram and rejections untouched. *)
Definition keeps (th th' : rd_thread_ctx) : Prop :=
  t_wp_slots th' = t_wp_slots th /\ t_log2_hist th' = t_log2_hist th /\
  reservoir_rejected th' = reservoir_rejected th.

(** Discharges [moves] for a literal row and explicit record updates. *)
Ltac moves_cols :=
  split; [repeat (apply Forall2_cons; split); try apply Forall2_nil; try done; cbn;
          unfold pairs_total, events_total, armed_slots, hist_total; cbn;
          rewrite ?inc64_eqm
         |reflexivity].
Ltac moves_tac := moves_cols; eqm64_lia.

Lemma moves_refl th : moves row_zero th th.
Proof. moves_tac. Qed.

(** [thread_ok] of a thread that differs only in fields it does not constrain. *)
Ltac keep_ok H :=
  destruct H as [[] []]; split; split; cbn; assumption.

Section handler_lemmas.
Context `{K : KernelApi} (ses : rd_session).
Hypothesis Hses : session_ok ses.
Implicit Types (th : rd_thread_ctx) (w : world).

Lemma capture_step_ok (b : bool) th regs w :
  thread_ok ses th -> (forall r, regs = Some r -> pt_regs_wf r) ->
  exists key th',
    (if b then rd_capture_callchain th regs w else Some (zero_callchain_key, th)) =
      Some (key, th') /\
    key_wf key /\ thread_ok ses th' /\ moves row_zero th th' /\
    keeps th th'.
Proof.
  intros Hok Hr; destruct b.
  - destruct (capture_callchain_wf th regs w Hr) as (key & th' & -> & Hk & H).
    exists key, th'; destruct H as [->|[->| ->]]; split_and!; try done;
      try (apply moves_refl); try (keep_ok Hok); moves_tac.
  - eexists _, _; split_and!; [done|split; [split; discriminate|done]|done|apply moves_refl|done..].
Qed.

Lemma pick_ok th slots :
  thread_ok ses th -> t_wp_slots th = Some slots -> Forall (fun s => wp_samples s = 1) slots ->
  exists n s repl th' slots',
    rd_pick_wp_slot ses th = Some (Some (Z.of_nat n, repl), th') /\
    thread_ok ses th' /\ moves row_pick th th' /\ t_wp_slots th' = Some slots' /\
    slots' !! n = Some s /\ slot_armed s = repl /\
    (exists s0, slots !! n = Some s0 /\ slot_armed s0 = repl) /\
    (forall m, m <> n -> slots' !! m = slots !! m) /\
    (repl = true -> n = 0%nat /\ zcount slot_armed slots = wp_capacity ses) /\
    kept th th'.
Proof.
  intros Hok Hs Hone; destruct Hok as [[H1 H2 H3 (l & Hl & Hlen & Hf) H5 H6] [R1 R2 R3 R4]].
  rewrite Hs in Hl; simplify_eq; pose proof (so_cap _ Hses) as Hc.
  assert (Hrep : forall m s, l !! m = Some s -> replaces (t_rng th) m s).
  { intros m s Hm; eapply Forall_lookup_1 in Hone; [|done]; unfold replaces, slot_odds.
    rewrite Hone; apply Z.mod_1_r. }
  destruct (pick_slot_outcome ses th l Hs) as (picked & th' & -> & Ho); [lia|done|].
  destruct Ho as [n s Hn Hi Hb|n s Ha Hn _ Hb|Ha Hb].
  - exists n, s, false; eexists _, l; split_and!; try done; [split; split; cbn; eauto|moves_tac|eauto].
  - assert (n = 0%nat) as ->.
    { destruct n; [done|]; exfalso; destruct l as [|s0 l]; [done|].
      eapply (Hb 0%nat s0); [lia|done|]; by apply Hrep. }
    destruct l as [|s0 l]; [done|]; injection Hn as ->.
    change ((resampled <$> take 1 (s :: l)) ++ drop 1 (s :: l)) with (resampled s :: l).
    assert (Hsr : slot_armed (resampled s) = slot_armed s) by (unfold resampled; by case_match).
    exists 0%nat, (resampled s), true; eexists _, (resampled s :: l); split_and!; try done.
    + split; split; cbn; eauto; eexists; split_and!; [done..|].
      apply Forall_cons in Hf as [Hf1 Hf2]; constructor; [|done].
      unfold slot_ok in *; rewrite Hsr; unfold resampled; by case_match.
    + moves_cols; rewrite ?Hs, ?zcount_cons, ?Hsr; eqm64_lia.
    + rewrite Hsr; by apply Forall_cons in Ha as [? _].
    + exists s; split; [done|]; by apply Forall_cons in Ha as [? _].
    + intros [|m] Hm; done.
    + intros _; split; [done|]; by rewrite zcount_full.
  - exfalso; destruct l as [|s0 l]; [cbn in Hlen; lia|]; by apply (Hb 0%nat s0 eq_refl), Hrep.
Qed.

Lemma context_step_ok (b : bool) th key :
  thread_ok ses th -> key_wf key ->
  exists id th',
    (if b then rd_get_context_id_locked th key else Some (0, th)) = Some (id, th') /\
    thread_ok ses th' /\ moves row_zero th th' /\ keeps th th'.
Proof.
  intros Hok Hk; destruct b; [|eexists _, _; split_and!; [done|done|apply moves_refl|done..]].
  destruct Hok as [[] [R1 R2 (t & Ht & Hwf) R4]].
  destruct (get_context_outcome th key t Ht Hwf Hk) as (id & th' & -> & Ho).
  exists id, th'; split; [done|].
  pose proof (ctx_outcome_wf _ _ _ _ _ Ht Hwf Hk Ho) as Hwf'.
  destruct Ho; (split; [split; split; cbn; eauto|]); split_and!; try done; moves_tac.
Qed.

Lemma arm_slot_ok th slots n s repl fill :
  thread_ok ses th -> t_wp_slots th = Some slots -> slots !! n = Some s ->
  slot_armed s = repl -> slot_armed (fill s) = true -> slot_ok ses (fill s) ->
  exists th', arm_slot th (Z.of_nat n) repl fill = Some (wp_idle_addr s, th') /\
    thread_ok ses th' /\ moves (row_arm repl) th th' /\
    t_wp_slots th' = Some (<[n := fill s]> slots) /\
    kept th th'.
Proof.
  intros Hok Hs Hn Ha Hfa Hfo; unfold arm_slot; rewrite Hs; cbn [mbind option_bind].
  rewrite zlookup_of_nat, Hn; cbn [mbind option_bind].
  apply lookup_lt_Some in Hn as Hlt; rewrite zinsert_is_Some by lia; cbn [mbind option_bind].
  rewrite Nat2Z.id; eexists; split; [done|].
  destruct Hok as [[H1 H2 H3 (l & Hl & Hlen & Hf) H5 H6] []]; rewrite Hs in Hl; simplify_eq.
  assert (Forall (slot_ok ses) (<[n:=fill s]> l)) by (by apply Forall_insert).
  split_and!; try done; [| |by destruct (slot_armed s)].
  - destruct (slot_armed s); (split; split; cbn; eauto); eexists; split_and!; try done;
      by rewrite length_insert.
  - destruct (slot_armed s) eqn:E; moves_cols;
      rewrite ?Hs, ?(zcount_insert _ _ _ _ _ Hn), ?Hfa, ?E; eqm64_lia.
Qed.

Lemma seed_snapshot_ok th n regs w :
  thread_ok ses th -> (Z.of_nat n < wp_capacity ses) ->
  exists th', take_seed_snapshot ses th (Z.of_nat n) regs w = Some th' /\
    thread_ok ses th' /\ moves row_zero th th' /\ keeps th th'.
Proof.
  intros Hok Hn; unfold take_seed_snapshot.
  destruct (_ =? _), (t_seed_snaps th) as [snaps|] eqn:E;
    try (eexists; split_and!; [done|done|apply moves_refl|done..]).
  pose proof (capture_dwarf_snapshot_frame ses th regs w) as Hf.
  destruct (rd_capture_dwarf_snapshot ses th regs w) as [snap th1].
  destruct Hok as [[H1 H2 H3 H4 H5 H6] []]; rewrite E in H5; destruct H5 as [Hm Hl].
  rewrite zinsert_is_Some by lia; cbn [mbind option_bind]; rewrite Nat2Z.id.
  eexists; split; [done|]; destruct Hf as [->| ->]; (split_and!; [split; split; cbn; auto|..]);
    try done; try moves_tac; (split; [done|by rewrite length_insert]).
Qed.

Lemma reuse_snapshot_ok th n regs w :
  thread_ok ses th -> (Z.of_nat n < wp_capacity ses) ->
  exists th', take_reuse_snapshot ses th (Z.of_nat n) regs w = Some th' /\
    thread_ok ses th' /\ moves row_zero th th' /\ keeps th th'.
Proof.
  intros Hok Hn; unfold take_reuse_snapshot.
  destruct (_ =? _), (t_reuse_snaps th) as [snaps|] eqn:E;
    try (eexists; split_and!; [done|done|apply moves_refl|done..]).
  pose proof (capture_dwarf_snapshot_frame ses th regs w) as Hf.
  destruct (rd_capture_dwarf_snapshot ses th regs w) as [snap th1].
  destruct Hok as [[H1 H2 H3 H4 H5 H6] []]; rewrite E in H6; destruct H6 as [Hm Hl].
  rewrite zinsert_is_Some by lia; cbn [mbind option_bind]; rewrite Nat2Z.id.
  eexists; split; [done|]; destruct Hf as [->| ->]; (split_and!; [split; split; cbn; auto|..]);
    try done; try moves_tac; (split; [done|by rewrite length_insert]).
Qed.

(** Re-pointing a slot of an active thread while the window is open asks the
    hardware for its watchpoint. *)
Lemma modify_slot_running th n addr len w :
  live_ok ses th -> Z.of_nat n < wp_capacity ses -> s_running ses = true -> t_active th = true ->
  exists evs ev, t_wp_events th = Some evs /\ evs !! n = Some (Some ev) /\
    rd_modify_slot ses th (Z.of_nat n) addr len w =
      Some (modify_user_hw_breakpoint ev (rd_init_wp_attr addr len ⟦ attr_disabled := false ⟧) w).
Proof.
  intros [_ _ (evs & He & Hl & Hf) _ _ _] Hn Hr Ha; unfold rd_modify_slot; rewrite He, Hr, Ha.
  rewrite (proj2 (Z.leb_gt _ _)), zlookup_of_nat by lia.
  destruct (lookup_lt_is_Some_2 evs n) as [o Ho]; [lia|].
  pose proof (Forall_lookup_1 _ _ _ _ Hf Ho) as [ev ->]; exists evs, ev; by rewrite Ho.
Qed.

Lemma modify_slot_ok th n addr len w :
  live_ok ses th -> (Z.of_nat n < wp_capacity ses) ->
  exists ret w', rd_modify_slot ses th (Z.of_nat n) addr len w = Some (ret, w').
Proof.
  intros [_ _ (evs & He & Hl & Hf) _ _ _] Hn; unfold rd_modify_slot; rewrite He.
  rewrite (proj2 (Z.leb_gt _ _)), zlookup_of_nat by lia.
  destruct (lookup_lt_is_Some_2 evs n) as [o Ho]; [lia|]; rewrite Ho; cbn [mbind option_bind].
  eapply Forall_lookup_1 in Hf as [ev ->]; [|done].
  destruct (modify_user_hw_breakpoint _ _ _); eauto.
Qed.

(** Re-pointing a slot depends on the thread only through its resources. *)
Lemma modify_slot_frame th th' i addr len w :
  resources th' = resources th -> rd_modify_slot ses th' i addr len w = rd_modify_slot ses th i addr len w.
Proof.
  intros H; unfold rd_modify_slot; unfold resources in H.
  by replace (t_wp_events th') with (t_wp_events th) by congruence; replace (t_active th') with (t_active th) by congruence.
Qed.

Lemma clear_slot_ok th slots n s :
  thread_ok ses th -> t_wp_slots th = Some slots -> slots !! n = Some s -> slot_armed s = true ->
  exists th', rd_clear_slot_metadata ses th (Z.of_nat n) = Some th' /\
    thread_ok ses th' /\ moves row_disarm th th' /\
    t_wp_slots th' = Some (<[n := cleared_slot s]> slots) /\
    kept th th'.
Proof.
  intros Hok Hs Hn Ha; apply lookup_lt_Some in Hn as Hlt.
  destruct Hok as [[H1 H2 H3 (l & Hl & Hlen & Hf) H5 H6] []]; rewrite Hs in Hl; simplify_eq.
  unfold rd_clear_slot_metadata; rewrite (proj2 (Z.leb_gt _ _)) by lia.
  rewrite Hs; cbn [mbind option_bind]; rewrite zlookup_of_nat, Hn; cbn [mbind option_bind].
  rewrite zinsert_is_Some by lia; cbn [mbind option_bind]; rewrite Nat2Z.id.
  assert (Forall (slot_ok ses) (<[n:=cleared_slot s]> l)) by (apply Forall_insert; done).
  assert (Hnew : exists l', Some (<[n:=cleared_slot s]> l) = Some l' /\
            zlen l' = wp_capacity ses /\ Forall (slot_ok ses) l').
  { eexists; split_and!; try done; by rewrite length_insert. }
  assert (Hz : zcount slot_armed (<[n:=cleared_slot s]> l) = zcount slot_armed l - 1).
  { rewrite (zcount_insert _ _ _ _ _ Hn), Ha; cbn; lia. }
  change (t_seed_snaps (th ⟦ t_wp_slots := _ ⟧)) with (t_seed_snaps th).
  destruct (t_seed_snaps th) as [snaps|] eqn:E; cbn in H5.
  - rewrite zinsert_is_Some by lia; cbn [mbind option_bind]; rewrite Nat2Z.id.
    eexists; split; [done|]; split_and!; try done.
    + split; split; cbn; auto; by rewrite length_insert.
    + moves_cols; rewrite ?Hs, ?Hz; eqm64_lia.
  - eexists; split; [done|]; split_and!; try done.
    + split; split; cbn; auto; by rewrite E.
    + moves_cols; rewrite ?Hs, ?Hz; eqm64_lia.
Qed.

Lemma thread_dropped_ok th : thread_ok ses th -> thread_ok ses (th ⟦ dropped ::= inc64 ⟧).
Proof. intros Hok; keep_ok Hok. Qed.

Lemma moves_dropped th : moves row_drop th (th ⟦ dropped ::= inc64 ⟧).
Proof. moves_tac. Qed.

(** A dropped slot: counted, cleared and re-pointed at its idle address. *)
Lemma retire_slot_ok th slots n s addr w :
  thread_ok ses th -> t_wp_slots th = Some slots -> slots !! n = Some s -> slot_armed s = true ->
  exists th' w', retire_slot ses (th ⟦ dropped ::= inc64 ⟧) (Z.of_nat n) addr w = Some (th', w') /\
    thread_ok ses th' /\ moves (row_add row_drop row_disarm) th th' /\
    t_wp_slots th' = Some (<[n := cleared_slot s]> slots) /\
    kept th th'.
Proof.
  intros Hok Hs Hn Ha; apply thread_dropped_ok in Hok as Hok1.
  destruct (clear_slot_ok _ slots n s Hok1 Hs Hn Ha) as (th' & Hc & Hok' & Hm & Hs' & Hr).
  apply lookup_lt_Some in Hn as Hlt.
  destruct Hok as [[_ _ _ (l & Hl & Hlen & _) _ _] _]; rewrite Hs in Hl; simplify_eq.
  unfold retire_slot; rewrite Hc; cbn [mbind option_bind].
  destruct (modify_slot_ok th' n addr RD_IDLE_WP_LEN w) as (ret & w' & ->); [apply Hok'|lia|].
  cbn [mbind option_bind]; eexists _, _; split_and!; try done.
  eapply moves_trans; [apply moves_dropped|done].
Qed.

Lemma program_slot_ok th slots n s va size w :
  thread_ok ses th -> t_wp_slots th = Some slots -> slots !! n = Some s -> slot_armed s = true ->
  exists ret w1 th' w', let failed := truthy ret in
    rd_modify_slot ses th (Z.of_nat n) va size w = Some (ret, w1) /\
    program_slot ses th (Z.of_nat n) va size (wp_idle_addr s) w = Some (th', w') /\
    thread_ok ses th' /\
    moves (if failed then row_add row_drop row_disarm else row_zero) th th' /\
    t_wp_slots th' = Some (if failed then <[n := cleared_slot s]> slots else slots) /\
    kept th th'.
Proof.
  intros Hok Hs Hn Ha; unfold program_slot; apply lookup_lt_Some in Hn as Hlt.
  assert (Hc : Z.of_nat n < wp_capacity ses).
  { destruct Hok as [[_ _ _ (l & Hl & Hlen & _) _ _] _]; rewrite Hs in Hl; simplify_eq; lia. }
  destruct (modify_slot_ok th n va size w) as (ret & w1 & ->); [apply Hok|done|].
  cbn [mbind option_bind]; exists ret, w1; destruct (truthy ret); cbn zeta.
  - destruct (retire_slot_ok th slots n s (wp_idle_addr s) w1 Hok Hs Hn Ha) as (th' & w' & Hr & H).
    unfold retire_slot in Hr; rewrite Hr; exists th', w'; done.
  - eexists _, _; split_and!; try done; apply moves_refl.
Qed.
End handler_lemmas.

(** * A breakpoint hit *)

Section bp_hit.
Context `{K : KernelApi} (ses : rd_session).
Hypothesis Hses : session_ok ses.
Implicit Types (th : rd_thread_ctx) (w : world).

(** Slot [s] monitors the access that target [ti] made at the hit. *)
Definition armed_for (th : rd_thread_ctx) (ti : Z) (tgt : rd_target) (r : pt_regs) (w : world)
    (s : wp_slot) : Prop :=
  slot_armed s = true /\ wp_seed_va s = u64 (ea_spec (decode tgt) r) /\
  (exists ev, t_mem_event th = Some ev /\ wp_seed_access s = (perf_event_read_value ev w).1) /\
  wp_seed_pc_offset s = pc_offset tgt /\ wp_access_size s = access_size (decode tgt) /\
  wp_target_index s = ti /\ wp_skip_first_hit s = 1 /\ 0 < wp_generation s.

Definition row_accept (repl failed : bool) : list Z :=
  row_add row_candidate (row_add row_pick (row_add (row_arm repl)
    (if failed then row_add row_drop row_disarm else row_zero))).

(** Whether the hardware refuses to move watchpoint [n] to the access of the hit. *)
Definition refused (th : rd_thread_ctx) (tgt : rd_target) (r : pt_regs) (w : world) (n : nat) (failed : bool) : Prop :=
  exists mem ret w', t_mem_event th = Some mem /\ failed = truthy ret /\
    rd_modify_slot ses th (Z.of_nat n) (u64 (ea_spec (decode tgt) r)) (access_size (decode tgt))
      (perf_event_read_value mem w).2 = Some (ret, w').

Record bp_outcome (th : rd_thread_ctx) (slots : list wp_slot) (ti : Z) (tgt : rd_target)
    (r : pt_regs) (e : env) (th' : rd_thread_ctx) : Prop := {
  bo_ok : thread_ok ses th';
  bo_kept : kept th th';
  bo_slot : exists n s s' repl failed slots',
    refused th tgt r (e_world e) n failed /\ moves (row_accept repl failed) th th' /\
    t_wp_slots th' = Some slots' /\ slots !! n = Some s /\ slots' !! n = Some s' /\
    (forall m, m <> n -> slots' !! m = slots !! m) /\ wp_samples s' = 1 /\
    slot_armed s = repl /\ (repl = true -> n = 0%nat /\ zcount slot_armed slots = wp_capacity ses) /\
    if failed then slot_armed s' = false else armed_for th ti tgt r (e_world e) s';
}.

Lemma row_zero_l d : length d = 11%nat -> row_add row_zero d = d.
Proof.
  intros H; destruct d as [|? [|? [|? [|? [|? [|? [|? [|? [|? [|? [|? [|]]]]]]]]]]]]; done.
Qed.

Lemma moves_frame d th1 th2 th3 : moves row_zero th1 th2 -> moves d th2 th3 -> length d = 11%nat ->
  moves d th1 th3.
Proof. intros H1 H2 Hl; rewrite <- (row_zero_l d Hl); by eapply moves_trans. Qed.

(** The part of the handler under the lock and after it. *)
Lemma bp_install_ok th slots n s repl ti tgt r va acc key tokens w :
  thread_ok ses th -> key_wf key -> t_wp_slots th = Some slots -> slots !! n = Some s ->
  slot_armed s = repl -> 0 <= ti < target_count ses ->
  exists ret w1 th' w' s', let failed := truthy ret in
    rd_modify_slot ses th (Z.of_nat n) va (access_size (decode tgt)) w = Some (ret, w1) /\
    ('(ctx, th) ←
       (if (callchain_mode ses =? RD_CALLCHAIN_FP) && truthy (ck_depth key)
        then rd_get_context_id_locked th key else Some (0, th));
     '(idle_addr, th) ← arm_slot th (Z.of_nat n) repl
       (fun s => armed_slot s va acc (pc_offset tgt) ctx (access_size (decode tgt)) ti);
     th ← take_seed_snapshot ses th (Z.of_nat n) (Some r) w;
     '(th, w) ← program_slot ses th (Z.of_nat n) va (access_size (decode tgt)) idle_addr w;
     Some (th, mk_env w tokens)) = Some (th', mk_env w' tokens) /\
    thread_ok ses th' /\
    moves (row_add (row_arm repl) (if failed then row_add row_drop row_disarm else row_zero))
      th th' /\
    kept th th' /\
    t_wp_slots th' = Some (<[n := s']> slots) /\ wp_samples s' = 1 /\
    (if failed then slot_armed s' = false else
       exists ctx, s' = armed_slot s va acc (pc_offset tgt) ctx (access_size (decode tgt)) ti).
Proof.
  intros Hok Hk Hs Hn Ha Hti.
  destruct (context_step_ok ses ((callchain_mode ses =? RD_CALLCHAIN_FP) && truthy (ck_depth key))
              th key Hok Hk) as (ctx & th1 & -> & Hok1 & Hm1 & Hs1 & Hh1 & Hr1); cbn [mbind option_bind].
  rewrite <- Hs1 in Hs.
  set (fill := fun s => armed_slot _ _ _ _ _ _ _).
  destruct (arm_slot_ok ses th1 slots n s repl fill Hok1 Hs Hn Ha) as (th2 & -> & Hok2 & Hm2 & Hs2 & Hr2);
    [done|intros _; exact Hti|]; cbn [mbind option_bind].
  apply lookup_lt_Some in Hn as Hlt.
  assert (Hc : Z.of_nat n < wp_capacity ses).
  { destruct Hok1 as [[_ _ _ (l & Hl & Hlen & _) _ _] _]; rewrite Hs in Hl; simplify_eq; lia. }
  destruct (seed_snapshot_ok ses th2 n (Some r) w Hok2 Hc) as (th3 & -> & Hok3 & Hm3 & Hs3 & Hh3 & Hr3);
    cbn [mbind option_bind]; rewrite Hs2 in Hs3.
  assert (Hn3 : <[n:=fill s]> slots !! n = Some (fill s)) by (by apply list_lookup_insert_eq).
  change (wp_idle_addr s) with (wp_idle_addr (fill s)).
  destruct (program_slot_ok ses th3 _ n (fill s) va (access_size (decode tgt)) w Hok3 Hs3 Hn3 eq_refl)
    as (ret & w1 & th4 & w4 & Hmod & -> & Hok4 & Hm4 & Hs4 & Hr4); cbn [mbind option_bind].
  exists ret, w1, th4, w4, (if truthy ret then cleared_slot (fill s) else fill s).
  set (failed := truthy ret) in *; cbn zeta.
  split_and!; try done.
  - rewrite <- Hmod; symmetry; apply modify_slot_frame.
    destruct Hm1 as [_ <-], Hm2 as [_ <-], Hm3 as [_ <-]; done.
  - eapply moves_frame; [exact Hm1| |by destruct failed, repl].
    eapply moves_trans; [exact Hm2|]; eapply moves_frame; [exact Hm3|exact Hm4|by destruct failed].
  - unfold kept in *; destruct_and!; split; congruence.
  - rewrite Hs4; destruct failed; [by rewrite list_insert_insert_eq|done].
  - by destruct failed.
  - destruct failed; [done|by exists ctx].
Qed.

Lemma bp_hit_outcome th slots ti tgt r e :
  thread_ok ses th -> t_active th = true -> s_running ses = true ->
  t_wp_slots th = Some slots -> Forall (fun s => wp_samples s = 1) slots ->
  targets ses !!z ti = Some tgt -> shift_undefined (decode tgt) = false -> pt_regs_wf r ->
  exists th' e', rd_handle_bp_hit ses th ti (Some r) e = Some (th', e') /\
                 bp_outcome th slots ti tgt r e th'.
Proof.
  intros Hok Hact Hrun Hs Hone Htgt Hdef Hr; unfold rd_handle_bp_hit; rewrite Hact, Hrun.
  apply zlookup_Some in Htgt as Ht'; destruct Ht' as [Hti Htn]; rewrite (so_count _ Hses) in Hti.
  rewrite (proj2 (Z.leb_gt _ _)) by lia; cbn [negb orb]; rewrite Htgt; cbn [mbind option_bind].
  destruct (Forall_lookup_1 _ _ _ _ (so_targets _ Hses) Htn) as (Hdv & Hext & Hsh).
  destruct (compute_ea_spec (decode tgt) r Hr Hdv Hext Hsh Hdef) as (va & -> & _ & Hva).
  cbn [mbind option_bind].
  destruct (lv_mem _ _ (proj1 Hok)) as [ev Hev]; unfold rd_read_mem_access; rewrite Hev.
  destruct (perf_event_read_value ev (e_world e)) as [acc w] eqn:Erd.
  destruct (capture_step_ok ses (callchain_mode ses =? RD_CALLCHAIN_FP) th (Some r) w Hok)
    as (key & th1 & -> & Hk & Hok1 & Hm1 & Hs1 & Hh1 & Hr1); [by intros ? [= <-]|].
  cbn [mbind option_bind].
  assert (Hok2 : thread_ok ses (th1 ⟦ candidate_samples ::= inc64 ⟧)) by (keep_ok Hok1).
  assert (Hm2 : moves row_candidate th1 (th1 ⟦ candidate_samples ::= inc64 ⟧)) by moves_tac.
  destruct (pick_ok ses Hses _ slots Hok2) as
    (n & s & repl & th3 & slots3 & -> & Hok3 & Hm3 & Hs3 & Hn3 & Ha & (s0 & Hs0 & Ha0) & Hoth & Hrep & Hr3);
    [cbn; by rewrite Hs1|done|]; cbn [mbind option_bind].
  apply lookup_lt_Some in Hn3 as Hlt.
  assert (Hc : Z.of_nat n < wp_capacity ses).
  { destruct Hok3 as [[_ _ _ (l & Hl & Hlen & _) _ _] _]; rewrite Hs3 in Hl; simplify_eq; lia. }
  rewrite (proj2 (Z.leb_gt _ _)) by lia.
  destruct (bp_install_ok th3 slots3 n s repl ti tgt r va acc key
              (rd_debug_take_token (e_tokens e)).2 w Hok3 Hk Hs3 Hn3 Ha Hti)
    as (ret & w1 & th4 & w4 & s4 & Hmod & Hrest & Hok4 & Hm4 & Hr4 & Hs4 & Hone4 & Hslot).
  set (failed := truthy ret) in *.
  eexists _, _; split; [exact Hrest|]; split; [done|unfold kept in *; cbn in *; destruct_and!; split; congruence|].
  exists n, s0, s4, repl, failed, (<[n:=s4]> slots3); split_and!; try done.
  - exists ev, ret, w1; split_and!; [done|done|]; rewrite <- Hva, Erd, <- Hmod; symmetry; apply modify_slot_frame.
    destruct Hm1 as [_ <-], Hm2 as [_ <-], Hm3 as [_ <-]; done.
  - eapply moves_frame; [exact Hm1| |by destruct failed, repl].
    eapply moves_trans; [exact Hm2|]; eapply moves_trans; [exact Hm3|exact Hm4].
  - by apply list_lookup_insert_eq.
  - intros m Hm; rewrite list_lookup_insert_ne by done; auto.
  - destruct failed; [done|]; destruct Hslot as [ctx ->].
    split_and!; try done; [exists ev; by rewrite Erd|].
    cbn; pose proof (u32_range (wp_generation s + 1)); split_if; lia.
Qed.

(** A hit of a target whose shift is undefined, on an active thread of a running
    session. *)
Lemma bp_hit_undefined th ti tgt r e :
  t_active th = true -> s_running ses = true -> targets ses !!z ti = Some tgt ->
  shift_undefined (decode tgt) = true -> pt_regs_wf r -> rd_handle_bp_hit ses th ti (Some r) e = None.
Proof.
  intros Hact Hrun Htgt Hdef Hr; unfold rd_handle_bp_hit; rewrite Hact, Hrun.
  apply zlookup_Some in Htgt as Ht'; destruct Ht' as [Hti Htn]; rewrite (so_count _ Hses) in Hti.
  rewrite (proj2 (Z.leb_gt _ _)) by lia; cbn [negb orb]; rewrite Htgt; cbn [mbind option_bind].
  destruct (Forall_lookup_1 _ _ _ _ (so_targets _ Hses) Htn) as (Hdv & Hext & _).
  by rewrite (compute_ea_undefined (decode tgt) r).
Qed.
End bp_hit.

(** * A watchpoint hit *)

Section wp_hit.
Context `{K : KernelApi} (ses : rd_session).
Hypothesis Hses : session_ok ses.
Implicit Types (th : rd_thread_ctx) (w : world).

Definition dwarf_mode : bool := callchain_mode ses =? RD_CALLCHAIN_DWARF.

Lemma reuse_delta_range seed hit : is_u64 (reuse_delta seed hit).
Proof. unfold reuse_delta; split_if; [apply u64_range|lia]. Qed.

Lemma bump_hist_ok th h ti b :
  thread_ok ses th -> t_log2_hist th = Some h -> 0 <= ti < target_count ses -> 0 <= b < 64 ->
  exists th', bump_log2_hist ses th ti b = Some th' /\ thread_ok ses th' /\
    moves [0; 0; 0; 0; 0; 0; 0; 0; 1; 0; 0] th th' /\ t_wp_slots th' = t_wp_slots th /\
    t_log2_hist th' = Some (bump (ti * 64 + b) h) /\
    reservoir_rejected th' = reservoir_rejected th.
Proof.
  intros Hok Hh Hti Hb; unfold bump_log2_hist, RD_WPCTL_LOG2_BUCKETS; rewrite Hh.
  destruct Hok as [[] [(h' & Hh' & Hl & Hr) R2 R3 R4]]; rewrite Hh in Hh'; simplify_eq.
  rewrite (proj2 (Z.ltb_lt ti _)), (proj2 (Z.ltb_lt (ti * 64 + b) _)) by nia; cbn [andb].
  destruct (proj2 (zlookup_is_Some h' (ti * 64 + b))) as [v Hv]; [nia|].
  rewrite Hv; cbn [mbind option_bind]; rewrite (bump_zinsert _ _ _ Hv); cbn [mbind option_bind].
  assert (Hsum : sumZ (bump (ti * 64 + b) h') ≡₆₄ sumZ h' + 1) by (apply sumZ_bump; nia).
  eexists; split_and!; try done.
  - split; split; cbn; auto; eexists; split; [done|]; split; [unfold bump; by rewrite length_insert|by apply bump_range].
  - moves_cols; rewrite ?Hh, ?Hsum; eqm64_lia.
Qed.

Lemma pair_step_ok th a b c d bk :
  thread_ok ses th -> 0 <= bk < 64 ->
  exists th', rd_add_pair_hist_locked th a b c d bk = Some th' /\ thread_ok ses th' /\
    moves [0; 0; 0; 0; 0; 0; 0; 0; 0; 1; 0] th th' /\ keeps th th'.
Proof.
  intros [[] [R1 (t & Ht & Hwf) R3 R4]] Hbk.
  destruct (add_pair_outcome th t a b c d bk Ht Hwf) as (th' & -> & Ho); [lia|].
  exists th'; split; [done|]; destruct Ho as [|t' used' _ Hwf' _ Htot];
    (split_and!; [split; split; cbn; eauto|..]); try done.
  - moves_cols; rewrite ?Ht; eqm64_lia.
  - moves_cols; rewrite ?Ht, ?Htot; eqm64_lia.
Qed.

(** The raw event of a hit, reserved and written. *)
Lemma event_step_ok th n bk ti pco rpc sa ha dl :
  thread_ok ses th -> Z.of_nat n < wp_capacity ses ->
  exists th',
    (let '(event, th) := if callchain_mode ses =? RD_CALLCHAIN_DWARF
                         then rd_reserve_dwarf_event_locked ses th else (None, th) in
     let th := th ⟦ hits ::= inc64 ⟧ in
     match event with
     | None => Some th
     | Some event_index =>
         write_dwarf_event th (Z.of_nat n) event_index bk ti pco rpc sa ha dl
     end) = Some th' /\ thread_ok ses th' /\
    moves [0; 0; 0; 0; 1; 0; 0; 0; 0; 0; if dwarf_mode then 1 else 0] th th' /\
    keeps th th'.
Proof.
  intros [[H1 H2 H3 H4 H5 H6] [R1 R2 R3 R4]] Hn; unfold dwarf_mode.
  destruct (callchain_mode ses =? RD_CALLCHAIN_DWARF) eqn:Hm.
  2: { eexists; split; [done|]; split_and!; try done; moves_tac. }
  apply Z.eqb_eq in Hm; unfold rd_reserve_dwarf_event_locked, events_ok in *.
  destruct (t_dwarf_events th) as [evs|] eqn:Ee; [|done]; destruct R4 as (_ & Hl & Hu & Hev).
  rewrite Hm, (proj2 (Z.eqb_neq _ 0)) by (pose proof (so_dwarf _ Hses Hm); lia).
  rewrite Z.eqb_refl; cbn [negb orb]; rewrite bool_decide_eq_false_2 by done; cbn [negb orb].
  destruct (dwarf_event_capacity ses <=? dwarf_event_used th) eqn:Hfull.
  { eexists; split; [done|]; split_and!; try done; [|moves_tac].
    split; split; cbn; auto; rewrite Ee; done. }
  assert (Hinc : inc32 (dwarf_event_used th) = dwarf_event_used th + 1).
  { pose proof (so_events _ Hses); unfold inc32; apply u32_id; lia. }
  unfold write_dwarf_event; cbn zeta.
  change (t_dwarf_events (th ⟦ dwarf_event_used ::= inc32 ⟧ ⟦ hits ::= inc64 ⟧)) with (t_dwarf_events th).
  change (t_seed_snaps (th ⟦ dwarf_event_used ::= inc32 ⟧ ⟦ hits ::= inc64 ⟧)) with (t_seed_snaps th).
  change (t_reuse_snaps (th ⟦ dwarf_event_used ::= inc32 ⟧ ⟦ hits ::= inc64 ⟧)) with (t_reuse_snaps th).
  rewrite Ee; cbn [mbind option_bind].
  destruct (t_seed_snaps th) as [ss|] eqn:Es; [|done]; destruct H5 as [_ Hss].
  destruct (t_reuse_snaps th) as [rs|] eqn:Er; [|done]; destruct H6 as [_ Hrs].
  destruct (proj2 (zlookup_is_Some ss (Z.of_nat n))) as [s1 ->]; [lia|].
  destruct (proj2 (zlookup_is_Some rs (Z.of_nat n))) as [s2 ->]; [lia|].
  cbn [mbind option_bind]; rewrite zinsert_is_Some by lia; cbn [mbind option_bind].
  eexists; split; [done|]; split_and!; try done; [split; split; cbn; auto|].
  - by rewrite Es.
  - by rewrite Er.
  - rewrite Hinc, length_insert; split_and!; try done; try lia.
    intros i ev' [Hi Hiv]%zlookup_Some; rewrite length_insert in Hi.
    apply list_insert_cases in Hiv as [[Hin ->]|[Hin Hiv]]; [cbn; split_if; lia|].
    rewrite (Hev i ev') by (apply zlookup_Some; auto); repeat split_if; lia.
  - moves_cols; rewrite ?Hinc; eqm64_lia.
Qed.

Lemma record_hit_ok th s n key rpc ha h :
  thread_ok ses th -> Z.of_nat n < wp_capacity ses -> key_wf key ->
  0 <= wp_target_index s < target_count ses -> t_log2_hist th = Some h ->
  exists th', record_hit ses th s (Z.of_nat n) key rpc ha = Some th' /\ thread_ok ses th' /\
    moves (row_hit dwarf_mode) th th' /\ t_wp_slots th' = t_wp_slots th /\
    t_log2_hist th' = Some (bump (wp_target_index s * 64 +
                                  rd_log2_bucket (reuse_delta (wp_seed_access s) ha)) h) /\
    reservoir_rejected th' = reservoir_rejected th.
Proof.
  intros Hok Hn Hk Hti Hh; unfold record_hit.
  pose proof (rd_log2_bucket_range _ (reuse_delta_range (wp_seed_access s) ha)) as Hbk.
  destruct (context_step_ok ses ((callchain_mode ses =? RD_CALLCHAIN_FP) && truthy (ck_depth key))
              th key Hok Hk) as (ctx & th1 & -> & Hok1 & Hm1 & Hs1 & Hh1 & Hr1); cbn [mbind option_bind].
  destruct (bump_hist_ok th1 h (wp_target_index s) _ Hok1 ltac:(congruence) Hti Hbk)
    as (th2 & -> & Hok2 & Hm2 & Hs2 & Hh2 & Hr2); cbn [mbind option_bind].
  destruct (pair_step_ok th2 (wp_seed_pc_offset s) (wp_seed_context_id s) rpc ctx _ Hok2 Hbk)
    as (th3 & -> & Hok3 & Hm3 & Hs3 & Hh3 & Hr3); cbn [mbind option_bind].
  destruct (event_step_ok th3 n (rd_log2_bucket (reuse_delta (wp_seed_access s) ha))
              (wp_target_index s) (wp_seed_pc_offset s) rpc (wp_seed_access s) ha
              (reuse_delta (wp_seed_access s) ha) Hok3 Hn)
    as (th4 & He & Hok4 & Hm4 & Hs4 & Hh4 & Hr4).
  exists th4; split_and!; [exact He|done| |congruence..].
  eapply moves_frame; [exact Hm1| |done].
  exact (moves_trans _ _ _ _ _ (moves_trans _ _ _ _ _ Hm2 Hm3) Hm4).
Qed.

(** Outcome of a hit on slot [n], which holds [s]. *)
Inductive wp_outcome (th : rd_thread_ctx) (slots : list wp_slot) (h : list Z) (n : nat)
    (s : wp_slot) (w : world) : rd_thread_ctx -> Prop :=
| wp_idle : slot_armed s = false -> wp_outcome th slots h n s w th
| wp_first :
    slot_armed s = true -> truthy (wp_skip_first_hit s) = true ->
    wp_outcome th slots h n s w
      (th ⟦ t_wp_slots := Some (<[n := s ⟦ wp_skip_first_hit := 0 ⟧]> slots) ⟧)
| wp_measured ev th' :
    slot_armed s = true -> wp_skip_first_hit s = 0 -> t_mem_event th = Some ev ->
    thread_ok ses th' -> moves (row_add (row_hit dwarf_mode) row_disarm) th th' ->
    t_wp_slots th' = Some (<[n := cleared_slot s]> slots) ->
    t_log2_hist th' =
      Some (bump (wp_target_index s * 64 +
                  rd_log2_bucket (reuse_delta (wp_seed_access s) (perf_event_read_value ev w).1)) h) ->
    reservoir_rejected th' = reservoir_rejected th ->
    wp_outcome th slots h n s w th'.

Lemma wp_hit_outcome th slots h n s regs e :
  thread_ok ses th -> t_active th = true -> s_running ses = true ->
  t_wp_slots th = Some slots -> slots !! n = Some s -> t_log2_hist th = Some h ->
  (forall r, regs = Some r -> pt_regs_wf r) ->
  exists th' e', rd_handle_wp_hit ses th (Z.of_nat n) regs e = Some (th', e') /\
                 wp_outcome th slots h n s (e_world e) th'.
Proof.
  intros Hok Hact Hrun Hs Hn Hh Hr; unfold rd_handle_wp_hit; rewrite Hact, Hrun; cbn [negb orb].
  apply lookup_lt_Some in Hn as Hlt.
  destruct (lv_slots _ _ (proj1 Hok)) as (l & Hl & Hlen & Hf); rewrite Hs in Hl; simplify_eq.
  rewrite (proj2 (Z.leb_gt _ _)), Hs by lia; cbn [mbind option_bind].
  rewrite zlookup_of_nat, Hn; cbn [mbind option_bind].
  destruct (slot_armed s) eqn:Ha; cbn [negb]; [|eexists _, _; split; [done|]; by apply wp_idle].
  destruct (truthy (wp_skip_first_hit s)) eqn:Hskip.
  { rewrite zinsert_is_Some by lia; cbn [mbind option_bind]; rewrite Nat2Z.id.
    eexists _, _; split; [done|]; by apply wp_first. }
  pose proof (Forall_lookup_1 _ _ _ _ Hf Hn Ha) as Hti.
  rewrite (proj2 (Z.leb_gt _ _)) by lia.
  destruct (capture_step_ok ses (callchain_mode ses =? RD_CALLCHAIN_FP) th regs (e_world e) Hok Hr)
    as (key & th1 & -> & Hk & Hok1 & Hm1 & Hs1 & Hh1 & Hr1); cbn [mbind option_bind].
  destruct (reuse_snapshot_ok ses th1 n regs (e_world e) Hok1) as
    (th2 & -> & Hok2 & Hm2 & Hs2 & Hh2 & Hr2); [lia|]; cbn [mbind option_bind].
  destruct (lv_mem _ _ (proj1 Hok)) as [ev Hev].
  assert (Hev2 : t_mem_event th2 = Some ev).
  { pose proof (mv_res _ _ _ Hm1) as E1; pose proof (mv_res _ _ _ Hm2) as E2.
    unfold resources in *; simplify_eq; congruence. }
  unfold rd_read_mem_access; rewrite Hev2.
  destruct (perf_event_read_value ev (e_world e)) as [ha w] eqn:Erd.
  set (rpc := match regs with Some _ => _ | None => _ end).
  destruct (record_hit_ok th2 s n key rpc ha h Hok2) as
    (th3 & -> & Hok3 & Hm3 & Hs3 & Hh3 & Hr3); [lia|done|done|congruence|]; cbn [mbind option_bind].
  assert (Hs3' : t_wp_slots th3 = Some l) by congruence.
  rewrite Hs3'; cbn [mbind option_bind]; rewrite zlookup_of_nat, Hn; cbn [mbind option_bind]; rewrite Ha.
  destruct (clear_slot_ok ses th3 l n s Hok3 Hs3' Hn Ha) as (th4 & -> & Hok4 & Hm4 & Hs4 & Hr4 & Hh4);
    cbn [mbind option_bind].
  destruct (modify_slot_ok ses th4 n (wp_idle_addr s) RD_IDLE_WP_LEN w) as (ret & w4 & ->);
    [apply Hok4|lia|]; cbn [mbind option_bind].
  eexists _, _; split; [done|]; apply (wp_measured _ _ _ _ _ _ ev); try done.
  - unfold truthy in Hskip; destruct (wp_skip_first_hit s =? 0) eqn:E; [lia|done].
  - eapply moves_frame; [exact Hm1| |by destruct dwarf_mode].
    eapply moves_frame; [exact Hm2| |by destruct dwarf_mode].
    by eapply moves_trans.
  - rewrite Erd; cbn [fst]; congruence.
  - congruence.
Qed.
End wp_hit.

(** * Conservation

    The laws the counters of a thread obey, modulo [2^64]: every candidate is
    seen; every one seen is accepted or rejected; every accepted one is a hit,
    an eviction, a drop or still armed; every hit is in the histogram of its
    target, in its pair histogram or counted as a pair drop, and in DWARF mode
    in the raw events or counted as an event drop. *)
Definition balanced (dwarf : bool) (t : list Z) : Prop :=
  match t with
  | [cand; seen; acc; rej; hit; evi; drp; armed; hist; pairs; evs] =>
      cand ≡₆₄ seen /\ seen ≡₆₄ acc + rej /\ acc ≡₆₄ hit + evi + drp + armed /\
      hist ≡₆₄ hit /\ pairs ≡₆₄ hit /\ (dwarf = true -> evs ≡₆₄ hit)
  | _ => False
  end.

Lemma eqm64_add2 a b c d : a ≡₆₄ b -> c ≡₆₄ d -> a + c ≡₆₄ b + d.
Proof. intros -> ->; reflexivity. Qed.

Lemma balanced_moves dw d th th' :
  moves d th th' -> balanced dw d -> balanced dw (tally th) -> balanced dw (tally th').
Proof.
  intros [Hm _] Hd Hb.
  destruct d as [|d1 [|d2 [|d3 [|d4 [|d5 [|d6 [|d7 [|d8 [|d9 [|d10 [|d11 [|]]]]]]]]]]]]; try done.
  unfold tally, row_add in *; cbn [zip_with balanced] in *.
  repeat (apply Forall2_cons in Hm as [? Hm]).
  destruct Hd as (E1 & E2 & E3 & E4 & E5 & E6), Hb as (B1 & B2 & B3 & B4 & B5 & B6).
  repeat match goal with H : eqm64 (_ th') _ |- _ => rewrite H; clear H end.
  split_and!.
  - by apply eqm64_add2.
  - rewrite B2, E2; eqm64_lia.
  - rewrite B3, E3; eqm64_lia.
  - by apply eqm64_add2.
  - by apply eqm64_add2.
  - intros Hdw; apply eqm64_add2; auto.
Qed.

(** A thread whose perf resources are gone: only results are left. *)
Definition detached (th : rd_thread_ctx) : Prop :=
  t_task th = None /\ t_mem_event th = None /\ t_bp_events th = None /\ t_wp_events th = None /\
  t_wp_slots th = None /\ t_seed_snaps th = None /\ t_reuse_snaps th = None.

(** The invariant of a registered thread. *)
Record thread_inv (ses : rd_session) (th : rd_thread_ctx) : Prop := {
  ti_live : if t_active th then live_ok ses th else detached th;
  ti_results : results_ok ses th;
  ti_samples : samples_one th;
  ti_rejected : reservoir_rejected th = 0;
  ti_balanced : balanced (dwarf_mode ses) (tally th);
}.

(** A hit the kprobes deliver. *)
Inductive hit :=
| BpHit (target_index : Z) (regs : pt_regs)
| WpHit (slot_index : Z) (regs : pt_regs).

Definition hit_wf (h : hit) : Prop :=
  match h with BpHit i r | WpHit i r => 0 <= i /\ pt_regs_wf r end.

Section hits.
Context `{K : KernelApi} (ses : rd_session).

Definition handle_hit (h : hit) (th : rd_thread_ctx) (e : env) : option (rd_thread_ctx * env) :=
  match h with
  | BpHit i r => rd_handle_bp_hit ses th i (Some r) e
  | WpHit i r => rd_handle_wp_hit ses th i (Some r) e
  end.

(** The hit makes the handler shift by an undefined count. *)
Definition undefined_hit (h : hit) (th : rd_thread_ctx) : bool :=
  match h with
  | BpHit i _ =>
      t_active th && s_running ses &&
      match targets ses !!z i with Some tgt => shift_undefined (decode tgt) | None => false end
  | WpHit _ _ => false
  end.

Fixpoint handle_hits (hs : list hit) (th : rd_thread_ctx) (e : env)
    : option (rd_thread_ctx * env) :=
  match hs with
  | [] => Some (th, e)
  | h :: hs => '(th, e) ← handle_hit h th e; handle_hits hs th e
  end.

Hypothesis Hses : session_ok ses.
Implicit Types (th : rd_thread_ctx).

Lemma row_accept_balanced dw repl failed : balanced dw (row_accept repl failed).
Proof. destruct repl, failed; repeat split; try done; intros; done. Qed.

Lemma row_measure_balanced dw : balanced dw (row_add (row_hit dw) row_disarm).
Proof. destruct dw; repeat split; done. Qed.

Lemma thread_inv_active th :
  thread_inv ses th -> t_active th = true ->
  thread_ok ses th /\ exists slots, t_wp_slots th = Some slots /\
    zlen slots = wp_capacity ses /\ Forall (fun s => wp_samples s = 1) slots.
Proof.
  intros [Hl Hr Hs _ _] Ha; rewrite Ha in Hl; split; [done|].
  destruct (lv_slots _ _ Hl) as (l & H1 & H2 & _); exists l; split_and!; auto.
Qed.

Lemma moves_active d th th' : moves d th th' -> t_active th' = t_active th.
Proof. intros [_ H]; unfold resources in H; congruence. Qed.

Lemma bp_outcome_inv th slots ti tgt r e th' :
  thread_inv ses th -> t_active th = true -> t_wp_slots th = Some slots ->
  Forall (fun s => wp_samples s = 1) slots ->
  bp_outcome ses th slots ti tgt r e th' -> thread_inv ses th'.
Proof.
  intros Hi Ha Hs Hone [[Hl Hr] [Hrej _] (n & s & s' & repl & failed & slots' & _ & Hm & Hs' & Hn & Hn' & Hoth
    & Hone' & _)].
  apply moves_active in Hm as Hact; rewrite Ha in Hact; split; [by rewrite Hact|done| | |].
  - intros l Hl'; rewrite Hs' in Hl'; simplify_eq; apply Forall_lookup_2; intros m x Hx.
    destruct (decide (m = n)) as [->|Hne]; [congruence|].
    rewrite Hoth in Hx by done; by eapply Forall_lookup_1 in Hone.
  - rewrite Hrej; apply Hi.
  - eapply balanced_moves; [done|apply row_accept_balanced|apply Hi].
Qed.

Lemma wp_outcome_inv th slots h n s w th' :
  thread_inv ses th -> t_active th = true -> t_wp_slots th = Some slots -> slots !! n = Some s ->
  Forall (fun s => wp_samples s = 1) slots ->
  wp_outcome ses th slots h n s w th' -> thread_inv ses th'.
Proof.
  intros Hi Ha Hs Hn Hone [Hsa|Hsa _|ev th2 Hsa _ _ [Hl Hr] Hm Hs' _ Hrej]; [done| |].
  - destruct Hi as [Hl Hr _ Hrej Hb]; rewrite Ha in Hl.
    destruct Hl as [L1 L2 L3 (l & L & Hlen & Hf) L5 L6]; rewrite Hs in L; simplify_eq.
    pose proof (Forall_lookup_1 _ _ _ _ Hf Hn) as Hso.
    split; try done.
    + cbn; rewrite Ha; split; cbn; auto; eexists; split_and!; [done|by rewrite length_insert|].
      by apply Forall_insert.
    + by destruct Hr.
    + intros l' [= <-]; apply Forall_insert; [done|]; by apply (Forall_lookup_1 _ _ _ _ Hone Hn).
    + eapply balanced_moves with (d := row_zero); [|by repeat split|exact Hb].
      moves_cols; rewrite ?Hs, ?(zcount_insert _ _ _ _ _ Hn); cbn; try eqm64_lia.
      change (slot_armed (s ⟦ wp_skip_first_hit := 0 ⟧)) with (slot_armed s); eqm64_lia.
  - apply moves_active in Hm as Hact; rewrite Ha in Hact; split; [by rewrite Hact|done| | |].
    + intros l Hl'; rewrite Hs' in Hl'; simplify_eq; by apply Forall_insert.
    + rewrite Hrej; apply Hi.
    + eapply balanced_moves; [done|apply row_measure_balanced|apply Hi].
Qed.

Lemma bp_hit_guarded th i r e :
  negb (t_active th) || negb (s_running ses) || (target_count ses <=? i) = true ->
  rd_handle_bp_hit ses th i (Some r) e = Some (th, e).
Proof. intros G; unfold rd_handle_bp_hit; by rewrite G. Qed.

Lemma wp_hit_guarded th i regs e :
  negb (t_active th) || negb (s_running ses) || (wp_capacity ses <=? i) = true ->
  rd_handle_wp_hit ses th i regs e = Some (th, e).
Proof.
  intros G; unfold rd_handle_wp_hit; destruct (negb (t_active th) || negb (s_running ses)); [done|].
  cbn in G; by rewrite G.
Qed.

Lemma handle_hit_inv h th e :
  thread_inv ses th -> hit_wf h -> undefined_hit h th = false ->
  exists th' e', handle_hit h th e = Some (th', e') /\ thread_inv ses th' /\
                 resources th' = resources th.
Proof.
  intros Hi Hwf Hdef; destruct h as [i r|i r]; destruct Hwf as [Hi0 Hr]; cbn [handle_hit].
  - destruct (t_active th && s_running ses && (i <? target_count ses)) eqn:G.
    2: { exists th, e; split; [|split; [exact Hi|reflexivity]]; apply bp_hit_guarded.
         destruct (t_active th), (s_running ses); cbn in *; lia. }
    apply andb_true_iff in G as [[Ha Hrun]%andb_true_iff Hlt].
    destruct (thread_inv_active th Hi Ha) as (Hok & slots & Hs & Hlen & Hone).
    destruct (proj2 (zlookup_is_Some (targets ses) i)) as [tgt Ht];
      [rewrite (so_count _ Hses); lia|].
    cbn in Hdef; rewrite Ha, Hrun, Ht in Hdef; cbn in Hdef.
    destruct (bp_hit_outcome ses Hses th slots i tgt r e Hok Ha Hrun Hs Hone Ht Hdef Hr)
      as (th' & e' & -> & Ho); exists th', e'; split_and!; [done|by eapply bp_outcome_inv|].
    destruct Ho as [_ _ (? & ? & ? & ? & ? & ? & _ & Hm & _)]; apply Hm.
  - destruct (t_active th && s_running ses && (i <? wp_capacity ses)) eqn:G.
    2: { exists th, e; split; [|split; [exact Hi|reflexivity]]; apply wp_hit_guarded.
         destruct (t_active th), (s_running ses); cbn in *; lia. }
    apply andb_true_iff in G as [[Ha Hrun]%andb_true_iff Hlt].
    destruct (thread_inv_active th Hi Ha) as (Hok & slots & Hs & Hlen & Hone).
    destruct (proj2 (zlookup_is_Some slots i)) as [s [_ Hn]%zlookup_Some]; [lia|].
    destruct (rs_hist _ _ (proj2 Hok)) as (h & Hh & _).
    replace i with (Z.of_nat (Z.to_nat i)) by lia.
    destruct (wp_hit_outcome ses Hses th slots h (Z.to_nat i) s (Some r) e Hok Ha Hrun Hs Hn Hh)
      as (th' & e' & -> & Ho); [by intros ? [= <-]|].
    exists th', e'; split_and!; [done|by eapply wp_outcome_inv|].
    destruct Ho as [| |ev th2 _ _ _ _ Hm]; [done|done|apply Hm].
Qed.

Lemma handle_hit_undefined h th e : hit_wf h -> undefined_hit h th = true -> handle_hit h th e = None.
Proof.
  intros Hwf Hdef; destruct h as [i r|i r]; [|done]; destruct Hwf as [_ Hr]; cbn [undefined_hit handle_hit] in *.
  apply andb_true_iff in Hdef as [[Ha Hrun]%andb_true_iff Ht].
  destruct (targets ses !!z i) as [tgt|] eqn:E; [|done]; by eapply bp_hit_undefined.
Qed.

(** A hit that returns keeps the invariant of its thread. *)
Lemma handle_hit_some h th e th' e' :
  thread_inv ses th -> hit_wf h -> handle_hit h th e = Some (th', e') ->
  thread_inv ses th' /\ resources th' = resources th.
Proof.
  intros Hi Hwf H; destruct (undefined_hit h th) eqn:E; [rewrite (handle_hit_undefined h th e Hwf E) in H; discriminate|].
  destruct (handle_hit_inv h th e Hi Hwf E) as (x & y & H' & H1 & H2); rewrite H' in H; injection H as <- _; exact (conj H1 H2).
Qed.

(** Any sequence of breakpoint and watchpoint hits on a registered thread, of
    targets whose shift is defined, runs without a fault and keeps the thread invariant: in particular every
    candidate ends as a hit, an eviction, a drop or an armed slot, and every
    hit is in the histogram of its target and in the pair table or its drop
    count. *)
Theorem hits_preserve_accounting (hs : list hit) (th : rd_thread_ctx) (e : env)
    (Hi : thread_inv ses th) (Hwf : Forall hit_wf hs)
    (Hdef : forall i tgt, targets ses !!z i = Some tgt -> shift_undefined (decode tgt) = false) :
  exists th' e', handle_hits hs th e = Some (th', e') /\ thread_inv ses th' /\
    reservoir_accepted th' ≡₆₄ hits th' + evictions th' + dropped th' + armed_slots th' /\
    hist_total th' ≡₆₄ hits th' /\ pairs_total th' ≡₆₄ hits th'.
Proof.
  assert (Hno : forall h th, undefined_hit h th = false).
  { intros [i r|i r] x; [cbn|done]; destruct (targets ses !!z i) eqn:E; [erewrite Hdef by done|]; apply andb_false_r. }
  revert th e Hi; induction Hwf as [|h hs Hh _ IH]; intros th e Hi; cbn [handle_hits].
  - eexists th, e; split_and!; try done; apply (ti_balanced _ _ Hi).
  - destruct (handle_hit_inv h th e Hi Hh (Hno h th)) as (th1 & e1 & -> & Hi1 & _); cbn [mbind option_bind].
    apply IH, Hi1.
Qed.

End hits.
