(* ===== verification/HitSpec.v ===== *)
(** What single hits do, the sampled reuse distance from arming to measurement,
    the behaviour of a full reservoir, and the reset of a thread. *)
From S2P Require Import Prelude Uapi Buckets EffAddr KernelApi KTypes Tables Callchain.
From S2P Require Import Handlers Sampling.
Import Buckets EffAddr Contexts PairHist Callchain Snapshot.

Section hit_spec.
Context `{K : KernelApi} (ses : rd_session).
Hypothesis Hses : session_ok ses.
Implicit Types (th : rd_thread_ctx).

(** A breakpoint hit of target [ti] on an active thread of a running
    session changes exactly one slot.  The slot was idle, or every slot was
    armed.  Unless the hardware refused the new address, in which case it is
    idle again, it now monitors the effective address of the access, stamped
    with the current access counter, and will skip its first hit. *)
Theorem bp_hit_arms_one_slot (th : rd_thread_ctx) (ti : Z) (tgt : rd_target) (r : pt_regs) (e : env)
    (Hi : thread_inv ses th) (Hact : t_active th = true) (Hrun : s_running ses = true)
    (Ht : targets ses !!z ti = Some tgt) (Hdef : shift_undefined (decode tgt) = false) (Hr : pt_regs_wf r) :
  exists th' e' slots slots' n s s',
    rd_handle_bp_hit ses th ti (Some r) e = Some (th', e') /\
    t_wp_slots th = Some slots /\ t_wp_slots th' = Some slots' /\
    slots !! n = Some s /\ slots' !! n = Some s' /\
    (forall m, m <> n -> slots' !! m = slots !! m) /\
    (slot_armed s = false \/ zcount slot_armed slots = wp_capacity ses) /\
    (slot_armed s' = false \/ armed_for th ti tgt r (e_world e) s').
Proof.
  destruct (thread_inv_active ses th Hi Hact) as (Hok & slots & Hs & Hlen & Hone).
  destruct (bp_hit_outcome ses Hses th slots ti tgt r e Hok Hact Hrun Hs Hone Ht Hdef Hr)
    as (th' & e' & Hh & [_ _ (n & s & s' & repl & failed & slots' & _ & _ & Hs' & Hn & Hn' & Hoth & _
        & Ha & Hrep & Hend)]).
  exists th', e', slots, slots', n, s, s'; split_and!; try done.
  - destruct repl; [right; by apply Hrep|by left].
  - destruct failed; auto.
Qed.

(** A full reservoir always evicts slot 0.  The replacement test divides a
    draw by the sample count of the slot, but arming a slot and clearing it
    both set the count back to 1 and the first slot tested is replaced when its
    count is 1, so no reachable slot has another count: a candidate that finds
    all slots armed is never rejected and always replaces slot 0. *)
Theorem full_reservoir_evicts_slot_0 (th : rd_thread_ctx) (ti : Z) (tgt : rd_target)
    (r : pt_regs) (e : env) (slots : list wp_slot)
    (Hi : thread_inv ses th) (Hact : t_active th = true) (Hrun : s_running ses = true)
    (Ht : targets ses !!z ti = Some tgt) (Hdef : shift_undefined (decode tgt) = false) (Hr : pt_regs_wf r)
    (Hs : t_wp_slots th = Some slots) (Hfull : zcount slot_armed slots = wp_capacity ses) :
  exists th' e' slots',
    rd_handle_bp_hit ses th ti (Some r) e = Some (th', e') /\
    t_wp_slots th' = Some slots' /\ drop 1 slots' = drop 1 slots /\
    evictions th' ≡₆₄ evictions th + 1 /\ reservoir_accepted th' ≡₆₄ reservoir_accepted th + 1 /\
    reservoir_rejected th' = 0.
Proof.
  destruct (thread_inv_active ses th Hi Hact) as (Hok & l & Hs0 & Hlen & Hone).
  rewrite Hs in Hs0; simplify_eq.
  destruct (bp_hit_outcome ses Hses th l ti tgt r e Hok Hact Hrun Hs Hone Ht Hdef Hr)
    as (th' & e' & Hh & [_ [Hrej _] (n & s & s' & repl & failed & slots' & _ & Hm & Hs' & Hn & Hn' & Hoth & _
        & Ha & Hrep & Hend)]).
  assert (repl = true) as ->.
  { rewrite <- Ha; eapply zcount_full_inv; [|exact Hn]; congruence. }
  destruct (Hrep eq_refl) as [-> _].
  exists th', e', slots'; destruct Hm as [Hm _]; split_and!; try done.
  - apply list_eq; intros m; rewrite !lookup_drop; apply Hoth; lia.
  - destruct failed; unfold tally, row_add, row_accept in Hm; cbn [zip_with] in Hm;
      repeat (apply Forall2_cons in Hm as [? Hm]); done.
  - destruct failed; unfold tally, row_add, row_accept in Hm; cbn [zip_with] in Hm;
      repeat (apply Forall2_cons in Hm as [? Hm]); done.
  - rewrite Hrej; apply Hi.
Qed.

(** A watchpoint hit on an armed slot: the first one after arming is
    ignored and leaves every counter and histogram as it was; a later one
    counts one hit, in the bucket of the slot's target whose interval contains
    [hit_access - seed_access - 1], and returns the slot to idle. *)
Theorem wp_hit_records_reuse_distance (th : rd_thread_ctx) (slots : list wp_slot) (h : list Z)
    (n : nat) (s : wp_slot) (r : pt_regs) (e : env)
    (Hi : thread_inv ses th) (Hact : t_active th = true) (Hrun : s_running ses = true)
    (Hs : t_wp_slots th = Some slots) (Hn : slots !! n = Some s) (Harm : slot_armed s = true)
    (Hh : t_log2_hist th = Some h) (Hr : pt_regs_wf r) :
  exists th' e', rd_handle_wp_hit ses th (Z.of_nat n) (Some r) e = Some (th', e') /\
    if truthy (wp_skip_first_hit s) then
      tally th' = tally th /\ t_log2_hist th' = Some h /\
      t_wp_slots th' = Some (<[n := s ⟦ wp_skip_first_hit := 0 ⟧]> slots)
    else exists ev b,
      t_mem_event th = Some ev /\
      let hit_access := (perf_event_read_value ev (e_world e)).1 in
      let delta := if wp_seed_access s <? hit_access
                   then u64 (hit_access - wp_seed_access s - 1) else 0 in
      0 <= b < 64 /\ bucket_lo b <= delta <= bucket_hi b /\
      t_log2_hist th' = Some (bump (wp_target_index s * 64 + b) h) /\
      hits th' ≡₆₄ hits th + 1 /\
      t_wp_slots th' = Some (<[n := cleared_slot s]> slots).
Proof.
  destruct (thread_inv_active ses th Hi Hact) as (Hok & l & Hs0 & Hlen & _).
  rewrite Hs in Hs0; simplify_eq.
  destruct (wp_hit_outcome ses Hses th l h n s (Some r) e Hok Hact Hrun Hs Hn Hh)
    as (th' & e' & Hw & Ho); [by intros ? [= <-]|].
  exists th', e'; split; [done|]; destruct Ho as [Hno|_ Hsk|ev th' _ Hsk Hev _ Hm Hs' Hh' _].
  - congruence.
  - rewrite Hsk; split_and!; try done; unfold tally, armed_slots; cbn.
    rewrite Hs, (zcount_insert _ _ _ _ _ Hn).
    change (slot_armed (s ⟦ wp_skip_first_hit := 0 ⟧)) with (slot_armed s).
    repeat f_equal; lia.
  - rewrite Hsk; cbn; eexists ev, _; split; [done|]; cbn zeta; fold (reuse_delta (wp_seed_access s)
      (perf_event_read_value ev (e_world e)).1).
    pose proof (reuse_delta_range (wp_seed_access s) (perf_event_read_value ev (e_world e)).1) as Hd.
    split_and!; try exact Hh'; try exact Hs'; try apply rd_log2_bucket_range; try done.
    + eapply bucket_of_distance; [done|reflexivity].
    + eapply bucket_of_distance; [done|reflexivity].
    + destruct Hm as [Hm _]; unfold tally, row_add, row_hit in Hm; cbn [zip_with] in Hm.
      repeat (apply Forall2_cons in Hm as [? Hm]); done.
Qed.

(** Two hits on a slot that has just been armed: the first is ignored, the second
    measures. *)
Lemma two_hits_measure (th : rd_thread_ctx) (slots : list wp_slot) (h : list Z) (n : nat) (s : wp_slot)
    (r1 r2 : pt_regs) (ea eb : env) (ev : Z) :
  thread_inv ses th -> t_active th = true -> s_running ses = true ->
  t_wp_slots th = Some slots -> slots !! n = Some s -> slot_armed s = true -> wp_skip_first_hit s = 1 ->
  t_log2_hist th = Some h -> t_mem_event th = Some ev -> pt_regs_wf r1 -> pt_regs_wf r2 ->
  exists th2 e2 th3 e3 s3 b,
    rd_handle_wp_hit ses th (Z.of_nat n) (Some r1) ea = Some (th2, e2) /\
    rd_handle_wp_hit ses th2 (Z.of_nat n) (Some r2) eb = Some (th3, e3) /\
    tally th2 = tally th /\ t_log2_hist th2 = Some h /\
    hits th3 ≡₆₄ hits th + 1 /\ t_log2_hist th3 = Some (bump (wp_target_index s * 64 + b) h) /\
    t_wp_slots th3 = Some (<[n := s3]> slots) /\ slot_armed s3 = false /\ 0 <= b < 64 /\
    let hit_access := (perf_event_read_value ev (e_world eb)).1 in
    bucket_lo b <= (if wp_seed_access s <? hit_access then u64 (hit_access - wp_seed_access s - 1) else 0) <= bucket_hi b.
Proof.
  intros Hi Ha Hrun Hs Hn Harm Hskip Hh Hev Hr1 Hr2.
  destruct (wp_hit_records_reuse_distance th slots h n s r1 ea) as (th2 & e2 & Hw1 & H1); try done.
  rewrite Hskip in H1; destruct H1 as (Ht2 & Hh2 & Hs2).
  destruct (handle_hit_some ses Hses (WpHit (Z.of_nat n) r1) th ea th2 e2 Hi) as [Hi2 Hres];
    [split; [lia|done]|exact Hw1|].
  assert (Ha2 : t_active th2 = true) by (unfold resources in Hres; congruence).
  assert (Hev2 : t_mem_event th2 = Some ev) by (unfold resources in Hres; congruence).
  assert (Hn2 : <[n := s ⟦ wp_skip_first_hit := 0 ⟧]> slots !! n = Some (s ⟦ wp_skip_first_hit := 0 ⟧))
    by (apply list_lookup_insert_eq; by eapply lookup_lt_Some).
  destruct (wp_hit_records_reuse_distance th2 _ h n _ r2 eb Hi2 Ha2 Hrun Hs2 Hn2 Harm Hh2 Hr2)
    as (th3 & e3 & Hw2 & ev' & b & Hev' & Hb & Hd & Hh3 & Hhits & Hs3).
  assert (ev' = ev) as -> by congruence; assert (Eh : hits th2 = hits th) by (unfold tally in Ht2; congruence).
  rewrite list_insert_insert_eq in Hs3; rewrite Eh in Hhits.
  exists th2, e2, th3, e3, (cleared_slot s), b; split_and!; try done; apply Hb.
Qed.

(** C2. From seed to measurement.  A breakpoint hit of target [ti] chooses one
    slot [n], which was idle unless all were armed, and leaves the others alone.
    If the hardware refuses to move the watchpoint of that slot to the effective
    address, the slot is idle and the candidate counts as dropped.  Otherwise the
    slot is armed at that address with the access count of the moment; and when
    two hits of its watchpoint follow, at any later kernel states, the first is
    ignored and the second adds one to exactly one bucket, the bucket of target
    [ti] whose interval contains [hit - seed - 1], where [seed] and [hit] are what
    the access counter of the thread read at the breakpoint and at the second
    hit (0 if the counter did not advance); the slot is idle again. *)
Theorem seed_to_reuse_distance (th : rd_thread_ctx) (ti : Z)
    (tgt : rd_target) (r r1 r2 : pt_regs) (e ea eb : env) (h : list Z) (slots : list wp_slot)
    (Hi : thread_inv ses th) (Hact : t_active th = true)
    (Hrun : s_running ses = true) (Ht : targets ses !!z ti = Some tgt) (Hdef : shift_undefined (decode tgt) = false)
    (Hr : pt_regs_wf r) (Hr1 : pt_regs_wf r1) (Hr2 : pt_regs_wf r2)
    (Hs : t_wp_slots th = Some slots) (Hh : t_log2_hist th = Some h) :
  exists th1 e1 slots1 n s s1 ev evs wp_event,
    rd_handle_bp_hit ses th ti (Some r) e = Some (th1, e1) /\
    t_mem_event th = Some ev /\ t_wp_events th = Some evs /\ evs !! n = Some (Some wp_event) /\ t_log2_hist th1 = Some h /\
    t_wp_slots th1 = Some slots1 /\ slots !! n = Some s /\ slots1 !! n = Some s1 /\
    (forall m, m <> n -> slots1 !! m = slots !! m) /\
    (slot_armed s = true -> forall m x, slots !! m = Some x -> slot_armed x = true) /\
    let seed_access := (perf_event_read_value ev (e_world e)).1 in
    let hit_access := (perf_event_read_value ev (e_world eb)).1 in
    let va := u64 (ea_spec (decode tgt) r) in
    let ret := (modify_user_hw_breakpoint wp_event (rd_init_wp_attr va (access_size (decode tgt)) ⟦ attr_disabled := false ⟧)
                  (perf_event_read_value ev (e_world e)).2).1 in
    if truthy ret then slot_armed s1 = false /\ dropped th1 ≡₆₄ dropped th + 1
    else slot_armed s1 = true /\ wp_seed_va s1 = va /\ wp_seed_access s1 = seed_access /\
      dropped th1 ≡₆₄ dropped th /\
      exists th2 e2 th3 e3 s3 b,
        rd_handle_wp_hit ses th1 (Z.of_nat n) (Some r1) ea = Some (th2, e2) /\
        rd_handle_wp_hit ses th2 (Z.of_nat n) (Some r2) eb = Some (th3, e3) /\
        tally th2 = tally th1 /\ t_log2_hist th2 = Some h /\
        hits th3 ≡₆₄ hits th1 + 1 /\ t_log2_hist th3 = Some (bump (ti * 64 + b) h) /\
        t_wp_slots th3 = Some (<[n := s3]> slots1) /\ slot_armed s3 = false /\ 0 <= b < 64 /\
        bucket_lo b <= (if seed_access <? hit_access then u64 (hit_access - seed_access - 1) else 0) <= bucket_hi b.
Proof.
  destruct (thread_inv_active ses th Hi Hact) as (Hok & l & Hs' & Hlen & Hone).
  assert (l = slots) as -> by congruence; clear Hs'.
  destruct (bp_hit_outcome ses Hses th slots ti tgt r e Hok Hact Hrun Hs Hone Ht Hdef Hr)
    as (th1 & e1 & Hbp & Ho); pose proof (bp_outcome_inv ses th slots ti tgt r e th1 Hi Hact Hs Hone Ho) as Hi1.
  destruct Ho as [_ [_ Hh1] (n & s & s1 & repl & failed & slots1 & (ev & ret & w & Hev & -> & Hmod) & Hm & Hs1 & Hn & Hn1
    & Hoth & _ & Ha & Hrep & Hslot)]; rewrite Hh in Hh1.
  assert (Hres : resources th1 = resources th) by apply Hm.
  apply lookup_lt_Some in Hn as Hlt.
  destruct (modify_slot_running ses th n (u64 (ea_spec (decode tgt) r)) (access_size (decode tgt))
    (perf_event_read_value ev (e_world e)).2 (proj1 Hok)) as (evs & wp & Hw & Hwn & Hm'); [lia|done|done|].
  rewrite Hm' in Hmod; injection Hmod as Hmod.
  exists th1, e1, slots1, n, s, s1, ev, evs, wp; split_and!; try done; cbn zeta.
  { intros Hsa m x Hx; eapply (zcount_full_inv slot_armed slots); [|exact Hx]; rewrite Hlen; apply Hrep; congruence. }
  assert (Hd : dropped th1 ≡₆₄ dropped th + (if truthy ret then 1 else 0)).
  { destruct Hm as [Hm _]; destruct (truthy ret), repl; unfold tally, row_add, row_accept in Hm; cbn [zip_with] in Hm;
      repeat (apply Forall2_cons in Hm as [? Hm]); done. }
  rewrite Hmod; cbn [fst]; destruct (truthy ret); [done|]; rewrite Z.add_0_r in Hd.
  destruct Hslot as (Harm & Hva & (ev' & Hev' & Hacc) & _ & _ & Hti & Hskip & _).
  assert (ev' = ev) as -> by congruence; split_and!; try done; rewrite <- Hti, <- Hacc.
  apply two_hits_measure; try done; unfold resources in Hres; congruence.
Qed.
End hit_spec.

(** * Reset *)

(** A slot after a reset: idle at its own address, first generation. *)
Definition reset_slot (s : wp_slot) : wp_slot := cleared_slot s ⟦ wp_generation := 0 ⟧.

Definition reset_slots (l : list wp_slot) : list wp_slot := reset_slot <$> l.

Definition zeroed {A} (z : A) (n : Z) (l : option (list A)) : option (list A) :=
  option_map (fun _ => replicate (Z.to_nat n) z) l.

(** The thread after a reset of a well-formed thread. *)
Definition reset_thread (ses : rd_session) (th : rd_thread_ctx) : rd_thread_ctx :=
  reset_counters th
    ⟦ t_log2_hist := Some (replicate (Z.to_nat (target_count ses * 64)) 0) ⟧
    ⟦ t_pair_hist := Some zero_pair_table ⟧
    ⟦ t_contexts := Some (zero_context_table) ⟧
    ⟦ t_dwarf_events := zeroed zero_dwarf_event (dwarf_event_capacity ses) (t_dwarf_events th) ⟧
    ⟦ t_seed_snaps := zeroed zero_snapshot (wp_capacity ses) (t_seed_snaps th) ⟧
    ⟦ t_reuse_snaps := zeroed zero_snapshot (wp_capacity ses) (t_reuse_snaps th) ⟧
    ⟦ t_wp_slots := option_map reset_slots (t_wp_slots th) ⟧.

Lemma zero_prefix_full {A} (z : A) l n :
  zlen l = n -> zero_prefix z l n = Some (replicate (Z.to_nat n) z).
Proof.
  intros <-; unfold zero_prefix; rewrite Z.leb_refl, (proj2 (Z.leb_le 0 _)) by lia; cbn [andb].
  by rewrite drop_ge, app_nil_r by lia.
Qed.

Lemma zero_array_full {A} (z : A) l n :
  (forall l', l = Some l' -> zlen l' = n) ->
  zero_array z l n = Some (zeroed z n l).
Proof.
  intros H; destruct l as [l|]; [|done]; cbn [zero_array]; by rewrite zero_prefix_full by auto.
Qed.

Lemma zero_pair_array t :
  zlen t = RD_WPCTL_MAX_PAIR_HISTS ->
  zero_array zero_pair_entry (Some t) RD_WPCTL_MAX_PAIR_HISTS = Some (Some zero_pair_table).
Proof. intros H; unfold zero_pair_table; by rewrite zero_array_full by (by intros ? [= <-]). Qed.

Lemma zero_context_array t :
  zlen t = RD_WPCTL_MAX_CONTEXTS ->
  zero_array zero_context_entry (Some t) RD_WPCTL_MAX_CONTEXTS = Some (Some zero_context_table).
Proof. intros H; unfold zero_context_table; by rewrite zero_array_full by (by intros ? [= <-]). Qed.

Section reset.
Context `{K : KernelApi} (ses : rd_session).
Hypothesis Hses : session_ok ses.
Implicit Types (th : rd_thread_ctx).

Lemma reset_addresses_ok th w :
  (t_active th = true -> live_ok ses th) ->
  exists ret w', reset_slot_addresses ses th w = Some (ret, w').
Proof.
  intros Hl; unfold reset_slot_addresses.
  destruct (t_active th) eqn:Ha; [|eauto].
  destruct (lv_slots _ _ (Hl eq_refl)) as (l & -> & Hlen & _).
  destruct (lv_wps _ _ (Hl eq_refl)) as (evs & -> & _).
  destruct (for_upto_inv (fun _ (st : Z * world) => True)
    (fun i '(ret, w) => s ← l !!z i;
       '(mod_ret, w) ← rd_modify_slot ses th i (wp_idle_addr s) RD_IDLE_WP_LEN w;
       Some (if (ret =? 0) && truthy mod_ret then mod_ret else ret, w))
    (Z.to_nat (wp_capacity ses)) (0, w)) as ([ret w'] & -> & _); [|done|eauto].
  intros i [ret w1] Hi _; destruct (proj2 (zlookup_is_Some l (Z.of_nat i))) as [s ->]; [lia|].
  cbn [mbind option_bind].
  destruct (modify_slot_ok ses th i (wp_idle_addr s) RD_IDLE_WP_LEN w1 (Hl eq_refl)) as (m & w2 & ->);
    [lia|eauto].
Qed.

Lemma insert_middle {A} (l1 l2 : list A) x y :
  zinsert (l1 ++ x :: l2) (zlen l1) y = Some (l1 ++ y :: l2).
Proof.
  rewrite zinsert_is_Some by (rewrite length_app; cbn; lia); rewrite Nat2Z.id.
  by rewrite insert_app_r_alt, Nat.sub_diag by lia.
Qed.

(** One iteration of the metadata loop. *)
Lemma reset_metadata_step th l1 s l2 :
  t_wp_slots th = Some (l1 ++ s :: l2) -> zlen l1 < wp_capacity ses ->
  (forall l, t_seed_snaps th = Some l -> l = replicate (Z.to_nat (wp_capacity ses)) zero_snapshot) ->
  (th ← rd_clear_slot_metadata ses th (zlen l1);
   slots ← t_wp_slots th;
   s ← slots !!z zlen l1;
   slots' ← zinsert slots (zlen l1) (s ⟦ wp_generation := 0 ⟧);
   Some (th ⟦ t_wp_slots := Some slots' ⟧)) =
  Some (th ⟦ t_wp_slots := Some (l1 ++ reset_slot s :: l2) ⟧).
Proof.
  intros Hs Hi Hsn; unfold rd_clear_slot_metadata.
  rewrite (proj2 (Z.leb_gt _ _)), Hs by lia; cbn [mbind option_bind].
  rewrite zlookup_of_nat, list_lookup_middle by done; cbn [mbind option_bind].
  rewrite insert_middle; cbn [mbind option_bind].
  change (t_seed_snaps (th ⟦ t_wp_slots := _ ⟧)) with (t_seed_snaps th).
  destruct (t_seed_snaps th) as [snaps|] eqn:E; [rewrite (Hsn _ eq_refl)|].
  - rewrite zinsert_is_Some by (rewrite length_replicate; lia); cbn [mbind option_bind].
    rewrite insert_replicate.
    change (t_wp_slots (th ⟦ t_wp_slots := ?x ⟧ ⟦ t_seed_snaps := _ ⟧)) with x.
    cbn [mbind option_bind]; rewrite zlookup_of_nat, list_lookup_middle by done; cbn [mbind option_bind].
    rewrite insert_middle; cbn [mbind option_bind].
    rewrite (Hsn _ eq_refl) in E; destruct th; unfold upd; cbn in *; by subst.
  - cbn [mbind option_bind].
    change (t_wp_slots (th ⟦ t_wp_slots := ?x ⟧)) with x.
    cbn [mbind option_bind]; rewrite zlookup_of_nat, list_lookup_middle by done; cbn [mbind option_bind].
    rewrite insert_middle; done.
Qed.

Lemma reset_metadata_ok th slots :
  t_wp_slots th = Some slots -> zlen slots = wp_capacity ses ->
  (forall l, t_seed_snaps th = Some l -> l = replicate (Z.to_nat (wp_capacity ses)) zero_snapshot) ->
  reset_slot_metadata ses th = Some (th ⟦ t_wp_slots := Some (reset_slot <$> slots) ⟧).
Proof.
  intros Hs Hlen Hsn; unfold reset_slot_metadata; rewrite Hs.
  set (I := fun (i : nat) th' =>
    th' = th ⟦ t_wp_slots := Some ((reset_slot <$> take i slots) ++ drop i slots) ⟧).
  edestruct (for_upto_inv I) as (th' & -> & HI); cycle 2.
  { rewrite HI, take_ge, drop_ge, app_nil_r by lia; done. }
  - intros i th1 Hi ->; unfold I.
    destruct (lookup_lt_is_Some_2 slots i) as [s Hi']; [lia|].
    rewrite (drop_S _ _ _ Hi').
    assert (Hl : zlen (reset_slot <$> take i slots) = Z.of_nat i).
    { rewrite length_fmap, length_take; lia. }
    pose proof (reset_metadata_step
      (th ⟦ t_wp_slots := Some ((reset_slot <$> take i slots) ++ s :: drop (S i) slots) ⟧)
      (reset_slot <$> take i slots) s (drop (S i) slots) eq_refl) as H; rewrite Hl in H.
    eexists; split; [apply H; [lia|done]|].
    rewrite (take_S_r _ _ _ Hi'), fmap_app, <- app_assoc; done.
  - unfold I; rewrite take_0, drop_0; destruct th; unfold upd; cbn in *; by subst.
Qed.

Lemma reset_counters_keeps th :
  t_log2_hist (reset_counters th) = t_log2_hist th /\
  t_pair_hist (reset_counters th) = t_pair_hist th /\
  t_contexts (reset_counters th) = t_contexts th /\
  t_dwarf_events (reset_counters th) = t_dwarf_events th /\
  t_seed_snaps (reset_counters th) = t_seed_snaps th /\
  t_reuse_snaps (reset_counters th) = t_reuse_snaps th.
Proof. by destruct th. Qed.

Lemma reset_thread_core th w ret w' hist pairs ctxs events seeds reuses :
  reset_slot_addresses ses th w = Some (ret, w') ->
  zero_array 0 (t_log2_hist th) (target_count ses * RD_WPCTL_LOG2_BUCKETS) = Some hist ->
  zero_array zero_pair_entry (t_pair_hist th) RD_WPCTL_MAX_PAIR_HISTS = Some pairs ->
  zero_array zero_context_entry (t_contexts th) RD_WPCTL_MAX_CONTEXTS = Some ctxs ->
  zero_array zero_dwarf_event (t_dwarf_events th) (dwarf_event_capacity ses) = Some events ->
  zero_array zero_snapshot (t_seed_snaps th) (wp_capacity ses) = Some seeds ->
  zero_array zero_snapshot (t_reuse_snaps th) (wp_capacity ses) = Some reuses ->
  (forall slots, t_wp_slots th = Some slots -> zlen slots = wp_capacity ses) ->
  (forall l, seeds = Some l -> l = replicate (Z.to_nat (wp_capacity ses)) zero_snapshot) ->
  rd_reset_thread_locked ses th w =
    Some (ret, reset_counters th ⟦ t_log2_hist := hist ⟧ ⟦ t_pair_hist := pairs ⟧
                 ⟦ t_contexts := ctxs ⟧ ⟦ t_dwarf_events := events ⟧ ⟦ t_seed_snaps := seeds ⟧
                 ⟦ t_reuse_snaps := reuses ⟧
                 ⟦ t_wp_slots := option_map reset_slots (t_wp_slots th) ⟧, w').
Proof.
  intros Ha Hh Hp Hc He Hs Hr Hslots Hseeds; unfold rd_reset_thread_locked; rewrite Ha, some_bind.
  destruct (reset_counters_keeps th) as (-> & -> & -> & -> & -> & ->).
  rewrite Hh, some_bind, Hp, some_bind, Hc, some_bind, He, some_bind, Hs, some_bind, Hr, some_bind.
  clear Ha Hh Hp Hc He Hs Hr.
  set (X := upd t_reuse_snaps _ _).
  assert (HX : t_wp_slots X = t_wp_slots th) by reflexivity.
  assert (HY : t_seed_snaps X = seeds) by reflexivity.
  clearbody X; rewrite <- HX in *; destruct (t_wp_slots X) as [slots|] eqn:Es.
  - rewrite (reset_metadata_ok _ slots); [reflexivity|exact Es|by apply Hslots|by rewrite HY].
  - unfold reset_slot_metadata; rewrite Es; cbn [mbind option_bind option_map].
    clear -Es; destruct X; cbn in Es; by subst.
Qed.

Lemma reset_thread_eq th w :
  thread_inv ses th ->
  exists ret w', rd_reset_thread_locked ses th w = Some (ret, reset_thread ses th, w').
Proof.
  intros [Hl [(h & Hh & Hhl & _) (pt & Hp & Hpw) (ct & Hc & Hcw) Hev] _ _ _].
  destruct (reset_addresses_ok th w) as (ret & w' & Ha); [by intros Ha; rewrite Ha in Hl|].
  pose proof (pair_len _ _ Hpw) as Hpl; pose proof (ctx_len _ _ Hcw) as Hcl.
  assert (Hsn : forall l, t_seed_snaps th = Some l \/ t_reuse_snaps th = Some l ->
                zlen l = wp_capacity ses).
  { intros l; destruct (t_active th); [destruct Hl as [_ _ _ _ Hs Hr]|destruct Hl as (_ & _ & _ & _ & _ & -> & ->)];
      intros [E|E]; rewrite ?E in *; try done; [apply Hs|apply Hr]. }
  exists ret, w'; unfold reset_thread; apply reset_thread_core.
  - exact Ha.
  - rewrite Hh; refine (zero_array_full 0 (Some h) (target_count ses * 64) _).
    by intros ? [= <-].
  - rewrite Hp; by apply zero_pair_array.
  - rewrite Hc; by apply zero_context_array.
  - apply zero_array_full; intros l E; rewrite E in Hev; apply Hev.
  - apply zero_array_full; auto.
  - apply zero_array_full; auto.
  - intros slots Es; destruct (t_active th).
    + destruct (lv_slots _ _ Hl) as (l & E & Hlen & _); congruence.
    + destruct Hl as (_ & _ & _ & _ & E & _); congruence.
  - intros l; destruct (t_seed_snaps th); cbn; congruence.
Qed.

Lemma reset_thread_inv th : thread_inv ses th -> thread_inv ses (reset_thread ses th).
Proof.
  intros [Hl [(h & Hh & Hhl) (pt & Hp & Hpw) (ct & Hc & Hcw) Hev] _ _ _].
  pose proof (so_cap _ Hses) as Hcap; split.
  - cbn; destruct (t_active th).
    + destruct Hl as [L1 L2 L3 (l & L & Hlen & Hf) L5 L6]; split; cbn; auto.
      * rewrite L; eexists; split_and!; [done|by unfold reset_slots; rewrite length_fmap|].
        apply Forall_fmap, Forall_true; intros s; done.
      * destruct (t_seed_snaps th); cbn in *; [|done]; rewrite length_replicate; split; [apply L5|lia].
      * destruct (t_reuse_snaps th); cbn in *; [|done]; rewrite length_replicate; split; [apply L6|lia].
    + destruct Hl as (H1 & H2 & H3 & H4 & H5 & H6 & H7); repeat split; cbn; rewrite ?H5, ?H6, ?H7; done.
  - split; cbn.
    + eexists; split; [done|]; rewrite length_replicate; split; [lia|by apply Forall_replicate].
    + eexists; split; [done|apply zero_pairs_wf].
    + eexists; split; [done|apply zero_contexts_wf].
    + destruct (t_dwarf_events th) as [l|]; cbn in *; [|done].
      destruct Hev as (Hm & Hle & _ & _); pose proof (so_events _ Hses); rewrite length_replicate.
      split_and!; try done; try lia; intros i e [Hi Hx]%zlookup_Some.
      apply lookup_replicate in Hx as [-> _]; split_if; [lia|done].
  - intros l; cbn; destruct (t_wp_slots th) as [slots|]; [|done]; intros [= <-].
    apply Forall_fmap, Forall_true; done.
  - done.
  - assert (Ha : armed_slots (reset_thread ses th) = 0).
    { unfold armed_slots; cbn; destruct (t_wp_slots th) as [slots|]; [|done]; cbn.
      apply zcount_zero, Forall_fmap, Forall_true; done. }
    unfold tally; rewrite Ha; unfold hist_total, pairs_total, events_total; cbn.
    rewrite sumZ_replicate, Z.mul_0_r.
    rewrite zero_pairs_total.
    repeat split; done.
Qed.
End reset.

(** Resetting a registered thread never faults, keeps its perf events and
    its registration, and returns it to the state of a freshly registered one:
    every counter 0, every table empty, every slot idle on its own scratch
    address, the generator at the seed of its thread id. *)
Theorem reset_returns_to_start `{K : KernelApi} (ses : rd_session) (th : rd_thread_ctx) (w : world)
    (Hses : session_ok ses) (Hi : thread_inv ses th) :
  exists ret th' w', rd_reset_thread_locked ses th w = Some (ret, th', w') /\
    thread_inv ses th' /\ resources th' = resources th /\
    tally th' = row_zero /\ t_rng th' = rng_seed (t_tid th) /\
    (forall t, t_pair_hist th' = Some t -> pair_map t = ∅) /\
    context_used th' = 0 /\
    (forall slots, t_wp_slots th' = Some slots -> exists slots0, t_wp_slots th = Some slots0 /\
       wp_idle_addr <$> slots = wp_idle_addr <$> slots0 /\ zcount slot_armed slots = 0).
Proof.
  destruct (reset_thread_eq ses th w Hi) as (ret & w' & ->).
  exists ret, (reset_thread ses th), w'; split_and!; try done.
  - by apply reset_thread_inv.
  - unfold tally, armed_slots, hist_total, pairs_total, events_total; cbn.
    rewrite sumZ_replicate, Z.mul_0_r.
    rewrite zero_pairs_total.
    destruct (t_wp_slots th) as [slots|]; [|done]; cbn.
    rewrite zcount_zero by (apply Forall_fmap, Forall_true; done); done.
  - cbn; intros t [= <-]; apply map_empty; intros k.
    apply pair_map_absent with (used := 0); [apply zero_pairs_wf|].
    intros n e [-> _]%lookup_replicate; done.
  - cbn; intros slots; destruct (t_wp_slots th) as [s0|]; [|done]; intros [= <-].
    exists s0; split_and!; [done|unfold reset_slots; rewrite <- list_fmap_compose; apply list_fmap_ext; done|].
    apply zcount_zero, Forall_fmap, Forall_true; done.
Qed.
