(* ===== verification/Lifecycle.v ===== *)
(** The life of one registered thread in [kernel/rd_wpctl.c]: setting up its
    perf events and arrays, releasing them, detaching and destroying it.  The
    theorems are about resources: a failed setup followed by the destruction
    that the caller performs leaves the kernel with the perf events and task
    references it had before, and a successful one owns exactly its new events
    until it is detached. *)
From S2P Require Import Prelude Uapi Buckets EffAddr KernelApi KTypes Tables Callchain.
From S2P Require Import Handlers Sampling HitSpec.
Import Contexts PairHist.

Section lifecycle.
Context `{K : KernelApi}.

(** [kcalloc(n, size)] of elements that are [z] when zeroed. *)
Definition alloc_array {A} (n size : Z) (z : A) (w : world) : option (list A) * world :=
  let '(ok, w) := kcalloc n size w in
  (if ok then Some (replicate (Z.to_nat n) z) else None, w).

(** The eleven per-slot arrays, with the sizes of their elements. *)
Definition slot_array_sizes : list Z := [4; 8; 8; 8; 8; 4; 4; 4; 4; 1; 8].

Definition alloc_slots (n : Z) (w : world) : option (list wp_slot) * world :=
  let '(ok, w) := foldl (fun '(ok, w) size => let '(ok', w) := kcalloc n size w in (ok && ok', w))
                    (true, w) slot_array_sizes in
  (if ok then Some (replicate (Z.to_nat n) zero_slot) else None, w).

Definition sizeof_pair_entry : Z := 544.
Definition sizeof_context_entry : Z := 72.
Definition sizeof_dwarf_snapshot : Z := 8480.
Definition sizeof_dwarf_event : Z := 17032.

(** The allocations of [rd_thread_setup_events]. *)
Definition setup_arrays (ses : rd_session) (th : rd_thread_ctx) (w : world)
    : rd_thread_ctx * world :=
  let '(bps, w) := alloc_array (target_count ses) 8 None w in
  let '(wps, w) := alloc_array (wp_capacity ses) 8 None w in
  let '(hist, w) := alloc_array (target_count ses * RD_WPCTL_LOG2_BUCKETS) 8 0 w in
  let '(ok, w) := kcalloc RD_WPCTL_MAX_PAIR_HISTS sizeof_pair_entry w in
  let pairs := if ok then Some zero_pair_table else None in
  let '(ok, w) := kcalloc RD_WPCTL_MAX_CONTEXTS sizeof_context_entry w in
  let ctxs := if ok then Some zero_context_table else None in
  let th := th ⟦ t_bp_events := bps ⟧ ⟦ t_wp_events := wps ⟧ ⟦ t_log2_hist := hist ⟧
               ⟦ t_pair_hist := pairs ⟧ ⟦ t_contexts := ctxs ⟧ in
  let '(th, w) :=
    if callchain_mode ses =? RD_CALLCHAIN_DWARF then
      let '(evs, w) := alloc_array (dwarf_event_capacity ses) sizeof_dwarf_event zero_dwarf_event w in
      let '(seeds, w) := alloc_array (wp_capacity ses) sizeof_dwarf_snapshot zero_snapshot w in
      let '(reuses, w) := alloc_array (wp_capacity ses) sizeof_dwarf_snapshot zero_snapshot w in
      (th ⟦ t_dwarf_events := evs ⟧ ⟦ t_seed_snaps := seeds ⟧ ⟦ t_reuse_snaps := reuses ⟧, w)
    else (th, w) in
  let '(slots, w) := alloc_slots (wp_capacity ses) w in
  (th ⟦ t_wp_slots := slots ⟧, w).

Definition is_null {A} (o : option A) : bool := match o with None => true | Some _ => false end.

(** The test for a failed allocation. *)
Definition setup_incomplete (ses : rd_session) (th : rd_thread_ctx) : bool :=
  is_null (t_bp_events th) || is_null (t_wp_events th) || is_null (t_log2_hist th) ||
  is_null (t_pair_hist th) || is_null (t_contexts th) ||
  ((callchain_mode ses =? RD_CALLCHAIN_DWARF) &&
   (is_null (t_dwarf_events th) || is_null (t_seed_snaps th) || is_null (t_reuse_snaps th))) ||
  is_null (t_wp_slots th).

(** The breakpoint loop: events registered so far, then the error of the first
    failure or 0. *)
Fixpoint register_bps (attrs : list perf_event_attr) (task : Z) (w : world)
    : list (option Z) * Z * world :=
  match attrs with
  | [] => ([], 0, w)
  | a :: rest =>
      match register_user_hw_breakpoint a task w with
      | (inl err, w) => (None :: replicate (length rest) None, err, w)
      | (inr ev, w) =>
          let '(evs, ret, w) := register_bps rest task w in (Some ev :: evs, ret, w)
      end
  end.

(** The watchpoint loop from slot [i] on, [n] slots to go. *)
Fixpoint register_wps (n : nat) (i base stride task : Z) (w : world)
    : list (option Z) * list wp_slot * Z * world :=
  match n with
  | O => ([], [], 0, w)
  | S n' =>
      let idle := u64 (base + u64 (i * stride)) in
      let slot := zero_slot ⟦ wp_idle_addr := idle ⟧ in
      match register_user_hw_breakpoint (rd_init_wp_attr idle RD_IDLE_WP_LEN) task w with
      | (inl err, w) =>
          (None :: replicate n' None, slot :: replicate n' zero_slot, err, w)
      | (inr ev, w) =>
          let '(evs, slots, ret, w) := register_wps n' (i + 1) base stride task w in
          (Some ev :: evs, slot ⟦ wp_samples := 1 ⟧ :: slots, ret, w)
      end
  end.

Definition rd_thread_setup_events (ses : rd_session) (th : rd_thread_ctx) (task : Z) (w : world)
    : Z * rd_thread_ctx * world :=
  match perf_event_create_kernel_counter rd_init_mem_attr (t_cpu th) task w with
  | (inl err, w) => (err, th ⟦ t_mem_event := None ⟧, w)
  | (inr ev, w) =>
      let '(th, w) := setup_arrays ses (th ⟦ t_mem_event := Some ev ⟧) w in
      if setup_incomplete ses th then (- ENOMEM, th, w) else
      let '(bps, ret, w) :=
        register_bps ((fun t => rd_init_bp_attr (abs_pc t) (bp_sample_period ses)) <$> targets ses)
          task w in
      let th := th ⟦ t_bp_events := Some bps ⟧ in
      if truthy ret then (ret, th, w) else
      let '(wps, slots, ret, w) :=
        register_wps (Z.to_nat (wp_capacity ses)) 0 (t_scratch_base th) (t_scratch_stride th)
          task w in
      (ret, th ⟦ t_wp_events := Some wps ⟧ ⟦ t_wp_slots := Some slots ⟧, w)
  end.

(** Disable and unregister every event of an array that may be unallocated. *)
Definition unregister_all (evs : option (list (option Z))) (w : world) : world :=
  match evs with
  | None => w
  | Some evs => each_event (fun ev w => unregister_hw_breakpoint ev (perf_event_disable ev w)) evs w
  end.

Definition rd_thread_free_live (th : rd_thread_ctx) (w : world) : rd_thread_ctx * world :=
  let w := each_event (fun ev w => perf_event_release_kernel ev (perf_event_disable ev w))
             [t_mem_event th] w in
  let w := unregister_all (t_bp_events th) w in
  let w := unregister_all (t_wp_events th) w in
  let w := each_event put_task_struct [t_task th] w in
  (th ⟦ t_mem_event := None ⟧ ⟦ t_bp_events := None ⟧ ⟦ t_wp_events := None ⟧
      ⟦ t_wp_slots := None ⟧ ⟦ t_seed_snaps := None ⟧ ⟦ t_reuse_snaps := None ⟧
      ⟦ t_task := None ⟧, w).

(** [rd_thread_destroy]: what is left of the thread is freed with it. *)
Definition rd_thread_destroy (th : rd_thread_ctx) (w : world) : world :=
  (rd_thread_free_live th w).2.

(** The fields [rd_register_thread_locked] sets before the setup. *)
Definition new_thread (sp task : Z) (a : rd_wpctl_thread_register) : rd_thread_ctx :=
  zero_thread ⟦ t_session := sp ⟧ ⟦ t_task := Some task ⟧ ⟦ t_tid := reg_tid a ⟧ ⟦ t_cpu := reg_cpu a ⟧
    ⟦ t_scratch_base := reg_scratch_base a ⟧ ⟦ t_scratch_stride := reg_scratch_stride a ⟧
    ⟦ t_active := true ⟧ ⟦ t_live_detached := false ⟧ ⟦ t_rng := rng_seed (reg_tid a) ⟧
    ⟦ t_live_refs := 1 ⟧ ⟦ t_live_refs_zero := false ⟧.

(** * Live references, without contention *)

(** Whether the reference was taken, and the thread. *)
Definition rd_thread_live_get_rcu (th : rd_thread_ctx) : bool * rd_thread_ctx :=
  if negb (t_active th) || t_live_detached th then (false, th) else
  if t_live_refs th =? 0 then (false, th) else
  (true, th ⟦ t_live_refs ::= inc32 ⟧).

Definition rd_thread_live_put (th : rd_thread_ctx) : rd_thread_ctx :=
  let refs := u32 (t_live_refs th - 1) in
  let th := th ⟦ t_live_refs := refs ⟧ in
  if refs =? 0 then th ⟦ t_live_refs_zero := true ⟧ else th.

(** [None] when [wait_for_completion] would not return. *)
Definition rd_thread_detach_live (th : rd_thread_ctx) (w : world)
    : option (rd_thread_ctx * world) :=
  if t_live_detached th then Some (th, w) else
  let th := th ⟦ t_active := false ⟧ ⟦ t_live_detached := true ⟧ in
  let th := rd_thread_live_put th in
  if negb (t_live_refs_zero th) then None else
  let armed := match t_wp_slots th with
               | None => 0
               | Some slots => zcount slot_armed slots
               end in
  Some (rd_thread_free_live (th ⟦ dropped ::= fun d => u64 (d + armed) ⟧) w).

(** * Resources *)

(** The perf events a thread holds. *)
Definition held (evs : option (list (option Z))) : list Z :=
  match evs with None => [] | Some l => omap id l end.
Definition events_of (th : rd_thread_ctx) : list Z :=
  omap id [t_mem_event th] ++ held (t_bp_events th) ++ held (t_wp_events th).

Context {KL : KernelLaws K}.

Definition same_resources (w w' : world) : Prop :=
  live_events w' = live_events w /\ task_refs w' = task_refs w.

#[local] Instance same_resources_preorder : PreOrder same_resources.
Proof. split; [by split|]; intros w1 w2 w3 [A1 A2] [B1 B2]; split; congruence. Qed.

(** [w'] holds the events of [w] and the new, distinct events [evs]. *)
Definition acquired (evs : list Z) (w w' : world) : Prop :=
  NoDup evs /\ (forall e, e ∈ evs -> e ∉ live_events w) /\
  live_events w' = list_to_set evs ∪ live_events w /\ task_refs w' = task_refs w.

Lemma acquired_nil w w' : same_resources w w' -> acquired [] w w'.
Proof. intros [H1 H2]; split_and!; [constructor|set_solver|set_solver|done]. Qed.

Lemma acquired_cons e evs w w1 w2 :
  e ∉ live_events w -> live_events w1 = {[e]} ∪ live_events w -> task_refs w1 = task_refs w ->
  acquired evs w1 w2 -> acquired (e :: evs) w w2.
Proof.
  intros He Hl Hr (Hn & Hf & Hl2 & Hr2); split_and!; [|set_solver|set_solver|congruence].
  constructor; [|done]; intros Hin%Hf; set_solver.
Qed.

Lemma acquired_app evs1 evs2 w w1 w2 :
  acquired evs1 w w1 -> acquired evs2 w1 w2 -> acquired (evs1 ++ evs2) w w2.
Proof.
  intros (N1 & F1 & L1 & R1) (N2 & F2 & L2 & R2); split_and!; [|set_solver| |congruence].
  - apply NoDup_app; split_and!; try done; intros e He1 He2%F2; set_solver.
  - rewrite L2, L1, list_to_set_app_L; set_solver.
Qed.

Lemma acquired_same_l evs w w1 w2 : same_resources w w1 -> acquired evs w1 w2 -> acquired evs w w2.
Proof. intros H1%acquired_nil H2; exact (acquired_app [] evs _ _ _ H1 H2). Qed.

Lemma omap_replicate_None n : omap id (replicate n (None : option Z)) = [].
Proof. induction n; done. Qed.

Lemma alloc_array_spec {A} n size (z : A) w :
  let '(o, w') := alloc_array n size z w in
  same_resources w w' /\ (o = None \/ o = Some (replicate (Z.to_nat n) z)).
Proof.
  unfold alloc_array; pose proof (kcalloc_keeps n size w) as H; destruct (kcalloc n size w) as [[] w'];
    split; auto.
Qed.

Lemma alloc_slots_spec n w :
  let '(o, w') := alloc_slots n w in
  same_resources w w' /\ (o = None \/ o = Some (replicate (Z.to_nat n) zero_slot)).
Proof.
  unfold alloc_slots.
  assert (H : forall sizes ok w, same_resources w
    (foldl (fun '(ok, w) size => let '(ok', w) := kcalloc n size w in (ok && ok', w)) (ok, w) sizes).2).
  { induction sizes as [|sz sizes IH]; intros ok w0; cbn [foldl]; [done|].
    pose proof (kcalloc_keeps n sz w0) as Hk; destruct (kcalloc n sz w0) as [ok' w1].
    etrans; [exact Hk|apply IH]. }
  specialize (H slot_array_sizes true w); destruct (foldl _ _ _) as [[] w']; split; auto.
Qed.

Lemma register_bps_spec attrs task w :
  let '(evs, ret, w') := register_bps attrs task w in
  acquired (omap id evs) w w' /\ length evs = length attrs /\ ret <= 0 /\
  (ret = 0 -> Forall is_Some evs).
Proof.
  revert w; induction attrs as [|a rest IH]; intros w; cbn [register_bps].
  { split_and!; [by apply acquired_nil|done|done|constructor]. }
  destruct (register_user_hw_breakpoint a task w) as [[err|ev] w1] eqn:E.
  - apply register_bp_err in E as (Hneg & H1 & H2); cbn; rewrite length_replicate, omap_replicate_None.
    split_and!; [by apply acquired_nil|done|lia|lia].
  - apply register_bp_ok in E as (Hf & H1 & H2); specialize (IH w1).
    destruct (register_bps rest task w1) as [[evs ret] w2]; destruct IH as (Ha & Hl & Hr & Hs).
    split_and!; [by eapply acquired_cons|cbn; lia|done|]; intros Hz; constructor; eauto.
Qed.

Lemma register_wps_spec n i base stride task w :
  let '(evs, slots, ret, w') := register_wps n i base stride task w in
  acquired (omap id evs) w w' /\ length evs = n /\ length slots = n /\ ret <= 0 /\
  (ret = 0 -> Forall is_Some evs /\
     Forall (fun s => slot_armed s = false /\ wp_samples s = 1) slots /\
     forall k s, slots !! k = Some s -> wp_idle_addr s = u64 (base + u64 ((i + Z.of_nat k) * stride))).
Proof.
  revert i w; induction n as [|n IH]; intros i w; cbn [register_wps].
  { split_and!; [by apply acquired_nil|done..|]; intros _; split_and!; [constructor..|done]. }
  destruct (register_user_hw_breakpoint _ task w) as [[err|ev] w1] eqn:E.
  - apply register_bp_err in E as (Hneg & H1 & H2); cbn [length omap list_omap].
    rewrite !length_replicate; cbn; rewrite omap_replicate_None.
    split_and!; [by apply acquired_nil|done|done|lia|lia].
  - apply register_bp_ok in E as (Hf & H1 & H2); specialize (IH (i + 1) w1).
    destruct (register_wps n (i + 1) base stride task w1) as [[[evs slots] ret] w2].
    destruct IH as (Ha & Hl & Hl2 & Hr & Hs).
    split_and!; [by eapply acquired_cons|cbn; lia|cbn; lia|done|]; intros Hz.
    destruct (Hs Hz) as (S1 & S2 & S3); split_and!; [by constructor; eauto|by constructor|].
    intros [|k] s; cbn; [intros [= <-]; cbn; do 3 f_equal; lia|].
    intros Hk%S3; rewrite Hk; do 3 f_equal; lia.
Qed.

Lemma each_event_frees (f : Z -> world -> world) evs w :
  (forall e w, live_events (f e w) = live_events w ∖ {[e]} /\ task_refs (f e w) = task_refs w) ->
  live_events (each_event f evs w) = live_events w ∖ list_to_set (omap id evs) /\
  task_refs (each_event f evs w) = task_refs w.
Proof.
  intros Hf; revert w; induction evs as [|[e|] evs IH]; intros w; unfold each_event in *; cbn.
  - split; [set_solver|done].
  - destruct (IH (f e w)) as [-> ->], (Hf e w) as [-> ->]; split; [set_solver|done].
  - apply IH.
Qed.

Lemma unregister_all_frees evs w :
  live_events (unregister_all evs w) = live_events w ∖ list_to_set (held evs) /\
  task_refs (unregister_all evs w) = task_refs w.
Proof.
  destruct evs as [evs|]; cbn; [|split; [set_solver|done]].
  apply each_event_frees; intros e w0.
  destruct (unregister_bp_law e (perf_event_disable e w0)) as [-> ->], (disable_keeps e w0) as [-> ->]; done.
Qed.

(** Releasing a thread frees exactly its events and its task reference. *)
Lemma free_live_frees th w :
  let '(th', w') := rd_thread_free_live th w in
  live_events w' = live_events w ∖ list_to_set (events_of th) /\
  (forall t, task_refs w' t = task_refs w t - (if decide (t_task th = Some t) then 1 else 0)) /\
  detached th' /\ events_of th' = [].
Proof.
  unfold rd_thread_free_live.
  set (w1 := each_event _ [t_mem_event th] w); set (w2 := unregister_all (t_bp_events th) w1).
  set (w3 := unregister_all (t_wp_events th) w2).
  assert (H1 : live_events w1 = live_events w ∖ list_to_set (omap id [t_mem_event th]) /\
               task_refs w1 = task_refs w).
  { apply each_event_frees; intros e w0.
    destruct (release_law e (perf_event_disable e w0)) as [-> ->], (disable_keeps e w0) as [-> ->]; done. }
  destruct (unregister_all_frees (t_bp_events th) w1) as [H2 R2]; fold w2 in H2, R2.
  destruct (unregister_all_frees (t_wp_events th) w2) as [H3 R3]; fold w3 in H3, R3.
  destruct H1 as [H1 R1]; rewrite H1 in H2; rewrite H2 in H3.
  assert (H4 : live_events (each_event put_task_struct [t_task th] w3) = live_events w3 /\
    forall t, task_refs (each_event put_task_struct [t_task th] w3) t =
              task_refs w3 t - (if decide (t_task th = Some t) then 1 else 0)).
  { unfold each_event; cbn; destruct (t_task th) as [tk|].
    - destruct (put_task_law tk w3) as [-> Ht]; split; [done|]; intros t; rewrite Ht.
      repeat case_decide; naive_solver.
    - split; [done|]; intros t; case_decide; [done|lia]. }
  destruct H4 as [-> H4]; split_and!; try done; [|intros t; rewrite H4; congruence].
  rewrite H3; unfold events_of; rewrite !list_to_set_app_L; set_solver.
Qed.

(** * Setup *)

(** Everything but the arrays: what a setup leaves as it was. *)
Definition identity (th : rd_thread_ctx) :=
  (t_session th, t_task th, t_tid th, t_cpu th, t_active th, t_live_detached th,
   t_scratch_base th, t_scratch_stride th, t_live_refs th, t_live_refs_zero th).

(** The arrays as [kcalloc] hands them out. *)
Record arrays_fresh (ses : rd_session) (th : rd_thread_ctx) : Prop := {
  af_hist : t_log2_hist th = Some (replicate (Z.to_nat (target_count ses * 64)) 0);
  af_pairs : t_pair_hist th = Some zero_pair_table;
  af_ctxs : t_contexts th = Some zero_context_table;
  af_dwarf : if callchain_mode ses =? RD_CALLCHAIN_DWARF
    then t_dwarf_events th = Some (replicate (Z.to_nat (dwarf_event_capacity ses)) zero_dwarf_event) /\
         t_seed_snaps th = Some (replicate (Z.to_nat (wp_capacity ses)) zero_snapshot) /\
         t_reuse_snaps th = Some (replicate (Z.to_nat (wp_capacity ses)) zero_snapshot)
    else t_dwarf_events th = None /\ t_seed_snaps th = None /\ t_reuse_snaps th = None;
}.

(** No counter has moved. *)
Definition counters (th : rd_thread_ctx) : list Z :=
  [candidate_samples th; reservoir_seen th; reservoir_accepted th; reservoir_rejected th; hits th;
   evictions th; dropped th; pair_hist_used th; pair_hist_dropped th; context_used th;
   dwarf_event_used th; dwarf_event_dropped th].

Lemma setup_arrays_spec ses th w :
  t_dwarf_events th = None -> t_seed_snaps th = None -> t_reuse_snaps th = None ->
  let '(th', w') := setup_arrays ses th w in
  same_resources w w' /\ identity th' = identity th /\ counters th' = counters th /\
  events_of th' = omap id [t_mem_event th] /\ t_mem_event th' = t_mem_event th /\
  (setup_incomplete ses th' = false -> arrays_fresh ses th').
Proof.
  intros D1 D2 D3; unfold setup_arrays.
  pose proof (alloc_array_spec (target_count ses) 8 (None : option Z) w) as A1.
  destruct (alloc_array (target_count ses) 8 None w) as [bps w1]; destruct A1 as [R1 B1].
  pose proof (alloc_array_spec (wp_capacity ses) 8 (None : option Z) w1) as A2.
  destruct (alloc_array (wp_capacity ses) 8 None w1) as [wps w2]; destruct A2 as [R2 B2].
  pose proof (alloc_array_spec (target_count ses * RD_WPCTL_LOG2_BUCKETS) 8 0 w2) as A3.
  destruct (alloc_array (target_count ses * RD_WPCTL_LOG2_BUCKETS) 8 0 w2) as [hist w3]; destruct A3 as [R3 B3].
  pose proof (kcalloc_keeps RD_WPCTL_MAX_PAIR_HISTS sizeof_pair_entry w3) as R4.
  destruct (kcalloc RD_WPCTL_MAX_PAIR_HISTS sizeof_pair_entry w3) as [ok4 w4].
  pose proof (kcalloc_keeps RD_WPCTL_MAX_CONTEXTS sizeof_context_entry w4) as R5.
  destruct (kcalloc RD_WPCTL_MAX_CONTEXTS sizeof_context_entry w4) as [ok5 w5].
  assert (R15 : same_resources w w5).
  { do 4 (etrans; [eassumption|]); exact R5. }
  assert (Hb : held bps = []) by (destruct B1 as [->| ->]; [done|apply omap_replicate_None]).
  assert (Hw : held wps = []) by (destruct B2 as [->| ->]; [done|apply omap_replicate_None]).
  destruct (callchain_mode ses =? RD_CALLCHAIN_DWARF) eqn:Hm.
  - pose proof (alloc_array_spec (dwarf_event_capacity ses) sizeof_dwarf_event zero_dwarf_event w5) as A6.
    destruct (alloc_array _ sizeof_dwarf_event _ w5) as [evs w6]; destruct A6 as [R6 B6].
    pose proof (alloc_array_spec (wp_capacity ses) sizeof_dwarf_snapshot zero_snapshot w6) as A7.
    destruct (alloc_array _ sizeof_dwarf_snapshot _ w6) as [seeds w7]; destruct A7 as [R7 B7].
    pose proof (alloc_array_spec (wp_capacity ses) sizeof_dwarf_snapshot zero_snapshot w7) as A8.
    destruct (alloc_array _ sizeof_dwarf_snapshot _ w7) as [reuses w8]; destruct A8 as [R8 B8].
    pose proof (alloc_slots_spec (wp_capacity ses) w8) as A9.
    destruct (alloc_slots (wp_capacity ses) w8) as [slots w9]; destruct A9 as [R9 B9].
    split_and!; try done.
    + etrans; [exact R15|]; etrans; [exact R6|]; etrans; [exact R7|]; etrans; [exact R8|exact R9].
    + unfold events_of; cbn; rewrite Hb, Hw; cbn; by rewrite ?app_nil_r.
    + unfold setup_incomplete; rewrite Hm; cbn; destruct B3 as [->| ->], B6 as [->| ->], B7 as [->| ->],
        B8 as [->| ->], ok4, ok5; rewrite ?orb_true_r; try done.
      intros _; split; try done; cbn; by rewrite Hm.
  - pose proof (alloc_slots_spec (wp_capacity ses) w5) as A9.
    destruct (alloc_slots (wp_capacity ses) w5) as [slots w9]; destruct A9 as [R9 B9].
    split_and!; try done.
    + by etrans.
    + unfold events_of; cbn; rewrite Hb, Hw; cbn; by rewrite ?app_nil_r.
    + unfold setup_incomplete; rewrite Hm; cbn; destruct B3 as [->| ->], ok4, ok5;
        rewrite ?orb_true_r; try done.
      intros _; split; try done; cbn; by rewrite Hm.
Qed.

Lemma arrays_fresh_upd ses th bps wps slots :
  arrays_fresh ses th ->
  arrays_fresh ses (th ⟦ t_bp_events := bps ⟧ ⟦ t_wp_events := wps ⟧ ⟦ t_wp_slots := slots ⟧).
Proof. by intros []. Qed.

(** A thread with fresh arrays, all its events and idle slots. *)
Lemma ready_thread_inv ses th ev bps wps slots :
  session_ok ses -> arrays_fresh ses th -> counters th = replicate 12 0 -> t_active th = true ->
  t_mem_event th = Some ev -> t_bp_events th = Some bps -> t_wp_events th = Some wps ->
  t_wp_slots th = Some slots ->
  zlen bps = target_count ses -> Forall is_Some bps ->
  zlen wps = wp_capacity ses -> Forall is_Some wps -> zlen slots = wp_capacity ses ->
  Forall (fun s => slot_armed s = false /\ wp_samples s = 1) slots ->
  thread_inv ses th.
Proof.
  intros Hses [Fh Fp Fc Fd] Hc Ha Hm Hb Hw Hs Lb Sb Lw Sw Ls Ss.
  injection Hc as C1 C2 C3 C4 C5 C6 C7 C8 C9 C10 C11 C12.
  pose proof (so_cap _ Hses) as Hcap; pose proof (so_events _ Hses) as Hevc.
  assert (Hz : zcount slot_armed slots = 0).
  { apply zcount_zero; eapply Forall_impl; [exact Ss|]; naive_solver. }
  split; [rewrite Ha|..|done|].
  - split; [by eexists|by eauto|by eauto| | |].
    + eexists; split_and!; [done|done|]; eapply Forall_impl; [exact Ss|]; intros s [E _] ?; congruence.
    + unfold snaps_ok; destruct (callchain_mode ses =? RD_CALLCHAIN_DWARF) eqn:Hd.
      * destruct Fd as (_ & -> & _); rewrite length_replicate; split; lia.
      * destruct Fd as (_ & -> & _); lia.
    + unfold snaps_ok; destruct (callchain_mode ses =? RD_CALLCHAIN_DWARF) eqn:Hd.
      * destruct Fd as (_ & _ & ->); rewrite length_replicate; split; lia.
      * destruct Fd as (_ & _ & ->); lia.
  - split.
    + eexists; split; [exact Fh|]; rewrite length_replicate; pose proof (so_count _ Hses); split; [lia|].
      by apply Forall_replicate.
    + eexists; split; [exact Fp|]; rewrite C8; apply zero_pairs_wf.
    + eexists; split; [exact Fc|]; rewrite C10; apply zero_contexts_wf.
    + rewrite C11; unfold events_ok; destruct (callchain_mode ses =? RD_CALLCHAIN_DWARF) eqn:Hd.
      * destruct Fd as (-> & _); rewrite length_replicate; split_and!; try lia.
        intros i e [Hi Hx]%zlookup_Some; apply lookup_replicate in Hx as [-> _]; split_if; [lia|done].
      * destruct Fd as (-> & _); lia.
  - intros l Hl; rewrite Hs in Hl; simplify_eq; eapply Forall_impl; [exact Ss|]; naive_solver.
  - unfold tally, armed_slots, hist_total, pairs_total, events_total.
    rewrite C1, C2, C3, C4, C5, C6, C7, C9, C11, C12, Fh, Fp, Hs, Hz, sumZ_replicate, Z.mul_0_r.
    rewrite zero_pairs_total; repeat split; done.
Qed.

Lemma setup_spec ses sp task a w :
  session_ok ses ->
  let '(ret, th', w') := rd_thread_setup_events ses (new_thread sp task a) task w in
  acquired (events_of th') w w' /\ ret <= 0 /\ identity th' = identity (new_thread sp task a) /\
  (ret = 0 -> thread_inv ses th' /\
     forall slots k s, t_wp_slots th' = Some slots -> slots !! k = Some s ->
       slot_armed s = false /\ wp_idle_addr s = u64 (reg_scratch_base a + u64 (Z.of_nat k * reg_scratch_stride a))).
Proof.
  intros Hses; unfold rd_thread_setup_events.
  destruct (perf_event_create_kernel_counter _ _ _ _) as [[err|ev] w1] eqn:E.
  { apply create_counter_err in E as (Hneg & H1 & H2).
    split_and!; [by apply acquired_nil|lia|done|lia]. }
  apply create_counter_ok in E as (Hfr & H1 & R1).
  pose proof (setup_arrays_spec ses (new_thread sp task a ⟦ t_mem_event := Some ev ⟧) w1
                eq_refl eq_refl eq_refl) as Hsa.
  destruct (setup_arrays ses _ w1) as [th2 w2].
  destruct Hsa as (R2 & Hid & Hcnt & Hev & Hmem & Hcomplete).
  change (omap id [t_mem_event (new_thread sp task a ⟦ t_mem_event := Some ev ⟧)]) with [ev] in Hev.
  change (t_mem_event th2 = Some ev) in Hmem.
  assert (Hmem1 : acquired [ev] w w2).
  { eapply acquired_cons; [done..|]; by apply acquired_nil. }
  destruct (setup_incomplete ses th2).
  { split_and!; [by rewrite Hev|done|done|done]. }
  specialize (Hcomplete eq_refl).
  pose proof (register_bps_spec
    ((fun t => rd_init_bp_attr (abs_pc t) (bp_sample_period ses)) <$> targets ses) task w2) as Hb.
  destruct (register_bps _ task w2) as [[bps ret3] w3]; destruct Hb as (A3 & L3 & N3 & S3).
  rewrite length_fmap in L3.
  assert (Hno : held (t_wp_events th2) = []).
  { unfold events_of in Hev; rewrite Hmem in Hev; cbn in Hev; injection Hev as Hev.
    by apply app_eq_nil in Hev as [_ ?]. }
  assert (A23 : acquired ([ev] ++ omap id bps) w w3) by (by eapply acquired_app).
  destruct (truthy ret3) eqn:Ht3.
  { split_and!; try done; [|unfold truthy in Ht3; lia].
    unfold events_of; cbn -[omap]; rewrite Hmem, Hno, app_nil_r; exact A23. }
  assert (Hr3 : ret3 = 0) by (unfold truthy in Ht3; lia).
  change (t_scratch_base (th2 ⟦ t_bp_events := _ ⟧)) with (t_scratch_base th2).
  change (t_scratch_stride (th2 ⟦ t_bp_events := _ ⟧)) with (t_scratch_stride th2).
  assert (Hsb : t_scratch_base th2 = reg_scratch_base a /\ t_scratch_stride th2 = reg_scratch_stride a).
  { unfold identity in Hid; cbn in Hid; split; congruence. }
  destruct Hsb as [-> ->].
  pose proof (register_wps_spec (Z.to_nat (wp_capacity ses)) 0 (reg_scratch_base a)
                (reg_scratch_stride a) task w3) as Hw.
  destruct (register_wps _ 0 _ _ task w3) as [[[wps slots] ret] w4].
  destruct Hw as (A4 & L4 & L4' & N4 & S4); split_and!; try done.
  - unfold events_of; cbn -[omap]; rewrite Hmem, app_assoc; by eapply acquired_app.
  - intros Hr; destruct (S4 Hr) as (S4a & S4b & S4c); pose proof (so_cap _ Hses) as Hcap.
    split; [|intros sl k s [= <-] Hk; split; [by apply (Forall_lookup_1 _ _ _ _ S4b Hk)|]].
    2: { rewrite (S4c k s Hk); do 3 f_equal; lia. }
    eapply (ready_thread_inv ses _ ev bps wps slots); try done; try lia.
    + by apply arrays_fresh_upd.
    + unfold identity in Hid; cbn in *; congruence.
    + pose proof (so_count _ Hses); lia.
    + by apply S3.
Qed.

(** * Detaching *)

Lemma free_live_results ses th w :
  results_ok ses th -> results_ok ses (rd_thread_free_live th w).1.
Proof. by intros []. Qed.

(** The fields a detach leaves alone. *)
Definition kept_results (th : rd_thread_ctx) :=
  (t_session th, t_tid th, t_cpu th, t_log2_hist th, t_pair_hist th, t_contexts th,
   t_dwarf_events th, hits th, evictions th, reservoir_accepted th, reservoir_seen th).

Lemma detach_spec ses th w :
  thread_inv ses th -> t_active th = true -> t_live_detached th = false -> t_live_refs th = 1 ->
  exists th' w', rd_thread_detach_live th w = Some (th', w') /\
    thread_inv ses th' /\ t_active th' = false /\ t_live_detached th' = true /\
    t_live_refs th' = 0 /\ t_live_refs_zero th' = true /\ t_task th' = None /\
    events_of th' = [] /\ kept_results th' = kept_results th /\
    dropped th' = u64 (dropped th + armed_slots th) /\
    live_events w' = live_events w ∖ list_to_set (events_of th) /\
    (forall t, task_refs w' t = task_refs w t - (if decide (t_task th = Some t) then 1 else 0)).
Proof.
  intros [Hl Hr Hs Hrej Hb] Ha Hd Href; unfold rd_thread_detach_live; rewrite Hd.
  unfold rd_thread_live_put; cbn [t_live_refs upd].
  change (t_live_refs (th ⟦ t_active := false ⟧ ⟦ t_live_detached := true ⟧)) with (t_live_refs th).
  rewrite Href; change (u32 (1 - 1)) with 0; cbn [Z.eqb].
  set (th1 := th ⟦ t_active := false ⟧ ⟦ t_live_detached := true ⟧ ⟦ t_live_refs := 0 ⟧
                ⟦ t_live_refs_zero := true ⟧).
  change (t_live_refs_zero th1) with true; cbn [negb].
  change (t_wp_slots th1) with (t_wp_slots th); fold (armed_slots th).
  set (th2 := th1 ⟦ dropped ::= fun d => u64 (d + armed_slots th) ⟧).
  pose proof (free_live_frees th2 w) as Hf.
  assert (Hev : events_of th2 = events_of th) by done.
  assert (Hr2 : results_ok ses (rd_thread_free_live th2 w).1).
  { apply free_live_results; by destruct Hr. }
  destruct (rd_thread_free_live th2 w) as [th3 w3] eqn:E; destruct Hf as (F1 & F2 & F3 & F4).
  rewrite Hev in F1; exists th3, w3; unfold rd_thread_free_live in E; injection E as E _; subst th3.
  split_and!; try done; split; try done.
  unfold balanced, tally in *.
  destruct Hb as (B1 & B2 & B3 & B4 & B5 & B6); split_and!; try done.
  enough (reservoir_accepted th ≡₆₄ hits th + evictions th + u64 (dropped th + armed_slots th) + 0)
    by done.
  rewrite B3, u64_eqm; eqm64_lia.
Qed.

End lifecycle.
