(* ===== verification/Session.v ===== *)
(** The control plane of [kernel/rd_wpctl.c]: sessions, the ioctl handlers, open
    and release, and the two kprobe entries with their lookup of the thread an
    event belongs to.

    [kmod] is the state of the module: the sessions and thread contexts that
    are allocated, by address, the global list of live threads, the kernel
    state with the debug tokens, and the next free address.  Each ioctl runs
    under the session mutex and is one transition, and so is a kprobe, with the
    reference it takes on its thread.  A result [None] is a fault: an access
    through a dangling or null pointer, or a wait that never ends. *)
From S2P Require Import Prelude Uapi Buckets EffAddr KernelApi KTypes Tables Callchain.
From S2P Require Import Handlers Sampling HitSpec Lifecycle.
Import EffAddr.

(** * Requests and replies *)

(** [struct rd_wpctl_target_batch] *)
Record rd_wpctl_target_batch := mk_batch { batch_ptr : Z; batch_count : Z }.

(** An ioctl with its argument already copied in; [None] is a [copy_from_user]
    that faulted. *)
Inductive ioctl_cmd :=
| CONFIG_SESSION (cfg : option rd_wpctl_session_cfg)
| LOAD_TARGETS (batch : option rd_wpctl_target_batch)
| REGISTER_THREAD (reg : option rd_wpctl_thread_register)
| UNREGISTER_THREAD (tid : option Z)
| START_WINDOW
| STOP_WINDOW
| RESET_SESSION
| GET_LAYOUT
| GET_THREAD_STATS (index : option Z)
| GET_LOG2_HIST (req : option (Z * Z))
| GET_PAIR_HIST_ENTRY (req : option (Z * Z))
| GET_CONTEXT_ENTRY (req : option (Z * Z))
| GET_DWARF_EVENT (req : option (Z * Z))
| OTHER_IOCTL.

(** What is copied out. *)
Inductive reply :=
| NoReply
| LayoutReply (l : rd_wpctl_layout)
| StatsReply (s : rd_wpctl_thread_stats)
| HistReply (thread_index target_index : Z) (buckets : list Z)
| PairReply (r : rd_wpctl_pair_hist_req)
| ContextReply (r : rd_wpctl_context_req)
| EventReply (r : rd_wpctl_dwarf_event_req).

Section session.
Context `{K : KernelApi}.

Record kmod := mk_kmod {
  km_sessions : gmap Z rd_session;
  km_threads : gmap Z rd_thread_ctx;
  km_live : list Z;
  km_env : env;
  km_next : Z;
}.

#[export] Instance eta_env : Eta env := fun r => mk_env (e_world r) (e_tokens r).
#[export] Instance eta_kmod : Eta kmod := fun r =>
  mk_kmod (km_sessions r) (km_threads r) (km_live r) (km_env r) (km_next r).

Definition km_world (st : kmod) : world := e_world (km_env st).
Definition set_world (w : world) (st : kmod) : kmod :=
  st ⟦ km_env := mk_env w (e_tokens (km_env st)) ⟧.
Definition set_session (sp : Z) (ses : rd_session) (st : kmod) : kmod :=
  st ⟦ km_sessions ::= <[sp := ses]> ⟧.
Definition set_thread (tp : Z) (th : rd_thread_ctx) (st : kmod) : kmod :=
  st ⟦ km_threads ::= <[tp := th]> ⟧.

(** * Lookups *)

Fixpoint find_active (st : kmod) (tid : Z) (tps : list Z) : option (option Z) :=
  match tps with
  | [] => Some None
  | tp :: rest =>
      th ← km_threads st !! tp;
      if (t_tid th =? tid) && t_active th then Some (Some tp) else find_active st tid rest
  end.

Definition rd_find_active_thread_by_tid (st : kmod) (ses : rd_session) (tid : Z)
    : option (option Z) := find_active st tid (s_threads ses).

Definition rd_find_thread_by_index (ses : rd_session) (index : Z) : option Z :=
  s_threads ses !!z index.

Definition rd_check_thread_affinity (task cpu : Z) (w : world) : Z :=
  if (cpu <? 0) || (nr_cpu_ids <=? cpu) then - EINVAL else
  if bool_decide (cpu ∉ task_cpus_mask task w) then - EINVAL else
  if negb (Z.of_nat (size (task_cpus_mask task w)) =? 1) then - EINVAL else
  0.

(** * Thread registration *)

Definition rd_add_live_thread (tp : Z) (st : kmod) : kmod := st ⟦ km_live ::= cons tp ⟧.

Definition rd_remove_live_thread (tp : Z) (st : kmod) : kmod :=
  st ⟦ km_live ::= filter (fun x => x <> tp) ⟧.

Definition rd_register_thread_locked (sp : Z) (a : rd_wpctl_thread_register) (st : kmod)
    : option (Z * kmod) :=
  ses ← km_sessions st !! sp;
  if negb (configured ses) || negb (targets_loaded ses) then Some (- EINVAL, st) else
  found ← rd_find_active_thread_by_tid st ses (reg_tid a);
  if negb (is_null found) then Some (- EEXIST, st) else
  if (reg_scratch_base a =? 0) || (reg_scratch_stride a =? 0) then Some (- EINVAL, st) else
  match get_pid_task (reg_tid a) (km_world st) with
  | (None, w) => Some (- ESRCH, set_world w st)
  | (Some task, w) =>
      if negb (task_tgid task w =? owner_tgid ses) then
        Some (- EPERM, set_world (put_task_struct task w) st) else
      let ret := rd_check_thread_affinity task (reg_cpu a) w in
      if truthy ret then Some (ret, set_world (put_task_struct task w) st) else
      let '(ok, w) := kcalloc 1 sizeof_thread_ctx w in
      if negb ok then Some (- ENOMEM, set_world (put_task_struct task w) st) else
      let '(ret, th, w) := rd_thread_setup_events ses (new_thread sp task a) task w in
      if truthy ret then Some (ret, set_world (rd_thread_destroy th w) st) else
      w ← (if s_running ses then rd_enable_thread_events ses th w else Some w);
      let tp := km_next st in
      let st := set_thread tp th (set_world w (st ⟦ km_next ::= Z.add 1 ⟧)) in
      let st := set_session sp (ses ⟦ s_threads ::= fun l => l ++ [tp] ⟧) st in
      Some (0, rd_add_live_thread tp st)
  end.

(** [rd_thread_detach_live] with the removal from the live list. *)
Definition detach_thread (tp : Z) (st : kmod) : option kmod :=
  th ← km_threads st !! tp;
  if t_live_detached th then Some st else
  '(th, w) ← rd_thread_detach_live th (km_world st);
  Some (set_thread tp th (set_world w (rd_remove_live_thread tp st))).

Definition rd_unregister_thread_locked (sp tid : Z) (st : kmod) : option (Z * kmod) :=
  ses ← km_sessions st !! sp;
  found ← rd_find_active_thread_by_tid st ses tid;
  match found with
  | None => Some (- ENOENT, st)
  | Some tp =>
      th ← km_threads st !! tp;
      if negb (t_active th) then Some (0, st) else
      st ← detach_thread tp st;
      Some (0, st)
  end.

(** * Configuration *)

Definition rd_session_config_locked (sp : Z) (cfg : rd_wpctl_session_cfg) (st : kmod)
    : option (Z * kmod) :=
  ses ← km_sessions st !! sp;
  if configured ses || targets_loaded ses then Some (- EBUSY, st) else
  if (cfg_wp_capacity cfg =? 0) || (cfg_bp_sample_period cfg =? 0) then Some (- EINVAL, st) else
  if negb (cfg_callchain_mode cfg =? RD_CALLCHAIN_OFF) &&
     negb (cfg_callchain_mode cfg =? RD_CALLCHAIN_FP) &&
     negb (cfg_callchain_mode cfg =? RD_CALLCHAIN_DWARF) then Some (- EINVAL, st) else
  if RD_WPCTL_MAX_DWARF_STACK_BYTES <? cfg_dwarf_stack_bytes cfg then Some (- EINVAL, st) else
  if (cfg_callchain_mode cfg =? RD_CALLCHAIN_DWARF) &&
     ((cfg_dwarf_stack_bytes cfg =? 0) || (cfg_dwarf_event_capacity cfg =? 0)) then
    Some (- EINVAL, st) else
  Some (0, set_session sp
    (ses ⟦ wp_capacity := cfg_wp_capacity cfg ⟧ ⟦ callchain_mode := cfg_callchain_mode cfg ⟧
         ⟦ dwarf_stack_bytes := cfg_dwarf_stack_bytes cfg ⟧
         ⟦ dwarf_event_capacity := cfg_dwarf_event_capacity cfg ⟧
         ⟦ bp_sample_period := cfg_bp_sample_period cfg ⟧ ⟦ configured := true ⟧) st).

Definition rd_load_targets_locked (sp : Z) (batch : rd_wpctl_target_batch) (st : kmod)
    : option (Z * kmod) :=
  ses ← km_sessions st !! sp;
  if negb (configured ses) || targets_loaded ses then Some (- EINVAL, st) else
  if (batch_ptr batch =? 0) || (batch_count batch =? 0) then Some (- EINVAL, st) else
  match memdup_user_targets (batch_ptr batch) (batch_count batch) (km_world st) with
  | (inl err, w) => Some (err, set_world w st)
  | (inr user_targets, w) =>
      let '(ok, w) := kcalloc (batch_count batch) 56 w in
      if negb ok then Some (- ENOMEM, set_world w st) else
      tgts ← array_prefix user_targets (batch_count batch);
      if existsb (fun t => truthy (rd_validate_target t)) tgts then
        Some (- EINVAL, set_world w st) else
      Some (0, set_session sp
        (ses ⟦ targets := tgts ⟧ ⟦ target_count := batch_count batch ⟧ ⟦ targets_loaded := true ⟧)
        (set_world w st))
  end.

(** * Windows *)

(** [f] on every active thread of a session, in list order. *)
Fixpoint each_active (f : rd_thread_ctx -> world -> option world) (tps : list Z) (st : kmod)
    : option kmod :=
  match tps with
  | [] => Some st
  | tp :: rest =>
      th ← km_threads st !! tp;
      w ← (if t_active th then f th (km_world st) else Some (km_world st));
      each_active f rest (set_world w st)
  end.

Definition start_window (sp : Z) (st : kmod) : option (Z * kmod) :=
  ses ← km_sessions st !! sp;
  let ses := ses ⟦ s_running := true ⟧ in
  st ← each_active (rd_enable_thread_events ses) (s_threads ses) (set_session sp ses st);
  Some (0, st).

Definition stop_window (sp : Z) (st : kmod) : option (Z * kmod) :=
  ses ← km_sessions st !! sp;
  let ses := ses ⟦ s_running := false ⟧ in
  st ← each_active (rd_disable_thread_events ses) (s_threads ses) (set_session sp ses st);
  Some (0, st).

(** Reset every thread; the first error is returned after all are reset. *)
Fixpoint reset_threads (ses : rd_session) (tps : list Z) (ret : Z) (st : kmod)
    : option (Z * kmod) :=
  match tps with
  | [] => Some (ret, st)
  | tp :: rest =>
      th ← km_threads st !! tp;
      '(thread_ret, th, w) ← rd_reset_thread_locked ses th (km_world st);
      reset_threads ses rest (if (ret =? 0) && truthy thread_ret then thread_ret else ret)
        (set_thread tp th (set_world w st))
  end.

Definition rd_reset_session_locked (sp : Z) (st : kmod) : option (Z * kmod) :=
  ses ← km_sessions st !! sp;
  if s_running ses then Some (- EBUSY, st) else reset_threads ses (s_threads ses) 0 st.

(** * Results *)

Definition rd_get_layout_locked (ses : rd_session) : rd_wpctl_layout :=
  mk_layout (target_count ses) (u32 (zlen (s_threads ses))) RD_WPCTL_LOG2_BUCKETS.

(** A result request: the thread at [index], or an error. *)
Definition with_thread (st : kmod) (ses : rd_session) (index : Z)
    (f : rd_thread_ctx -> option (Z * reply)) : option (Z * reply) :=
  match rd_find_thread_by_index ses index with
  | None => Some (- ENOENT, NoReply)
  | Some tp => th ← km_threads st !! tp; f th
  end.

Definition rd_get_thread_stats_locked (st : kmod) (ses : rd_session) (index : Z)
    : option (Z * reply) :=
  with_thread st ses index (fun th =>
    Some (0, StatsReply
      (mk_thread_stats index (t_tid th) (t_cpu th) (if t_active th then 1 else 0)
         (candidate_samples th) (reservoir_seen th) (reservoir_accepted th)
         (reservoir_rejected th) (hits th) (evictions th) (dropped th) (pair_hist_used th)
         (pair_hist_dropped th) (context_used th) (context_dropped th) (callchain_failed th)
         (callchain_truncated th) (dwarf_event_used th) (dwarf_event_dropped th)
         (dwarf_stack_copy_failed th) (dwarf_stack_bytes ses)))).

(** The [memcpy] of 64 counters from [start]. *)
Definition copy_buckets (h : list Z) (start : Z) : option (list Z) :=
  if (0 <=? start) && (start + 64 <=? zlen h) then Some (take 64 (drop (Z.to_nat start) h)) else None.

Definition rd_get_hist_locked (st : kmod) (ses : rd_session) (index target_index : Z)
    : option (Z * reply) :=
  with_thread st ses index (fun th =>
    if target_count ses <=? target_index then Some (- EINVAL, NoReply) else
    buckets ← match t_log2_hist th with
              | None => Some (replicate 64 0)
              | Some h => copy_buckets h (target_index * RD_WPCTL_LOG2_BUCKETS)
              end;
    Some (0, HistReply index target_index buckets)).

Definition rd_get_pair_hist_locked (st : kmod) (ses : rd_session) (index entry_index : Z)
    : option (Z * reply) :=
  with_thread st ses index (fun th =>
    if RD_WPCTL_MAX_PAIR_HISTS <=? entry_index then Some (- EINVAL, NoReply) else
    let empty := mk_pair_hist_req index entry_index 0 0 0 0 0 (replicate 64 0) in
    match t_pair_hist th with
    | None => Some (0, PairReply empty)
    | Some tbl =>
        entry ← tbl !!z entry_index;
        Some (0, PairReply (if pe_used entry then
          mk_pair_hist_req index entry_index 1 (pe_seed_context_id entry)
            (pe_reuse_context_id entry) (pe_seed_pc_offset entry) (pe_reuse_pc entry)
            (pe_buckets entry) else empty))
    end).

Definition rd_get_context_locked (st : kmod) (ses : rd_session) (index context_id : Z)
    : option (Z * reply) :=
  with_thread st ses index (fun th =>
    if (context_id =? 0) || (RD_WPCTL_MAX_CONTEXTS <? context_id) then Some (- EINVAL, NoReply) else
    let empty := mk_context_req index context_id 0 0 (replicate 8 0) in
    match t_contexts th with
    | None => Some (0, ContextReply empty)
    | Some tbl =>
        entry ← tbl !!z (context_id - 1);
        Some (0, ContextReply (if ce_used entry then
          mk_context_req index context_id 1 (ce_depth entry) (ce_ips entry) else empty))
    end).

(** The reply buffer is allocated after the checks. *)
Definition rd_get_dwarf_event_locked (st : kmod) (ses : rd_session) (index event_index : Z)
    : option (Z * reply * kmod) :=
  match rd_find_thread_by_index ses index with
  | None => Some (- ENOENT, NoReply, st)
  | Some tp =>
      th ← km_threads st !! tp;
      if dwarf_event_capacity ses <=? event_index then Some (- EINVAL, NoReply, st) else
      let '(ok, w) := kcalloc 1 sizeof_dwarf_event (km_world st) in
      let st := set_world w st in
      if negb ok then Some (- ENOMEM, NoReply, st) else
      let empty := zero_dwarf_event ⟦ ev_thread_index := index ⟧ ⟦ ev_event_index := event_index ⟧ in
      match t_dwarf_events th with
      | None => Some (0, EventReply empty, st)
      | Some evs =>
          entry ← evs !!z event_index;
          Some (0, EventReply (if truthy (ev_used entry) then
            entry ⟦ ev_thread_index := index ⟧ ⟦ ev_event_index := event_index ⟧ else empty), st)
      end
  end.

(** [copy_to_user] of a reply: [out] says whether it succeeds. *)
Definition copy_out (out : bool) (r : Z * reply) : Z * reply :=
  if (r.1 =? 0) && negb out then (- EFAULT, NoReply) else r.

(** A request that only reads the session. *)
Definition query (out : bool) (st : kmod) (r : option (Z * reply)) : option (Z * reply * kmod) :=
  r ← r; Some ((copy_out out r), st).

(** A request that replies with its status only. *)
Definition command (r : option (Z * kmod)) : option (Z * reply * kmod) :=
  '(ret, st) ← r; Some (ret, NoReply, st).

Definition faulted (st : kmod) : option (Z * reply * kmod) := Some (- EFAULT, NoReply, st).

Definition rd_wpctl_ioctl (sp : Z) (cmd : ioctl_cmd) (out : bool) (st : kmod)
    : option (Z * reply * kmod) :=
  if sp =? 0 then Some (- EINVAL, NoReply, st) else
  ses ← km_sessions st !! sp;
  match cmd with
  | CONFIG_SESSION None | LOAD_TARGETS None | REGISTER_THREAD None | UNREGISTER_THREAD None
  | GET_THREAD_STATS None | GET_LOG2_HIST None | GET_PAIR_HIST_ENTRY None
  | GET_CONTEXT_ENTRY None | GET_DWARF_EVENT None => faulted st
  | CONFIG_SESSION (Some cfg) => command (rd_session_config_locked sp cfg st)
  | LOAD_TARGETS (Some batch) => command (rd_load_targets_locked sp batch st)
  | REGISTER_THREAD (Some reg) => command (rd_register_thread_locked sp reg st)
  | UNREGISTER_THREAD (Some tid) => command (rd_unregister_thread_locked sp tid st)
  | START_WINDOW => command (start_window sp st)
  | STOP_WINDOW => command (stop_window sp st)
  | RESET_SESSION => command (rd_reset_session_locked sp st)
  | GET_LAYOUT => query out st (Some (0, LayoutReply (rd_get_layout_locked ses)))
  | GET_THREAD_STATS (Some i) => query out st (rd_get_thread_stats_locked st ses i)
  | GET_LOG2_HIST (Some (i, j)) => query out st (rd_get_hist_locked st ses i j)
  | GET_PAIR_HIST_ENTRY (Some (i, j)) => query out st (rd_get_pair_hist_locked st ses i j)
  | GET_CONTEXT_ENTRY (Some (i, j)) => query out st (rd_get_context_locked st ses i j)
  | GET_DWARF_EVENT (Some (i, j)) =>
      '(r, st) ← rd_get_dwarf_event_locked st ses i j; Some (copy_out out r, st)
  | OTHER_IOCTL => Some (- ENOTTY, NoReply, st)
  end.

(** * Open and release *)

(** The address of the new session, or an error. *)
Definition rd_wpctl_open (tgid : Z) (st : kmod) : (Z + Z) * kmod :=
  let '(ok, w) := kcalloc 1 sizeof_session (km_world st) in
  let st := set_world w st in
  if negb ok then (inl (- ENOMEM), st) else
  (inr (km_next st),
   set_session (km_next st) (fresh_session tgid) (st ⟦ km_next ::= Z.add 1 ⟧)).

(** The threads of session [sp], from the head of its list. *)
Fixpoint release_threads (sp : Z) (tps : list Z) (st : kmod) : option kmod :=
  match tps with
  | [] => Some st
  | tp :: rest =>
      th ← km_threads st !! tp;
      st ← (if t_active th then detach_thread tp st else Some st);
      ses ← km_sessions st !! sp;
      let st := set_session sp (ses ⟦ s_threads := rest ⟧) st in
      th ← km_threads st !! tp;
      let w := rd_thread_destroy th (km_world st) in
      release_threads sp rest (set_world w (st ⟦ km_threads ::= delete tp ⟧))
  end.

Definition rd_wpctl_release (sp : Z) (st : kmod) : option kmod :=
  if sp =? 0 then Some st else
  ses ← km_sessions st !! sp;
  st ← release_threads sp (s_threads ses) st;
  Some (st ⟦ km_sessions ::= delete sp ⟧).

(** * Kprobe entries *)

Fixpoint index_of (ev : Z) (evs : list (option Z)) (i : Z) : option Z :=
  match evs with
  | [] => None
  | e :: rest => if bool_decide (e = Some ev) then Some i else index_of ev rest (i + 1)
  end.

(** The thread and the index of [ev] among the events that [select] picks, with
    a live reference taken on the thread. *)
Fixpoint lookup_event (st : kmod) (ev : Z)
    (select : rd_session -> rd_thread_ctx -> option (list (option Z)) * Z) (tps : list Z)
    : option (option (Z * Z * rd_thread_ctx)) :=
  match tps with
  | [] => Some None
  | tp :: rest =>
      th ← km_threads st !! tp;
      ses ← km_sessions st !! t_session th;
      match t_active th, select ses th with
      | true, (Some evs, n) =>
          evs ← array_prefix evs n;
          match index_of ev evs 0 with
          | None => lookup_event st ev select rest
          | Some i =>
              match rd_thread_live_get_rcu th with
              | (true, th) => Some (Some (tp, i, th))
              | (false, _) => lookup_event st ev select rest
              end
          end
      | _, _ => lookup_event st ev select rest
      end
  end.

Definition rd_lookup_bp_site_rcu (st : kmod) (ev : Z) : option (option (Z * Z * rd_thread_ctx)) :=
  lookup_event st ev (fun ses th => (t_bp_events th, target_count ses)) (km_live st).

Definition rd_lookup_wp_slot_rcu (st : kmod) (ev : Z) : option (option (Z * Z * rd_thread_ctx)) :=
  lookup_event st ev (fun ses th => (t_wp_events th, wp_capacity ses)) (km_live st).

Definition rd_is_execute_bp_event (ev : Z) (w : world) : bool :=
  if ev =? 0 then false else
  if negb (attr_type (event_attr ev w) =? PERF_TYPE_BREAKPOINT) then false else
  if negb (attr_bp_type (event_attr ev w) =? HW_BREAKPOINT_X) then false else
  true.

Definition rd_perf_event_overflow_pre (ev : Z) (user_regs : option pt_regs) (pid : Z) (st : kmod)
    : option kmod :=
  if (ev =? 0) || is_null user_regs then Some st else
  if negb (rd_is_execute_bp_event ev (km_world st)) then Some st else
  found ← rd_lookup_bp_site_rcu st ev;
  match found with
  | None => Some st
  | Some (tp, target_index, th) =>
      if (target_index =? RD_INVALID_INDEX) || negb (pid =? t_tid th) then
        Some (set_thread tp (rd_thread_live_put th) st) else
      ses ← km_sessions st !! t_session th;
      '(th, e) ← rd_handle_bp_hit ses th target_index user_regs (km_env st);
      Some (set_thread tp (rd_thread_live_put th) (st ⟦ km_env := e ⟧))
  end.

Definition rd_watchpoint_report_pre (ev : Z) (user_regs : option pt_regs) (st : kmod)
    : option kmod :=
  if ev =? 0 then Some st else
  match user_regs with
  | None => Some st
  | Some r =>
      if negb (user_mode r) then Some st else
      found ← rd_lookup_wp_slot_rcu st ev;
      match found with
      | None => Some st
      | Some (tp, slot_index, th) =>
          if slot_index =? RD_INVALID_INDEX then
            Some (set_thread tp (rd_thread_live_put th) st) else
          ses ← km_sessions st !! t_session th;
          '(th, e) ← rd_handle_wp_hit ses th slot_index user_regs (km_env st);
          Some (set_thread tp (rd_thread_live_put th) (st ⟦ km_env := e ⟧))
      end
  end.

(** The state when the module is loaded: no session, no thread, and the debug
    budget that [rd_wpctl_init] stores as an [int]. *)
Definition initial_state (debug_budget : Z) (w : world) : kmod :=
  mk_kmod ∅ ∅ [] (mk_env w (s32 debug_budget)) 1.

End session.
