(* ===== verification/SessionInv.v ===== *)
(** The invariant of the module state and its preservation by every entry
    point: open, release, each ioctl and both kprobe handlers. *)
From S2P Require Import Prelude Uapi Buckets EffAddr KernelApi KTypes Tables Callchain.
From S2P Require Import Handlers Sampling HitSpec Lifecycle Session.
Import EffAddr Contexts PairHist.

(** * Which operations keep the perf events and task references *)

Section resource_frames.
Context `{K : KernelApi} {KL : KernelLaws K}.

#[local] Instance same_resources_po : PreOrder same_resources.
Proof. split; [by split|]; intros w1 w2 w3 [A1 A2] [B1 B2]; split; congruence. Qed.

Lemma modify_slot_world ses th i addr len w ret w' :
  rd_modify_slot ses th i addr len w = Some (ret, w') -> same_resources w w'.
Proof.
  unfold rd_modify_slot; destruct (t_wp_events th) as [evs|]; [|by intros [= <- <-]].
  split_if; [by intros [= <- <-]|]; intros (o & _ & H)%bind_Some.
  destruct o as [ev|]; [|by injection H as <- <-].
  injection H as H; apply (f_equal snd) in H; cbn [snd] in H; subst w'; apply modify_bp_keeps.
Qed.

Lemma read_mem_world th w : same_resources w (rd_read_mem_access th w).2.
Proof.
  unfold rd_read_mem_access; destruct (t_mem_event th) as [ev|]; [|done].
  pose proof (read_keeps ev w) as Hk; by destruct (perf_event_read_value ev w).
Qed.

Lemma program_slot_world ses th i va size idle w th' w' :
  program_slot ses th i va size idle w = Some (th', w') -> same_resources w w'.
Proof.
  unfold program_slot; intros ([ret w1] & H1%modify_slot_world & H)%bind_Some.
  destruct (truthy ret); [|by injection H as <- <-].
  apply bind_Some in H as (th1 & _ & ([r2 w2] & H2%modify_slot_world & [= <- <-])%bind_Some).
  by etrans.
Qed.

Lemma bp_hit_world ses th i regs e th' e' :
  rd_handle_bp_hit ses th i regs e = Some (th', e') -> same_resources (e_world e) (e_world e').
Proof.
  unfold rd_handle_bp_hit; destruct regs as [r|]; [|by intros [= <- <-]].
  split_if; [by intros [= <- <-]|].
  intros (tgt & _ & (va & _ & H)%bind_Some)%bind_Some.
  pose proof (read_mem_world th (e_world e)) as Hr.
  destruct (rd_read_mem_access th (e_world e)) as [[acc|] w]; [|by injection H as <- <-].
  apply bind_Some in H as ([key th1] & _ & ([picked th2] & _ & H)%bind_Some).
  destruct picked as [[slot repl]|]; [|by injection H as <- <-].
  split_if; [by injection H as <- <-|].
  apply bind_Some in H as ([ctx th3] & _ & ([idle th4] & _ & H)%bind_Some).
  apply bind_Some in H as (th5 & _ & ([th6 w6] & H6%program_slot_world & [= <- <-])%bind_Some).
  by etrans.
Qed.

Lemma wp_hit_world ses th i regs e th' e' :
  rd_handle_wp_hit ses th i regs e = Some (th', e') -> same_resources (e_world e) (e_world e').
Proof.
  unfold rd_handle_wp_hit; split_if; [by intros [= <- <-]|]; split_if; [by intros [= <- <-]|].
  intros (slots & _ & (s & _ & H)%bind_Some)%bind_Some.
  split_if; [by injection H as <- <-|].
  destruct (truthy (wp_skip_first_hit s)).
  { by apply bind_Some in H as (? & _ & [= <- <-]). }
  destruct (target_count ses <=? wp_target_index s).
  { apply bind_Some in H as ([th1 w1] & H1 & [= <- <-]); unfold retire_slot in H1.
    by apply bind_Some in H1 as (? & _ & ([r2 w2] & ?%modify_slot_world & [= <- <-])%bind_Some). }
  apply bind_Some in H as ([key th1] & _ & (th2 & _ & ([[th3 w3] tk] & H3 & H)%bind_Some)%bind_Some).
  pose proof (read_mem_world th2 (e_world e)) as Hr.
  assert (Hw : same_resources (e_world e) w3).
  { destruct (rd_read_mem_access th2 (e_world e)) as [[acc|] w].
    - by apply bind_Some in H3 as (? & _ & [= <- <- <-]).
    - by injection H3 as <- <- <-. }
  apply bind_Some in H as (slots' & _ & (s' & _ & H)%bind_Some).
  apply bind_Some in H as (th4 & _ & ([r5 w5] & H5%modify_slot_world & [= <- <-])%bind_Some).
  by etrans.
Qed.

Lemma each_event_keeps (f : Z -> world -> world) evs w :
  (forall e w, same_resources w (f e w)) -> same_resources w (each_event f evs w).
Proof.
  intros Hf; revert w; induction evs as [|[e|] evs IH]; intros w; unfold each_event in *; cbn; [done| |done].
  etrans; [apply Hf|apply IH].
Qed.

Lemma enable_events_world ses th w w' :
  rd_enable_thread_events ses th w = Some w' -> same_resources w w'.
Proof.
  unfold rd_enable_thread_events; intros (bps & _ & (bps' & _ & H)%bind_Some)%bind_Some.
  apply bind_Some in H as (wps & _ & (wps' & _ & [= <-])%bind_Some).
  etrans; [|apply each_event_keeps, enable_keeps].
  etrans; [|apply each_event_keeps, enable_keeps].
  apply (each_event_keeps perf_event_enable [t_mem_event th]), enable_keeps.
Qed.

Lemma disable_events_world ses th w w' :
  rd_disable_thread_events ses th w = Some w' -> same_resources w w'.
Proof.
  unfold rd_disable_thread_events; intros (bps & _ & (bps' & _ & H)%bind_Some)%bind_Some.
  apply bind_Some in H as (wps & _ & (wps' & _ & [= <-])%bind_Some).
  etrans; [|apply (each_event_keeps perf_event_disable [t_mem_event th]), disable_keeps].
  etrans; apply each_event_keeps, disable_keeps.
Qed.

Lemma enable_events_ok ses th w :
  live_ok ses th -> exists w', rd_enable_thread_events ses th w = Some w'.
Proof.
  intros [_ (bps & Hb & Lb & _) (wps & Hw & Lw & _) _ _ _]; unfold rd_enable_thread_events.
  rewrite Hb, some_bind, (array_prefix_full _ _ Lb), some_bind, Hw, some_bind,
    (array_prefix_full _ _ Lw), some_bind; eauto.
Qed.

Lemma disable_events_ok ses th w :
  live_ok ses th -> exists w', rd_disable_thread_events ses th w = Some w'.
Proof.
  intros [_ (bps & Hb & Lb & _) (wps & Hw & Lw & _) _ _ _]; unfold rd_disable_thread_events.
  rewrite Hw, some_bind, (array_prefix_full _ _ Lw), some_bind, Hb, some_bind,
    (array_prefix_full _ _ Lb), some_bind; eauto.
Qed.

Lemma for_upto_world {St} (f : St -> world) n body s s' :
  (forall i s s', body i s = Some s' -> same_resources (f s) (f s')) ->
  for_upto n body s = Some s' -> same_resources (f s) (f s').
Proof.
  intros Hb; revert s'; induction n as [|n IH]; intros s'; cbn [for_upto]; [by intros [= <-]|].
  intros (s1 & H1%IH & H2%Hb)%bind_Some; by etrans.
Qed.

Lemma reset_thread_world ses th w ret th' w' :
  rd_reset_thread_locked ses th w = Some (ret, th', w') -> same_resources w w'.
Proof.
  unfold rd_reset_thread_locked; intros ([r w1] & H1 & H)%bind_Some.
  do 7 (apply bind_Some in H as (? & _ & H)); injection H as <- <- <-.
  unfold reset_slot_addresses in H1; destruct (t_active th); [|by injection H1 as <- <-].
  destruct (t_wp_events th); [|by injection H1 as <- <-].
  destruct (t_wp_slots th); [|by injection H1 as <- <-].
  apply (for_upto_world snd) in H1; [done|]; intros i [r1 wa] [r2 wb].
  intros (s & _ & ([m wc] & Hm%modify_slot_world & [= <- <-])%bind_Some)%bind_Some; done.
Qed.

End resource_frames.

(** * The invariant *)

(** A session between CONFIG_SESSION and release. *)
Record sess_wf (ses : rd_session) : Prop := {
  sw_config : configured ses = true ->
    0 < wp_capacity ses < 4294967296 /\ 0 <= dwarf_event_capacity ses < 4294967296 /\
    (callchain_mode ses = RD_CALLCHAIN_DWARF -> 0 < dwarf_event_capacity ses);
  sw_loaded : targets_loaded ses = true ->
    configured ses = true /\ zlen (targets ses) = target_count ses /\ 0 < target_count ses /\
    Forall (fun t => decode_valid (decode t) /\ 0 <= extend (decode t) /\
                     0 <= shift (decode t)) (targets ses);
  sw_threads : NoDup (s_threads ses) /\ (s_threads ses <> [] -> targets_loaded ses = true);
}.

Lemma sess_wf_ok ses : sess_wf ses -> targets_loaded ses = true -> session_ok ses.
Proof.
  intros [Hc Hl _] H; destruct (Hl H) as (H1 & H2 & H3 & H4), (Hc H1) as (C1 & C2 & C3); by split.
Qed.

(** No handler is running: an active thread has its one reference, a detached
    one none. *)
Definition refs_ok (th : rd_thread_ctx) : Prop :=
  t_live_detached th = negb (t_active th) /\ t_live_refs th = (if t_active th then 1 else 0) /\
  t_live_refs_zero th = negb (t_active th).

(** How many thread contexts hold a reference on task [t]. *)
Definition holders (t : Z) (m : gmap Z rd_thread_ctx) : Z :=
  zcount (fun kv : Z * rd_thread_ctx => bool_decide (t_task kv.2 = Some t)) (map_to_list m).

Lemma zcount_perm {A} (p : A -> bool) l1 l2 : l1 ≡ₚ l2 -> zcount p l1 = zcount p l2.
Proof. induction 1; rewrite ?zcount_cons; lia. Qed.

Lemma holders_insert t m k th :
  m !! k = None ->
  holders t (<[k := th]> m) = holders t m + (if decide (t_task th = Some t) then 1 else 0).
Proof.
  intros Hk; unfold holders; rewrite (zcount_perm _ _ _ (map_to_list_insert m k th Hk)), zcount_cons.
  cbn; case_bool_decide; case_decide; try done; lia.
Qed.

Lemma holders_delete t m k th :
  m !! k = Some th ->
  holders t (delete k m) = holders t m - (if decide (t_task th = Some t) then 1 else 0).
Proof.
  intros Hk; rewrite <- (insert_delete_id m k th Hk) at 2.
  rewrite holders_insert by apply lookup_delete_eq; lia.
Qed.

Lemma holders_update t m k th th' :
  m !! k = Some th ->
  holders t (<[k := th']> m) = holders t m - (if decide (t_task th = Some t) then 1 else 0)
                               + (if decide (t_task th' = Some t) then 1 else 0).
Proof.
  intros Hk; rewrite <- insert_delete_eq, holders_insert by apply lookup_delete_eq.
  by rewrite (holders_delete t m k th Hk).
Qed.

Section lookups.
Context `{K : KernelApi}.

Lemma find_active_spec st tid tps :
  (forall tp, tp ∈ tps -> is_Some (km_threads st !! tp)) ->
  exists r, find_active st tid tps = Some r /\
    match r with
    | Some tp => tp ∈ tps /\ exists th, km_threads st !! tp = Some th /\ t_tid th = tid /\ t_active th = true
    | None => forall tp th, tp ∈ tps -> km_threads st !! tp = Some th -> t_active th = true -> t_tid th <> tid
    end.
Proof.
  induction tps as [|tp tps IH]; intros Hin; cbn [find_active].
  { eexists; split; [done|]; set_solver. }
  destruct (Hin tp) as [th Ht]; [set_solver|]; rewrite Ht, some_bind.
  destruct IH as (r & -> & Hr); [set_solver|].
  destruct ((t_tid th =? tid) && t_active th) eqn:G.
  - apply andb_true_iff in G as [G1%Z.eqb_eq G2]; eexists; split; [done|]; split; [set_solver|eauto].
  - eexists; split; [done|]; destruct r as [tp'|]; [destruct Hr; split; [set_solver|done]|].
    intros tp0 th0 [->|Hin0]%elem_of_cons Ht0 Ha; [|by eapply Hr].
    assert (th0 = th) as -> by congruence; rewrite Ha, andb_true_r in G; lia.
Qed.

End lookups.

Section inv.
Context `{K : KernelApi} {KL : KernelLaws K}.
(** The events and task references of the rest of the kernel. *)
Context (other_events : gset Z) (other_refs : Z -> Z).

#[local] Instance same_resources_po' : PreOrder same_resources.
Proof. apply same_resources_po. Qed.

Record thread_at (st : kmod) (tp : Z) (th : rd_thread_ctx) : Prop := {
  ta_range : 0 < tp < km_next st;
  ta_session : exists ses, km_sessions st !! t_session th = Some ses /\ tp ∈ s_threads ses /\
                           thread_inv ses th;
  ta_refs : refs_ok th;
  ta_nodup : NoDup (events_of th);
}.

Record km_inv (st : kmod) : Prop := {
  ki_sessions sp ses : km_sessions st !! sp = Some ses -> 0 < sp < km_next st /\ sess_wf ses;
  ki_member sp ses tp : km_sessions st !! sp = Some ses -> tp ∈ s_threads ses ->
    exists th, km_threads st !! tp = Some th /\ t_session th = sp;
  ki_threads tp th : km_threads st !! tp = Some th -> thread_at st tp th;
  ki_live : NoDup (km_live st) /\
    forall tp, tp ∈ km_live st <-> exists th, km_threads st !! tp = Some th /\ t_active th = true;
  ki_tids tp1 tp2 th1 th2 : km_threads st !! tp1 = Some th1 -> km_threads st !! tp2 = Some th2 ->
    t_active th1 = true -> t_active th2 = true -> t_session th1 = t_session th2 ->
    t_tid th1 = t_tid th2 -> tp1 = tp2;
  ki_disjoint tp1 tp2 th1 th2 e : km_threads st !! tp1 = Some th1 -> km_threads st !! tp2 = Some th2 ->
    e ∈ events_of th1 -> e ∈ events_of th2 -> tp1 = tp2;
  ki_events e : e ∈ live_events (km_world st) <->
    e ∈ other_events \/ exists tp th, km_threads st !! tp = Some th /\ e ∈ events_of th;
  ki_other tp th e : km_threads st !! tp = Some th -> e ∈ events_of th -> e ∉ other_events;
  ki_refs t : task_refs (km_world st) t = other_refs t + holders t (km_threads st);
  ki_next : 0 < km_next st;
}.

Lemma thread_at_ok st tp th ses :
  km_inv st -> km_threads st !! tp = Some th -> km_sessions st !! t_session th = Some ses ->
  tp ∈ s_threads ses /\ thread_inv ses th /\ session_ok ses.
Proof.
  intros Hi Ht Hs; destruct (ki_threads st Hi tp th Ht) as [_ (ses' & Hs' & Hin & Htv) _ _].
  assert (ses' = ses) as -> by congruence; split_and!; try done.
  destruct (ki_sessions st Hi _ _ Hs) as [_ Hw]; apply (sess_wf_ok _ Hw), (sw_threads _ Hw).
  intros E; rewrite E in Hin; by apply elem_of_nil in Hin.
Qed.

(** A change of the kernel state that keeps its resources, and of the debug
    tokens. *)
Lemma km_inv_env st e :
  km_inv st -> same_resources (km_world st) (e_world e) -> km_inv (st ⟦ km_env := e ⟧).
Proof.
  intros [I1 I2 I3 I4 I5 I6 I7 I8 I9 I10] [He Hr].
  assert (Hw : km_world (st ⟦ km_env := e ⟧) = e_world e) by done.
  split; try done.
  - by intros k x Hx; destruct (I3 k x Hx).
  - intros x; rewrite Hw, He; apply I7.
  - intros x; rewrite Hw, Hr; apply I9.
Qed.

Lemma km_inv_world st w :
  km_inv st -> same_resources (km_world st) w -> km_inv (set_world w st).
Proof. intros; by apply km_inv_env. Qed.

Lemma resources_eq th th' :
  resources th' = resources th ->
  t_session th' = t_session th /\ t_task th' = t_task th /\ t_tid th' = t_tid th /\
  t_active th' = t_active th /\ refs_ok th' = refs_ok th /\ events_of th' = events_of th.
Proof.
  unfold resources, refs_ok, events_of; intros H; injection H as E1 E2 E3 E4 E5 E6 E7 E8 E9 E10 E11.
  by rewrite E1, E2, E3, E5, E6, E7, E8, E9, E10, E11.
Qed.

(** A thread whose statistics change and whose resources do not. *)
Lemma km_inv_thread st tp th th' ses :
  km_inv st -> km_threads st !! tp = Some th -> km_sessions st !! t_session th = Some ses ->
  thread_inv ses th' -> resources th' = resources th -> km_inv (set_thread tp th' st).
Proof.
  intros Hi Ht Hs Htv Hres; apply resources_eq in Hres as (E1 & E2 & E3 & E4 & E5 & E6).
  destruct (thread_at_ok st tp th ses Hi Ht Hs) as (Hin & _ & _).
  assert (Hlk : forall k x, <[tp := th']> (km_threads st) !! k = Some x ->
    exists x0, km_threads st !! k = Some x0 /\ t_session x = t_session x0 /\ t_tid x = t_tid x0 /\
      t_active x = t_active x0 /\ events_of x = events_of x0).
  { intros k x [[<- <-]|[Hne Hx]]%lookup_insert_Some; eauto 10. }
  assert (Hex : forall k x0, km_threads st !! k = Some x0 ->
    exists x, <[tp := th']> (km_threads st) !! k = Some x /\ t_session x = t_session x0 /\
      t_active x = t_active x0 /\ events_of x = events_of x0).
  { intros k x0 Hx; destruct (decide (k = tp)) as [->|Hne].
    - exists th'; rewrite lookup_insert_eq; split_and!; congruence.
    - exists x0; by rewrite lookup_insert_ne. }
  pose proof Hi as Hi0; destruct Hi as [I1 I2 I3 [I4 I4'] I5 I6 I7 I8 I9 I10]; split; cbn -[events_of]; try done.
  - intros sp ses0 k Hsp Hk; destruct (I2 _ _ _ Hsp Hk) as (x0 & Hx0 & <-).
    destruct (Hex _ _ Hx0) as (x & Hx & Hsx & _); eauto.
  - intros k x [[<- <-]|[Hne Hx]]%lookup_insert_Some.
    + destruct (I3 _ _ Ht) as [R1 _ R3 R4]; split; [exact R1| |by rewrite E5|by rewrite E6].
      rewrite E1; eauto.
    + by destruct (I3 _ _ Hx).
  - split; [done|]; intros k; rewrite I4'; split.
    + intros (x0 & Hx0 & Ha); destruct (Hex _ _ Hx0) as (x & Hx & _ & Hax & _); exists x; split; congruence.
    + intros (x & (x0 & Hx0 & _ & _ & Hax & _)%Hlk & Ha); exists x0; split; congruence.
  - intros k1 k2 x1 x2 (y1 & Y1 & S1 & T1 & A1 & _)%Hlk (y2 & Y2 & S2 & T2 & A2 & _)%Hlk ? ? ? ?.
    eapply I5; eauto; congruence.
  - intros k1 k2 x1 x2 e (y1 & Y1 & _ & _ & _ & V1)%Hlk (y2 & Y2 & _ & _ & _ & V2)%Hlk; rewrite V1, V2; eauto.
  - intros e; change (km_world (set_thread tp th' st)) with (km_world st); rewrite I7.
    apply or_iff_compat_l; split.
    + intros (k & x0 & Hx0 & He); destruct (Hex _ _ Hx0) as (x & Hx & _ & _ & Ev); exists k, x; by rewrite Ev.
    + intros (k & x & (x0 & Hx0 & _ & _ & _ & Ev)%Hlk & He); exists k, x0; by rewrite <- Ev.
  - intros k x e (x0 & Hx0 & _ & _ & _ & Ev)%Hlk; rewrite Ev; eauto.
  - intros t; change (km_world (set_thread tp th' st)) with (km_world st); rewrite I9.
    rewrite (holders_update t _ _ _ _ Ht), E2; lia.
Qed.

(** * Hits *)

Lemma thread_inv_refs ses th r :
  thread_inv ses th -> thread_inv ses (th ⟦ t_live_refs := r ⟧).
Proof.
  intros [Hl [] Hs Hr Hb]; split; try done.
  cbn; destruct (t_active th); [by destruct Hl|done].
Qed.

Lemma live_get_ok th :
  refs_ok th -> t_active th = true ->
  rd_thread_live_get_rcu th = (true, th ⟦ t_live_refs := 2 ⟧).
Proof.
  intros (Hd & Hr & _) Ha; unfold rd_thread_live_get_rcu; rewrite Ha in *; cbn in Hd, Hr.
  rewrite Hd, Hr; cbn [negb orb Z.eqb]; f_equal; unfold upd; cbn; by rewrite Hr.
Qed.

Lemma live_put_ok th : t_live_refs th = 2 -> rd_thread_live_put th = th ⟦ t_live_refs := 1 ⟧.
Proof. intros Hr; unfold rd_thread_live_put; by rewrite Hr. Qed.

(** The thread of an event, with its reference taken. *)
Definition found_at (st : kmod) (ev : Z)
    (select : rd_session -> rd_thread_ctx -> option (list (option Z)) * Z)
    (tp i : Z) (th' : rd_thread_ctx) : Prop :=
  exists th ses evs n, km_threads st !! tp = Some th /\ t_active th = true /\
    km_sessions st !! t_session th = Some ses /\ th' = th ⟦ t_live_refs := 2 ⟧ /\
    select ses th = (Some evs, n) /\ evs !!z i = Some (Some ev).

Lemma index_of_spec ev evs i :
  match index_of ev evs i with
  | Some j => exists k, j = i + Z.of_nat k /\ evs !! k = Some (Some ev)
  | None => Some ev ∉ evs
  end.
Proof.
  revert i; induction evs as [|e evs IH]; intros i; cbn [index_of]; [set_solver|].
  case_bool_decide as He.
  - exists 0%nat; split; [lia|by subst].
  - specialize (IH (i + 1)); destruct (index_of ev evs (i + 1)).
    + destruct IH as (k & -> & Hk); exists (S k); split; [lia|done].
    + set_solver.
Qed.

Lemma lookup_event_spec st ev select tps :
  km_inv st -> (forall tp, tp ∈ tps -> tp ∈ km_live st) ->
  (forall ses th, live_ok ses th -> exists evs, select ses th = (Some evs, zlen evs)) ->
  exists r, lookup_event st ev select tps = Some r /\
    match r with
    | Some (tp, i, th') => tp ∈ tps /\ found_at st ev select tp i th'
    | None => forall tp th ses evs n, tp ∈ tps -> km_threads st !! tp = Some th ->
                km_sessions st !! t_session th = Some ses -> select ses th = (Some evs, n) ->
                Some ev ∉ evs
    end.
Proof.
  intros Hi Hlive Hsel; induction tps as [|tp tps IH]; cbn [lookup_event].
  { eexists; split; [done|]; set_solver. }
  destruct IH as (r & IHr & IHs); [set_solver|].
  destruct (proj1 (proj2 (ki_live st Hi) tp)) as (th & Ht & Ha); [set_solver|].
  destruct (ki_threads st Hi tp th Ht) as [_ (ses & Hs & _ & Htv) Hrefs _].
  rewrite Ht, some_bind, Hs, some_bind, Ha.
  destruct (Hsel ses th) as [evs Hev]; [pose proof (ti_live _ _ Htv) as H; by rewrite Ha in H|].
  rewrite Hev, (array_prefix_full evs (zlen evs) eq_refl), some_bind.
  pose proof (index_of_spec ev evs 0) as Hidx; destruct (index_of ev evs 0) as [i|].
  - destruct Hidx as (k & -> & Hk); rewrite (live_get_ok th Hrefs Ha); eexists; split; [done|].
    split; [set_solver|]; exists th, ses, evs, (zlen evs); split_and!; try done.
    by rewrite Z.add_0_l, zlookup_of_nat.
  - exists r; split; [done|]; destruct r as [[[tp' i] th']|].
    + destruct IHs; split; [set_solver|done].
    + intros tp0 th0 ses0 evs0 n0 [->|Hin]%elem_of_cons Ht0 Hs0 He0; [|by eapply IHs].
      assert (th0 = th) as -> by congruence; assert (ses0 = ses) as -> by congruence; congruence.
Qed.

Lemma select_bps ses th :
  live_ok ses th -> exists evs, (t_bp_events th, target_count ses) = (Some evs, zlen evs).
Proof. intros H; destruct (lv_bps _ _ H) as (l & -> & <- & _); eauto. Qed.

Lemma select_wps ses th :
  live_ok ses th -> exists evs, (t_wp_events th, wp_capacity ses) = (Some evs, zlen evs).
Proof. intros H; destruct (lv_wps _ _ H) as (l & -> & <- & _); eauto. Qed.

(** Dropping the reference again. *)
Lemma put_back_inv st ev select tp i th' :
  km_inv st -> found_at st ev select tp i th' -> km_inv (set_thread tp (rd_thread_live_put th') st).
Proof.
  intros Hi (th & ses & evs & n & Ht & Ha & Hs & -> & _).
  destruct (thread_at_ok st tp th ses Hi Ht Hs) as (_ & Htv & _).
  pose proof (ta_refs _ _ _ (ki_threads st Hi tp th Ht)) as (_ & Hr & _); rewrite Ha in Hr.
  rewrite live_put_ok by done; apply (km_inv_thread st tp th _ ses); try done.
  - by apply thread_inv_refs, thread_inv_refs.
  - unfold resources; cbn; by rewrite Hr.
Qed.

(** A handled hit on the thread of an event: it returns, or it shifts by an
    undefined count. *)
Lemma hit_inv st ev select tp i th' h :
  km_inv st -> found_at st ev select tp i th' -> hit_wf h ->
  exists ses, km_sessions st !! t_session th' = Some ses /\
    if undefined_hit ses h th' then handle_hit ses h th' (km_env st) = None else
    exists th2 e, handle_hit ses h th' (km_env st) = Some (th2, e) /\
      km_inv (set_thread tp (rd_thread_live_put th2) (st ⟦ km_env := e ⟧)).
Proof.
  intros Hi (th & ses & evs & n & Ht & Ha & Hs & -> & _) Hwf.
  destruct (thread_at_ok st tp th ses Hi Ht Hs) as (_ & Htv & Hok).
  pose proof (ta_refs _ _ _ (ki_threads st Hi tp th Ht)) as (_ & Hr & _); rewrite Ha in Hr.
  exists ses; split; [done|].
  destruct (undefined_hit ses h (th ⟦ t_live_refs := 2 ⟧)) eqn:Hdef; [exact (handle_hit_undefined ses Hok h _ _ Hwf Hdef)|].
  destruct (handle_hit_inv ses Hok h (th ⟦ t_live_refs := 2 ⟧) (km_env st)
              (thread_inv_refs ses th 2 Htv) Hwf Hdef) as (th2 & e & Hh & Htv2 & Hres).
  exists th2, e; split; [done|].
  assert (Hw : same_resources (km_world st) (e_world e)).
  { destruct h as [j r|j r]; cbn [handle_hit] in Hh.
    - exact (bp_hit_world _ _ _ _ _ _ _ Hh).
    - exact (wp_hit_world _ _ _ _ _ _ _ Hh). }
  assert (Hr2 : t_live_refs th2 = 2) by (unfold resources in Hres; cbn in Hres; congruence).
  rewrite (live_put_ok th2 Hr2); eapply km_inv_thread; [by apply km_inv_env| |exact Hs|..]; try done.
  - by apply thread_inv_refs.
  - unfold resources in *; cbn in *; congruence.
Qed.

(** Event [ev] is the breakpoint of a target whose index shift is undefined, on
    an active thread of a session whose window is open. *)
Definition undefined_breakpoint (ev : Z) (st : kmod) : Prop :=
  exists tp th ses evs n tgt,
    km_threads st !! tp = Some th /\ t_active th = true /\ km_sessions st !! t_session th = Some ses /\
    s_running ses = true /\ t_bp_events th = Some evs /\ evs !! n = Some (Some ev) /\
    targets ses !! n = Some tgt /\ shift_undefined (decode tgt) = true.

Lemma found_undefined st ev tp i th' ses r :
  found_at st ev (fun ses th => (t_bp_events th, target_count ses)) tp i th' ->
  km_sessions st !! t_session th' = Some ses -> undefined_hit ses (BpHit i r) th' = true -> undefined_breakpoint ev st.
Proof.
  intros (th & ses0 & evs & n & Ht & Ha & Hs & -> & Hsel & Hi) Hs'; cbn [undefined_hit].
  intros [[_ Hrun]%andb_true_iff Hdef]%andb_true_iff; injection Hsel as Hev _.
  apply zlookup_Some in Hi as [Hi0 Hi]; destruct (targets ses !!z i) as [tgt|] eqn:Et; [|done].
  apply zlookup_Some in Et as [_ Et]; exists tp, th, ses, evs, (Z.to_nat i), tgt; done.
Qed.

Lemma overflow_inv st ev regs pid :
  km_inv st -> (forall r, regs = Some r -> pt_regs_wf r) ->
  (exists st', rd_perf_event_overflow_pre ev regs pid st = Some st' /\ km_inv st') \/
  (rd_perf_event_overflow_pre ev regs pid st = None /\ undefined_breakpoint ev st).
Proof.
  intros Hi Hr; unfold rd_perf_event_overflow_pre.
  destruct regs as [r|]; [|rewrite orb_true_r; left; eauto]; cbn [is_null]; rewrite orb_false_r.
  split_if; [left; eauto|]; split_if; [left; eauto|].
  unfold rd_lookup_bp_site_rcu.
  destruct (lookup_event_spec st ev (fun ses th => (t_bp_events th, target_count ses)) (km_live st))
    as (res & -> & Hres); [done|done|exact select_bps|]; rewrite some_bind.
  destruct res as [[[tp i] th']|]; [destruct Hres as [_ Hf]|left; eauto].
  split_if; [left; eexists; split; [done|by eapply put_back_inv]|].
  destruct (hit_inv st ev _ tp i th' (BpHit i r) Hi Hf) as (ses & Hs & H).
  { split; [|auto]; destruct Hf as (? & ? & ? & ? & _ & _ & _ & _ & _ & [? _]%zlookup_Some); lia. }
  rewrite Hs, some_bind; destruct (undefined_hit ses (BpHit i r) th') eqn:Hdef.
  - right; cbn [handle_hit] in H; rewrite H; split; [done|by eapply found_undefined].
  - left; destruct H as (th2 & e & Hh & Hi'); cbn [handle_hit] in Hh; rewrite Hh, some_bind; eauto.
Qed.

Lemma report_inv st ev regs :
  km_inv st -> (forall r, regs = Some r -> pt_regs_wf r) ->
  exists st', rd_watchpoint_report_pre ev regs st = Some st' /\ km_inv st'.
Proof.
  intros Hi Hr; unfold rd_watchpoint_report_pre; split_if; [eauto|].
  destruct regs as [r|]; [|eauto]; split_if; [eauto|].
  unfold rd_lookup_wp_slot_rcu.
  destruct (lookup_event_spec st ev (fun ses th => (t_wp_events th, wp_capacity ses)) (km_live st))
    as (res & -> & Hres); [done|done|exact select_wps|]; rewrite some_bind.
  destruct res as [[[tp i] th']|]; [destruct Hres as [_ Hf]|by eauto].
  split_if; [eexists; split; [done|by eapply put_back_inv]|].
  destruct (hit_inv st ev _ tp i th' (WpHit i r) Hi Hf) as (ses & -> & th2 & e & Hh & Hi').
  { split; [|auto]; destruct Hf as (? & ? & ? & ? & _ & _ & _ & _ & _ & [? _]%zlookup_Some); lia. }
  rewrite some_bind; cbn [handle_hit] in Hh; rewrite Hh, some_bind; eauto.
Qed.

(** * Sessions *)

Lemma km_inv_session st sp ses ses' :
  km_inv st -> km_sessions st !! sp = Some ses -> sess_wf ses' -> s_threads ses' = s_threads ses ->
  (forall th, thread_inv ses th -> s_threads ses <> [] -> thread_inv ses' th) ->
  km_inv (set_session sp ses' st).
Proof.
  intros Hi Hs Hwf Hthr Hti; pose proof Hi as Hi0.
  destruct Hi as [I1 I2 I3 I4 I5 I6 I7 I8 I9 I10]; split; cbn -[events_of]; try done.
  - intros sp0 ses0 [[<- <-]|[Hne Hx]]%lookup_insert_Some; [split; [by eapply I1|done]|by eapply I1].
  - intros sp0 ses0 tp [[<- <-]|[Hne Hx]]%lookup_insert_Some Hin; [|by eapply I2].
    rewrite Hthr in Hin; by eapply I2.
  - intros tp th Ht; destruct (I3 tp th Ht) as [R1 (ses0 & Hs0 & Hin & Htv) R3 R4]; split; try done.
    destruct (decide (t_session th = sp)) as [E|Hne].
    + exists ses'; rewrite E in *; assert (ses0 = ses) as -> by congruence.
      cbn; rewrite lookup_insert_eq, Hthr; split_and!; try done; apply Hti; [done|].
      intros En; rewrite En in Hin; by apply elem_of_nil in Hin.
    + exists ses0; cbn; by rewrite lookup_insert_ne.
Qed.

Lemma thread_inv_running ses th b :
  thread_inv ses th -> thread_inv (ses ⟦ s_running := b ⟧) th.
Proof.
  intros [Hl [] Hs Hr Hb]; split; try done; destruct (t_active th); [by destruct Hl|done].
Qed.

Lemma sess_wf_running ses b : sess_wf ses -> sess_wf (ses ⟦ s_running := b ⟧).
Proof. by intros []. Qed.

Lemma each_active_inv st ses f :
  (forall th w, live_ok ses th -> exists w', f th w = Some w') ->
  (forall th w w', f th w = Some w' -> same_resources w w') ->
  forall tps, km_inv st ->
  (forall tp, tp ∈ tps -> exists th, km_threads st !! tp = Some th /\
                                     (t_active th = true -> live_ok ses th)) ->
  exists w, each_active f tps st = Some (set_world w st) /\ same_resources (km_world st) w.
Proof.
  intros Hok Hres tps; revert st; induction tps as [|tp tps IH]; intros st Hi Hin; cbn [each_active].
  { exists (km_world st); split; [by destruct st as [? ? ? []]|done]. }
  destruct (Hin tp) as (th & Ht & Hl); [set_solver|]; rewrite Ht, some_bind.
  assert (H1 : exists w1, (if t_active th then f th (km_world st) else Some (km_world st)) = Some w1 /\
            same_resources (km_world st) w1).
  { destruct (t_active th); [|exists (km_world st); split; reflexivity].
    destruct (Hok th (km_world st)) as [w1 Hw]; eauto. }
  destruct H1 as (w1 & -> & Hw1); rewrite some_bind.
  destruct (IH (set_world w1 st)) as (w2 & -> & Hw2); [by apply km_inv_world|cbn; set_solver|].
  exists w2; split; [done|]; by etrans.
Qed.

Lemma session_threads_live st sp ses tp :
  km_inv st -> km_sessions st !! sp = Some ses -> tp ∈ s_threads ses ->
  exists th, km_threads st !! tp = Some th /\ t_session th = sp /\ thread_inv ses th /\
             (t_active th = true -> live_ok ses th).
Proof.
  intros Hi Hs Hin; destruct (ki_member st Hi sp ses tp Hs Hin) as (th & Ht & <-).
  destruct (thread_at_ok st tp th ses Hi Ht Hs) as (_ & Htv & _).
  exists th; split_and!; try done; intros Ha; pose proof (ti_live _ _ Htv) as H; by rewrite Ha in H.
Qed.

Lemma start_window_inv st sp ses :
  km_inv st -> km_sessions st !! sp = Some ses ->
  exists st', start_window sp st = Some (0, st') /\ km_inv st' /\
    km_sessions st' = <[sp := ses ⟦ s_running := true ⟧]> (km_sessions st) /\
    km_threads st' = km_threads st.
Proof.
  intros Hi Hs; unfold start_window; rewrite Hs, some_bind; cbn zeta.
  set (ses' := ses ⟦ s_running := true ⟧).
  assert (Hi1 : km_inv (set_session sp ses' st)).
  { eapply km_inv_session; [done|exact Hs|apply sess_wf_running, (ki_sessions st Hi sp ses Hs)|done|].
    intros th Hth _; by apply thread_inv_running. }
  destruct (each_active_inv (set_session sp ses' st) ses' (rd_enable_thread_events ses')
    (fun th w H => enable_events_ok ses' th w H) (fun th w w' H => enable_events_world ses' th w w' H)
    (s_threads ses') Hi1) as (w & -> & Hw).
  { intros tp Hin; destruct (session_threads_live _ sp ses' tp Hi1) as (th & Ht & _ & _ & Hl);
      [cbn; by rewrite lookup_insert_eq|done|]; exists th; split; [exact Ht|exact Hl]. }
  rewrite some_bind; eexists; split_and!; [done|by apply km_inv_world|done..].
Qed.

Lemma stop_window_inv st sp ses :
  km_inv st -> km_sessions st !! sp = Some ses ->
  exists st', stop_window sp st = Some (0, st') /\ km_inv st' /\
    km_sessions st' = <[sp := ses ⟦ s_running := false ⟧]> (km_sessions st) /\
    km_threads st' = km_threads st.
Proof.
  intros Hi Hs; unfold stop_window; rewrite Hs, some_bind; cbn zeta.
  set (ses' := ses ⟦ s_running := false ⟧).
  assert (Hi1 : km_inv (set_session sp ses' st)).
  { eapply km_inv_session; [done|exact Hs|apply sess_wf_running, (ki_sessions st Hi sp ses Hs)|done|].
    intros th Hth _; by apply thread_inv_running. }
  destruct (each_active_inv (set_session sp ses' st) ses' (rd_disable_thread_events ses')
    (fun th w H => disable_events_ok ses' th w H) (fun th w w' H => disable_events_world ses' th w w' H)
    (s_threads ses') Hi1) as (w & -> & Hw).
  { intros tp Hin; destruct (session_threads_live _ sp ses' tp Hi1) as (th & Ht & _ & _ & Hl);
      [cbn; by rewrite lookup_insert_eq|done|]; exists th; split; [exact Ht|exact Hl]. }
  rewrite some_bind; eexists; split_and!; [done|by apply km_inv_world|done..].
Qed.

Lemma reset_thread_resources ses th : resources (reset_thread ses th) = resources th.
Proof. done. Qed.

Lemma reset_threads_inv sp ses tps ret st :
  km_inv st -> km_sessions st !! sp = Some ses -> (forall tp, tp ∈ tps -> tp ∈ s_threads ses) ->
  NoDup tps ->
  exists ret' st', reset_threads ses tps ret st = Some (ret', st') /\ km_inv st' /\
    km_sessions st' = km_sessions st /\
    (forall tp th, km_threads st !! tp = Some th ->
       km_threads st' !! tp = Some (if decide (tp ∈ tps) then reset_thread ses th else th)).
Proof.
  revert ret st; induction tps as [|tp tps IH]; intros ret st Hi Hs Hin Hnd; cbn [reset_threads].
  { eexists _, _; split_and!; try done; intros tp th Ht; by case_decide. }
  apply NoDup_cons in Hnd as [Hnin Hnd].
  destruct (session_threads_live st sp ses tp Hi Hs) as (th & Ht & Hsp & Htv & _); [set_solver|].
  rewrite Ht, some_bind; destruct (thread_at_ok st tp th ses Hi Ht) as (_ & _ & Hok); [congruence|].
  destruct (reset_thread_eq ses th (km_world st) Htv) as (r1 & w1 & Hr).
  rewrite Hr, some_bind.
  assert (Hi1 : km_inv (set_thread tp (reset_thread ses th) (set_world w1 st))).
  { apply (km_inv_thread _ tp th _ ses); try done; [apply km_inv_world; [done|]|cbn; congruence|].
    - by eapply reset_thread_world.
    - by apply reset_thread_inv. }
  destruct (IH (if (ret =? 0) && truthy r1 then r1 else ret) _ Hi1) as (r' & st' & -> & Hi' & Hs' & Hth);
    [done|set_solver|done|].
  eexists _, _; split_and!; [done|done|done|]; intros tp0 th0 Ht0.
  destruct (decide (tp0 = tp)) as [->|Hne].
  - rewrite (Hth tp (reset_thread ses th)) by (cbn; apply lookup_insert_eq).
    assert (th0 = th) as -> by congruence; rewrite decide_False by done.
    by rewrite decide_True by set_solver.
  - rewrite (Hth tp0 th0) by (cbn; by rewrite lookup_insert_ne).
    destruct (decide (tp0 ∈ tps)); [by rewrite decide_True by set_solver|].
    by rewrite decide_False by set_solver.
Qed.

(** * Configuration *)

Definition cfg_wf (cfg : rd_wpctl_session_cfg) : Prop :=
  is_u32 (cfg_wp_capacity cfg) /\ is_u32 (cfg_dwarf_event_capacity cfg).

Lemma no_threads_before_load ses : sess_wf ses -> targets_loaded ses = false -> s_threads ses = [].
Proof.
  intros [_ _ [_ H]] Hl; destruct (s_threads ses); [done|]; specialize (H ltac:(done)); congruence.
Qed.

Lemma config_inv st sp ses cfg :
  km_inv st -> km_sessions st !! sp = Some ses -> cfg_wf cfg ->
  exists ret st', rd_session_config_locked sp cfg st = Some (ret, st') /\ km_inv st' /\
    (ret <> 0 -> st' = st).
Proof.
  intros Hi Hs [Hc1 Hc2]; unfold rd_session_config_locked; rewrite Hs, some_bind.
  destruct (configured ses || targets_loaded ses) eqn:G1; [by eexists _, _|].
  apply orb_false_iff in G1 as [Gc Gl].
  split_if; [by eexists _, _|]; split_if; [by eexists _, _|]; split_if; [by eexists _, _|].
  split_if; [by eexists _, _|]; eexists _, _; split; [done|]; split; [|done].
  destruct (ki_sessions st Hi sp ses Hs) as [_ Hw]; pose proof (no_threads_before_load ses Hw Gl) as Hn.
  eapply km_inv_session; [done|exact Hs| |done|by rewrite Hn].
  split; cbn; [|by rewrite Gl|split; [by rewrite Hn; constructor|by rewrite Hn]].
  intros _; split_and!; lia.
Qed.

(** The array that user space hands over has the length it says, and the fields
    of its targets are unsigned bytes. *)
Definition batch_wf (batch : rd_wpctl_target_batch) (w : world) : Prop :=
  0 <= batch_count batch /\
  forall l w', memdup_user_targets (batch_ptr batch) (batch_count batch) w = (inr l, w') ->
    zlen l = batch_count batch /\
    Forall (fun t => 0 <= extend (decode t) /\ 0 <= shift (decode t)) l.

Lemma load_inv st sp ses batch :
  km_inv st -> km_sessions st !! sp = Some ses -> batch_wf batch (km_world st) ->
  exists ret st', rd_load_targets_locked sp batch st = Some (ret, st') /\ km_inv st' /\
    (ret <> 0 -> exists w, st' = set_world w st /\ same_resources (km_world st) w).
Proof.
  intros Hi Hs [Hcnt Hb]; unfold rd_load_targets_locked; rewrite Hs, some_bind.
  assert (Hst : exists w, st = set_world w st /\ same_resources (km_world st) w).
  { exists (km_world st); split; [by destruct st as [? ? ? []]|done]. }
  destruct (negb (configured ses) || targets_loaded ses) eqn:G1; [eexists _, _; split_and!; eauto|].
  apply orb_false_iff in G1 as [Gc%negb_false_iff Gl].
  destruct ((batch_ptr batch =? 0) || (batch_count batch =? 0)) eqn:G2; [eexists _, _; split_and!; eauto|].
  pose proof (memdup_keeps (batch_ptr batch) (batch_count batch) (km_world st)) as Hk.
  destruct (memdup_user_targets _ _ _) as [[err|l] w1].
  { eexists _, _; split_and!; [done|by apply km_inv_world|eauto]. }
  destruct (Hb l w1 eq_refl) as [Hlen Hsh].
  pose proof (kcalloc_keeps (batch_count batch) 56 w1) as Hk2.
  destruct (kcalloc (batch_count batch) 56 w1) as [ok w2].
  assert (Hw2 : same_resources (km_world st) w2) by (by etrans).
  destruct ok; cbn [negb]; [|eexists _, _; split_and!; [done|by apply km_inv_world|eauto]].
  rewrite (array_prefix_full l _ Hlen), some_bind.
  destruct (existsb _ l) eqn:Gv; [eexists _, _; split_and!; [done|by apply km_inv_world|eauto]|].
  eexists _, _; split_and!; [done| |done].
  destruct (ki_sessions st Hi sp ses Hs) as [_ Hw]; pose proof (no_threads_before_load ses Hw Gl) as Hn.
  eapply km_inv_session; [by apply km_inv_world|exact Hs| |done|by rewrite Hn].
  destruct Hw as [Hw1 _ _]; split; [exact Hw1| |cbn; rewrite Hn; split; [constructor|done]].
  intros _; cbn; split_and!; [done|done|lia|].
  apply Forall_lookup_2; intros i t Ht; apply Forall_lookup_1 with (i := i) (x := t) in Hsh; [|done].
  split; [|done]; apply (rd_validate_target_ok t).
  destruct (truthy (rd_validate_target t)) eqn:E; [|unfold truthy in E; lia].
  exfalso; rewrite (proj2 (existsb_exists _ _)) in Gv; [done|]; exists t; split; [|done].
  apply list_elem_of_In; by eapply list_elem_of_lookup_2.
Qed.

(** * Registration *)

Lemma session_threads_some st sp ses tp :
  km_inv st -> km_sessions st !! sp = Some ses -> tp ∈ s_threads ses -> is_Some (km_threads st !! tp).
Proof. intros Hi Hs Hin; destruct (ki_member st Hi sp ses tp Hs Hin) as (th & Ht & _); eauto. Qed.

(** The state after a successful registration. *)
Definition registered (sp : Z) (ses : rd_session) (th : rd_thread_ctx) (w : world) (st : kmod) : kmod :=
  rd_add_live_thread (km_next st)
    (set_session sp (ses ⟦ s_threads ::= fun l => l ++ [km_next st] ⟧)
      (set_thread (km_next st) th (set_world w (st ⟦ km_next ::= Z.add 1 ⟧)))).

(** The new thread, seen from each clause of the invariant. *)
Section adding.
Context (st : kmod) (sp : Z) (ses : rd_session) (th : rd_thread_ctx) (w : world).
Context (Hi : km_inv st) (Hs : km_sessions st !! sp = Some ses) (Hl : targets_loaded ses = true).
Context (Hti : thread_inv ses th) (Hsp : t_session th = sp) (Ha : t_active th = true) (Hrefs : refs_ok th).
Context (Htid : forall tp th', tp ∈ s_threads ses -> km_threads st !! tp = Some th' -> t_active th' = true ->
  t_tid th' <> t_tid th).
Context (Hnd : NoDup (events_of th)) (Hfresh : forall e, e ∈ events_of th -> e ∉ live_events (km_world st)).
Context (Hw : live_events w = list_to_set (events_of th) ∪ live_events (km_world st)).
Context (Hr : forall t, task_refs w t = task_refs (km_world st) t + (if decide (t_task th = Some t) then 1 else 0)).

Notation tp := (km_next st).
Notation ses' := (ses ⟦ s_threads ::= fun l => l ++ [tp] ⟧).

Lemma add_new : km_threads st !! tp = None.
Proof.
  destruct (km_threads st !! tp) eqn:E; [|done]; destruct (ta_range _ _ _ (ki_threads st Hi _ _ E)); lia.
Qed.

Lemma add_old k x : km_threads st !! k = Some x -> <[tp := th]> (km_threads st) !! k = Some x.
Proof. intros Hx; rewrite lookup_insert_ne; [done|]; intros <-; rewrite add_new in Hx; done. Qed.

Lemma add_keeps_thread_inv x : thread_inv ses x -> thread_inv ses' x.
Proof. intros [L [] S R B]; split; try done; destruct (t_active x); [by destruct L|done]. Qed.

Lemma add_session_wf : sess_wf ses'.
Proof.
  destruct (ki_sessions st Hi _ _ Hs) as [_ [W1 W2 [W3 W4]]]; split; [done..|]; split; [|done].
  apply NoDup_app; split_and!; [done| |apply NoDup_singleton].
  intros k Hk ->%list_elem_of_singleton; destruct (session_threads_some st sp ses _ Hi Hs Hk); rewrite add_new in *; done.
Qed.

Lemma add_member sp0 ses0 k :
  <[sp := ses']> (km_sessions st) !! sp0 = Some ses0 -> k ∈ s_threads ses0 ->
  exists x, <[tp := th]> (km_threads st) !! k = Some x /\ t_session x = sp0.
Proof.
  intros [[<- <-]|[Hne Hx]]%lookup_insert_Some Hin.
  - apply elem_of_app in Hin as [Hin| ->%list_elem_of_singleton]; [|exists th; by rewrite lookup_insert_eq].
    destruct (ki_member st Hi _ _ _ Hs Hin) as (x & Hx & <-); exists x; split; [by apply add_old|done].
  - destruct (ki_member st Hi _ _ _ Hx Hin) as (x & Hk & <-); exists x; split; [by apply add_old|done].
Qed.

Lemma add_threads k x :
  <[tp := th]> (km_threads st) !! k = Some x -> thread_at (registered sp ses th w st) k x.
Proof.
  intros [[<- <-]|[Hne Hx]]%lookup_insert_Some.
  - split; [cbn; destruct (ki_sessions st Hi _ _ Hs); lia| |done|done].
    exists ses'; cbn; rewrite Hsp, lookup_insert_eq; split_and!; [done|set_solver|by apply add_keeps_thread_inv].
  - destruct (ki_threads st Hi _ _ Hx) as [R1 (s0 & Hs0 & Hin & T) R3 R4]; split; [cbn; lia| |done|done].
    destruct (decide (t_session x = sp)) as [E|Hne2].
    + exists ses'; cbn; rewrite E, lookup_insert_eq; rewrite E in Hs0.
      assert (s0 = ses) as -> by congruence; split_and!; [done|set_solver|by apply add_keeps_thread_inv].
    + exists s0; cbn; by rewrite lookup_insert_ne.
Qed.

Lemma add_live : NoDup (tp :: km_live st) /\
  forall k, k ∈ tp :: km_live st <-> exists x, <[tp := th]> (km_threads st) !! k = Some x /\ t_active x = true.
Proof.
  destruct (ki_live st Hi) as [I4 I4']; split.
  - constructor; [|done]; intros (x & Hx & _)%I4'; rewrite add_new in Hx; done.
  - intros k; rewrite elem_of_cons, I4'; split.
    + intros [->|(x & Hx & Hax)]; [exists th; by rewrite lookup_insert_eq|exists x; split; [by apply add_old|done]].
    + intros (x & [[<- <-]|[Hne Hx]]%lookup_insert_Some & Hax); eauto.
Qed.

Lemma add_tids k x : km_threads st !! k = Some x -> t_active x = true -> t_session x = sp -> t_tid x <> t_tid th.
Proof.
  intros Hx Hax E; destruct (ki_threads st Hi _ _ Hx) as [_ (s0 & Hs0 & Hin & _) _ _].
  rewrite E in Hs0; assert (s0 = ses) as -> by congruence; eauto.
Qed.

Lemma add_apart k x e : km_threads st !! k = Some x -> e ∈ events_of x -> e ∈ events_of th -> False.
Proof. intros Hx He Hth; apply (Hfresh e Hth), (ki_events st Hi); eauto. Qed.

Lemma add_events e : e ∈ live_events w <->
  e ∈ other_events \/ exists k x, <[tp := th]> (km_threads st) !! k = Some x /\ e ∈ events_of x.
Proof.
  rewrite Hw, elem_of_union, elem_of_list_to_set, (ki_events st Hi); split.
  - intros [He|[He|(k & x & Hx & He)]]; [|by left|].
    + right; exists tp, th; by rewrite lookup_insert_eq.
    + right; exists k, x; split; [by apply add_old|done].
  - intros [He|(k & x & [[<- <-]|[Hne Hx]]%lookup_insert_Some & He)]; eauto 10.
Qed.

Lemma km_inv_add : km_inv (registered sp ses th w st).
Proof.
  split; cbn -[events_of].
  - intros sp0 ses0 [[<- <-]|[Hne Hx]]%lookup_insert_Some.
    + destruct (ki_sessions st Hi _ _ Hs); split; [lia|apply add_session_wf].
    + destruct (ki_sessions st Hi _ _ Hx); split; [lia|done].
  - apply add_member.
  - apply add_threads.
  - apply add_live.
  - intros k1 k2 x1 x2 [[<- <-]|[N1 X1]]%lookup_insert_Some [[<- <-]|[N2 X2]]%lookup_insert_Some A1 A2 S12 T12;
      [done| | |by eapply (ki_tids st Hi)]; exfalso; [eapply (add_tids k2 x2)|eapply (add_tids k1 x1)]; congruence.
  - intros k1 k2 x1 x2 e [[<- <-]|[N1 X1]]%lookup_insert_Some [[<- <-]|[N2 X2]]%lookup_insert_Some E1 E2;
      [done| | |by eapply (ki_disjoint st Hi)]; exfalso; eauto using add_apart.
  - apply add_events.
  - intros k x e [[<- <-]|[Hne Hx]]%lookup_insert_Some He; [|by eapply (ki_other st Hi)].
    intros Ho; apply (Hfresh e He), (ki_events st Hi); auto.
  - intros t; change (km_world _) with w; rewrite Hr, (ki_refs st Hi), holders_insert by apply add_new; lia.
  - pose proof (ki_next st Hi); lia.
Qed.

End adding.

(** The same events and, task by task, the same references. *)
Definition balanced_world (w w' : world) : Prop :=
  live_events w' = live_events w /\ forall t, task_refs w' t = task_refs w t.

Lemma km_inv_balanced st w : km_inv st -> balanced_world (km_world st) w -> km_inv (set_world w st).
Proof.
  intros [I1 I2 I3 I4 I5 I6 I7 I8 I9 I10] [He Hr].
  assert (Hw : km_world (set_world w st) = w) by done.
  split; try done.
  - by intros k x Hx; destruct (I3 k x Hx).
  - intros x; rewrite Hw, He; apply I7.
  - intros x; rewrite Hw, Hr; apply I9.
Qed.

Lemma same_balanced w w' : same_resources w w' -> balanced_world w w'.
Proof. intros [H1 H2]; split; [done|by rewrite H2]. Qed.

(** Taking a task reference, a balanced interval, and putting it back. *)
Lemma get_put_balanced tid w task w1 w2 :
  get_pid_task tid w = (Some task, w1) -> same_resources w1 w2 ->
  balanced_world w (put_task_struct task w2).
Proof.
  intros [G1 G2]%get_task_ok [S1 S2]; destruct (put_task_law task w2) as [P1 P2].
  split; [congruence|]; intros t; rewrite P2, S2, G2; lia.
Qed.

(** A setup that failed, undone by [rd_thread_destroy]. *)
Lemma failed_setup_balanced ses sp tid task a w w1 w2 ret th w3 :
  session_ok ses -> get_pid_task tid w = (Some task, w1) -> same_resources w1 w2 ->
  rd_thread_setup_events ses (new_thread sp task a) task w2 = (ret, th, w3) ->
  balanced_world w (rd_thread_destroy th w3).
Proof.
  intros Hok [G1 G2]%get_task_ok [S1 S2] Hset; pose proof (setup_spec ses sp task a w2 Hok) as H.
  rewrite Hset in H; destruct H as ((_ & Hf & Hl & Hr) & _ & Hid & _).
  pose proof (free_live_frees th w3) as Hfree; unfold rd_thread_destroy.
  destruct (rd_thread_free_live th w3) as [th4 w4]; destruct Hfree as (F1 & F2 & _); cbn [snd].
  assert (Ht : t_task th = Some task) by (unfold identity in Hid; cbn in Hid; congruence).
  split.
  - rewrite F1, Hl, S1, G1; apply set_eq; intros e; specialize (Hf e).
    rewrite S1, G1 in Hf; rewrite elem_of_difference, elem_of_union, elem_of_list_to_set; tauto.
  - intros t; rewrite F2, Ht, Hr, S2, G2.
    destruct (decide (t = task)), (decide (Some task = Some t)); try congruence; lia.
Qed.

(** The part of [rd_register_thread_locked] after the checks. *)
Lemma register_setup_inv st sp ses a task w1 w2 :
  km_inv st -> km_sessions st !! sp = Some ses -> targets_loaded ses = true ->
  (forall tp th, tp ∈ s_threads ses -> km_threads st !! tp = Some th -> t_active th = true ->
     t_tid th <> reg_tid a) ->
  get_pid_task (reg_tid a) (km_world st) = (Some task, w1) -> same_resources w1 w2 ->
  exists ret st',
    (let '(ret, th, w) := rd_thread_setup_events ses (new_thread sp task a) task w2 in
     if truthy ret then Some (ret, set_world (rd_thread_destroy th w) st) else
     w ← (if s_running ses then rd_enable_thread_events ses th w else Some w);
     Some (0, registered sp ses th w st)) = Some (ret, st') /\ km_inv st' /\
    (ret <> 0 -> exists w, st' = set_world w st /\ balanced_world (km_world st) w) /\
    (ret = 0 -> exists th w, st' = registered sp ses th w st /\ t_tid th = reg_tid a /\
       t_cpu th = reg_cpu a /\ t_active th = true /\ thread_inv ses th /\
       forall slots k s, t_wp_slots th = Some slots -> slots !! k = Some s ->
         slot_armed s = false /\
         wp_idle_addr s = u64 (reg_scratch_base a + u64 (Z.of_nat k * reg_scratch_stride a))).
Proof.
  intros Hi Hs Gl Htid Eg Hk; destruct (ki_sessions st Hi sp ses Hs) as [_ Hwf].
  pose proof (sess_wf_ok ses Hwf Gl) as Hok; pose proof (setup_spec ses sp task a w2 Hok) as Hset.
  destruct (rd_thread_setup_events ses (new_thread sp task a) task w2) as [[ret th] w3] eqn:Es.
  destruct Hset as ((Hnd & Hf & Hl & Hr) & _ & Hid & Hz).
  destruct (truthy ret) eqn:Ht; unfold truthy in Ht.
  { eexists _, _; split; [done|]; assert (Hb : balanced_world (km_world st) (rd_thread_destroy th w3))
      by (by eapply failed_setup_balanced).
    split_and!; [by apply km_inv_balanced|eauto|lia]. }
  destruct (Hz ltac:(lia)) as [Htv Hslots]; unfold identity in Hid; cbn in Hid.
  injection Hid as Ei1 Ei2 Ei3 Ei4 Ei5 Ei6 Ei7 Ei8 Ei9 Ei10.
  assert (Hen : exists w4, (if s_running ses then rd_enable_thread_events ses th w3 else Some w3) = Some w4
            /\ same_resources w3 w4).
  { destruct (s_running ses); [|exists w3; by split].
    destruct (enable_events_ok ses th w3) as [w4 E4]; [pose proof (ti_live _ _ Htv) as HL; by rewrite Ei5 in HL|].
    exists w4; split; [done|by eapply enable_events_world]. }
  destruct Hen as (w4 & -> & [H4a H4b]); rewrite some_bind.
  apply get_task_ok in Eg as [G1 G2]; destruct Hk as [K1 K2].
  eexists _, _; split; [done|]; split_and!; [|done|eauto 10].
  apply km_inv_add; try done.
  - unfold refs_ok; rewrite Ei5, Ei6, Ei9, Ei10; done.
  - by rewrite Ei3.
  - intros e He; rewrite <- G1, <- K1; by apply Hf.
  - congruence.
  - intros t; rewrite H4b, Hr, K2, G2, Ei2; f_equal.
    destruct (decide (t = task)), (decide (Some task = Some t)); congruence.
Qed.

Lemma register_inv st sp ses a :
  km_inv st -> km_sessions st !! sp = Some ses ->
  exists ret st', rd_register_thread_locked sp a st = Some (ret, st') /\ km_inv st' /\
    (ret <> 0 -> exists w, st' = set_world w st /\ balanced_world (km_world st) w) /\
    (ret = 0 -> exists th w, st' = registered sp ses th w st /\ t_tid th = reg_tid a /\
       t_cpu th = reg_cpu a /\ t_active th = true /\ thread_inv ses th /\
       forall slots k s, t_wp_slots th = Some slots -> slots !! k = Some s ->
         slot_armed s = false /\
         wp_idle_addr s = u64 (reg_scratch_base a + u64 (Z.of_nat k * reg_scratch_stride a))).
Proof.
  intros Hi Hs; unfold rd_register_thread_locked; rewrite Hs, some_bind.
  assert (Hst : exists w, st = set_world w st /\ balanced_world (km_world st) w).
  { exists (km_world st); split; [by destruct st as [? ? ? []]|done]. }
  assert (Hfail : forall ret w, ret <> 0 -> balanced_world (km_world st) w ->
    km_inv (set_world w st) /\ (ret <> 0 -> exists w0, set_world w st = set_world w0 st /\
      balanced_world (km_world st) w0)) by (intros; split; [by apply km_inv_balanced|eauto]).
  destruct (negb (configured ses) || negb (targets_loaded ses)) eqn:G1.
  { eexists _, _; split; [done|]; done. }
  apply orb_false_iff in G1 as [_ Gl%negb_false_iff].
  unfold rd_find_active_thread_by_tid.
  destruct (find_active_spec st (reg_tid a) (s_threads ses)) as (found & -> & Hfound);
    [intros; by eapply session_threads_some|]; rewrite some_bind.
  destruct found as [tp|]; cbn [is_null negb]; [eexists _, _; split; [done|]; done|].
  split_if; [eexists _, _; split; [done|]; done|].
  destruct (get_pid_task (reg_tid a) (km_world st)) as [[task|] w1] eqn:Eg.
  2: { apply get_task_none in Eg; eexists _, _; split; [done|].
       destruct (Hfail (- ESRCH) w1) as [? ?]; [done|by apply same_balanced|]; split_and!; try done. }
  split_if.
  { eexists _, _; split; [done|]; destruct (Hfail (- EPERM) (put_task_struct task w1)) as [? ?];
      [done|by eapply get_put_balanced|]; split_and!; try done. }
  destruct (truthy (rd_check_thread_affinity task (reg_cpu a) w1)) eqn:Ga.
  { eexists _, _; split; [done|]; unfold truthy in Ga.
    destruct (Hfail (rd_check_thread_affinity task (reg_cpu a) w1) (put_task_struct task w1)) as [? ?];
      [lia|by eapply get_put_balanced|]; split_and!; try done; lia. }
  pose proof (kcalloc_keeps 1 sizeof_thread_ctx w1) as Hk.
  destruct (kcalloc 1 sizeof_thread_ctx w1) as [ok w2]; cbn [snd] in Hk.
  destruct ok; cbn [negb].
  2: { eexists _, _; split; [done|]; destruct (Hfail (- ENOMEM) (put_task_struct task w2)) as [? ?];
         [done|by eapply get_put_balanced|]; split_and!; try done. }
  destruct (register_setup_inv st sp ses a task w1 w2 Hi Hs Gl Hfound Eg Hk) as (ret & st' & E & H).
  exists ret, st'; split; [exact E|exact H].
Qed.

(** * Detaching and releasing *)

Definition detached_state (tp : Z) (th : rd_thread_ctx) (w : world) (st : kmod) : kmod :=
  set_thread tp th (set_world w (rd_remove_live_thread tp st)).

Lemma km_inv_detached st tp th th' ses w :
  km_inv st -> km_threads st !! tp = Some th -> km_sessions st !! t_session th = Some ses ->
  thread_inv ses th' -> refs_ok th' -> t_active th' = false -> events_of th' = [] ->
  t_task th' = None -> t_session th' = t_session th ->
  live_events w = live_events (km_world st) ∖ list_to_set (events_of th) ->
  (forall t, task_refs w t =
     task_refs (km_world st) t - (if decide (t_task th = Some t) then 1 else 0)) ->
  km_inv (detached_state tp th' w st).
Proof.
  intros Hi Ht Hs Htv Hrf Ha Hev Htk Hse Hw Hr.
  destruct (thread_at_ok st tp th ses Hi Ht Hs) as (Hin & _ & _).
  destruct Hi as [I1 I2 I3 [I4 I4'] I5 I6 I7 I8 I9 I10]; split; cbn -[events_of]; try done.
  - intros sp ses0 k Hsp Hk; destruct (I2 _ _ _ Hsp Hk) as (x0 & Hx0 & <-).
    destruct (decide (k = tp)) as [->|Hne]; [|exists x0; by rewrite lookup_insert_ne].
    exists th'; rewrite lookup_insert_eq; split; [done|congruence].
  - intros k x [[<- <-]|[Hne Hx]]%lookup_insert_Some; [|by destruct (I3 _ _ Hx)].
    destruct (I3 _ _ Ht) as [R1 _ _ _]; split; [exact R1| |done|rewrite Hev; constructor].
    exists ses; by rewrite Hse.
  - split; [by apply NoDup_filter|]; intros k; rewrite list_elem_of_filter, I4'; split.
    + intros (Hne & x & Hx & Hax); exists x; by rewrite lookup_insert_ne.
    + intros (x & [[<- <-]|[Hne Hx]]%lookup_insert_Some & Hax); [congruence|]; eauto.
  - intros k1 k2 x1 x2 [[<- <-]|[N1 X1]]%lookup_insert_Some [[<- <-]|[N2 X2]]%lookup_insert_Some
      A1 A2; try congruence; by eapply I5.
  - intros k1 k2 x1 x2 e [[<- <-]|[N1 X1]]%lookup_insert_Some [[<- <-]|[N2 X2]]%lookup_insert_Some;
      rewrite ?Hev; intros E1 E2; try (by apply elem_of_nil in E1 || by apply elem_of_nil in E2).
    by eapply I6.
  - intros e; change (km_world _) with w; rewrite Hw, elem_of_difference, elem_of_list_to_set, I7; split.
    + intros [[He|(k & x & Hx & He)] Hn]; [by left|]; right; exists k, x.
      rewrite lookup_insert_ne; [done|]; intros ->; congruence.
    + intros [He|(k & x & [[<- <-]|[Hne Hx]]%lookup_insert_Some & He)].
      * split; [by left|]; intros He2; by eapply I8.
      * rewrite Hev in He; by apply elem_of_nil in He.
      * split; [eauto|]; intros He2; apply Hne; by eapply I6.
  - intros k x e [[<- <-]|[Hne Hx]]%lookup_insert_Some; [rewrite Hev; set_solver|by eapply I8].
  - intros t; change (km_world _) with w; rewrite Hr, I9, (holders_update t _ _ _ _ Ht), Htk.
    rewrite (decide_False (P := None = Some t)) by done; lia.
Qed.

Lemma detach_inv st tp th :
  km_inv st -> km_threads st !! tp = Some th -> t_active th = true ->
  exists th' w, detach_thread tp st = Some (detached_state tp th' w st) /\
    km_inv (detached_state tp th' w st) /\ t_active th' = false /\ t_task th' = None /\
    events_of th' = [] /\ kept_results th' = kept_results th /\
    dropped th' = u64 (dropped th + armed_slots th).
Proof.
  intros Hi Ht Ha; unfold detach_thread; rewrite Ht, some_bind.
  destruct (ki_threads st Hi tp th Ht) as [_ (ses & Hs & Hin & Htv) Hrf _].
  pose proof Hrf as (Hd & Hr & _); rewrite Ha in Hd, Hr; cbn in Hd, Hr; rewrite Hd.
  destruct (detach_spec ses th (km_world st) Htv Ha Hd Hr) as
    (th' & w & -> & D1 & D2 & D3 & D4 & D5 & D6 & D7 & D8 & D9 & D10 & D11).
  rewrite some_bind; exists th', w; split_and!; try done.
  apply (km_inv_detached st tp th th' ses w); try done.
  - unfold refs_ok; rewrite D2, D3, D4, D5; done.
  - unfold kept_results in D8; congruence.
Qed.

Lemma unregister_inv st sp ses tid :
  km_inv st -> km_sessions st !! sp = Some ses ->
  exists ret st', rd_unregister_thread_locked sp tid st = Some (ret, st') /\ km_inv st' /\
    (ret <> 0 -> st' = st) /\
    (ret = 0 -> exists tp th th' w, km_threads st !! tp = Some th /\ t_tid th = tid /\
       tp ∈ s_threads ses /\ t_active th = true /\ st' = detached_state tp th' w st /\
       t_active th' = false /\ kept_results th' = kept_results th /\
       dropped th' = u64 (dropped th + armed_slots th)).
Proof.
  intros Hi Hs; unfold rd_unregister_thread_locked; rewrite Hs, some_bind.
  unfold rd_find_active_thread_by_tid.
  destruct (find_active_spec st tid (s_threads ses)) as (found & -> & Hfound);
    [intros; by eapply session_threads_some|]; rewrite some_bind.
  destruct found as [tp|]; [|eexists _, _; split; [done|]; split_and!; done].
  destruct Hfound as (Hin & th & Ht & Htid & Ha); rewrite Ht, some_bind, Ha; cbn [negb].
  destruct (detach_inv st tp th Hi Ht Ha) as (th' & w & -> & Hi' & H1 & H2 & H3 & H4 & H5).
  rewrite some_bind; eexists _, _; split; [done|]; split_and!; [done|done|].
  intros _; exists tp, th, th', w; done.
Qed.

(** Forgetting a detached thread at the head of a session's list. *)
Lemma km_inv_drop st sp ses tp rest th :
  km_inv st -> km_sessions st !! sp = Some ses -> s_threads ses = tp :: rest ->
  km_threads st !! tp = Some th -> t_active th = false -> t_task th = None -> events_of th = [] ->
  km_inv (set_session sp (ses ⟦ s_threads := rest ⟧) st ⟦ km_threads ::= delete tp ⟧).
Proof.
  intros Hi Hs Hts Ht Ha Htk Hev; set (ses' := ses ⟦ s_threads := rest ⟧).
  destruct (ki_member st Hi sp ses tp Hs) as (th0 & Ht0 & Hsp); [rewrite Hts; set_solver|].
  assert (th0 = th) as -> by congruence; clear Ht0.
  assert (Hti' : forall x, thread_inv ses x -> thread_inv ses' x).
  { intros x [L [] S R B]; split; try done; destruct (t_active x); [by destruct L|done]. }
  destruct Hi as [I1 I2 I3 [I4 I4'] I5 I6 I7 I8 I9 I10].
  destruct (I1 _ _ Hs) as [Hrange [W1 W2 [W3 W4]]]; rewrite Hts in W3; apply NoDup_cons in W3 as [Hnin Hnd].
  split; cbn -[events_of]; fold ses'.
  - intros sp0 ses0 [[<- <-]|[Hne Hx]]%lookup_insert_Some; [|by eapply I1].
    split; [done|]; split; [done..|]; split; [done|]; intros _; apply W4; by rewrite Hts.
  - intros sp0 ses0 k [[<- <-]|[Hne Hx]]%lookup_insert_Some Hin.
    + destruct (I2 sp ses k Hs) as (x & Hx & <-); [rewrite Hts; set_solver|].
      exists x; split; [|done]; rewrite lookup_delete_ne; [done|]; intros ->; by apply Hnin.
    + destruct (I2 _ _ _ Hx Hin) as (x & Hk & <-); exists x; split; [|done].
      rewrite lookup_delete_ne; [done|]; intros ->; congruence.
  - intros k x [Hne Hx]%lookup_delete_Some.
    destruct (I3 _ _ Hx) as [R1 (s0 & Hs0 & Hin & T) R3 R4]; split; try done.
    destruct (decide (t_session x = sp)) as [E|Hne2].
    + exists ses'; cbn; rewrite E, lookup_insert_eq; rewrite E in Hs0.
      assert (s0 = ses) as -> by congruence; split_and!; [done|rewrite Hts in Hin; set_solver|auto].
    + exists s0; cbn; by rewrite lookup_insert_ne.
  - split; [done|]; intros k; rewrite I4'; split.
    + intros (x & Hx & Hax); exists x; rewrite lookup_delete_ne; [done|]; intros ->; congruence.
    + intros (x & [Hne Hx]%lookup_delete_Some & Hax); eauto.
  - intros k1 k2 x1 x2 [N1 X1]%lookup_delete_Some [N2 X2]%lookup_delete_Some; by eapply I5.
  - intros k1 k2 x1 x2 e [N1 X1]%lookup_delete_Some [N2 X2]%lookup_delete_Some; by eapply I6.
  - intros e; change (km_world _) with (km_world st); rewrite I7; apply or_iff_compat_l; split.
    + intros (k & x & Hx & He); exists k, x; rewrite lookup_delete_ne; [done|]; intros ->.
      assert (x = th) as -> by congruence; rewrite Hev in He; by apply elem_of_nil in He.
    + intros (k & x & [Hne Hx]%lookup_delete_Some & He); eauto.
  - intros k x e [Hne Hx]%lookup_delete_Some; by eapply I8.
  - intros t; change (km_world _) with (km_world st); rewrite I9, (holders_delete t _ _ _ Ht), Htk.
    rewrite decide_False by done; lia.
  - done.
Qed.

End inv.
