(* ===== verification/RdModule.v ===== *)
(** The module as a transition system: open, release, ioctls and the two
    kprobes in any order, by any number of sessions.  [reachable] is the set of
    states from a loaded module; the theorems are invariants of every reachable
    state and the effect of the requests on it. *)
From S2P Require Import Prelude Uapi Buckets EffAddr KernelApi KTypes Tables Callchain.
From S2P Require Import Handlers Sampling HitSpec Lifecycle Session SessionInv.
Import EffAddr Contexts PairHist.

(** An entry into the module. *)
Inductive action :=
| Open (tgid : Z)
| Release (sp : Z)
| Ioctl (sp : Z) (cmd : ioctl_cmd) (out : bool)
| BpOverflow (ev : Z) (regs : option pt_regs) (pid : Z)
| WpReport (ev : Z) (regs : option pt_regs).

Section module.
Context `{K : KernelApi} {KL : KernelLaws K}.
Context (other_events : gset Z) (other_refs : Z -> Z).
Abbreviation km_inv := (km_inv other_events other_refs).

#[local] Instance same_resources_po2 : PreOrder same_resources.
Proof. apply same_resources_po. Qed.

(** [None] is a fault. *)
Definition run (a : action) (st : kmod) : option kmod :=
  match a with
  | Open tgid => Some (rd_wpctl_open tgid st).2
  | Release sp => rd_wpctl_release sp st
  | Ioctl sp cmd out => '(_, st) ← rd_wpctl_ioctl sp cmd out st; Some st
  | BpOverflow ev regs pid => rd_perf_event_overflow_pre ev regs pid st
  | WpReport ev regs => rd_watchpoint_report_pre ev regs st
  end.

Definition cmd_wf (cmd : ioctl_cmd) (w : world) : Prop :=
  match cmd with
  | CONFIG_SESSION (Some cfg) => cfg_wf cfg
  | LOAD_TARGETS (Some batch) => batch_wf batch w
  | GET_LOG2_HIST (Some (_, j)) | GET_PAIR_HIST_ENTRY (Some (_, j))
  | GET_CONTEXT_ENTRY (Some (_, j)) | GET_DWARF_EVENT (Some (_, j)) => is_u32 j
  | _ => True
  end.

(** What the callers guarantee: file operations are on an open session,
    arguments have their C width and saved registers are 64-bit. *)
Definition action_wf (a : action) (st : kmod) : Prop :=
  match a with
  | Open _ => True
  | Release sp => is_Some (km_sessions st !! sp)
  | Ioctl sp cmd _ => is_Some (km_sessions st !! sp) /\ cmd_wf cmd (km_world st)
  | BpOverflow _ regs _ | WpReport _ regs => forall r, regs = Some r -> pt_regs_wf r
  end.

Inductive reachable (w0 : world) (budget : Z) : kmod -> Prop :=
| reach_init : reachable w0 budget (initial_state budget w0)
| reach_step st a st' : reachable w0 budget st -> action_wf a st -> run a st = Some st' ->
    reachable w0 budget st'.

(** * Open and release *)

Lemma open_inv st tgid : km_inv st -> km_inv (rd_wpctl_open tgid st).2.
Proof.
  intros Hi; unfold rd_wpctl_open; pose proof (kcalloc_keeps 1 sizeof_session (km_world st)) as Hk.
  destruct (kcalloc 1 sizeof_session (km_world st)) as [ok w]; cbn [snd] in Hk.
  apply (km_inv_world _ _ st w Hi) in Hk as Hi1; destruct ok; cbn [negb snd]; [|done].
  change (km_next (set_world w st)) with (km_next st).
  assert (Hnew : km_sessions st !! km_next st = None).
  { destruct (km_sessions st !! km_next st) eqn:E; [|done].
    destruct (ki_sessions _ _ st Hi _ _ E); lia. }
  destruct Hi1 as [I1 I2 I3 I4 I5 I6 I7 I8 I9 I10]; cbn in I1.
  split; cbn -[events_of]; try done; [| | |by cbn in I10; lia].
  - intros sp ses [[<- <-]|[Hne Hx]]%lookup_insert_Some.
    + split; [cbn in I10; lia|split; cbn; try done; split; [constructor|done]].
    + destruct (I1 _ _ Hx); split; [lia|done].
  - intros sp ses tp [[<- <-]|[Hne Hx]]%lookup_insert_Some Hin; [by apply elem_of_nil in Hin|].
    by eapply I2.
  - intros tp th Ht; destruct (I3 tp th Ht) as [R1 (s0 & Hs0 & Hin & T) R3 R4]; split; try done.
    + cbn in *; lia.
    + exists s0; cbn in *; rewrite lookup_insert_ne; [done|]; intros E; congruence.
Qed.

(** Destroying a thread that is already detached changes no resource. *)
Lemma destroy_detached th w :
  t_task th = None -> events_of th = [] -> balanced_world w (rd_thread_destroy th w).
Proof.
  intros Htk Hev; pose proof (free_live_frees th w) as Hf; unfold rd_thread_destroy.
  destruct (rd_thread_free_live th w) as [th' w']; destruct Hf as (F1 & F2 & _); cbn [snd].
  split; [rewrite F1, Hev; set_solver|]; intros t; rewrite F2, Htk, decide_False by done; lia.
Qed.

Lemma detached_clean ses th :
  thread_inv ses th -> t_active th = false -> t_task th = None /\ events_of th = [].
Proof.
  intros [Hl _ _ _ _] Ha; rewrite Ha in Hl; destruct Hl as (H1 & H2 & H3 & H4 & _).
  split; [done|]; unfold events_of; by rewrite H2, H3, H4.
Qed.

(** Every thread of [sp] gone, everything else as it was. *)
Lemma release_threads_inv sp tps st ses :
  km_inv st -> km_sessions st !! sp = Some ses -> s_threads ses = tps ->
  exists st', release_threads sp tps st = Some st' /\ km_inv st' /\
    km_sessions st' = <[sp := ses ⟦ s_threads := [] ⟧]> (km_sessions st) /\
    (forall tp th, km_threads st' !! tp = Some th <->
       km_threads st !! tp = Some th /\ t_session th <> sp).
Proof.
  revert st ses; induction tps as [|tp tps IH]; intros st ses Hi Hs Hts; cbn [release_threads].
  { exists st; split_and!; try done.
    - rewrite insert_id; [done|]; rewrite Hs; f_equal; by destruct ses; cbn in *; subst.
    - intros tp th; split; [|by intros [? _]]; intros Ht; split; [done|]; intros E.
      destruct (ki_threads _ _ st Hi tp th Ht) as [_ (s0 & Hs0 & Hin & _) _ _].
      rewrite E in Hs0; assert (s0 = ses) as -> by congruence; rewrite Hts in Hin.
      by apply elem_of_nil in Hin. }
  destruct (ki_member _ _ st Hi sp ses tp Hs) as (th & Ht & Hsp); [rewrite Hts; set_solver|].
  rewrite Ht, some_bind.
  assert (H1 : exists st1 th1, (if t_active th then detach_thread tp st else Some st) = Some st1 /\
    km_inv st1 /\ km_sessions st1 = km_sessions st /\ km_threads st1 !! tp = Some th1 /\
    t_active th1 = false /\ (forall k, k <> tp -> km_threads st1 !! k = km_threads st !! k)).
  { destruct (t_active th) eqn:Ha; [|by exists st, th].
    destruct (detach_inv _ _ st tp th Hi Ht Ha) as (th' & w & -> & Hi' & H1 & _).
    eexists _, th'; split_and!; try done; cbn; [by rewrite lookup_insert_eq|].
    intros k Hk; by rewrite lookup_insert_ne. }
  destruct H1 as (st1 & th1 & -> & Hi1 & Hse1 & Ht1 & Ha1 & Hoth); rewrite some_bind.
  assert (Hs1 : km_sessions st1 !! sp = Some ses) by congruence; rewrite Hs1, some_bind; cbn zeta.
  change (km_threads (set_session sp (ses ⟦ s_threads := tps ⟧) st1)) with (km_threads st1).
  rewrite Ht1, some_bind.
  destruct (ki_threads _ _ st1 Hi1 tp th1 Ht1) as [_ (s1 & _ & _ & Htv1) _ _].
  destruct (detached_clean s1 th1 Htv1 Ha1) as [Htk1 Hev1].
  set (st2 := set_session sp (ses ⟦ s_threads := tps ⟧) st1 ⟦ km_threads ::= delete tp ⟧).
  assert (Hi2 : km_inv st2) by (by eapply km_inv_drop).
  set (st3 := set_world _ st2).
  assert (Hi3 : km_inv st3) by (apply km_inv_balanced; [done|]; by apply destroy_detached).
  destruct (IH st3 (ses ⟦ s_threads := tps ⟧) Hi3) as (st' & -> & Hi' & Hse' & Hth');
    [cbn; by rewrite lookup_insert_eq|done|].
  exists st'; split_and!; try done.
  - rewrite Hse'; cbn; rewrite insert_insert_eq, Hse1; done.
  - intros k x; rewrite Hth'; cbn; rewrite lookup_delete_Some; split.
    + intros [[Hne Hx] Hs']; rewrite Hoth in Hx by done; done.
    + intros [Hx Hs']; assert (tp <> k) by (intros ->; congruence).
      split; [split; [done|]|done]; by rewrite Hoth.
Qed.

Lemma release_inv st sp ses :
  km_inv st -> km_sessions st !! sp = Some ses ->
  exists st', rd_wpctl_release sp st = Some st' /\ km_inv st' /\
    km_sessions st' = delete sp (km_sessions st) /\
    (forall tp th, km_threads st' !! tp = Some th <->
       km_threads st !! tp = Some th /\ t_session th <> sp).
Proof.
  intros Hi Hs; unfold rd_wpctl_release; destruct (ki_sessions _ _ st Hi sp ses Hs) as [Hr _].
  rewrite (proj2 (Z.eqb_neq sp 0)), Hs, some_bind by lia.
  destruct (release_threads_inv sp (s_threads ses) st ses Hi Hs eq_refl) as (st' & -> & Hi' & Hse & Hth).
  rewrite some_bind; eexists; split_and!; [done| | |exact Hth].
  - destruct Hi' as [I1 I2 I3 I4 I5 I6 I7 I8 I9 I10]; split; cbn -[events_of]; try done.
    + intros sp0 ses0 [Hne Hx]%lookup_delete_Some; by eapply I1.
    + intros sp0 ses0 tp [Hne Hx]%lookup_delete_Some; by eapply I2.
    + intros tp th Ht; destruct (I3 tp th Ht) as [R1 (s0 & Hs0 & Hin & T) R3 R4]; split; try done.
      exists s0; cbn; rewrite lookup_delete_ne; [done|]; intros E.
      apply Hth in Ht as [_ Hne]; congruence.
  - cbn; rewrite Hse, delete_insert_eq; done.
Qed.
(** * Requests *)

Lemma with_thread_ok st sp ses i f :
  km_inv st -> km_sessions st !! sp = Some ses ->
  (forall th, thread_inv ses th -> exists r, f th = Some r) ->
  exists r, with_thread st ses i f = Some r.
Proof.
  intros Hi Hs Hf; unfold with_thread, rd_find_thread_by_index.
  destruct (s_threads ses !!z i) as [tp|] eqn:E; [|eauto].
  apply zlookup_Some in E as [_ E%list_elem_of_lookup_2].
  destruct (session_threads_live _ _ st sp ses tp Hi Hs E) as (th & -> & _ & Htv & _).
  rewrite some_bind; eauto.
Qed.

Lemma copy_buckets_ok h start : 0 <= start -> start + 64 <= zlen h ->
  copy_buckets h start = Some (take 64 (drop (Z.to_nat start) h)).
Proof. intros H1 H2; unfold copy_buckets; by rewrite (proj2 (Z.leb_le _ _) H1), (proj2 (Z.leb_le _ _) H2). Qed.

Lemma get_hist_ok st sp ses i j :
  km_inv st -> km_sessions st !! sp = Some ses -> is_u32 j ->
  exists r, rd_get_hist_locked st ses i j = Some r.
Proof.
  intros Hi Hs Hj; eapply with_thread_ok; [done|done|]; intros th [_ [(h & -> & Hl) _ _ _] _ _ _].
  split_if; [eauto|]; unfold RD_WPCTL_LOG2_BUCKETS.
  rewrite copy_buckets_ok, some_bind by lia; eauto.
Qed.

Lemma get_pair_ok st sp ses i j :
  km_inv st -> km_sessions st !! sp = Some ses -> is_u32 j ->
  exists r, rd_get_pair_hist_locked st ses i j = Some r.
Proof.
  intros Hi Hs Hj; eapply with_thread_ok; [done|done|]; intros th [_ [_ (t & -> & Hw) _ _] _ _ _].
  split_if; [eauto|]; destruct (proj2 (zlookup_is_Some t j)) as [x ->];
    [rewrite (pair_len _ _ Hw); lia|]; rewrite some_bind; eauto.
Qed.

Lemma get_context_ok st sp ses i j :
  km_inv st -> km_sessions st !! sp = Some ses -> is_u32 j ->
  exists r, rd_get_context_locked st ses i j = Some r.
Proof.
  intros Hi Hs Hj; eapply with_thread_ok; [done|done|]; intros th [_ [_ _ (t & -> & Hw) _] _ _ _].
  split_if; [eauto|]; destruct (proj2 (zlookup_is_Some t (j - 1))) as [x ->];
    [rewrite (ctx_len _ _ Hw); lia|]; rewrite some_bind; eauto.
Qed.

Lemma get_event_ok st sp ses i j :
  km_inv st -> km_sessions st !! sp = Some ses -> is_u32 j ->
  exists r rep w, rd_get_dwarf_event_locked st ses i j = Some (r, rep, set_world w st) /\
    same_resources (km_world st) w.
Proof.
  intros Hi Hs Hj; unfold rd_get_dwarf_event_locked, rd_find_thread_by_index.
  assert (Hst : st = set_world (km_world st) st) by (by destruct st as [? ? ? []]).
  destruct (s_threads ses !!z i) as [tp|] eqn:E; [|eexists _, _, (km_world st); rewrite <- Hst; done].
  apply zlookup_Some in E as [_ E%list_elem_of_lookup_2].
  destruct (session_threads_live _ _ st sp ses tp Hi Hs E) as (th & -> & _ & Htv & _); rewrite some_bind.
  destruct (dwarf_event_capacity ses <=? j) eqn:G; [eexists _, _, (km_world st); rewrite <- Hst; done|].
  pose proof (kcalloc_keeps 1 sizeof_dwarf_event (km_world st)) as Hk.
  destruct (kcalloc 1 sizeof_dwarf_event (km_world st)) as [ok w]; cbn [snd] in Hk.
  destruct ok; cbn [negb]; [|eexists _, _, w; done].
  pose proof (rs_events _ _ (ti_results _ _ Htv)) as He; unfold events_ok in He.
  destruct (t_dwarf_events th) as [evs|]; [|eexists _, _, w; done].
  destruct (proj2 (zlookup_is_Some evs j)) as [x ->]; [destruct He as (_ & -> & _); lia|].
  rewrite some_bind; eexists _, _, w; done.
Qed.

Lemma query_ok out st r : (exists x, r = Some x) -> exists ret rep, query out st r = Some (ret, rep, st).
Proof. intros [x ->]; unfold query; rewrite some_bind; destruct (copy_out out x); eauto. Qed.

(** What an ioctl does to the module: it never faults and keeps the invariant,
    and one that fails changes nothing but the free-memory state, except a reset,
    which reports the first slot it could not re-point after resetting all. *)
Lemma ioctl_inv st sp ses cmd out :
  km_inv st -> km_sessions st !! sp = Some ses -> cmd_wf cmd (km_world st) ->
  exists ret rep st', rd_wpctl_ioctl sp cmd out st = Some (ret, rep, st') /\ km_inv st' /\
    (ret <> 0 -> cmd <> RESET_SESSION ->
     exists w, st' = set_world w st /\ balanced_world (km_world st) w).
Proof.
  intros Hi Hs Hc; destruct (ki_sessions _ _ st Hi sp ses Hs) as [Hr Hwf].
  assert (Hst : st = set_world (km_world st) st) by (by destruct st as [? ? ? []]).
  assert (Hself : exists w, st = set_world w st /\ balanced_world (km_world st) w).
  { exists (km_world st); split; [done|by split]. }
  unfold rd_wpctl_ioctl; rewrite (proj2 (Z.eqb_neq sp 0)), Hs, some_bind by lia.
  assert (Hq : forall r, (exists x, r = Some x) -> exists ret rep st',
    query out st r = Some (ret, rep, st') /\ km_inv st' /\
    (ret <> 0 -> cmd <> RESET_SESSION -> exists w, st' = set_world w st /\ balanced_world (km_world st) w)).
  { intros r [ret [rep H]]%(query_ok out st); exists ret, rep, st; split_and!; auto. }
  unfold faulted, command.
  destruct cmd as [[cfg|]|[batch|]|[reg|]|[tid|]| | | | |[i|]|[[i j]|]|[[i j]|]|[[i j]|]|[[i j]|]|];
    cbn [cmd_wf] in Hc; try (eexists _, _, st; split_and!; [done|done|intros; exact Hself]).
  - destruct (config_inv _ _ st sp ses cfg Hi Hs Hc) as (ret & st' & -> & Hi' & He).
    rewrite some_bind; eexists _, _, _; split_and!; [done|done|]; intros Hn _; rewrite (He Hn); done.
  - destruct (load_inv _ _ st sp ses batch Hi Hs Hc) as (ret & st' & -> & Hi' & He).
    rewrite some_bind; eexists _, _, _; split_and!; [done|done|]; intros Hn _.
    destruct (He Hn) as (w & -> & Hw); exists w; split; [done|by apply same_balanced].
  - destruct (register_inv _ _ st sp ses reg Hi Hs) as (ret & st' & -> & Hi' & He & _).
    rewrite some_bind; eexists _, _, _; split_and!; [done|done|]; auto.
  - destruct (unregister_inv _ _ st sp ses tid Hi Hs) as (ret & st' & -> & Hi' & He & _).
    rewrite some_bind; eexists _, _, _; split_and!; [done|done|]; intros Hn _; rewrite (He Hn); done.
  - destruct (start_window_inv _ _ st sp ses Hi Hs) as (st' & -> & Hi' & _).
    rewrite some_bind; eexists _, _, _; split_and!; [done|done|]; done.
  - destruct (stop_window_inv _ _ st sp ses Hi Hs) as (st' & -> & Hi' & _).
    rewrite some_bind; eexists _, _, _; split_and!; [done|done|]; done.
  - unfold rd_reset_session_locked; rewrite Hs, some_bind; destruct (s_running ses).
    { rewrite some_bind; eexists _, _, _; split_and!; done. }
    destruct (reset_threads_inv _ _ sp ses (s_threads ses) 0 st Hi Hs) as (ret & st' & -> & Hi' & _);
      [done|apply (sw_threads _ Hwf)|]; rewrite some_bind; eexists _, _, _; split_and!; done.
  - apply Hq; eauto.
  - apply Hq; eapply with_thread_ok; [done|exact Hs|eauto].
  - apply Hq; by eapply get_hist_ok.
  - apply Hq; by eapply get_pair_ok.
  - apply Hq; by eapply get_context_ok.
  - destruct (get_event_ok st sp ses i j Hi Hs Hc) as (r & rep & w & -> & Hw); rewrite some_bind.
    destruct (copy_out out (r, rep)) as [r' rep']; eexists _, _, _; split_and!;
      [done|by apply km_inv_world|]; intros _ _; exists w; split; [done|by apply same_balanced].
Qed.

(** The entry is a hit of a breakpoint whose target has an undefined shift. *)
Definition undefined_action (a : action) (st : kmod) : Prop :=
  match a with BpOverflow ev _ _ => undefined_breakpoint ev st | _ => False end.

Lemma run_cases a st : km_inv st -> action_wf a st ->
  (exists st', run a st = Some st' /\ km_inv st') \/ (run a st = None /\ undefined_action a st).
Proof.
  intros Hi Hwf; destruct a as [tgid|sp|sp cmd out|ev regs pid|ev regs]; cbn [run action_wf undefined_action] in *;
    [left|left|left|by apply overflow_inv|left].
  - eexists; split; [done|by apply open_inv].
  - destruct Hwf as [ses Hs]; destruct (release_inv st sp ses Hi Hs) as (st' & ? & ? & _); eauto.
  - destruct Hwf as [[ses Hs] Hc].
    destruct (ioctl_inv st sp ses cmd out Hi Hs Hc) as (ret & rep & st' & -> & Hi' & _).
    rewrite some_bind; eauto.
  - by apply report_inv.
Qed.

Lemma run_inv a st st' : km_inv st -> action_wf a st -> run a st = Some st' -> km_inv st'.
Proof. intros Hi Hwf E; destruct (run_cases a st Hi Hwf) as [(x & E' & Hx)|[E' _]]; congruence. Qed.
(** * The life of a session *)

(** What CONFIG_SESSION fixes. *)
Definition params (ses : rd_session) :=
  (wp_capacity ses, callchain_mode ses, dwarf_stack_bytes ses, dwarf_event_capacity ses,
   bp_sample_period ses).

(** From new to configured to loaded, never back and never reconfigured. *)
Definition session_le (ses ses' : rd_session) : Prop :=
  owner_tgid ses' = owner_tgid ses /\
  (configured ses = true -> configured ses' = true /\ params ses' = params ses) /\
  (targets_loaded ses = true ->
     targets_loaded ses' = true /\ targets ses' = targets ses /\ target_count ses' = target_count ses).

#[export] Instance session_le_refl : Reflexive session_le.
Proof. by intros ses. Qed.

Definition sessions_le (st st' : kmod) : Prop :=
  forall sp ses ses', km_sessions st !! sp = Some ses -> km_sessions st' !! sp = Some ses' ->
    session_le ses ses'.

Lemma sessions_le_eq st st' : km_sessions st' = km_sessions st -> sessions_le st st'.
Proof. intros E sp ses ses' H1 H2; rewrite E in H2; simplify_eq; reflexivity. Qed.

Lemma sessions_le_insert st st' sp ses ses' :
  km_sessions st !! sp = Some ses -> km_sessions st' = <[sp := ses']> (km_sessions st) ->
  session_le ses ses' -> sessions_le st st'.
Proof.
  intros Hs E Hle sp0 s1 s2 H1 H2; rewrite E in H2.
  apply lookup_insert_Some in H2 as [[<- <-]|[_ H2]]; [by simplify_eq|simplify_eq; reflexivity].
Qed.

Lemma overflow_sessions ev regs pid st st' :
  rd_perf_event_overflow_pre ev regs pid st = Some st' -> km_sessions st' = km_sessions st.
Proof.
  unfold rd_perf_event_overflow_pre; split_if; [by intros [= <-]|]; split_if; [by intros [= <-]|].
  intros ([[[tp i] th]|] & _ & H)%bind_Some; [|by injection H as <-].
  split_if; [by injection H as <-|].
  by apply bind_Some in H as (? & _ & ([? ?] & _ & [= <-])%bind_Some).
Qed.

Lemma report_sessions ev regs st st' :
  rd_watchpoint_report_pre ev regs st = Some st' -> km_sessions st' = km_sessions st.
Proof.
  unfold rd_watchpoint_report_pre; split_if; [by intros [= <-]|].
  destruct regs as [r|]; [|by intros [= <-]]; split_if; [by intros [= <-]|].
  intros ([[[tp i] th]|] & _ & H)%bind_Some; [|by injection H as <-].
  split_if; [by injection H as <-|].
  by apply bind_Some in H as (? & _ & ([? ?] & _ & [= <-])%bind_Some).
Qed.

Lemma config_sessions sp cfg st ret st' :
  rd_session_config_locked sp cfg st = Some (ret, st') -> sessions_le st st'.
Proof.
  unfold rd_session_config_locked; intros (ses & Hs & H)%bind_Some.
  destruct (configured ses || targets_loaded ses) eqn:G; [injection H as <- <-; by apply sessions_le_eq|].
  apply orb_false_iff in G as [Gc Gl].
  do 4 (split_if; [injection H as <- <-; by apply sessions_le_eq|]); injection H as <- <-.
  eapply sessions_le_insert; [exact Hs|done|].
  split; [done|]; rewrite Gc, Gl; done.
Qed.

Lemma load_sessions sp batch st ret st' :
  rd_load_targets_locked sp batch st = Some (ret, st') -> sessions_le st st'.
Proof.
  unfold rd_load_targets_locked; intros (ses & Hs & H)%bind_Some.
  destruct (negb (configured ses) || targets_loaded ses) eqn:G; [injection H as <- <-; by apply sessions_le_eq|].
  apply orb_false_iff in G as [Gc Gl].
  split_if; [injection H as <- <-; by apply sessions_le_eq|].
  destruct (memdup_user_targets _ _ _) as [[err|l] w1]; [injection H as <- <-; by apply sessions_le_eq|].
  destruct (kcalloc _ _ w1) as [ok w2]; destruct ok; cbn [negb] in H;
    [|injection H as <- <-; by apply sessions_le_eq].
  apply bind_Some in H as (tgts & _ & H); split_if; injection H as <- <-; [by apply sessions_le_eq|].
  eapply sessions_le_insert; [exact Hs|done|]; split; [done|]; rewrite Gl; done.
Qed.

Lemma get_event_sessions st ses i j r st' :
  rd_get_dwarf_event_locked st ses i j = Some (r, st') -> km_sessions st' = km_sessions st.
Proof.
  unfold rd_get_dwarf_event_locked; destruct (rd_find_thread_by_index ses i) as [tp|]; [|by intros [= <- <-]].
  intros (th & _ & H)%bind_Some; split_if; [by injection H as <- <-|].
  destruct (kcalloc _ _ _) as [ok w]; destruct ok; cbn [negb] in H; [|by injection H as <- <-].
  destruct (t_dwarf_events th); [|by injection H as <- <-].
  by apply bind_Some in H as (? & _ & [= <- <-]).
Qed.

Lemma ioctl_sessions st sp ses cmd out r st' :
  km_inv st -> km_sessions st !! sp = Some ses ->
  rd_wpctl_ioctl sp cmd out st = Some (r, st') -> sessions_le st st'.
Proof.
  intros Hi Hs; destruct (ki_sessions _ _ st Hi sp ses Hs) as [Hsp Hwf].
  unfold rd_wpctl_ioctl; rewrite (proj2 (Z.eqb_neq sp 0)), Hs, some_bind by lia.
  assert (Hq : forall x, query out st x = Some (r, st') -> sessions_le st st').
  { unfold query; intros x (y & _ & [= _ <-])%bind_Some; by apply sessions_le_eq. }
  unfold faulted, command.
  destruct cmd as [[cfg|]|[batch|]|[reg|]|[tid|]| | | | |[i|]|[[i j]|]|[[i j]|]|[[i j]|]|[[i j]|]|];
    try (intros [= _ <-]; by apply sessions_le_eq); try (by apply Hq).
  - intros ([ret st1] & H%config_sessions & [= _ <-])%bind_Some; done.
  - intros ([ret st1] & H%load_sessions & [= _ <-])%bind_Some; done.
  - destruct (register_inv _ _ st sp ses reg Hi Hs) as (ret & st1 & -> & _ & Hf & Hok).
    rewrite some_bind; intros [= _ <-]; destruct (decide (ret = 0)) as [E|E].
    + destruct (Hok E) as (th & w & -> & _); eapply sessions_le_insert; [exact Hs|done|done].
    + destruct (Hf E) as (w & -> & _); by apply sessions_le_eq.
  - destruct (unregister_inv _ _ st sp ses tid Hi Hs) as (ret & st1 & -> & _ & Hf & Hok).
    rewrite some_bind; intros [= _ <-]; destruct (decide (ret = 0)) as [E|E].
    + destruct (Hok E) as (tp & th & th' & w & _ & _ & _ & _ & -> & _); by apply sessions_le_eq.
    + rewrite (Hf E); by apply sessions_le_eq.
  - destruct (start_window_inv _ _ st sp ses Hi Hs) as (st1 & -> & _ & Hse & _).
    rewrite some_bind; intros [= _ <-]; by eapply sessions_le_insert.
  - destruct (stop_window_inv _ _ st sp ses Hi Hs) as (st1 & -> & _ & Hse & _).
    rewrite some_bind; intros [= _ <-]; by eapply sessions_le_insert.
  - unfold rd_reset_session_locked; rewrite Hs, some_bind; destruct (s_running ses).
    { rewrite some_bind; intros [= _ <-]; by apply sessions_le_eq. }
    destruct (reset_threads_inv _ _ sp ses (s_threads ses) 0 st Hi Hs) as (ret & st1 & -> & _ & Hse & _);
      [done|apply (sw_threads _ Hwf)|]; rewrite some_bind; intros [= _ <-]; by apply sessions_le_eq.
  - intros ([r1 st1] & H%get_event_sessions & [= _ <-])%bind_Some; by apply sessions_le_eq.
Qed.

Lemma run_sessions a st st' : km_inv st -> action_wf a st -> run a st = Some st' -> sessions_le st st'.
Proof.
  intros Hi Hwf Hrun.
  destruct a as [tgid|sp0|sp0 cmd out|ev regs pid|ev regs]; cbn [run action_wf] in *.
  - injection Hrun as <-; unfold rd_wpctl_open.
    destruct (kcalloc 1 sizeof_session (km_world st)) as [ok w]; destruct ok; cbn [negb snd];
      [|by apply sessions_le_eq].
    intros sp1 s1 s2 H1 H2; cbn in H2; apply lookup_insert_Some in H2 as [[<- <-]|[_ H2]];
      [|simplify_eq; reflexivity].
    destruct (ki_sessions _ _ st Hi _ _ H1); lia.
  - destruct Hwf as [s0 H0]; destruct (release_inv st sp0 s0 Hi H0) as (st1 & E & _ & Hse & _).
    rewrite E in Hrun; simplify_eq; intros sp1 s1 s2 H1 H2; rewrite Hse in H2.
    apply lookup_delete_Some in H2 as [_ H2]; simplify_eq; reflexivity.
  - destruct Hwf as [[s0 H0] _]; apply bind_Some in Hrun as ([r st1] & E & [= <-]).
    exact (ioctl_sessions st sp0 s0 cmd out r st1 Hi H0 E).
  - apply sessions_le_eq; by eapply overflow_sessions.
  - apply sessions_le_eq; by eapply report_sessions.
Qed.

(** ** Unregistering a registered thread succeeds *)

Lemma unregister_active st sp ses tid tp th :
  km_inv st -> km_sessions st !! sp = Some ses -> tp ∈ s_threads ses -> km_threads st !! tp = Some th ->
  t_tid th = tid -> t_active th = true ->
  exists th' w, rd_unregister_thread_locked sp tid st = Some (0, detached_state tp th' w st) /\
    km_inv (detached_state tp th' w st) /\ t_active th' = false /\ kept_results th' = kept_results th.
Proof.
  intros Hi Hs Hin Ht Htid Ha.
  destruct (unregister_inv _ _ st sp ses tid Hi Hs) as (ret & st' & E & Hi' & Herr & Hok).
  assert (ret = 0) as ->.
  { unfold rd_unregister_thread_locked, rd_find_active_thread_by_tid in E; rewrite Hs, some_bind in E.
    destruct (find_active_spec st tid (s_threads ses)) as (found & Ef & Hf);
      [intros; by eapply session_threads_some|]; rewrite Ef, some_bind in E.
    destruct found as [tp0|]; [|by destruct (Hf tp th Hin Ht Ha)].
    destruct Hf as (_ & th0 & Ht0 & _ & Ha0); rewrite Ht0, some_bind, Ha0 in E; cbn [negb] in E.
    by apply bind_Some in E as (? & _ & [= <- _]). }
  destruct (Hok eq_refl) as (tp0 & th0 & th' & w & Ht0 & Htid0 & Hin0 & Ha0 & -> & Ha' & Hk & Hd).
  assert (tp0 = tp) as ->.
  { destruct (ki_member _ _ st Hi sp ses tp0 Hs Hin0) as (x & Hx & Hxs).
    destruct (ki_member _ _ st Hi sp ses tp Hs Hin) as (y & Hy & Hys).
    eapply (ki_tids _ _ st Hi tp0 tp th0 th); try done; congruence. }
  assert (th0 = th) as -> by congruence; by exists th', w.
Qed.

End module.

(** * Reachable states *)

Section reachable.
Context `{K : KernelApi} {KL : KernelLaws K}.
Context (w0 : world) (budget : Z).
Abbreviation inv0 := (SessionInv.km_inv (live_events w0) (task_refs w0)).

Lemma init_inv : inv0 (initial_state budget w0).
Proof.
  split; try done; cbn.
  - split; [constructor|]; intros tp; split; [by intros ?%elem_of_nil|by intros (? & ? & _)].
  - intros e; split; [auto|]; intros [?|(? & ? & ? & _)]; done.
  - intros t; unfold holders; rewrite map_to_list_empty; cbn; unfold zcount; cbn; unfold km_world; cbn.
    unfold sumZ; cbn; lia.
Qed.

Lemma reachable_inv st : reachable w0 budget st -> inv0 st.
Proof.
  induction 1 as [|st a st' _ IH Hwf Hrun]; [apply init_inv|].
  exact (run_inv _ _ a st st' IH Hwf Hrun).
Qed.

(** C1. The module never faults, with one exception that is made explicit.  From
    any reachable state, with any number of sessions and any targets that
    [rd_validate_target] accepts, every entry (open, release, any ioctl, any
    breakpoint or watchpoint report) runs to completion: no dangling or null
    pointer, no index out of bounds, no wait that does not end; and it leads to a
    state that satisfies the module invariant.  The exception is a hit of a
    breakpoint whose target shifts its index register by 64 or more, on an active
    thread while the window is open: C leaves that shift undefined, and only then
    does the model have no result. *)
Theorem module_never_faults (st : kmod) (a : action)
    (Hr : reachable w0 budget st) (Hwf : action_wf a st) :
  (exists st', run a st = Some st' /\ reachable w0 budget st' /\ inv0 st') \/
  (run a st = None /\ exists ev regs pid, a = BpOverflow ev regs pid /\
     exists tp th ses evs n tgt,
       km_threads st !! tp = Some th /\ t_active th = true /\ km_sessions st !! t_session th = Some ses /\
       s_running ses = true /\ t_bp_events th = Some evs /\ evs !! n = Some (Some ev) /\ targets ses !! n = Some tgt /\
       truthy (has_index (decode tgt)) = true /\ extend (decode tgt) <> RD_EXT_NONE /\ 64 <= shift (decode tgt)).
Proof.
  destruct (run_cases _ _ a st (reachable_inv st Hr) Hwf) as [(st' & E & Hi)|[E Hu]].
  - left; exists st'; split_and!; [done| |done]; by eapply reach_step.
  - right; split; [done|]; destruct a as [| | |ev regs pid|]; try done; exists ev, regs, pid; split; [done|].
    destruct Hu as (tp & th & ses & evs & n & tgt & H1 & H2 & H3 & H4 & H5 & H6 & H7 & H8).
    exists tp, th, ses, evs, n, tgt; apply andb_true_iff in H8 as [[? ?]%andb_true_iff ?]; split_and!; try done; lia.
Qed.

(** C3. The counters of every thread of every reachable state balance: seen is
    accepted plus rejected, accepted is hits plus evictions plus drops plus the
    slots armed now, and both histograms account for every hit. *)
Theorem reachable_threads_balance (st : kmod) (tp : Z) (th : rd_thread_ctx)
    (Hr : reachable w0 budget st) (Ht : km_threads st !! tp = Some th) :
  candidate_samples th ≡₆₄ reservoir_seen th /\
  reservoir_seen th ≡₆₄ reservoir_accepted th + reservoir_rejected th /\
  reservoir_accepted th ≡₆₄ hits th + evictions th + dropped th + armed_slots th /\
  hist_total th ≡₆₄ hits th /\ pairs_total th ≡₆₄ hits th.
Proof.
  destruct (ki_threads _ _ st (reachable_inv st Hr) tp th Ht) as [_ (ses & _ & _ & Htv) _ _].
  destruct (ti_balanced _ _ Htv) as (B1 & B2 & B3 & B4 & B5 & _); done.
Qed.

(** The reservoir never rejects a candidate: in every reachable state the
    rejection counter of every thread is 0, so with all slots armed each
    candidate evicts one. *)
Theorem reservoir_never_rejects (st : kmod) (tp : Z) (th : rd_thread_ctx)
    (Hr : reachable w0 budget st) (Ht : km_threads st !! tp = Some th) :
  reservoir_rejected th = 0 /\
  (forall slots s, t_wp_slots th = Some slots -> s ∈ slots -> wp_samples s = 1).
Proof.
  destruct (ki_threads _ _ st (reachable_inv st Hr) tp th Ht) as [_ (ses & _ & _ & Htv) _ _].
  split; [apply Htv|]; intros slots s Hs Hin.
  exact (proj1 (Forall_forall _ _) (ti_samples _ _ Htv slots Hs) s Hin).
Qed.

(** C14. No perf event and no task reference is leaked: in every reachable state
    the events allocated in the kernel are those allocated before the module
    was loaded and those its thread contexts hold, each held once; when no
    session is open, the kernel is back to the events and task references it
    started with. *)
Theorem module_leaks_nothing (st : kmod) (Hr : reachable w0 budget st) :
  (forall e, e ∈ live_events (km_world st) <->
     e ∈ live_events w0 \/ exists tp th, km_threads st !! tp = Some th /\ e ∈ events_of th) /\
  (forall tp1 tp2 th1 th2 e, km_threads st !! tp1 = Some th1 -> km_threads st !! tp2 = Some th2 ->
     e ∈ events_of th1 -> e ∈ events_of th2 -> tp1 = tp2) /\
  (km_sessions st = ∅ -> live_events (km_world st) = live_events w0 /\
     forall t, task_refs (km_world st) t = task_refs w0 t).
Proof.
  pose proof (reachable_inv st Hr) as Hi; split_and!; [apply Hi|apply (ki_disjoint _ _ st Hi)|].
  intros Hse; assert (Hth : km_threads st = ∅).
  { apply map_empty; intros tp; destruct (km_threads st !! tp) as [th|] eqn:E; [|done].
    destruct (ki_threads _ _ st Hi tp th E) as [_ (ses & Hs & _) _ _]; by rewrite Hse in Hs. }
  split.
  - apply set_eq; intros e; rewrite (ki_events _ _ st Hi e), Hth; split; [|auto].
    intros [?|(? & ? & ? & _)]; done.
  - intros t; rewrite (ki_refs _ _ st Hi t), Hth; unfold holders.
    rewrite map_to_list_empty; unfold zcount, sumZ; cbn; lia.
Qed.

(** C20. A failed ioctl other than a reset has no effect: whatever the error,
    no session, thread or live-list entry changes, and the perf events and task
    references of the kernel are as before. *)
Theorem failed_ioctl_has_no_effect (st : kmod) (sp : Z) (cmd : ioctl_cmd) (out : bool)
    (Hr : reachable w0 budget st) (Hs : is_Some (km_sessions st !! sp))
    (Hc : cmd_wf cmd (km_world st)) (Hreset : cmd <> RESET_SESSION) :
  exists ret rep st', rd_wpctl_ioctl sp cmd out st = Some (ret, rep, st') /\
    (ret <> 0 -> km_sessions st' = km_sessions st /\ km_threads st' = km_threads st /\
       km_live st' = km_live st /\
       live_events (km_world st') = live_events (km_world st) /\
       forall t, task_refs (km_world st') t = task_refs (km_world st) t).
Proof.
  destruct Hs as [ses Hs].
  destruct (ioctl_inv _ _ st sp ses cmd out (reachable_inv st Hr) Hs Hc)
    as (ret & rep & st' & E & _ & He).
  exists ret, rep, st'; split; [done|]; intros Hn; destruct (He Hn Hreset) as (w & -> & H1 & H2); done.
Qed.

Lemma omap_nodup_index (evs : list (option Z)) a b e :
  NoDup (omap id evs) -> evs !! a = Some (Some e) -> evs !! b = Some (Some e) -> a = b.
Proof.
  revert a b; induction evs as [|x evs IH]; intros a b Hnd Ha Hb; [done|].
  assert (Hin : forall n, evs !! n = Some (Some e) -> e ∈ omap id evs).
  { intros n Hn; apply list_elem_of_omap; exists (Some e); split; [by eapply list_elem_of_lookup_2|done]. }
  destruct a as [|a], b as [|b]; cbn in Ha, Hb; [done|..]; destruct x as [x|]; cbn in Hnd;
    try (apply NoDup_cons in Hnd as [Hx Hnd]); simplify_eq; try (by exfalso; eauto); f_equal; eauto.
Qed.

Lemma lookup_owner st ev select tp th ses evs n i :
  inv0 st -> km_threads st !! tp = Some th -> t_active th = true ->
  km_sessions st !! t_session th = Some ses -> select ses th = (Some evs, n) ->
  evs !!z i = Some (Some ev) ->
  (forall ses th, live_ok ses th -> exists evs, select ses th = (Some evs, zlen evs)) ->
  (forall ses th evs n, select ses th = (Some evs, n) -> NoDup (events_of th) -> NoDup (omap id evs)) ->
  (forall ses th evs n e, select ses th = (Some evs, n) -> Some e ∈ evs -> e ∈ events_of th) ->
  lookup_event st ev select (km_live st) = Some (Some (tp, i, th ⟦ t_live_refs := 2 ⟧)).
Proof.
  intros Hi Ht Ha Hs Hsel Hev Hl Hnd Hin.
  destruct (lookup_event_spec _ _ st ev select (km_live st) Hi) as (r & -> & Hr); [done|done|].
  apply zlookup_Some in Hev as [Hr0 Hev]; assert (Hmem : Some ev ∈ evs) by (by eapply list_elem_of_lookup_2).
  destruct r as [[[tp' i'] th']|]; [|exfalso].
  - destruct Hr as [_ (th0 & ses0 & evs0 & n0 & Ht0 & Ha0 & Hs0 & -> & Hsel0 & [Hr0' Hev0]%zlookup_Some)].
    assert (tp' = tp) as ->.
    { eapply (ki_disjoint _ _ st Hi tp' tp th0 th ev); try done; [|by eapply Hin].
      eapply Hin; [done|by eapply list_elem_of_lookup_2]. }
    assert (th0 = th) as -> by congruence; assert (ses0 = ses) as -> by congruence.
    assert (evs0 = evs) as -> by congruence.
    assert (i' = i) as ->; [|done].
    pose proof (ta_nodup _ _ _ (ki_threads _ _ st Hi tp th Ht)) as Hn.
    pose proof (omap_nodup_index evs (Z.to_nat i') (Z.to_nat i) ev (Hnd _ _ _ _ Hsel0 Hn) Hev0 Hev); lia.
  - eapply Hr; [|done|done|done|exact Hmem]; apply (ki_live _ _ st Hi); eauto.
Qed.

Lemma held_in evs e l : evs = Some l -> Some e ∈ l -> e ∈ held evs.
Proof. intros -> Hin; apply list_elem_of_omap; exists (Some e); done. Qed.

(** C21. A hit is delivered to the thread that owns the event.  If event [ev] is
    breakpoint [i] (or watchpoint slot [i]) of an active thread, the lookup of
    the kprobe finds exactly that thread and index and takes one reference. *)
Theorem event_lookup_finds_owner (st : kmod) (tp : Z) (th : rd_thread_ctx) (evs : list (option Z))
    (i ev : Z) (Hr : reachable w0 budget st) (Ht : km_threads st !! tp = Some th)
    (Ha : t_active th = true) (Hi : evs !!z i = Some (Some ev)) :
  (t_bp_events th = Some evs ->
   rd_lookup_bp_site_rcu st ev = Some (Some (tp, i, th ⟦ t_live_refs := 2 ⟧))) /\
  (t_wp_events th = Some evs ->
   rd_lookup_wp_slot_rcu st ev = Some (Some (tp, i, th ⟦ t_live_refs := 2 ⟧))).
Proof.
  pose proof (reachable_inv st Hr) as Hinv.
  destruct (ki_threads _ _ st Hinv tp th Ht) as [_ (ses & Hs & _) _ _].
  split; intros Hev.
  - eapply (lookup_owner st ev _ tp th ses evs (target_count ses) i); try done;
      [by rewrite Hev|exact select_bps| |].
    + intros _ x l n [= E _] Hn; unfold events_of in Hn; rewrite E in Hn.
      apply NoDup_app in Hn as (_ & _ & Hn); by apply NoDup_app in Hn as (Hn & _).
    + intros _ x l n e [= E _] Hin; unfold events_of; rewrite !elem_of_app.
      right; left; by eapply held_in.
  - eapply (lookup_owner st ev _ tp th ses evs (wp_capacity ses) i); try done;
      [by rewrite Hev|exact select_wps| |].
    + intros _ x l n [= E _] Hn; unfold events_of in Hn; rewrite E in Hn.
      apply NoDup_app in Hn as (_ & _ & Hn); by apply NoDup_app in Hn as (_ & _ & Hn).
    + intros _ x l n e [= E _] Hin; unfold events_of; rewrite !elem_of_app.
      right; right; by eapply held_in.
Qed.

(** Unregistering an active thread succeeds, stops it and keeps its results:
    histograms, pair table, contexts, hits and evictions stay readable, the
    slots still armed are counted as drops, so accepted becomes exactly hits
    plus evictions plus drops; its perf events are gone, and unregistering the
    same id again reports that there is no such thread. *)
Theorem unregister_keeps_results (st : kmod) (sp tid tp : Z) (ses : rd_session) (th : rd_thread_ctx)
    (Hr : reachable w0 budget st) (Hs : km_sessions st !! sp = Some ses)
    (Ht : km_threads st !! tp = Some th) (Hsp : t_session th = sp) (Htid : t_tid th = tid)
    (Ha : t_active th = true) :
  exists st' th',
    rd_unregister_thread_locked sp tid st = Some (0, st') /\
    km_threads st' !! tp = Some th' /\ t_active th' = false /\ events_of th' = [] /\
    kept_results th' = kept_results th /\
    reservoir_accepted th' ≡₆₄ hits th' + evictions th' + dropped th' /\
    rd_unregister_thread_locked sp tid st' = Some (- ENOENT, st').
Proof.
  pose proof (reachable_inv st Hr) as Hi.
  assert (Hin : tp ∈ s_threads ses).
  { destruct (ki_threads _ _ st Hi tp th Ht) as [_ (s0 & Hs0 & Hin & _) _ _]; congruence. }
  destruct (unregister_active _ _ st sp ses tid tp th Hi Hs Hin Ht Htid Ha) as (th' & w & E & Hi' & Ha' & Hk).
  assert (Ht' : km_threads (detached_state tp th' w st) !! tp = Some th') by (cbn; by rewrite lookup_insert_eq).
  destruct (ki_threads _ _ _ Hi' tp th' Ht') as [_ (s1 & _ & _ & Htv1) _ _].
  destruct (detached_clean s1 th' Htv1 Ha') as [_ Hev'].
  eexists _, th'; split_and!; [exact E|exact Ht'|done|done|done| |].
  - destruct (ti_balanced _ _ Htv1) as (_ & _ & B3 & _); rewrite B3.
    pose proof (ti_live _ _ Htv1) as Hl; rewrite Ha' in Hl; destruct Hl as (_ & _ & _ & _ & Hns & _).
    unfold armed_slots; rewrite Hns; eqm64_lia.
  - unfold rd_unregister_thread_locked, rd_find_active_thread_by_tid; cbn -[find_active].
    rewrite Hs, some_bind.
    destruct (find_active_spec (detached_state tp th' w st) tid (s_threads ses)) as (found & -> & Hf).
    { intros k Hk2; eapply (session_threads_some _ _ _ sp ses k Hi'); done. }
    rewrite some_bind; destruct found as [tp2|]; [exfalso|done].
    destruct Hf as (Hin2 & th2 & Ht2 & Htid2 & Ha2).
    destruct (decide (tp2 = tp)) as [->|Hne]; [congruence|].
    cbn in Ht2; rewrite lookup_insert_ne in Ht2 by done.
    apply Hne; eapply (ki_tids _ _ st Hi tp2 tp th2 th); try done; [|congruence].
    destruct (ki_member _ _ st Hi sp ses tp2 Hs Hin2) as (x & Hx & Hxs); congruence.
Qed.

(** * Downloading the results *)

(** Rows [0..n-1] of 64 columns. *)
Definition hist_rows (h : list Z) (n : Z) : list (list Z) :=
  (fun j => take 64 (drop (Z.to_nat (j * 64)) h)) <$> seqZ 0 n.

(** A session with a thread has targets. *)
Lemma session_has_targets ses tp : sess_wf ses -> tp ∈ s_threads ses -> 0 < target_count ses.
Proof.
  intros Hwf Hin; destruct (sw_threads _ Hwf) as [_ Hne]; assert (Hld : targets_loaded ses = true).
  { apply Hne; intros E; rewrite E in Hin; by apply elem_of_nil in Hin. }
  destruct (sw_loaded _ Hwf Hld) as (_ & _ & ? & _); done.
Qed.

Lemma hist_rows_concat n : forall h, zlen h = Z.of_nat n * 64 -> concat (hist_rows h (Z.of_nat n)) = h.
Proof.
  induction n as [|n IH]; intros h Hl; unfold hist_rows in *.
  { destruct h; [done|cbn in Hl; lia]. }
  rewrite seqZ_cons by lia; cbn [fmap list_fmap concat].
  replace (Z.pred (Z.of_nat (S n))) with (Z.of_nat n) by lia; change (Z.succ 0) with 1.
  change (Z.to_nat (0 * 64)) with 0%nat; rewrite drop_0.
  rewrite <- (fmap_add_seqZ 1 0), <- list_fmap_compose.
  specialize (IH (drop 64 h)); rewrite length_drop in IH.
  erewrite list_fmap_ext; [rewrite IH; [by rewrite take_drop|lia]|].
  intros k j Hj%lookup_seqZ; cbn; rewrite drop_drop; do 2 f_equal; lia.
Qed.

Lemma hist_rows_sum n h : zlen h = Z.of_nat n * 64 -> sumZ (concat (hist_rows h (Z.of_nat n))) = sumZ h.
Proof. intros H; by rewrite hist_rows_concat. Qed.

(** C15. What user space downloads is what the module recorded.  For thread number
    [i] of a session, GET_THREAD_STATS returns its id and its hits, and
    GET_LOG2_HIST answers for every target with 64 counters; in the order of the
    targets they are the whole histogram of the thread, and they add up to the
    hits, modulo [2^64].  A target number out of range is reported as an invalid
    argument, a thread number out of range as a missing entry, and no request
    changes the module. *)
Theorem downloaded_histograms_sum_to_hits (st : kmod) (sp tp i : Z) (ses : rd_session)
    (th : rd_thread_ctx)
    (Hr : reachable w0 budget st) (Hs : km_sessions st !! sp = Some ses)
    (Hi : s_threads ses !!z i = Some tp) (Ht : km_threads st !! tp = Some th) :
  (exists stats, rd_wpctl_ioctl sp (GET_THREAD_STATS (Some i)) true st = Some (0, StatsReply stats, st) /\
     st_hits stats = hits th /\ st_tid stats = t_tid th) /\
  (exists rows, zlen rows = target_count ses /\
    t_log2_hist th = Some (concat rows) /\ sumZ (concat rows) ≡₆₄ hits th /\
    forall j row, rows !!z j = Some row ->
      zlen row = 64 /\
      rd_wpctl_ioctl sp (GET_LOG2_HIST (Some (i, j))) true st = Some (0, HistReply i j row, st)) /\
  (forall j, target_count ses <= j ->
    rd_wpctl_ioctl sp (GET_LOG2_HIST (Some (i, j))) true st = Some (- EINVAL, NoReply, st)) /\
  (forall k j, zlen (s_threads ses) <= k ->
    rd_wpctl_ioctl sp (GET_THREAD_STATS (Some k)) true st = Some (- ENOENT, NoReply, st) /\
    rd_wpctl_ioctl sp (GET_LOG2_HIST (Some (k, j))) true st = Some (- ENOENT, NoReply, st)).
Proof.
  pose proof (reachable_inv st Hr) as Hinv; destruct (ki_sessions _ _ st Hinv sp ses Hs) as [Hsp Hwf].
  assert (Hin : tp ∈ s_threads ses) by (apply zlookup_Some in Hi as [_ ?]; by eapply list_elem_of_lookup_2).
  destruct (session_threads_live _ _ st sp ses tp Hinv Hs Hin) as (th0 & Ht0 & _ & Htv & _).
  assert (th0 = th) as -> by congruence.
  destruct (rs_hist _ _ (ti_results _ _ Htv)) as (h & Hh & Hl & _).
  pose proof (session_has_targets ses tp Hwf Hin) as Hpos.
  unfold rd_wpctl_ioctl; rewrite (proj2 (Z.eqb_neq sp 0)) by lia.
  setoid_rewrite Hs; setoid_rewrite some_bind.
  unfold query, rd_get_thread_stats_locked, rd_get_hist_locked, with_thread, rd_find_thread_by_index, RD_WPCTL_LOG2_BUCKETS.
  split; [|split; [|split]].
  - eexists; rewrite Hi, Ht, !some_bind; split; [reflexivity|split; reflexivity].
  - exists (hist_rows h (target_count ses)).
    assert (Hcat : concat (hist_rows h (target_count ses)) = h).
    { rewrite <- (Z2Nat.id (target_count ses)) by lia; apply hist_rows_concat; lia. }
    rewrite Hcat; split; [unfold hist_rows; rewrite length_fmap, length_seqZ; lia|]; split; [done|]; split.
    { destruct (ti_balanced _ _ Htv) as (_ & _ & _ & B4 & _); unfold hist_total in B4; rewrite Hh in B4; by rewrite <- B4. }
    intros j row [Hj Hrow]%zlookup_Some; unfold hist_rows in Hrow, Hj.
    rewrite length_fmap, length_seqZ in Hj; apply list_lookup_fmap_Some_1 in Hrow as (j' & -> & Hj').
    apply lookup_seqZ in Hj' as [-> _]; replace (0 + Z.of_nat (Z.to_nat j)) with j by lia.
    split; [rewrite length_take, length_drop; lia|].
    rewrite Hi, Ht, some_bind, (proj2 (Z.leb_gt _ _)), Hh by lia.
    rewrite copy_buckets_ok, !some_bind by lia; reflexivity.
  - intros j Hj; by rewrite Hi, Ht, some_bind, (proj2 (Z.leb_le _ _)).
  - intros k j Hk; destruct (s_threads ses !!z k) eqn:Ek; [apply zlookup_Some in Ek as [? _]; lia|].
    split; reflexivity.
Qed.

(** A session is configured once and loaded once.  Whatever the module does
    next, a session that stays open keeps its owner; once configured its
    capacities, call-chain mode and sampling period never change; once its
    targets are loaded they never change. *)
Theorem session_configuration_is_final (st st' : kmod) (a : action) (sp : Z) (ses ses' : rd_session)
    (Hr : reachable w0 budget st) (Hwf : action_wf a st) (Hrun : run a st = Some st')
    (Hs : km_sessions st !! sp = Some ses) (Hs' : km_sessions st' !! sp = Some ses') :
  session_le ses ses'.
Proof. pose proof (reachable_inv st Hr) as Hi; by eapply (run_sessions _ _ a st st' Hi Hwf Hrun). Qed.
End reachable.
