(* ===== verification/KernelDemo.v ===== *)
(** A concrete run of the kernel module on the [Toy] kernel: a process opens the
    device, configures a one-slot session, loads one hotspot, registers a thread
    and opens the window; then the hotspot is hit, and its address is touched
    twice.  The run evaluates, and shows that the hypotheses of the theorems
    about the module hold in states it really reaches. *)
From S2P Require Import Prelude Uapi Buckets EffAddr KernelApi KTypes Tables Callchain.
From S2P Require Import Handlers Sampling HitSpec Lifecycle Session SessionInv RdModule.

Module KernelDemo.

#[local] Existing Instance Toy.toy_kernel.
#[local] Existing Instance Toy.toy_laws.
#[local] Existing Instance Toy.eta_toy.

Definition demo_toy : Toy.toy := Toy.toy0 ⟦ Toy.ty_targets := [EffAddr.demo_target] ⟧.
Definition demo_world : world := demo_toy.
Definition demo_cfg : rd_wpctl_session_cfg := mk_session_cfg 1 RD_CALLCHAIN_FP 1000 0 0.
Definition demo_reg : rd_wpctl_thread_register := mk_thread_register 101 5 65536 64.
Definition demo_regs : option pt_regs := Some EffAddr.demo_regs.

Definition setup_actions : list action :=
  [Open 100; Ioctl 1 (CONFIG_SESSION (Some demo_cfg)) true;
   Ioctl 1 (LOAD_TARGETS (Some (mk_batch 4096 1))) true;
   Ioctl 1 (REGISTER_THREAD (Some demo_reg)) true; Ioctl 1 START_WINDOW true].
(** Events 1, 2 and 3 are the access counter, the breakpoint and the watchpoint. *)
Definition hit_actions : list action :=
  [BpOverflow 2 demo_regs 101; WpReport 3 demo_regs; WpReport 3 demo_regs].

(** A step; the state itself when the module would fault. *)
Definition next (st : kmod) (a : action) : kmod := default st (run a st).
Definition state_after (acts : list action) : kmod :=
  foldl next (initial_state 0 demo_world) acts.

Lemma next_reachable st a :
  reachable demo_world 0 st -> action_wf a st -> reachable demo_world 0 (next st a).
Proof.
  intros Hr Hwf; unfold next; destruct (run a st) as [st'|] eqn:E; [|done]; by eapply reach_step.
Qed.

Lemma is_Some_eval {A} (o : option A) : bool_decide (is_Some o) = true -> is_Some o.
Proof. apply bool_decide_eq_true. Qed.

(** The action after [acts], from a reachable state. *)
Lemma snoc_reachable acts a :
  reachable demo_world 0 (state_after acts) -> action_wf a (state_after acts) ->
  reachable demo_world 0 (state_after (acts ++ [a])).
Proof. unfold state_after; rewrite foldl_app; apply next_reachable. Qed.

Lemma opened_reachable : reachable demo_world 0 (state_after (take 1 setup_actions)).
Proof. apply (snoc_reachable [] (Open 100)); [constructor|done]. Qed.

Lemma configured_reachable : reachable demo_world 0 (state_after (take 2 setup_actions)).
Proof.
  apply (snoc_reachable (take 1 setup_actions)); [apply opened_reachable|].
  split; [apply is_Some_eval; vm_compute; reflexivity|]; repeat split; cbn; lia.
Qed.

Lemma demo_batch_wf w : Toy.ty_targets w = [EffAddr.demo_target] -> batch_wf (mk_batch 4096 1) w.
Proof.
  intros Hw; split; [cbn; lia|]; cbn; rewrite Hw; cbn; intros l w' [= <- <-].
  split; [done|]; apply Forall_singleton.
  unfold EffAddr.demo_target, RD_EXT_SXTW; cbn; lia.
Qed.

Lemma loaded_reachable : reachable demo_world 0 (state_after (take 3 setup_actions)).
Proof.
  apply (snoc_reachable (take 2 setup_actions)); [apply configured_reachable|].
  split; [apply is_Some_eval; vm_compute; reflexivity|]; apply demo_batch_wf; vm_compute; reflexivity.
Qed.

Lemma registered_reachable : reachable demo_world 0 (state_after (take 4 setup_actions)).
Proof.
  apply (snoc_reachable (take 3 setup_actions)); [apply loaded_reachable|].
  split; [apply is_Some_eval; vm_compute; reflexivity|done].
Qed.

Lemma running_reachable : reachable demo_world 0 (state_after setup_actions).
Proof.
  apply (snoc_reachable (take 4 setup_actions)); [apply registered_reachable|].
  split; [apply is_Some_eval; vm_compute; reflexivity|done].
Qed.

Lemma demo_hit_regs_wf r : demo_regs = Some r -> pt_regs_wf r.
Proof. intros [= <-]; apply EffAddr.demo_regs_wf. Qed.

Lemma armed_reachable : reachable demo_world 0 (state_after (setup_actions ++ take 1 hit_actions)).
Proof. apply snoc_reachable; [apply running_reachable|exact demo_hit_regs_wf]. Qed.

Definition running : kmod := state_after setup_actions.
Definition armed : kmod := state_after (setup_actions ++ take 1 hit_actions).
Definition ses_of (st : kmod) : rd_session := default (fresh_session 0) (km_sessions st !! 1).
Definition th_of (st : kmod) : rd_thread_ctx := default zero_thread (km_threads st !! 2).

(** The run: the first watchpoint hit is ignored, the second is a hit with an
    access distance of 9. *)
Example demo_run :
  let st := state_after (setup_actions ++ hit_actions) in
  (hits (th_of st), reservoir_accepted (th_of st), armed_slots (th_of st),
   (fun h => h !! 4%nat) <$> t_log2_hist (th_of st), km_live st) =
  (1, 1, 0, Some (Some 1), [2]).
Proof. vm_compute. reflexivity. Qed.

Lemma lookup_default {A} (d : A) (o : option A) : bool_decide (is_Some o) = true -> o = Some (default d o).
Proof. intros [x ->]%bool_decide_eq_true; done. Qed.

Lemma running_session : km_sessions running !! 1 = Some (ses_of running).
Proof. apply lookup_default; vm_compute; reflexivity. Qed.
Lemma running_thread : km_threads running !! 2 = Some (th_of running).
Proof. apply lookup_default; vm_compute; reflexivity. Qed.
Lemma armed_session : km_sessions armed !! 1 = Some (ses_of armed).
Proof. apply lookup_default; vm_compute; reflexivity. Qed.
Lemma armed_thread : km_threads armed !! 2 = Some (th_of armed).
Proof. apply lookup_default; vm_compute; reflexivity. Qed.
Lemma running_active : t_active (th_of running) = true.
Proof. vm_compute; reflexivity. Qed.
Lemma armed_active : t_active (th_of armed) = true.
Proof. vm_compute; reflexivity. Qed.

Lemma running_ok : thread_inv (ses_of running) (th_of running) /\ session_ok (ses_of running).
Proof.
  destruct (thread_at_ok _ _ running 2 (th_of running) (ses_of running)
    (reachable_inv demo_world 0 running running_reachable) running_thread) as (_ & H1 & H2); [|done].
  rewrite <- running_session; f_equal; vm_compute; reflexivity.
Qed.

Lemma armed_ok : thread_inv (ses_of armed) (th_of armed) /\ session_ok (ses_of armed).
Proof.
  destruct (thread_at_ok _ _ armed 2 (th_of armed) (ses_of armed)
    (reachable_inv demo_world 0 armed armed_reachable) armed_thread) as (_ & H1 & H2); [|done].
  rewrite <- armed_session; f_equal; vm_compute; reflexivity.
Qed.

(** * The theorems at states of this run *)

Definition slots_of (st : kmod) : list wp_slot := default [] (t_wp_slots (th_of st)).
Definition hist_of (st : kmod) : list Z := default [] (t_log2_hist (th_of st)).

Lemma running_slots : t_wp_slots (th_of running) = Some (slots_of running).
Proof. apply lookup_default; vm_compute; reflexivity. Qed.
Lemma armed_slots_eq : t_wp_slots (th_of armed) = Some (slots_of armed).
Proof. apply lookup_default; vm_compute; reflexivity. Qed.
Lemma armed_hist : t_log2_hist (th_of armed) = Some (hist_of armed).
Proof. apply lookup_default; vm_compute; reflexivity. Qed.
Lemma running_hist : t_log2_hist (th_of running) = Some (hist_of running).
Proof. apply lookup_default; vm_compute; reflexivity. Qed.
Lemma armed_slot_0 : slots_of armed !! 0%nat = Some (default zero_slot (slots_of armed !! 0%nat)).
Proof. apply lookup_default; vm_compute; reflexivity. Qed.

Lemma pick_slot_reservoir_witness :
  exists picked th', rd_pick_wp_slot (ses_of running) (th_of running) = Some (picked, th').
Proof.
  destruct (pick_slot_reservoir (ses_of running) (th_of running) (slots_of running) running_slots)
    as (picked & th' & H & _).
  - vm_compute; reflexivity.
  - vm_compute; reflexivity.
  - exists picked, th'; exact H.
Defined.

Lemma hits_preserve_accounting_witness :
  exists th' e', handle_hits (ses_of running)
    [BpHit 0 EffAddr.demo_regs; WpHit 0 EffAddr.demo_regs; WpHit 0 EffAddr.demo_regs]
    (th_of running) (km_env running) = Some (th', e').
Proof.
  destruct (hits_preserve_accounting (ses_of running) (proj2 running_ok)
    [BpHit 0 EffAddr.demo_regs; WpHit 0 EffAddr.demo_regs; WpHit 0 EffAddr.demo_regs]
    (th_of running) (km_env running) (proj1 running_ok)) as (th' & e' & H & _).
  - pose proof EffAddr.demo_regs_wf; repeat constructor; try lia; done.
  - intros i tgt [_ Ht]%zlookup_Some; change (targets (ses_of running)) with [EffAddr.demo_target] in Ht.
    apply list_lookup_singleton_Some in Ht as [_ <-]; reflexivity.
  - exists th', e'; exact H.
Defined.

Lemma bp_hit_arms_one_slot_witness :
  exists th' e', rd_handle_bp_hit (ses_of running) (th_of running) 0 demo_regs (km_env running)
    = Some (th', e').
Proof.
  destruct (bp_hit_arms_one_slot (ses_of running) (proj2 running_ok) (th_of running) 0
    EffAddr.demo_target EffAddr.demo_regs (km_env running) (proj1 running_ok) running_active)
    as (th' & e' & _ & _ & _ & _ & _ & H & _).
  - vm_compute; reflexivity.
  - vm_compute; reflexivity.
  - reflexivity.
  - exact EffAddr.demo_regs_wf.
  - exists th', e'; exact H.
Defined.

Lemma full_reservoir_evicts_slot_0_witness :
  exists th' e', rd_handle_bp_hit (ses_of armed) (th_of armed) 0 demo_regs (km_env armed)
    = Some (th', e') /\ reservoir_rejected th' = 0.
Proof.
  destruct (full_reservoir_evicts_slot_0 (ses_of armed) (proj2 armed_ok) (th_of armed) 0
    EffAddr.demo_target EffAddr.demo_regs (km_env armed) (slots_of armed) (proj1 armed_ok) armed_active)
    as (th' & e' & slots' & H & _ & _ & _ & _ & Hr).
  - vm_compute; reflexivity.
  - vm_compute; reflexivity.
  - reflexivity.
  - exact EffAddr.demo_regs_wf.
  - exact armed_slots_eq.
  - vm_compute; reflexivity.
  - exists th', e'; split; [exact H|exact Hr].
Defined.

Lemma wp_hit_records_reuse_distance_witness :
  exists th' e', rd_handle_wp_hit (ses_of armed) (th_of armed) 0 demo_regs (km_env armed)
    = Some (th', e').
Proof.
  destruct (wp_hit_records_reuse_distance (ses_of armed) (proj2 armed_ok) (th_of armed)
    (slots_of armed) (hist_of armed) 0 (default zero_slot (slots_of armed !! 0%nat))
    EffAddr.demo_regs (km_env armed) (proj1 armed_ok) armed_active) as (th' & e' & H & _).
  - vm_compute; reflexivity.
  - exact armed_slots_eq.
  - exact armed_slot_0.
  - vm_compute; reflexivity.
  - exact armed_hist.
  - exact EffAddr.demo_regs_wf.
  - exists th', e'; exact H.
Defined.

(** The slot is armed, the watchpoint is hit twice and a bucket of target 0 counts
    the reuse. *)
Lemma seed_to_reuse_distance_witness :
  exists th1 e1 n th2 e2 th3 e3 b,
    rd_handle_bp_hit (ses_of running) (th_of running) 0 demo_regs (km_env running) = Some (th1, e1) /\
    rd_handle_wp_hit (ses_of running) th1 n demo_regs (km_env armed) = Some (th2, e2) /\
    rd_handle_wp_hit (ses_of running) th2 n demo_regs (km_env armed) = Some (th3, e3) /\
    t_log2_hist th3 = Some (PairHist.bump (0 * 64 + b) (hist_of running)).
Proof.
  destruct (seed_to_reuse_distance (ses_of running) (proj2 running_ok) (th_of running) 0 EffAddr.demo_target
    EffAddr.demo_regs EffAddr.demo_regs EffAddr.demo_regs (km_env running) (km_env armed)
    (km_env armed) (hist_of running) (slots_of running) (proj1 running_ok) running_active)
    as (th1 & e1 & slots1 & n & s & s1 & ev & evs & wp & Hbp & _ & _ & _ & _ & _ & _ & _ & _ & _ & H).
  - vm_compute; reflexivity.
  - vm_compute; reflexivity.
  - reflexivity.
  - exact EffAddr.demo_regs_wf.
  - exact EffAddr.demo_regs_wf.
  - exact EffAddr.demo_regs_wf.
  - exact running_slots.
  - exact running_hist.
  - cbn [truthy Z.eqb negb fst modify_user_hw_breakpoint Toy.toy_kernel] in H.
    destruct H as (_ & _ & _ & _ & th2 & e2 & th3 & e3 & s3 & b & H1 & H2 & _ & _ & _ & H3 & _).
    exists th1, e1, (Z.of_nat n), th2, e2, th3, e3, b; split; [exact Hbp|split; [exact H1|split; [exact H2|exact H3]]].
Defined.

Lemma reset_returns_to_start_witness :
  exists ret th' w', rd_reset_thread_locked (ses_of armed) (th_of armed) (km_world armed)
    = Some (ret, th', w') /\ tally th' = row_zero.
Proof.
  destruct (reset_returns_to_start (ses_of armed) (th_of armed) (km_world armed)
    (proj2 armed_ok) (proj1 armed_ok)) as (ret & th' & w' & H & _ & _ & Ht & _).
  exists ret, th', w'; split; [exact H|exact Ht].
Defined.

Lemma module_never_faults_witness :
  exists st', run (BpOverflow 2 demo_regs 101) running = Some st'.
Proof.
  destruct (module_never_faults demo_world 0 running (BpOverflow 2 demo_regs 101)
    running_reachable demo_hit_regs_wf) as [(st' & H & _)|[H _]]; [exists st'; exact H|].
  destruct (is_Some_eval (run (BpOverflow 2 demo_regs 101) running)) as [st' E]; [vm_compute; reflexivity|].
  exists st'; exact E.
Defined.

Lemma reachable_threads_balance_witness :
  reservoir_accepted (th_of armed) ≡₆₄
    hits (th_of armed) + evictions (th_of armed) + dropped (th_of armed) + armed_slots (th_of armed).
Proof.
  destruct (reachable_threads_balance demo_world 0 armed 2 (th_of armed) armed_reachable armed_thread)
    as (_ & _ & H & _); exact H.
Defined.

Lemma reservoir_never_rejects_witness : reservoir_rejected (th_of armed) = 0.
Proof.
  destruct (reservoir_never_rejects demo_world 0 armed 2 (th_of armed) armed_reachable armed_thread)
    as [H _]; exact H.
Defined.

Definition released : kmod := state_after ((setup_actions ++ take 1 hit_actions) ++ [Release 1]).

Lemma released_reachable : reachable demo_world 0 released.
Proof.
  apply snoc_reachable; [apply armed_reachable|]; apply is_Some_eval; vm_compute; reflexivity.
Qed.

Lemma module_leaks_nothing_witness :
  km_sessions released = ∅ /\ live_events (km_world released) = live_events demo_world.
Proof.
  assert (E : km_sessions released = ∅) by (vm_compute; reflexivity).
  split; [exact E|]; apply (module_leaks_nothing demo_world 0 released released_reachable); exact E.
Defined.

Lemma failed_ioctl_has_no_effect_witness :
  exists ret rep st', rd_wpctl_ioctl 1 (REGISTER_THREAD (Some demo_reg)) true running
    = Some (ret, rep, st').
Proof.
  destruct (failed_ioctl_has_no_effect demo_world 0 running 1 (REGISTER_THREAD (Some demo_reg)) true
    running_reachable) as (ret & rep & st' & H & _).
  - apply is_Some_eval; vm_compute; reflexivity.
  - exact I.
  - discriminate.
  - exists ret, rep, st'; exact H.
Defined.

Lemma event_lookup_finds_owner_witness :
  rd_lookup_bp_site_rcu running 2 = Some (Some (2, 0, th_of running ⟦ t_live_refs := 2 ⟧)).
Proof.
  apply (event_lookup_finds_owner demo_world 0 running 2 (th_of running) [Some 2] 0 2
    running_reachable running_thread running_active); vm_compute; reflexivity.
Defined.

Lemma unregister_keeps_results_witness :
  exists st' th', rd_unregister_thread_locked 1 101 armed = Some (0, st') /\
    km_threads st' !! 2 = Some th' /\ t_active th' = false.
Proof.
  destruct (unregister_keeps_results demo_world 0 armed 1 101 2 (ses_of armed) (th_of armed)
    armed_reachable armed_session armed_thread) as (st' & th' & H1 & H2 & H3 & _).
  - vm_compute; reflexivity.
  - vm_compute; reflexivity.
  - exact armed_active.
  - exists st', th'; split; [exact H1|split; [exact H2|exact H3]].
Defined.

(** The whole run: one hit was recorded. *)
Definition reused : kmod := state_after (((setup_actions ++ take 1 hit_actions) ++ [WpReport 3 demo_regs]) ++ [WpReport 3 demo_regs]).

Lemma reused_reachable : reachable demo_world 0 reused.
Proof. apply snoc_reachable; [apply snoc_reachable; [apply armed_reachable|]|]; exact demo_hit_regs_wf. Qed.

Lemma downloaded_histograms_sum_to_hits_witness :
  exists rows, zlen rows = target_count (ses_of reused) /\ t_log2_hist (th_of reused) = Some (concat rows) /\
    sumZ (concat rows) ≡₆₄ 1.
Proof.
  destruct (downloaded_histograms_sum_to_hits demo_world 0 reused 1 2 0 (ses_of reused) (th_of reused)
    reused_reachable) as (_ & (rows & H1 & H2 & H3 & _) & _).
  - apply lookup_default; vm_compute; reflexivity.
  - vm_compute; reflexivity.
  - apply lookup_default; vm_compute; reflexivity.
  - replace (hits (th_of reused)) with 1 in H3 by (vm_compute; reflexivity).
    exists rows; split; [exact H1|split; [exact H2|exact H3]].
Defined.

Lemma session_configuration_is_final_witness :
  session_le (ses_of running) (ses_of armed).
Proof.
  apply (session_configuration_is_final demo_world 0 running armed (BpOverflow 2 demo_regs 101) 1
    (ses_of running) (ses_of armed) running_reachable demo_hit_regs_wf);
    [|exact running_session|exact armed_session].
  change armed with (next running (BpOverflow 2 demo_regs 101)); unfold next.
  apply lookup_default; vm_compute; reflexivity.
Defined.

End KernelDemo.
