(* ===== verification/LiveRef.v ===== *)
(** The race between hits and the release of their thread in [kernel/rd_wpctl.c]:
    [rd_lookup_bp_site_rcu] and [rd_thread_live_get_rcu] on every CPU against
    [rd_thread_detach_live] and the [kfree] of the thread, one memory access per
    step.

    A CPU runs at most one handler at a time, for an event of the thread.  A handler
    looks for the thread in an RCU read section, pins it with a reference and leaves
    the section; the releasing side clears the flags, unlinks the thread, waits for a
    grace period, drops its own reference and waits for the completion that the
    last reference signals.  [synchronize_rcu] waits for exactly the read sections
    that were open when it was called.  Accesses are sequentially consistent. *)
From S2P Require Import Prelude.

Module LiveRef.

(** ** The handlers and the releasing side *)

(** Where the handler of one CPU is. *)
Inductive reader_at :=
| RIdle
| RLocked        (** in [rcu_read_lock] *)
| RFound         (** the list traversal reached the thread *)
| RActive        (** [READ_ONCE(thread->active)] was true *)
| RMatched       (** [thread->bp_events[i] == event] *)
| RTest          (** in [rd_thread_live_get_rcu], [active] was true *)
| RTested        (** and [live_detached] was false *)
| RCounted       (** the reference is taken *)
| RRetest        (** [active] was still true *)
| RUndo          (** the second test failed *)
| RUndoComplete  (** the reference given back was the last one *)
| RPinnedRcu     (** the reference is kept, still in the read section *)
| RPinned        (** the handler runs *)
| RPut           (** the handler is done, the reference is held *)
| RPutComplete   (** the reference put was the last one *)
| RNext          (** the traversal goes on from the thread *)
| RLeaving.      (** before [rcu_read_unlock], without the thread *)
#[export] Instance reader_at_eq_dec : EqDecision reader_at.
Proof. solve_decision. Defined.

(** Where the releasing side is. *)
Inductive detacher_at :=
| DLive
| DInactive      (** [active] is false *)
| DFlagged       (** and [live_detached] is true *)
| DSync          (** unlinked, in [synchronize_rcu] *)
| DSynced
| DComplete      (** its reference was the last one *)
| DWait          (** in [wait_for_completion] *)
| DFreed         (** [rd_thread_free_live] is done *)
| DGone.         (** [kfree(thread)] is done *)
#[export] Instance detacher_at_eq_dec : EqDecision detacher_at.
Proof. solve_decision. Defined.

(** A CPU: its handler, and whether a grace period waits for its section. *)
Record reader := mk_reader { rd_at : reader_at; rd_owed : bool }.

Record live := mk_live {
  lv_active : bool;
  lv_live_detached : bool;
  lv_live_refs : Z;
  lv_live_refs_zero : bool;   (** the completion *)
  lv_listed : bool;
  lv_arrays : bool;           (** the live arrays are allocated *)
  lv_object : bool;           (** the thread is allocated *)
  lv_readers : list reader;
  lv_detacher : detacher_at;
}.
#[export] Instance eta_live : Eta live := fun r =>
  mk_live (lv_active r) (lv_live_detached r) (lv_live_refs r) (lv_live_refs_zero r) (lv_listed r) (lv_arrays r)
    (lv_object r) (lv_readers r) (lv_detacher r).

(** A registered thread, before any hit. *)
Definition live_init (cpus : nat) : live :=
  mk_live true false 1 false true true true (replicate cpus (mk_reader RIdle false)) DLive.

Definition in_rcu (a : reader_at) : bool :=
  match a with RIdle | RPinned | RPut | RPutComplete => false | _ => true end.

(** [refcount_dec_and_test]. *)
Definition dec_and_test (s : live) : bool * live :=
  (lv_live_refs s - 1 =? 0, s ⟦ lv_live_refs := lv_live_refs s - 1 ⟧).

(** An access to the thread, and to its arrays; [None] when they are freed. *)
Definition at_object {A} (s : live) (x : A) : option A := if lv_object s then Some x else None.
Definition at_arrays {A} (s : live) (x : A) : option A := if lv_object s && lv_arrays s then Some x else None.

(** One access of the handler of a CPU: where it goes on, and the state. *)
Definition handler_access (a : reader_at) (s : live) : option (reader_at * live) :=
  match a with
  | RIdle => Some (RLocked, s)
  | RLocked => Some (if lv_listed s then RFound else RLeaving, s)
  | RFound => at_object s (if lv_active s then RActive else RNext, s)
  | RActive => at_arrays s (RMatched, s)
  | RMatched => at_object s (if lv_active s then RTest else RNext, s)
  | RTest => at_object s (if lv_live_detached s then RNext else RTested, s)
  | RTested =>
      at_object s (if lv_live_refs s =? 0 then (RNext, s) else (RCounted, s ⟦ lv_live_refs := lv_live_refs s + 1 ⟧))
  | RCounted => at_object s (if lv_active s then RRetest else RUndo, s)
  | RRetest => at_object s (if lv_live_detached s then RUndo else RPinnedRcu, s)
  | RUndo => at_object s (let '(last, s) := dec_and_test s in (if last then RUndoComplete else RNext, s))
  | RUndoComplete => at_object s (RNext, s ⟦ lv_live_refs_zero := true ⟧)
  | RPinnedRcu => Some (RPinned, s)
  | RPinned => at_arrays s (RPut, s)
  | RPut => at_object s (let '(last, s) := dec_and_test s in (if last then RPutComplete else RIdle, s))
  | RPutComplete => at_object s (RIdle, s ⟦ lv_live_refs_zero := true ⟧)
  | RNext => at_object s (RLeaving, s)
  | RLeaving => Some (RIdle, s)
  end.

(** A CPU makes a step; leaving the read section pays what is owed. *)
Definition reader_step (i : nat) (s : live) : option live :=
  r ← lv_readers s !! i;
  '(a, s) ← handler_access (rd_at r) s;
  Some (s ⟦ lv_readers ::= <[i := mk_reader a (rd_owed r && in_rcu a)]> ⟧).

(** The releasing side; [None] is a wait. *)
Definition detach_step (s : live) : option live :=
  match lv_detacher s with
  | DLive => Some (s ⟦ lv_active := false ⟧ ⟦ lv_detacher := DInactive ⟧)
  | DInactive => Some (s ⟦ lv_live_detached := true ⟧ ⟦ lv_detacher := DFlagged ⟧)
  | DFlagged =>
      Some (s ⟦ lv_listed := false ⟧ ⟦ lv_readers ::= fmap (fun r => mk_reader (rd_at r) (in_rcu (rd_at r))) ⟧
              ⟦ lv_detacher := DSync ⟧)
  | DSync => if existsb rd_owed (lv_readers s) then None else Some (s ⟦ lv_detacher := DSynced ⟧)
  | DSynced => let '(last, s) := dec_and_test s in Some (s ⟦ lv_detacher := if last then DComplete else DWait ⟧)
  | DComplete => Some (s ⟦ lv_live_refs_zero := true ⟧ ⟦ lv_detacher := DWait ⟧)
  | DWait => if lv_live_refs_zero s then Some (s ⟦ lv_arrays := false ⟧ ⟦ lv_detacher := DFreed ⟧) else None
  | DFreed => Some (s ⟦ lv_object := false ⟧ ⟦ lv_detacher := DGone ⟧)
  | DGone => None
  end.

Inductive live_run (cpus : nat) : live -> Prop :=
| live_start : live_run cpus (live_init cpus)
| live_reader i s s' : live_run cpus s -> reader_step i s = Some s' -> live_run cpus s'
| live_detach s s' : live_run cpus s -> detach_step s = Some s' -> live_run cpus s'.

(** The release with a bounded number of hits still to come: a step of a running
    handler, a new hit, or a step of the releasing side. *)
Inductive release_step : nat * live -> nat * live -> Prop :=
| release_reader n i s s' : (rd_at <$> lv_readers s !! i) ≠ Some RIdle -> reader_step i s = Some s' ->
    release_step (n, s) (n, s')
| release_hit n i s s' : (rd_at <$> lv_readers s !! i) = Some RIdle -> reader_step i s = Some s' ->
    release_step (S n, s) (n, s')
| release_detach n s s' : detach_step s = Some s' -> release_step (n, s) (n, s').

(** ** The invariant *)

(** The handler holds a counted reference; it is about to signal the completion; it
    has the thread in a read section. *)
Definition holds (a : reader_at) : bool :=
  match a with RCounted | RRetest | RUndo | RPinnedRcu | RPinned | RPut => true | _ => false end.
Definition completing (a : reader_at) : bool := match a with RUndoComplete | RPutComplete => true | _ => false end.
Definition sees (a : reader_at) : bool :=
  match a with RIdle | RLocked | RPinned | RPut | RPutComplete | RLeaving => false | _ => true end.

(** The reference of the releasing side, and its turn to signal. *)
Definition own_ref (d : detacher_at) : Z := match d with DComplete | DWait | DFreed | DGone => 0 | _ => 1 end.
Definition own_complete (d : detacher_at) : Z := match d with DComplete => 1 | _ => 0 end.
Definition unlinked (d : detacher_at) : bool := match d with DLive | DInactive | DFlagged => false | _ => true end.
Definition after_sync (d : detacher_at) : bool := match d with DSync => false | d => unlinked d end.
Definition freed (d : detacher_at) : bool := match d with DFreed | DGone => true | _ => false end.

Record live_inv (s : live) : Prop := {
  li_refs : lv_live_refs s = own_ref (lv_detacher s) + zcount (fun r => holds (rd_at r)) (lv_readers s);
  li_zero : own_complete (lv_detacher s) + zcount (fun r => completing (rd_at r)) (lv_readers s)
              + Z.b2z (lv_live_refs_zero s) = Z.b2z (lv_live_refs s =? 0);
  li_listed : lv_listed s = negb (unlinked (lv_detacher s));
  li_owed_rcu : Forall (fun r => rd_owed r = true -> in_rcu (rd_at r) = true) (lv_readers s);
  li_owed : unlinked (lv_detacher s) = true -> Forall (fun r => sees (rd_at r) = true -> rd_owed r = true) (lv_readers s);
  li_synced : after_sync (lv_detacher s) = true -> Forall (fun r => sees (rd_at r) = false) (lv_readers s);
  li_arrays : lv_arrays s = negb (freed (lv_detacher s));
  li_object : lv_object s = negb (bool_decide (lv_detacher s = DGone));
  li_freed : freed (lv_detacher s) = true -> lv_live_refs_zero s = true;
}.

Lemma live_init_inv cpus : live_inv (live_init cpus).
Proof. by split; cbn; rewrite ?zcount_replicate; try apply Forall_replicate. Qed.

(** What the invariant says of one CPU: its handler moves within the counts. *)
Section one_cpu.
Context (s : live) (i : nat) (r : reader) (Hi : live_inv s) (Hr : lv_readers s !! i = Some r).

Lemma cpu_holds : holds (rd_at r) = true -> own_ref (lv_detacher s) < lv_live_refs s.
Proof.
  intros Hh; rewrite (li_refs _ Hi).
  pose proof (zcount_insert (fun r => holds (rd_at r)) _ i r (mk_reader RIdle false) Hr) as E; cbn in E; rewrite Hh in E.
  pose proof (zcount_range (fun r => holds (rd_at r)) (<[i := mk_reader RIdle false]> (lv_readers s))); lia.
Qed.

Lemma cpu_completing : completing (rd_at r) = true -> lv_live_refs s = 0 /\ lv_live_refs_zero s = false.
Proof.
  intros Hc; pose proof (li_zero _ Hi) as Ez.
  pose proof (zcount_insert (fun r => completing (rd_at r)) _ i r (mk_reader RIdle false) Hr) as E; cbn in E; rewrite Hc in E.
  pose proof (zcount_range (fun r => completing (rd_at r)) (<[i := mk_reader RIdle false]> (lv_readers s))) as Hz.
  assert (0 <= own_complete (lv_detacher s)) by by destruct (lv_detacher s).
  destruct (Z.eqb_spec (lv_live_refs s) 0), (lv_live_refs_zero s); cbn in Ez; split; first [done | lia].
Qed.

Lemma cpu_sees : sees (rd_at r) = true ->
  after_sync (lv_detacher s) = false /\ (unlinked (lv_detacher s) = true -> rd_owed r = true).
Proof.
  intros Hs; split.
  - destruct (after_sync _) eqn:Ea; [|done]; pose proof (li_synced _ Hi Ea) as F; eapply Forall_lookup_1 in F; [|exact Hr].
    cbn in F; congruence.
  - intros Hu; pose proof (li_owed _ Hi Hu) as F; eapply Forall_lookup_1 in F; [|exact Hr]; auto.
Qed.

(** While a handler has the thread, in a read section, by a reference or before
    the completion, the thread and its arrays are allocated. *)
Lemma not_freed : holds (rd_at r) = true \/ completing (rd_at r) = true \/ sees (rd_at r) = true ->
  lv_object s = true /\ lv_arrays s = true.
Proof.
  intros H; assert (Hf : freed (lv_detacher s) = false).
  { destruct (freed _) eqn:Hf; [|done]; pose proof (li_freed _ Hi Hf) as Ez; destruct H as [H|[H|H]].
    - pose proof (cpu_holds H); pose proof (li_zero _ Hi) as E; rewrite Ez in E.
      pose proof (zcount_range (fun r => completing (rd_at r)) (lv_readers s)).
      destruct (lv_detacher s), (Z.eqb_spec (lv_live_refs s) 0); cbn in *; first [done | lia].
    - by rewrite (proj2 (cpu_completing H)) in Ez.
    - destruct (cpu_sees H) as [E _]; by destruct (lv_detacher s). }
  rewrite (li_object _ Hi), (li_arrays _ Hi); by destruct (lv_detacher s).
Qed.

(** A step of the handler keeps the invariant when it accounts for its reference and
    for its turn to signal, and finds the thread only through the list. *)
Lemma inv_reader a refs zero :
  refs = lv_live_refs s - Z.b2z (holds (rd_at r)) + Z.b2z (holds a) ->
  Z.b2z (refs =? 0) = Z.b2z (lv_live_refs s =? 0) - Z.b2z (completing (rd_at r)) - Z.b2z (lv_live_refs_zero s)
                        + Z.b2z (completing a) + Z.b2z zero ->
  (lv_live_refs_zero s = true -> zero = true) ->
  (sees a = true -> sees (rd_at r) = true \/ lv_listed s = true) ->
  live_inv (s ⟦ lv_live_refs := refs ⟧ ⟦ lv_live_refs_zero := zero ⟧
              ⟦ lv_readers ::= <[i := mk_reader a (rd_owed r && in_rcu a)]> ⟧).
Proof.
  intros -> Ez Hz Hs; pose proof (li_zero _ Hi) as Iz; pose proof (li_refs _ Hi) as Ir.
  assert (Hsee : sees a = true -> after_sync (lv_detacher s) = false /\ (unlinked (lv_detacher s) = true -> rd_owed r && in_rcu a = true)).
  { intros Ha; destruct (Hs Ha) as [H|H].
    - destruct (cpu_sees H) as [H1 H2]; split; [done|]; intros Hu; rewrite (H2 Hu); by destruct a.
    - rewrite (li_listed _ Hi) in H; by destruct (lv_detacher s). }
  split; cbn; try by destruct Hi.
  - rewrite (zcount_insert _ _ i r _ Hr), Ir; cbn; unfold Z.b2z; lia.
  - rewrite Ez, (zcount_insert _ _ i r _ Hr); cbn; unfold Z.b2z in *; lia.
  - apply Forall_insert; [apply (li_owed_rcu _ Hi)|]; cbn; by intros [_ ?]%andb_true_iff.
  - intros Hu; apply Forall_insert; [by apply (li_owed _ Hi)|]; cbn; intros Ha; by apply Hsee.
  - intros Hu; apply Forall_insert; [by apply (li_synced _ Hi)|]; cbn; destruct (sees a); [|done].
    by destruct (Hsee eq_refl) as [E _]; rewrite E in Hu.
  - intros Hf; by apply Hz, (li_freed _ Hi).
Qed.

End one_cpu.

Lemma live_id s : s ⟦ lv_live_refs := lv_live_refs s ⟧ ⟦ lv_live_refs_zero := lv_live_refs_zero s ⟧ = s.
Proof. by destruct s. Qed.

(** The three ways a handler's step changes the counts. *)
Section handler_moves.
Context (s : live) (i : nat) (r : reader) (Hi : live_inv s) (Hr : lv_readers s !! i = Some r).

Abbreviation goes a s' := (s' ⟦ lv_readers ::= <[i := mk_reader a (rd_owed r && in_rcu a)]> ⟧).

Lemma move_same a : holds a = holds (rd_at r) -> completing a = completing (rd_at r) ->
  (sees a = true -> sees (rd_at r) = true \/ lv_listed s = true) -> live_inv (goes a s).
Proof.
  intros E1 E2 Hs; rewrite <- (live_id s) at 1; apply inv_reader; try done; rewrite ?E1, ?E2; lia.
Qed.

Lemma move_put a b : holds (rd_at r) = true -> completing (rd_at r) = false ->
  holds a = false -> holds b = false -> completing a = true -> completing b = false ->
  (sees a || sees b = true -> sees (rd_at r) = true) ->
  let '(last, s') := dec_and_test s in live_inv (goes (if last then a else b) s').
Proof.
  intros Hh Hc Ha Hb Hca Hcb Hs; cbn; pose proof (cpu_holds s i r Hi Hr Hh) as Hl; pose proof (li_zero _ Hi) as Ez.
  assert (0 <= own_ref (lv_detacher s) /\ 0 <= own_complete (lv_detacher s)) by (split; by destruct (lv_detacher s)).
  pose proof (zcount_range (fun r => completing (rd_at r)) (lv_readers s)).
  destruct (Z.eqb_spec (lv_live_refs s) 0) as [|Hz]; [lia|].
  assert (E0 : lv_live_refs_zero s = false) by (destruct (lv_live_refs_zero s); cbn in *; [lia|done]).
  change (s ⟦ lv_live_refs := lv_live_refs s - 1 ⟧) with (s ⟦ lv_live_refs := lv_live_refs s - 1 ⟧ ⟦ lv_live_refs_zero := lv_live_refs_zero s ⟧).
  destruct (Z.eqb_spec (lv_live_refs s - 1) 0) as [E|E]; apply inv_reader; try done;
    rewrite ?Hh, ?Hc, ?Ha, ?Hb, ?Hca, ?Hcb, ?E0; cbn; try lia.
  - rewrite E, (proj2 (Z.eqb_neq (lv_live_refs s) 0) Hz); done.
  - intros Hse; left; apply Hs; by rewrite Hse.
  - by rewrite (proj2 (Z.eqb_neq _ 0) E), (proj2 (Z.eqb_neq (lv_live_refs s) 0) Hz).
  - intros Hse; left; apply Hs; by rewrite Hse, orb_true_r.
Qed.

Lemma move_complete a : completing (rd_at r) = true -> holds a = false -> completing a = false ->
  (sees a = true -> sees (rd_at r) = true) -> live_inv (goes a (s ⟦ lv_live_refs_zero := true ⟧)).
Proof.
  intros Hc Ha Hca Hs; destruct (cpu_completing s i r Hi Hr Hc) as [E0 E1].
  change (s ⟦ lv_live_refs_zero := true ⟧) with (s ⟦ lv_live_refs := lv_live_refs s ⟧ ⟦ lv_live_refs_zero := true ⟧).
  assert (Eh : holds (rd_at r) = false) by by destruct (rd_at r).
  apply inv_reader; auto; rewrite ?E0, ?E1, ?Hc, ?Ha, ?Hca, ?Eh; cbn; lia.
Qed.

Lemma move_get : rd_at r = RTested -> lv_live_refs s ≠ 0 ->
  live_inv (goes RCounted (s ⟦ lv_live_refs := lv_live_refs s + 1 ⟧)).
Proof.
  intros Ea Hz; change (s ⟦ lv_live_refs := lv_live_refs s + 1 ⟧) with
    (s ⟦ lv_live_refs := lv_live_refs s + 1 ⟧ ⟦ lv_live_refs_zero := lv_live_refs_zero s ⟧).
  assert (Hp : 0 <= lv_live_refs s).
  { rewrite (li_refs _ Hi); pose proof (zcount_range (fun r => holds (rd_at r)) (lv_readers s)).
    assert (0 <= own_ref (lv_detacher s)) by by destruct (lv_detacher s).
    lia. }
  apply inv_reader; rewrite ?Ea; cbn; auto; try lia.
  rewrite (proj2 (Z.eqb_neq (lv_live_refs s) 0) Hz), (proj2 (Z.eqb_neq (lv_live_refs s + 1) 0)); cbn; lia.
Qed.

End handler_moves.

(** No access of a handler faults, and the invariant is kept. *)
Lemma reader_step_inv i s : live_inv s -> is_Some (lv_readers s !! i) ->
  exists s', reader_step i s = Some s' /\ live_inv s'.
Proof.
  intros Hi [r Hr]; unfold reader_step; rewrite Hr, some_bind; pose proof (not_freed s i r Hi Hr) as Hn.
  assert (Hm : forall a s', handler_access (rd_at r) s = Some (a, s') ->
    live_inv (s' ⟦ lv_readers ::= <[i := mk_reader a (rd_owed r && in_rcu a)]> ⟧)).
  { intros a s'; pose proof (move_same s i r Hi Hr) as Ms; pose proof (move_put s i r Hi Hr) as Mp.
    pose proof (move_complete s i r Hi Hr) as Mc; pose proof (move_get s i r Hi Hr) as Mg.
    destruct (rd_at r) eqn:Er; cbn; unfold at_object, at_arrays;
      try (destruct (lv_object s); cbn; [|done]); try (destruct (lv_arrays s); cbn; [|done]);
      repeat match goal with
      | |- context [if lv_live_refs s =? 0 then _ else _] => destruct (Z.eqb_spec (lv_live_refs s) 0)
      | |- context [if ?b s then _ else _] => destruct (b s) eqn:?
      end; intros E; injection E as <- <-;
      first [by apply Ms; auto | by apply Mc | by apply Mg
            | by apply (Mp RUndoComplete RNext) | by apply (Mp RPutComplete RIdle)]. }
  assert (Hs : is_Some (handler_access (rd_at r) s)).
  { destruct (rd_at r); cbn; unfold at_object, at_arrays;
      try (destruct Hn as [Eo Ea]; [by auto|rewrite ?Eo, ?Ea]); by eexists. }
  destruct Hs as [[a s'] E]; rewrite E, some_bind; eauto.
Qed.

(** Unlinking the thread makes the grace period wait for every handler that has it. *)
Lemma unlink_inv s : live_inv s -> lv_detacher s = DFlagged ->
  live_inv (s ⟦ lv_listed := false ⟧ ⟦ lv_readers ::= fmap (fun r => mk_reader (rd_at r) (in_rcu (rd_at r))) ⟧
              ⟦ lv_detacher := DSync ⟧).
Proof.
  intros Hi Ed; split; cbn; rewrite ?zcount_fmap; try (destruct Hi; rewrite ?Ed in *; by auto).
  - apply Forall_fmap, Forall_forall; auto.
  - intros _; apply Forall_fmap, Forall_forall; intros [a o] _; by destruct a.
Qed.

(** The end of the grace period leaves no handler in a section with the thread. *)
Lemma synced_inv s : live_inv s -> lv_detacher s = DSync -> existsb rd_owed (lv_readers s) = false ->
  live_inv (s ⟦ lv_detacher := DSynced ⟧).
Proof.
  intros Hi Ed Ee; split; cbn; try (destruct Hi; rewrite ?Ed in *; by auto).
  intros _; pose proof (li_owed _ Hi) as Ho; rewrite Ed in Ho; specialize (Ho eq_refl); rewrite Forall_forall in *.
  intros r Hr; destruct (sees _) eqn:Es; [|done]; rewrite <- Ee; symmetry; apply existsb_exists.
  exists r; split; [by apply list_elem_of_In|]; by apply Ho.
Qed.

(** Past the grace period, the releasing side drops its reference, signals, waits
    and frees. *)
Lemma after_sync_inv s d refs zero arrays object :
  live_inv s -> after_sync (lv_detacher s) = true -> after_sync d = true ->
  refs = own_ref d + zcount (fun r => holds (rd_at r)) (lv_readers s) ->
  own_complete d + Z.b2z zero - own_complete (lv_detacher s) - Z.b2z (lv_live_refs_zero s)
    = Z.b2z (refs =? 0) - Z.b2z (lv_live_refs s =? 0) ->
  arrays = negb (freed d) -> object = negb (bool_decide (d = DGone)) -> (freed d = true -> zero = true) ->
  live_inv (s ⟦ lv_live_refs := refs ⟧ ⟦ lv_live_refs_zero := zero ⟧ ⟦ lv_arrays := arrays ⟧ ⟦ lv_object := object ⟧
              ⟦ lv_detacher := d ⟧).
Proof.
  intros Hi Es Ed Er Ez Ea Eo Hf; pose proof (li_zero _ Hi) as Iz.
  assert (Hu : forall d, after_sync d = true -> unlinked d = true) by by intros [].
  split; cbn; try done.
  - lia.
  - rewrite (li_listed _ Hi), (Hu _ Es), (Hu _ Ed); done.
  - apply (li_owed_rcu _ Hi).
  - intros _; by apply (li_owed _ Hi), Hu.
  - intros _; by apply (li_synced _ Hi).
Qed.

Lemma detach_step_inv s s' : live_inv s -> detach_step s = Some s' -> live_inv s'.
Proof.
  intros Hi; pose proof (li_refs _ Hi) as Ir; pose proof (li_zero _ Hi) as Iz; unfold detach_step.
  pose proof (zcount_range (fun r => holds (rd_at r)) (lv_readers s)).
  pose proof (zcount_range (fun r => completing (rd_at r)) (lv_readers s)).
  pose proof (li_arrays _ Hi) as Ia; pose proof (li_object _ Hi) as Io.
  pose proof (fun d refs zero arrays object => after_sync_inv s d refs zero arrays object Hi) as Ha.
  destruct (lv_detacher s) eqn:Ed; cbn in Ir, Iz, Ia, Io, Ha.
  - intros [= <-]; destruct Hi; split; cbn; rewrite ?Ed in *; auto.
  - intros [= <-]; destruct Hi; split; cbn; rewrite ?Ed in *; auto.
  - intros [= <-]; by apply unlink_inv.
  - destruct (existsb _ _) eqn:Ee; [done|]; intros [= <-]; by apply synced_inv.
  - cbn; intros [= <-]; destruct (Z.eqb_spec (lv_live_refs s) 0) as [|E0]; [lia|].
    destruct (Z.eqb_spec (lv_live_refs s - 1) 0) as [E1|E1].
    + apply (Ha DComplete (lv_live_refs s - 1) (lv_live_refs_zero s) (lv_arrays s) (lv_object s)); try done; cbn; try lia.
      rewrite E1; by destruct (lv_live_refs_zero s).
    + apply (Ha DWait (lv_live_refs s - 1) (lv_live_refs_zero s) (lv_arrays s) (lv_object s)); try done; cbn; try lia.
      rewrite (proj2 (Z.eqb_neq _ 0) E1); by destruct (lv_live_refs_zero s).
  - intros [= <-]; apply (Ha DWait (lv_live_refs s) true (lv_arrays s) (lv_object s)); try done; cbn.
    destruct (lv_live_refs_zero s), (lv_live_refs s =? 0); cbn in *; lia.
  - destruct (lv_live_refs_zero s) eqn:Ez; [|done]; intros [= <-].
    apply (Ha DFreed (lv_live_refs s) (lv_live_refs_zero s) false (lv_object s)); rewrite ?Ez; try done; cbn; lia.
  - intros [= <-]; pose proof (li_freed _ Hi) as Hf; rewrite Ed in Hf.
    apply (Ha DGone (lv_live_refs s) (lv_live_refs_zero s) (lv_arrays s) false); rewrite ?Hf; try done; cbn; lia.
  - done.
Qed.

Lemma handler_keeps a s a' s' : handler_access a s = Some (a', s') ->
  lv_readers s' = lv_readers s /\ lv_detacher s' = lv_detacher s.
Proof.
  destruct a; cbn; unfold at_object, at_arrays; repeat case_match; intros E; try discriminate E; by injection E as _ <-.
Qed.

Lemma reader_step_readers i s s' : reader_step i s = Some s' ->
  exists r a, lv_readers s !! i = Some r /\ (fst <$> handler_access (rd_at r) s) = Some a /\
    lv_detacher s' = lv_detacher s /\ lv_readers s' = <[i := mk_reader a (rd_owed r && in_rcu a)]> (lv_readers s).
Proof.
  unfold reader_step; intros (r & Hr & ([a s1] & Ha & E)%bind_Some)%bind_Some; injection E as <-.
  destruct (handler_keeps _ _ _ _ Ha) as [Er Ed]; exists r, a; rewrite Ha; cbn; by rewrite Er.
Qed.

Lemma detach_step_readers s s' : detach_step s = Some s' ->
  rd_at <$> lv_readers s' = rd_at <$> lv_readers s.
Proof.
  unfold detach_step; destruct (lv_detacher s); cbn; try case_match; intros E; try discriminate E; injection E as <-; try done.
  cbn; rewrite <- list_fmap_compose; by apply list_fmap_ext.
Qed.

Lemma live_run_inv cpus s : live_run cpus s -> live_inv s /\ length (lv_readers s) = cpus.
Proof.
  induction 1 as [|i s s' _ [IH Hl] E|s s' _ [IH Hl] E].
  - split; [apply live_init_inv|]; apply length_replicate.
  - destruct (reader_step_readers i s s' E) as (r & a & Hr & _ & _ & Er); rewrite Er, length_insert; split; [|done].
    destruct (reader_step_inv i s IH) as (s'' & E' & Hi); [by rewrite Hr|]; by rewrite E in E'; injection E' as <-.
  - split; [by eapply detach_step_inv|]; apply detach_step_readers, (f_equal length) in E.
    rewrite !length_fmap in E; congruence.
Qed.

(** [live_refs] counts the references that are held: the one of the releasing side
    until it drops it, and one for each handler between its increment and its put. *)
Lemma live_refs_counts cpus s : live_run cpus s ->
  lv_live_refs s = own_ref (lv_detacher s) + zcount (fun r => holds (rd_at r)) (lv_readers s).
Proof. intros H; apply (li_refs _ (proj1 (live_run_inv cpus s H))). Qed.

(** C4. No interleaving of hits on any number of CPUs with the release of the thread
    touches freed memory: a handler that can move can always make its next access.
    The pinned handler still has its arrays. *)
Theorem hits_never_touch_freed_memory cpus s i : live_run cpus s -> (i < cpus)%nat -> is_Some (reader_step i s).
Proof.
  intros [Hi Hl]%live_run_inv Hc; destruct (reader_step_inv i s Hi) as (s' & E & _); [|by exists s'].
  apply lookup_lt_is_Some; by rewrite Hl.
Qed.

(** ** The release ends *)

(** The accesses a handler, and the releasing side, still make at most. *)
Definition handler_rank (a : reader_at) : Z :=
  match a with
  | RIdle => 0 | RLeaving => 1 | RNext => 2 | RPutComplete => 1 | RPut => 2 | RPinned => 3 | RPinnedRcu => 4
  | RUndoComplete => 3 | RUndo => 4 | RRetest => 5 | RCounted => 6 | RTested => 7 | RTest => 8 | RMatched => 9
  | RActive => 10 | RFound => 11 | RLocked => 12
  end.
Definition detacher_rank (d : detacher_at) : Z :=
  match d with
  | DLive => 8 | DInactive => 7 | DFlagged => 6 | DSync => 5 | DSynced => 4 | DComplete => 3 | DWait => 2 | DFreed => 1
  | DGone => 0
  end.
Definition release_rank (p : nat * live) : nat :=
  Z.to_nat (13 * Z.of_nat p.1 + sumZ (handler_rank <$> (rd_at <$> lv_readers p.2)) + detacher_rank (lv_detacher p.2)).

Lemma handler_rank_nonneg a : 0 <= handler_rank a.
Proof. by destruct a. Qed.

Lemma detacher_rank_nonneg d : 0 <= detacher_rank d.
Proof. by destruct d. Qed.

Lemma handler_rank_dec a s a' : (fst <$> handler_access a s) = Some a' -> a ≠ RIdle -> handler_rank a' < handler_rank a.
Proof.
  destruct a; cbn; unfold at_object, at_arrays; repeat case_match; intros E ?; try discriminate E; try done;
    injection E as <-; by cbn.
Qed.

Lemma ranks_nonneg l : 0 <= sumZ (handler_rank <$> l).
Proof. induction l as [|a l IH]; [done|]; rewrite fmap_cons, sumZ_cons; pose proof (handler_rank_nonneg a); lia. Qed.

Lemma reader_step_rank i s s' : reader_step i s = Some s' -> exists a a',
  rd_at <$> lv_readers s !! i = Some a /\ (fst <$> handler_access a s) = Some a' /\ lv_detacher s' = lv_detacher s /\
  sumZ (handler_rank <$> (rd_at <$> lv_readers s'))
    = sumZ (handler_rank <$> (rd_at <$> lv_readers s)) - handler_rank a + handler_rank a'.
Proof.
  intros (r & a & Hr & Ha & Ed & Er)%reader_step_readers; exists (rd_at r), a; rewrite Hr, Er; split_and!; auto.
  rewrite !list_fmap_insert; cbn; apply sumZ_insert; rewrite !list_lookup_fmap, Hr; done.
Qed.

Lemma release_step_rank p q : release_step p q -> (release_rank q < release_rank p)%nat.
Proof.
  unfold release_rank; intros [n i s s' Hb E|n i s s' Hb E|n s s' E]; cbn [fst snd].
  - destruct (reader_step_rank i s s' E) as (a & a' & Ha & Hh & -> & Es).
    assert (handler_rank a' < handler_rank a) by (eapply handler_rank_dec; [done|]; congruence).
    pose proof (ranks_nonneg (rd_at <$> lv_readers s')); pose proof (detacher_rank_nonneg (lv_detacher s)); lia.
  - destruct (reader_step_rank i s s' E) as (a & a' & Ha & Hh & -> & Es); rewrite Ha in Hb; injection Hb as ->.
    injection Hh as <-; cbn [handler_rank] in Es; pose proof (ranks_nonneg (rd_at <$> lv_readers s')); pose proof (detacher_rank_nonneg (lv_detacher s)); lia.
  - rewrite (detach_step_readers s s' E); pose proof (ranks_nonneg (rd_at <$> lv_readers s)).
    assert (detacher_rank (lv_detacher s') < detacher_rank (lv_detacher s) /\ 0 <= detacher_rank (lv_detacher s')); [|lia].
    revert E; unfold detach_step; destruct (lv_detacher s); cbn; try case_match; intros E; try discriminate E; by injection E as <-.
Qed.

(** While the releasing side waits, a handler can move. *)
Lemma release_progress n s : live_inv s -> lv_detacher s = DGone \/ exists q, release_step (n, s) q.
Proof.
  intros Hi; destruct (detach_step s) as [s'|] eqn:E; [right; eexists; by apply release_detach|].
  assert (Hbusy : lv_detacher s = DGone \/ exists i r, lv_readers s !! i = Some r /\ rd_at r ≠ RIdle).
  { pose proof (li_zero _ Hi) as Iz; pose proof (li_refs _ Hi) as Ir; revert E; unfold detach_step.
    destruct (lv_detacher s) eqn:Ed; cbn; try done; try case_match; try done; intros _; [| |by left]; right.
    - apply existsb_exists in H as (r & Hr & Ho); apply list_elem_of_In, list_elem_of_lookup in Hr as [i Hr].
      exists i, r; split; [done|]; pose proof (li_owed_rcu _ Hi) as F; eapply Forall_lookup_1 in F; [|exact Hr].
      specialize (F Ho); intros Ha; by rewrite Ha in F.
    - assert (Hz : 0 < zcount (fun r => holds (rd_at r)) (lv_readers s) \/ 0 < zcount (fun r => completing (rd_at r)) (lv_readers s)).
      { pose proof (zcount_range (fun r => holds (rd_at r)) (lv_readers s)).
        destruct (Z.eqb_spec (lv_live_refs s) 0); cbn in *; lia. }
      destruct Hz as [(i & r & Hr & Hp)%zcount_exists|(i & r & Hr & Hp)%zcount_exists]; exists i, r; split; auto;
        intros Ha; by rewrite Ha in Hp. }
  destruct Hbusy as [?|(i & r & Hr & Hb)]; [by left|]; right.
  destruct (reader_step_inv i s Hi) as (s' & Es & _); [by rewrite Hr|].
  exists (n, s'); apply (release_reader n i); [|done]; rewrite Hr; cbn; congruence.
Qed.

Lemma release_step_inv p q : release_step p q -> live_inv p.2 -> live_inv q.2.
Proof.
  assert (Hrd : forall i s s', reader_step i s = Some s' -> live_inv s -> live_inv s').
  { intros i s s' E Hi; destruct (reader_step_readers i s s' E) as (r & a & Hr & _).
    destruct (reader_step_inv i s Hi) as (s'' & E' & H); [by rewrite Hr|]; by rewrite E in E'; injection E' as <-. }
  intros [n i s s' _ E|n i s s' _ E|n s s' E] Hi; cbn in *; eauto using detach_step_inv.
Qed.

(** C5. From any reachable point, with any finite number of hits still to come, every
    schedule of the CPUs and the releasing side ends with the thread freed:
    [synchronize_rcu] and [wait_for_completion] never wait forever. *)
Theorem release_always_ends cpus s hits : live_run cpus s ->
  inevitable release_step (fun p => lv_detacher p.2 = DGone) (hits, s).
Proof.
  intros [Hi _]%live_run_inv; eapply (inevitable_by_invariant _ (fun p => live_inv p.2) _ release_rank).
  - intros [n t] Ht; by apply release_progress.
  - intros p q Hp Hs; split; [by eapply release_step_inv|by apply release_step_rank].
  - done.
Qed.

(** ** A race *)

(** CPU 0 pins the thread and runs its handler; CPU 1 finds the thread and counts
    itself before [active] is cleared, and its second test undoes that; the
    releasing side gets past the grace period. *)
Definition race : list (option nat) :=
  replicate 10 (Some 0%nat) ++ replicate 7 (Some 1%nat) ++ [None; None; None] ++ replicate 4 (Some 1%nat) ++ [None; None].

Fixpoint run_moves (ms : list (option nat)) (s : live) : option live :=
  match ms with
  | [] => Some s
  | m :: ms => s ← match m with Some i => reader_step i s | None => detach_step s end; run_moves ms s
  end.

Lemma run_moves_run cpus ms s s' : live_run cpus s -> run_moves ms s = Some s' -> live_run cpus s'.
Proof.
  revert s; induction ms as [|[i|] ms IH]; intros s Hs; cbn; [by intros [= <-]| |]; intros (t & E & H)%bind_Some;
    eapply IH; try exact H; [by eapply live_reader|by eapply live_detach].
Qed.

Definition raced : live := default (live_init 2) (run_moves race (live_init 2)).

Lemma raced_run : live_run 2 raced.
Proof. eapply (run_moves_run 2 race); [apply live_start|]; vm_compute; reflexivity. Qed.

(** The releasing side now waits for CPU 0, which no read section protects: the
    reference does. *)
Example raced_state :
  (lv_detacher raced, lv_live_refs raced, rd_at <$> lv_readers raced) = (DWait, 1, [RPinned; RIdle]).
Proof. vm_compute. reflexivity. Qed.

Lemma hits_never_touch_freed_memory_witness : is_Some (reader_step 0 raced).
Proof. apply (hits_never_touch_freed_memory 2 raced 0); [apply raced_run|lia]. Defined.

Lemma release_always_ends_witness : inevitable release_step (fun p => lv_detacher p.2 = DGone) (5%nat, raced).
Proof. apply (release_always_ends 2 raced 5), raced_run. Defined.

End LiveRef.
