(* ===== verification/ModuleLoad.v ===== *)
(** Loading and unloading of the kernel module: [rd_wpctl_init] and [rd_wpctl_exit]
    of [kernel/rd_wpctl.c].  A loaded module has two kprobes and a device; the device
    comes last and goes first, so that a session exists only while its hits are
    seen. *)
From S2P Require Import Prelude KernelApi Handlers Session.

Module ModuleLoad.

Inductive hook := OverflowKprobe | WatchpointKprobe | Miscdev.
#[export] Instance hook_eq_dec : EqDecision hook.
Proof. solve_decision. Defined.

(** What is registered, the latest first, and every list it went through. *)
Record hooks := mk_hooks { hk_registered : list hook; hk_passed : list (list hook) }.

Section loading.
Context `{K : KernelApi}.
(** [register_kprobe] and [misc_register]: the kernel's answer. *)
Context (answer : hook -> list hook -> Z).

Definition now_registered (l : list hook) (s : hooks) : hooks := mk_hooks l (l :: hk_passed s).
Definition register (h : hook) (s : hooks) : Z * hooks :=
  let ret := answer h (hk_registered s) in
  (ret, if ret =? 0 then now_registered (h :: hk_registered s) s else s).
Definition unregister (h : hook) (s : hooks) : hooks := now_registered (filter (fun h' => h' <> h) (hk_registered s)) s.

(** The debug tokens are set first; the handlers of the two probes are the
    entries [rd_perf_event_overflow_pre] and [rd_watchpoint_report_pre]. *)
Definition rd_wpctl_init (rd_debug_budget : Z) (w : world) (s : hooks) : Z * kmod * hooks :=
  let st := initial_state rd_debug_budget w in
  let '(ret, s) := register OverflowKprobe s in
  if negb (ret =? 0) then (ret, st, s) else
  let '(ret, s) := register WatchpointKprobe s in
  if negb (ret =? 0) then (ret, st, unregister OverflowKprobe s) else
  let '(ret, s) := register Miscdev s in
  if negb (ret =? 0) then (ret, st, unregister OverflowKprobe (unregister WatchpointKprobe s)) else
  (ret, st, s).

Definition rd_wpctl_exit (s : hooks) : hooks :=
  unregister OverflowKprobe (unregister WatchpointKprobe (unregister Miscdev s)).

(** The device is there only between its probes. *)
Definition device_hooked (l : list hook) : Prop := Miscdev ∈ l -> OverflowKprobe ∈ l /\ WatchpointKprobe ∈ l.

(** Loading either registers all three or leaves nothing registered and says why;
    unloading leaves nothing; and a session can be opened only while both probes
    are registered. *)
Theorem load_is_all_or_nothing rd_debug_budget w :
  let '(ret, _, s) := rd_wpctl_init rd_debug_budget w (mk_hooks [] []) in
  (ret = 0 -> hk_registered s = [Miscdev; WatchpointKprobe; OverflowKprobe] /\ hk_registered (rd_wpctl_exit s) = []) /\
  (ret <> 0 -> hk_registered s = []) /\ Forall device_hooked (hk_passed (rd_wpctl_exit s)).
Proof.
  unfold rd_wpctl_init, register; cbn.
  destruct (Z.eqb_spec (answer OverflowKprobe []) 0) as [_|E1]; cbn.
  2: { split_and!; [done|done|]; repeat (constructor; [unfold device_hooked; set_solver|]); constructor. }
  destruct (Z.eqb_spec (answer WatchpointKprobe [OverflowKprobe]) 0) as [_|E2]; cbn.
  2: { split_and!; [done|done|]; repeat (constructor; [unfold device_hooked; set_solver|]); constructor. }
  destruct (Z.eqb_spec (answer Miscdev [WatchpointKprobe; OverflowKprobe]) 0) as [E3|E3]; cbn;
    (split_and!; [done|done|]; repeat (constructor; [unfold device_hooked; set_solver|]); constructor).
Qed.

End loading.

End ModuleLoad.
