(* ===== verification/CText.v ===== *)
(** Text as the user-space half handles it: [std::string] values as lists of
    characters, the C library calls the sources make on them ([isspace],
    [strtol] and its family, [std::getline] and [>>] on a string stream, number
    output) and the error type of [RdException].  The round-trip lemmas at the
    end connect what is printed with what is read back. *)
From S2P Require Import Prelude.
From Stdlib Require Export Ascii.

Definition text : Type := list ascii.

(** A string literal of the source. *)
Definition txt (s : string) : text := String.list_ascii_of_string s.

#[export] Instance text_eq_dec : EqDecision text.
Proof. unfold text; apply _. Defined.

(** * Errors: [throw RdException(reason)], the class of [include/rd_exception.hh], is the
    message it carries. *)

Inductive result (A : Type) : Type :=
| Ok (a : A)
| Throw (reason : text).
Arguments Ok {A} a.
Arguments Throw {A} reason.

Definition rbind {A B} (m : result A) (f : A -> result B) : result B :=
  match m with Ok a => f a | Throw e => Throw e end.
Notation "x <-! m ; k" := (rbind m (fun x => k))
  (at level 100, m at level 90, k at level 200, right associativity) : rd_scope.

Lemma rbind_Ok {A B} (m : result A) (f : A -> result B) b :
  rbind m f = Ok b <-> exists a, m = Ok a /\ f a = Ok b.
Proof. destruct m; simpl; split; [eauto|by intros (? & [= <-] & ?)|done|by intros (? & ? & _)]. Qed.

Definition is_ok {A} (m : result A) : bool := match m with Ok _ => true | Throw _ => false end.

(** * Characters *)

Definition code (c : ascii) : Z := Z.of_N (N_of_ascii c).
Definition chr (z : Z) : ascii := ascii_of_N (Z.to_N z).

Definition NUL : ascii := chr 0.
Definition TAB : ascii := chr 9.
Definition SPACE : ascii := chr 32.
Definition QUOTE : ascii := chr 39.
Definition BACKSLASH : ascii := chr 92.
Definition NEWLINE : ascii := chr 10.

Definition ceqb (a b : ascii) : bool := bool_decide (a = b).

Lemma ceqb_true a b : ceqb a b = true <-> a = b.
Proof. apply bool_decide_eq_true. Qed.
Lemma ceqb_refl a : ceqb a a = true.
Proof. by apply ceqb_true. Qed.

(** [isspace] in the C locale. *)
Definition isspace (c : ascii) : bool := ((9 <=? code c) && (code c <=? 13)) || (code c =? 32).

(** * Searching *)

Fixpoint skip_while (p : ascii -> bool) (s : text) : text :=
  match s with
  | c :: s' => if p c then skip_while p s' else s
  | [] => []
  end.
Fixpoint take_until (p : ascii -> bool) (s : text) : text :=
  match s with
  | c :: s' => if p c then [] else c :: take_until p s'
  | [] => []
  end.

(** [s.find(c)], [s.find(c, from)] and [s.rfind(c)]; [None] is [npos]. *)
Fixpoint find (c : ascii) (s : text) : option nat :=
  match s with
  | d :: s' => if ceqb d c then Some O else option_map S (find c s')
  | [] => None
  end.
Definition find_from (c : ascii) (s : text) (from : nat) : option nat :=
  option_map (fun i => (from + i)%nat) (find c (drop from s)).
Definition rfind (c : ascii) (s : text) : option nat :=
  option_map (fun i => (length s - 1 - i)%nat) (find c (rev s)).

(** [s.rfind(prefix, 0) == 0]. *)
Fixpoint has_prefix (p s : text) : bool :=
  match p, s with
  | [], _ => true
  | c :: p', d :: s' => ceqb c d && has_prefix p' s'
  | _, _ => false
  end.

Definition substr (s : text) (pos len : nat) : text := take len (drop pos s).

(** * Streams *)

(** All values of repeated [std::getline(iss, cur, delim)]: a delimiter at the
    very end yields no extra empty field. *)
Fixpoint getlines (delim : ascii) (s : text) : list text :=
  match s with
  | [] => []
  | c :: s' =>
      if ceqb c delim then [] :: getlines delim s'
      else match getlines delim s' with
           | [] => [[c]]
           | x :: r => (c :: x) :: r
           end
  end.

(** One [iss >> tok]: the token and the unread rest, [None] when extraction
    fails at the end of the stream. *)
Definition read_token (s : text) : option (text * text) :=
  let s1 := skip_while isspace s in
  match take_until isspace s1 with
  | [] => None
  | tok => Some (tok, drop (length tok) s1)
  end.

Fixpoint read_tokens (n : nat) (s : text) : option (list text * text) :=
  match n with
  | O => Some ([], s)
  | S n' => '(tok, r) ← read_token s; '(toks, r') ← read_tokens n' r; Some (tok :: toks, r')
  end.

(** [std::getline(iss, path)] on what is left: up to the first newline. *)
Definition getline_rest (s : text) : text := take_until (ceqb NEWLINE) s.

(** * Numbers *)

Definition digit_value (c : ascii) : option Z :=
  let z := code c in
  if (48 <=? z) && (z <=? 57) then Some (z - 48) else
  if (97 <=? z) && (z <=? 122) then Some (z - 87) else
  if (65 <=? z) && (z <=? 90) then Some (z - 55) else None.
Definition digit_in (base : Z) (c : ascii) : option Z :=
  match digit_value c with
  | Some v => if v <? base then Some v else None
  | None => None
  end.

Fixpoint read_digits (base acc : Z) (s : text) : Z * text :=
  match s with
  | c :: s' => match digit_in base c with
               | Some v => read_digits base (acc * base + v) s'
               | None => (acc, s)
               end
  | [] => (acc, [])
  end.

Definition is_x (c : ascii) : bool := (code c =? 120) || (code c =? 88).

(** The radix prefix: [0x] is consumed for bases 0 and 16 when a hexadecimal
    digit follows, a leading [0] selects octal for base 0. *)
Definition number_base (base : Z) (s : text) : Z * text :=
  match s with
  | z :: x :: c :: _ =>
      if ceqb z "0" && is_x x && ((base =? 0) || (base =? 16)) && bool_decide (is_Some (digit_in 16 c))
      then (16, drop 2 s)
      else if base =? 0 then (if ceqb z "0" then 8 else 10, s) else (base, s)
  | z :: _ => if base =? 0 then (if ceqb z "0" then 8 else 10, s) else (base, s)
  | [] => (base, s)
  end.

Definition read_sign (s : text) : bool * text :=
  match s with
  | c :: s' => if ceqb c "-" then (true, s') else if ceqb c "+" then (false, s') else (false, s)
  | [] => (false, [])
  end.

(** Sign, magnitude and [endptr]; with no digits nothing is consumed. *)
Definition strto (base : Z) (s : text) : bool * Z * text :=
  let '(neg, s1) := read_sign (skip_while isspace s) in
  let '(b, s2) := number_base base s1 in
  match s2 with
  | c :: _ => match digit_in b c with
              | Some _ => let '(m, r) := read_digits b 0 s2 in (neg, m, r)
              | None => (false, 0, s)
              end
  | [] => (false, 0, s)
  end.

Definition LLONG_MAX : Z := 9223372036854775807.
Definition LLONG_MIN : Z := -9223372036854775808.

(** [strtoll] and, [long] being 64 bits, [strtol]. *)
Definition strtoll (base : Z) (s : text) : Z :=
  let '(neg, m, _) := strto base s in
  Z.max LLONG_MIN (Z.min LLONG_MAX (if neg then - m else m)).
(** [strtoull] and [strtoul]: a leading minus negates modulo [2^64]. *)
Definition strtoull (base : Z) (s : text) : Z :=
  let '(neg, m, _) := strto base s in
  if U64_MAX <? m then U64_MAX else if neg then u64 (- m) else m.
Definition atoi (s : text) : Z := s32 (strtoll 10 s).
Definition strto_end (base : Z) (s : text) : text := snd (strto base s).

(** The character a C string pointer is at is the terminator. *)
Definition at_nul (s : text) : bool :=
  match s with [] => true | c :: _ => ceqb c NUL end.

(** Output of an unsigned number ([std::dec], [std::hex], [std::to_string]). *)
Definition digit_char (v : Z) : ascii := chr (if v <? 10 then v + 48 else v + 87).
Fixpoint print_digits (fuel : nat) (base z : Z) (acc : text) : text :=
  match fuel with
  | O => acc
  | S f => if z <? base then digit_char z :: acc
           else print_digits f base (z / base) (digit_char (z mod base) :: acc)
  end.
(** 64 digits are enough for a 64-bit value in any base. *)
Definition print_u (base z : Z) : text := print_digits 64 base z [].
Definition dec_u64 (z : Z) : text := print_u 10 z.
Definition hex_digits (z : Z) : text := print_u 16 z.
Definition hex0x (z : Z) : text := txt "0x" ++ hex_digits z.
Definition dec_s (z : Z) : text := if z <? 0 then "-"%char :: dec_u64 (- z) else dec_u64 z.

#[global] Arguments print_u : simpl never.
#[global] Arguments dec_u64 : simpl never.
#[global] Arguments hex_digits : simpl never.

(** * Lemmas *)

(** Facts about a small range of numbers, by enumeration. *)
Lemma forall_below (n : nat) (P : Z -> Prop) :
  Forall P (Z.of_nat <$> seq 0 n) -> forall v, 0 <= v < Z.of_nat n -> P v.
Proof.
  intros H v Hv; eapply Forall_forall; [exact H|].
  apply list_elem_of_fmap; exists (Z.to_nat v); split; [lia|]; apply elem_of_seq; lia.
Qed.

Lemma forall_ascii (P : ascii -> Prop) :
  Forall (fun z => P (chr z)) (Z.of_nat <$> seq 0 256) -> forall c, P c.
Proof.
  intros H c; rewrite <- (ascii_N_embedding c).
  pose proof (forall_below 256 _ H (Z.of_N (N_of_ascii c))) as Hc; unfold chr in Hc.
  rewrite N2Z.id in Hc; apply Hc; pose proof (N_ascii_bounded c); lia.
Qed.

(** ** Searching and splitting *)

Definition free_of (c : ascii) (s : text) : Prop := Forall (fun d => ceqb d c = false) s.

Lemma free_of_nil c : free_of c [].
Proof. constructor. Qed.
Lemma free_of_app c s1 s2 : free_of c (s1 ++ s2) <-> free_of c s1 /\ free_of c s2.
Proof. apply Forall_app. Qed.

Lemma find_app c p r : free_of c p -> find c (p ++ c :: r) = Some (length p).
Proof.
  induction 1 as [|d p Hd Hp IH]; simpl; [by rewrite ceqb_refl|].
  by rewrite Hd, IH.
Qed.

Lemma find_none c p : free_of c p -> find c p = None.
Proof. induction 1 as [|d p Hd Hp IH]; simpl; [done|]; by rewrite Hd, IH. Qed.

Lemma find_Some c s i :
  find c s = Some i -> s = take i s ++ c :: drop (S i) s /\ free_of c (take i s).
Proof.
  revert i; induction s as [|d s IH]; intros i; simpl; [done|].
  destruct (ceqb d c) eqn:E.
  - intros [= <-]; apply ceqb_true in E as ->; split; [done|constructor].
  - destruct (find c s) as [j|]; simpl; [|done]; intros [= <-]; simpl.
    destruct (IH j eq_refl) as [Heq Hf]; split; [by f_equal|by constructor].
Qed.

Lemma getlines_app d p r : free_of d p -> getlines d (p ++ d :: r) = p :: getlines d r.
Proof.
  induction 1 as [|c p Hc Hp IH]; simpl; [by rewrite ceqb_refl|].
  by rewrite Hc, IH.
Qed.

Lemma getlines_last d p : free_of d p -> p <> [] -> getlines d p = [p].
Proof.
  induction 1 as [|c p Hc Hp IH]; intros Hne; [done|]; simpl; rewrite Hc.
  destruct p as [|c' p']; [done|]; by rewrite IH.
Qed.

Lemma getlines_one d p : free_of d p -> getlines d (p ++ [d]) = [p].
Proof. intros H; by rewrite getlines_app. Qed.

(** Joining lines with their terminator and reading them back. *)
Lemma getlines_concat d ls :
  Forall (free_of d) ls -> getlines d (concat ((fun l => l ++ [d]) <$> ls)) = ls.
Proof.
  induction 1 as [|l ls Hl _ IH]; [done|]; cbn [fmap list_fmap concat].
  rewrite <- app_assoc; cbn [app]; by rewrite getlines_app, IH.
Qed.

(** Tab-separated rows: the last field is not empty, so no field is lost. *)
Fixpoint join (d : ascii) (fs : list text) : text :=
  match fs with
  | [] => []
  | [f] => f
  | f :: r => f ++ d :: join d r
  end.

Lemma getlines_join d fs :
  Forall (free_of d) fs -> default [] (last fs) <> [] -> getlines d (join d fs) = fs.
Proof.
  induction 1 as [|f fs Hf Hfs IH]; [done|]; destruct fs as [|f' fs'].
  - simpl; intros; by apply getlines_last.
  - intros Hl; change (join d (f :: f' :: fs')) with (f ++ d :: join d (f' :: fs')).
    rewrite getlines_app by done; f_equal; by apply IH.
Qed.

(** ** Numbers *)

Lemma digit_value_char v : 0 <= v < 16 -> digit_value (digit_char v) = Some v.
Proof. revert v; apply (forall_below 16); repeat constructor. Qed.

Lemma digit_in_char b v : 0 <= v < b -> b <= 16 -> digit_in b (digit_char v) = Some v.
Proof.
  intros Hv Hb; unfold digit_in; rewrite digit_value_char by lia; split_if; [done|lia].
Qed.

(** [rest] does not continue a number of the given base. *)
Definition no_digit (b : Z) (rest : text) : Prop :=
  match rest with c :: _ => digit_in b c = None | [] => True end.

Lemma read_digits_stop b z rest : no_digit b rest -> read_digits b z rest = (z, rest).
Proof. destruct rest as [|c r]; simpl; [done|]; by intros ->. Qed.

Lemma read_print_digits f b z tl :
  2 <= b <= 16 -> 0 <= z < b ^ Z.of_nat f ->
  read_digits b 0 (print_digits f b z tl) = read_digits b z tl.
Proof.
  intros Hb; revert z tl; induction f as [|f IH]; intros z tl Hz; simpl.
  { simpl in Hz; replace z with 0 by lia; done. }
  destruct (z <? b) eqn:E; simpl.
  { rewrite digit_in_char by lia; f_equal; lia. }
  rewrite Nat2Z.inj_succ, Z.pow_succ_r in Hz by lia.
  rewrite IH; [|split; [apply Z.div_pos; lia|apply Z.div_lt_upper_bound; lia]]; simpl.
  pose proof (Z.mod_pos_bound z b); rewrite digit_in_char by lia; f_equal.
  pose proof (Z_div_mod_eq_full z b); lia.
Qed.

Lemma print_digits_head f b z tl :
  2 <= b -> 0 <= z -> (0 < f)%nat ->
  exists v r, print_digits f b z tl = digit_char v :: r /\ 0 <= v < b /\ (z < b ^ Z.of_nat f -> v = 0 -> z = 0).
Proof.
  intros Hb; revert z tl; induction f as [|f IH]; intros z tl Hz Hf; [lia|]; simpl.
  destruct (z <? b) eqn:E; [exists z, tl; split_and!; [done|lia..]|].
  destruct f as [|f'].
  { exists (z mod b), tl; simpl; split; [done|]; split; [apply Z.mod_pos_bound; lia|lia]. }
  destruct (IH (z / b) (digit_char (z mod b) :: tl)) as (v & r & -> & Hv & H0); [apply Z.div_pos; lia|lia|].
  exists v, r; split; [done|]; split; [done|]; intros Hlt Hv0.
  rewrite Nat2Z.inj_succ, Z.pow_succ_r in Hlt by lia.
  assert (z / b = 0) by (apply H0; [apply Z.div_lt_upper_bound; lia|done]).
  assert (1 <= z / b) by (apply Z.div_le_lower_bound; lia); lia.
Qed.

Lemma pow_64_enough b z : 2 <= b -> is_u64 z -> 0 <= z < b ^ Z.of_nat 64.
Proof.
  intros Hb Hz; split; [lia|]; apply Z.lt_le_trans with (2 ^ 64); [lia|].
  change (Z.of_nat 64) with 64; apply Z.pow_le_mono_l; lia.
Qed.

Lemma digit_char_plain v : 0 <= v < 16 ->
  isspace (digit_char v) = false /\ ceqb (digit_char v) "-" = false /\
  ceqb (digit_char v) "+" = false /\ ceqb (digit_char v) "," = false /\
  ceqb (digit_char v) "]" = false /\ ceqb (digit_char v) "[" = false /\
  ceqb (digit_char v) "#" = false /\ ceqb (digit_char v) TAB = false /\
  ceqb (digit_char v) NEWLINE = false /\ ceqb (digit_char v) ":" = false /\
  is_x (digit_char v) = false /\ (ceqb (digit_char v) "0" = true -> v = 0).
Proof.
  revert v; apply (forall_below 16).
  repeat apply Forall_cons_2; [..|apply Forall_nil_2]; (split_and!; try reflexivity; intros; done).
Qed.

Lemma print_digits_forall (P : ascii -> Prop) f b z tl :
  2 <= b <= 16 -> 0 <= z -> (forall v, 0 <= v < 16 -> P (digit_char v)) ->
  Forall P tl -> Forall P (print_digits f b z tl).
Proof.
  intros Hb Hz HP; revert z tl Hz; induction f as [|f IH]; intros z tl Hz Htl; simpl; [done|].
  destruct (z <? b) eqn:E; [constructor; [apply HP; lia|done]|].
  pose proof (Z.mod_pos_bound z b); apply IH; [apply Z.div_pos; lia|].
  constructor; [apply HP; lia|done].
Qed.

(** Every character of a printed number satisfies what all digits satisfy. *)
Lemma print_u_forall (P : ascii -> Prop) b z :
  2 <= b <= 16 -> 0 <= z -> (forall v, 0 <= v < 16 -> P (digit_char v)) -> Forall P (print_u b z).
Proof. intros; apply print_digits_forall; auto. Qed.

Lemma print_u_nonempty b z : 2 <= b -> 0 <= z -> print_u b z <> [].
Proof.
  intros Hb Hz; unfold print_u; destruct (print_digits_head 64 b z []) as (v & r & -> & _);
    [done|done|lia|done].
Qed.

Lemma number_base_plain b c r :
  b <> 0 -> (b = 16 -> ceqb c "0" = true -> r = []) -> number_base b (c :: r) = (b, c :: r).
Proof.
  intros Hb H; unfold number_base; assert ((b =? 0) = false) as -> by lia.
  destruct r as [|x [|d r']]; [done..|].
  destruct (ceqb c "0" && is_x x && _ && _) eqn:G; [exfalso|done].
  apply andb_prop in G as [[[G1 G2]%andb_prop G3]%andb_prop _].
  discriminate (H ltac:(lia) G1).
Qed.

(** A printed number, followed by something that is not a digit, reads back. *)
Lemma strto_print b z rest :
  10 <= b <= 16 -> is_u64 z -> no_digit b rest -> (b = 16 -> z = 0 -> head rest = None) ->
  strto b (print_u b z ++ rest) = (false, z, rest).
Proof.
  intros Hb Hz Hr Hx.
  assert (Happ : forall f z tl, print_digits f b z tl ++ rest = print_digits f b z (tl ++ rest)).
  { intros f; induction f as [|f IH]; intros z' tl; simpl; [done|]; split_if; [done|apply IH]. }
  unfold print_u; rewrite Happ; cbn [app].
  pose proof (read_print_digits 64 b z rest ltac:(lia) (pow_64_enough b z ltac:(lia) Hz)) as Hrd.
  destruct (print_digits_head 64 b z rest) as (v & r & E & Hv & H0); [lia..|].
  rewrite E in *; destruct (digit_char_plain v) as (D1 & D2 & D3 & _ & _ & _ & _ & _ & _ & _ & D4 & D5); [lia|].
  unfold strto; cbn [skip_while]; rewrite D1; cbn [read_sign]; rewrite D2, D3.
  rewrite number_base_plain; [|lia|].
  { rewrite digit_in_char by lia; by rewrite Hrd, (read_digits_stop b z rest Hr). }
  intros -> G; assert (Hz0 : z = 0) by (apply H0; [apply pow_64_enough; lia|auto]).
  specialize (Hx eq_refl Hz0); subst z; destruct rest; [|discriminate Hx]; by injection E as _ <-.
Qed.

Lemma read_digits_nonneg b s : forall acc, 0 <= b -> 0 <= acc -> 0 <= (read_digits b acc s).1.
Proof.
  induction s as [|c s IH]; intros acc Hb Ha; cbn [read_digits]; [done|].
  destruct (digit_in b c) as [v|] eqn:E; [|done]; apply IH; [done|].
  assert (0 <= v); [|nia]; unfold digit_in, digit_value in E; repeat case_match; simplify_eq; lia.
Qed.

Lemma strto_nonneg b s : 0 <= b -> 0 <= (strto b s).1.2.
Proof.
  intros Hb; unfold strto; destruct (read_sign _) as [neg s1].
  assert (Hn : 0 <= (number_base b s1).1).
  { unfold number_base; destruct s1 as [|z [|x [|c r]]]; repeat split_if; cbn; try lia; destruct (ceqb z "0"); cbn; lia. }
  destruct (number_base b s1) as [b' [|c r]]; [done|]; cbn [fst] in Hn; destruct (digit_in b' c); [|done].
  pose proof (read_digits_nonneg b' (c :: r) 0 Hn ltac:(lia)) as H; destruct (read_digits b' 0 (c :: r)); exact H.
Qed.

Lemma strtoull_range b s : 0 <= b -> is_u64 (strtoull b s).
Proof.
  intros Hb; unfold strtoull; pose proof (strto_nonneg b s Hb) as H; destruct (strto b s) as [[neg m] r]; cbn in H.
  unfold U64_MAX; repeat split_if; try lia; apply u64_range.
Qed.

(** Base 0 recognises the decimal and the [0x] notation. *)
Lemma strto0_dec z : is_u64 z -> strto 0 (dec_u64 z) = (false, z, []).
Proof.
  intros Hz; unfold dec_u64, print_u.
  pose proof (read_print_digits 64 10 z [] ltac:(lia) (pow_64_enough 10 z ltac:(lia) Hz)) as Hrd.
  destruct (print_digits_head 64 10 z []) as (v & r & E & Hv & H0); [lia..|].
  destruct (digit_char_plain v) as (D1 & D2 & D3 & _ & _ & _ & _ & _ & _ & _ & D4 & D5); [lia|].
  destruct (decide (z = 0)) as [->|Hnz]; [reflexivity|].
  assert (Hv0 : ceqb (digit_char v) "0" = false).
  { destruct (ceqb (digit_char v) "0") eqn:G; [|done]; exfalso; apply Hnz, H0; [apply pow_64_enough; lia|auto]. }
  rewrite E in *; unfold strto; cbn [skip_while]; rewrite D1; cbn [read_sign]; rewrite D2, D3.
  assert (Hnb : number_base 0 (digit_char v :: r) = (10, digit_char v :: r)).
  { unfold number_base; rewrite Hv0; destruct r as [|x [|c r']]; done. }
  rewrite Hnb, digit_in_char by lia; by rewrite Hrd.
Qed.

Lemma strto0_hex z : is_u64 z -> strto 0 (txt "0x" ++ hex_digits z) = (false, z, []).
Proof.
  intros Hz; unfold hex_digits, print_u.
  pose proof (read_print_digits 64 16 z [] ltac:(lia) (pow_64_enough 16 z ltac:(lia) Hz)) as Hrd.
  destruct (print_digits_head 64 16 z []) as (v & r & E & Hv & H0); [lia..|].
  rewrite E in *.
  assert (Hnb : number_base 0 (txt "0x" ++ digit_char v :: r) = (16, digit_char v :: r)).
  { unfold number_base; cbn [txt app String.list_ascii_of_string].
    by rewrite digit_in_char by lia. }
  assert (Hs : read_sign (skip_while isspace (txt "0x" ++ digit_char v :: r)) =
    (false, txt "0x" ++ digit_char v :: r)) by reflexivity.
  unfold strto; rewrite Hs, Hnb, digit_in_char by lia; by rewrite Hrd.
Qed.

(** ** Words and tokens *)

Lemma skip_while_stop p c s : p c = false -> skip_while p (c :: s) = c :: s.
Proof. simpl; by intros ->. Qed.

Definition word (s : text) : Prop := s <> [] /\ Forall (fun c => isspace c = false) s.

Lemma take_until_word s c r :
  Forall (fun c => isspace c = false) s -> isspace c = true -> take_until isspace (s ++ c :: r) = s.
Proof. intros Hs Hc; induction Hs as [|d s Hd _ IH]; cbn; [by rewrite Hc|]; by rewrite Hd, IH. Qed.

Lemma read_token_word s c r :
  word s -> isspace c = true -> read_token (s ++ c :: r) = Some (s, c :: r).
Proof.
  intros [Hne Hs] Hc; destruct s as [|d s]; [done|]; inversion Hs; subst.
  unfold read_token; rewrite <- app_comm_cons, skip_while_stop by done.
  rewrite app_comm_cons, take_until_word by done; cbn iota; by rewrite drop_app_length.
Qed.

Lemma read_token_space c s : isspace c = true -> read_token (c :: s) = read_token s.
Proof. intros Hc; unfold read_token; cbn [skip_while]; by rewrite Hc. Qed.

Lemma word_digits z : is_u64 z -> word (hex_digits z).
Proof.
  intros Hz; split; [apply print_u_nonempty; lia|].
  apply print_u_forall; [lia|lia|]; intros v Hv; by destruct (digit_char_plain v Hv).
Qed.

Lemma word_app s1 s2 : word s1 -> Forall (fun c => isspace c = false) s2 -> word (s1 ++ s2).
Proof. intros [Hne H1] H2; split; [by destruct s1|by apply Forall_app]. Qed.

(** Zero-padded hexadecimal, as [%08lx] prints it. *)
Definition pad_hex (n : nat) (z : Z) : text :=
  replicate (n - length (hex_digits z)) "0"%char ++ hex_digits z.

Lemma word_pad_hex n z : is_u64 z -> word (pad_hex n z).
Proof.
  intros Hz; destruct (word_digits z Hz) as [Hne Hd]; split.
  - unfold pad_hex; destruct (replicate _ _); [done|by destruct (hex_digits z)].
  - apply Forall_app; split; [by apply Forall_replicate|done].
Qed.

Lemma read_digits_zeros b k s : 2 <= b -> read_digits b 0 (replicate k "0"%char ++ s) = read_digits b 0 s.
Proof.
  intros Hb; induction k as [|k IH]; [done|]; cbn [replicate app read_digits].
  assert (digit_in b "0" = Some 0) as ->; [|by rewrite Z.add_0_r].
  unfold digit_in; change (digit_value "0") with (Some 0); cbn iota; split_if; [done|lia].
Qed.

Definition no_x (s : text) : Prop := match s with c :: _ => is_x c = false | [] => True end.

Lemma number_base_no_x b c r : b <> 0 -> no_x r -> number_base b (c :: r) = (b, c :: r).
Proof.
  intros Hb Hr; unfold number_base; assert ((b =? 0) = false) as -> by lia.
  destruct r as [|x [|d r']]; [done..|]; cbn in Hr; by rewrite Hr, andb_false_r.
Qed.

Lemma strto_pad_hex n z rest :
  is_u64 z -> no_digit 16 rest -> no_x rest -> strto 16 (pad_hex n z ++ rest) = (false, z, rest).
Proof.
  intros Hz Hr Hx; unfold pad_hex; set (k := (n - _)%nat).
  assert (Hrd : read_digits 16 0 ((replicate k "0"%char ++ hex_digits z) ++ rest) = (z, rest)).
  { rewrite <- app_assoc, read_digits_zeros by lia; unfold hex_digits, print_u.
    assert (Happ : forall f z tl, print_digits f 16 z tl ++ rest = print_digits f 16 z (tl ++ rest)).
    { intros f; induction f as [|f IH]; intros z' tl; simpl; [done|]; split_if; [done|apply IH]. }
    rewrite Happ, read_print_digits by (lia || apply pow_64_enough; lia); by apply read_digits_stop. }
  assert (Hall : Forall (fun c => exists v, 0 <= v < 16 /\ c = digit_char v) (replicate k "0"%char ++ hex_digits z)).
  { apply Forall_app; split; [apply Forall_replicate; by exists 0|].
    apply print_u_forall; [lia|lia|eauto]. }
  assert (Hne : replicate k "0"%char ++ hex_digits z <> []).
  { pose proof (print_u_nonempty 16 z); unfold hex_digits; destruct k; cbn; [apply H; lia|done]. }
  destruct (replicate k "0"%char ++ hex_digits z) as [|c r]; [done|].
  inversion Hall as [|? ? (v & Hv & ->) Hr']; subst; clear Hall.
  destruct (digit_char_plain v Hv) as (D1 & D2 & D3 & _).
  unfold strto; rewrite <- app_comm_cons, skip_while_stop by done; cbn [read_sign].
  rewrite D2, D3, number_base_no_x; [|lia|].
  - rewrite digit_in_char by lia; rewrite app_comm_cons; by rewrite Hrd.
  - destruct Hr' as [|c' r' (v' & Hv' & ->) _]; [done|]; cbn; apply (digit_char_plain v' Hv').
Qed.

Lemma strtoull_pad_hex n z rest :
  is_u64 z -> no_digit 16 rest -> no_x rest -> strtoull 16 (pad_hex n z ++ rest) = z.
Proof. intros; unfold strtoull; rewrite strto_pad_hex by done; unfold U64_MAX; split_if; lia. Qed.
