(* ===== verification/AsmDecode.v ===== *)
(** Decoding of a disassembled load or store: [parse_reg_name] up to
    [decode_target_via_objdump] and [to_uapi_decode] of [src/targeted_rd.cc].
    The template this code produces is what the kernel module evaluates at every
    breakpoint hit ([EffAddr]), so the main theorem composes the two: for every
    addressing mode of the printed A64 syntax, the address the module computes
    from the decoded template is the architectural address of the operand. *)
From S2P Require Import Prelude Uapi EffAddr CText.
Import EffAddr.

Module AsmDecode.

Definition trim_ascii_space (s : text) : text :=
  rev (skip_while isspace (rev (skip_while isspace s))).

Definition split_tab (line : text) : list text := getlines TAB line.

Definition split_comma (line : text) : list text :=
  trim_ascii_space <$> getlines "," line.

(** The loop over the characters of [s]. *)
Fixpoint quote_body (s : text) : text :=
  match s with
  | [] => []
  | c :: s' => if ceqb c QUOTE then [QUOTE; BACKSLASH; QUOTE; QUOTE] ++ quote_body s'
               else c :: quote_body s'
  end.
Definition shell_quote (s : text) : text := QUOTE :: quote_body s ++ [QUOTE].

Definition hex_u64 (value : Z) : text := hex_digits value.

Definition filterable_prefixes : list text :=
  [txt "unsupported "; txt "watchpoint only supports accesses up to 8 bytes"; txt "missing ";
   txt "expected "; txt "empty address operand"].
Definition is_filterable_hotspot_error (reason : text) : bool :=
  existsb (fun prefix => has_prefix prefix reason) filterable_prefixes.

Definition parse_scaled_imm (token : text) : result Z :=
  match token with
  | [] => Throw (txt "missing immediate")
  | c :: rest => if negb (ceqb c "#") then Throw (txt "expected immediate")
                 else Ok (s32 (strtoll 0 rest))
  end.

(** The outputs of [parse_reg_name]; [None] is its [false]. *)
Record reg_name := mk_reg_name { rn_reg : Z; rn_is_sp : bool; rn_is_32 : bool; rn_is_zero : bool }.

Definition head_is (c : ascii) (t : text) : bool :=
  match t with d :: _ => ceqb d c | [] => false end.

Definition parse_reg_name (token : text) : option reg_name :=
  let t := trim_ascii_space token in
  if bool_decide (t = txt "sp") then Some (mk_reg_name PERF_REG_ARM64_SP true false false) else
  if bool_decide (t = txt "xzr") || bool_decide (t = txt "wzr") then
    Some (mk_reg_name (-1) false (head_is "w" t) true) else
  if (2 <=? zlen t) && (head_is "x" t || head_is "w" t) then
    let num := drop 1 t in
    let n := strtoll 10 num in
    if at_nul (strto_end 10 num) && (0 <=? n) && (n <=? 29) then
      Some (mk_reg_name n false (head_is "w" t) false)
    else if bool_decide (t = txt "x30") then
      Some (mk_reg_name PERF_REG_ARM64_LR false false false)
    else None
  else None.

Definition parse_access_size_from_dest (dest : text) : result Z :=
  let t := trim_ascii_space dest in
  match t with
  | [] => Throw (txt "missing destination operand")
  | c :: _ =>
      if ceqb c "b" then Ok 1 else
      if ceqb c "h" then Ok 2 else
      if ceqb c "w" || ceqb c "s" then Ok 4 else
      if ceqb c "x" || ceqb c "d" then Ok 8 else
      if ceqb c "q" then Ok 16 else
      Throw (txt "unsupported destination register class in operand '" ++ t ++ txt "'")
  end.

Inductive extend_kind := EXT_NONE | EXT_LSL | EXT_UXTW | EXT_SXTW | EXT_UXTX | EXT_SXTX.

Record decode_template := mk_template {
  dt_access_size : Z;
  dt_base_reg : Z;
  dt_base_is_sp : bool;
  dt_has_imm : bool;
  dt_imm : Z;
  dt_has_index : bool;
  dt_index_reg : Z;
  dt_index_is_32 : bool;
  dt_index_is_zero : bool;
  dt_extend : extend_kind;
  dt_shift : Z;
}.
#[export] Instance eta_template : Eta decode_template := fun r =>
  mk_template (dt_access_size r) (dt_base_reg r) (dt_base_is_sp r) (dt_has_imm r) (dt_imm r)
    (dt_has_index r) (dt_index_reg r) (dt_index_is_32 r) (dt_index_is_zero r) (dt_extend r)
    (dt_shift r).

(** [lsl], [uxtw], ... as [op == "..."] tells them apart. *)
Definition extend_of_name (op : text) : option extend_kind :=
  if bool_decide (op = txt "lsl") then Some EXT_LSL else
  if bool_decide (op = txt "uxtw") then Some EXT_UXTW else
  if bool_decide (op = txt "sxtw") then Some EXT_SXTW else
  if bool_decide (op = txt "uxtx") then Some EXT_UXTX else
  if bool_decide (op = txt "sxtx") then Some EXT_SXTX else None.

(** The third item of the bracket: extend name and optional [#shift]. *)
Definition decode_extend (dec : decode_template) (item : text) : result decode_template :=
  let ext := trim_ascii_space item in
  let space := find SPACE ext in
  let op := match space with None => ext | Some p => substr ext 0 p end in
  let arg := match space with None => [] | Some p => trim_ascii_space (drop (S p) ext) end in
  match extend_of_name op with
  | None => Throw (txt "unsupported index extend '" ++ op ++ txt "'")
  | Some k =>
      let dec := dec ⟦ dt_extend := k ⟧ in
      match arg with
      | [] => Ok dec
      | c :: digits =>
          if negb (ceqb c "#") then Throw (txt "unsupported shift argument '" ++ arg ++ txt "'")
          else Ok (dec ⟦ dt_shift := u8 (strtoull 0 digits) ⟧)
      end
  end.

(** The comma-separated items between the brackets. *)
Definition decode_items (dec : decode_template) (items : list text) : result decode_template :=
  match items with
  | [] => Throw (txt "empty address operand")
  | item0 :: more =>
      match parse_reg_name item0 with
      | Some rn =>
          if rn_is_zero rn then Throw (txt "unsupported base register '" ++ item0 ++ txt "'") else
          let dec := dec ⟦ dt_base_reg := rn_reg rn ⟧ ⟦ dt_base_is_sp := rn_is_sp rn ⟧ in
          match more with
          | [] => Ok dec
          | item1 :: more' =>
              if head_is "#" item1 then
                v <-! parse_scaled_imm item1;
                Ok (dec ⟦ dt_has_imm := true ⟧ ⟦ dt_imm := v ⟧)
              else
                match parse_reg_name item1 with
                | None => Throw (txt "unsupported index register '" ++ item1 ++ txt "'")
                | Some ri =>
                    let dec := dec ⟦ dt_has_index := true ⟧ ⟦ dt_index_reg := rn_reg ri ⟧
                      ⟦ dt_index_is_32 := rn_is_32 ri ⟧ ⟦ dt_index_is_zero := rn_is_zero ri ⟧ in
                    match more' with
                    | [] => Ok (dec ⟦ dt_extend := EXT_NONE ⟧)
                    | item2 :: _ => decode_extend dec item2
                    end
                end
          end
      | None => Throw (txt "unsupported base register '" ++ item0 ++ txt "'")
      end
  end.

Definition decode_from_asm_operands (mnemonic operands : text) : result decode_template :=
  match find "," operands with
  | None => Throw (txt "unsupported operand shape '" ++ operands ++ txt "'")
  | Some comma =>
      let dest := trim_ascii_space (substr operands 0 comma) in
      size <-! parse_access_size_from_dest dest;
      let dec := mk_template size (-1) false false 0 false (-1) false false EXT_NONE 0 in
      if 8 <? size then Throw (txt "watchpoint only supports accesses up to 8 bytes") else
      let bad := Throw (txt "unsupported address operand '" ++ operands ++ txt "'") in
      match find_from "[" operands comma with
      | None => bad
      | Some lb =>
          match find_from "]" operands lb with
          | None => bad
          | Some rb =>
              if (rb <=? lb)%nat then bad else
              decode_items dec (split_comma (substr operands (lb + 1) (rb - lb - 1)))
          end
      end
  end.

Definition extend_code (k : extend_kind) : Z :=
  match k with
  | EXT_NONE => RD_EXT_NONE | EXT_LSL => RD_EXT_LSL | EXT_UXTW => RD_EXT_UXTW
  | EXT_SXTW => RD_EXT_SXTW | EXT_UXTX => RD_EXT_UXTX | EXT_SXTX => RD_EXT_SXTX
  end.

Definition to_uapi_decode (dec : decode_template) : rd_wpctl_decode :=
  mk_decode (u32 (dt_access_size dec)) (dt_base_reg dec)
    (if dt_base_is_sp dec then 1 else 0)
    (if dt_has_imm dec then 1 else 0)
    (if dt_has_index dec then 1 else 0)
    (if dt_index_is_32 dec then 1 else 0)
    (if dt_index_is_zero dec then 1 else 0)
    (u8 (extend_code (dt_extend dec))) (dt_shift dec) (dt_index_reg dec) (dt_imm dec).

(** * Every decoded template

    What holds of a template whatever the text it was decoded from. *)

Record template_wf (d : decode_template) : Prop := {
  tw_size : dt_access_size d = 1 \/ dt_access_size d = 2 \/ dt_access_size d = 4 \/ dt_access_size d = 8;
  tw_base : 0 <= dt_base_reg d <= PERF_REG_ARM64_SP;
  tw_index : dt_has_index d = true -> dt_index_is_zero d = true \/ 0 <= dt_index_reg d <= PERF_REG_ARM64_SP;
  tw_shift : 0 <= dt_shift d < 256;
}.

Lemma parse_reg_name_range t rn :
  parse_reg_name t = Some rn -> rn_is_zero rn = true \/ 0 <= rn_reg rn <= PERF_REG_ARM64_SP.
Proof.
  unfold parse_reg_name, PERF_REG_ARM64_SP, PERF_REG_ARM64_LR; repeat split_if; intros [= <-]; cbn;
    first [by left | right; lia].
Qed.

Lemma access_size_range t z : parse_access_size_from_dest t = Ok z -> z = 1 \/ z = 2 \/ z = 4 \/ z = 8 \/ z = 16.
Proof.
  unfold parse_access_size_from_dest; destruct (trim_ascii_space t); [done|].
  repeat split_if; intros [= <-]; lia.
Qed.

Lemma decode_extend_wf d item d' : template_wf d -> decode_extend d item = Ok d' -> template_wf d'.
Proof.
  intros [H1 H2 H3 H4]; unfold decode_extend; destruct (extend_of_name _); [|done].
  cbn zeta; match goal with |- match ?a with _ => _ end = _ -> _ => destruct a as [|c r] end; [by intros [= <-]; split|].
  split_if; [done|]; intros [= <-]; split; try done; cbn; apply u8_range.
Qed.

Lemma decoded_template_wf mnemonic operands d :
  decode_from_asm_operands mnemonic operands = Ok d -> template_wf d.
Proof.
  unfold decode_from_asm_operands; destruct (find "," operands); [|done].
  intros (size & Hsize%access_size_range & H)%rbind_Ok; cbn zeta in H; split_if; [done|].
  destruct (find_from "[" _ _); [|done]; destruct (find_from "]" _ _); [|done]; split_if; [done|].
  destruct (split_comma _) as [|item0 more]; cbn [decode_items] in H; [done|].
  destruct (parse_reg_name item0) as [rn|] eqn:E0; [|done]; apply parse_reg_name_range in E0.
  destruct (rn_is_zero rn); [done|]; destruct E0 as [|E0]; [done|]; cbn zeta in H.
  set (d0 := (mk_template size _ _ _ _ _ _ _ _ _ _) ⟦ dt_base_reg := _ ⟧ ⟦ dt_base_is_sp := _ ⟧) in *.
  assert (H0 : template_wf d0) by (split; cbn; [lia|done|done|lia]).
  destruct more as [|item1 more]; [by injection H as <-|].
  destruct (head_is "#" item1); [apply rbind_Ok in H as (v & _ & [= <-]); destruct H0; by split|].
  destruct (parse_reg_name item1) as [ri|] eqn:E1; [|done]; apply parse_reg_name_range in E1.
  destruct H0 as [W1 W2 W3 W4].
  destruct more as [|item2 more]; [injection H as <-; by split|].
  eapply decode_extend_wf; [|exact H]; by split.
Qed.

(** * Printed A64 operands

    The reference: the addressing modes of A64 loads and stores, their text as
    the disassemblers print it and their architectural address. *)

Inductive base_name := BX (n : Z) | BSP.
Inductive index_name := IX (n : Z) | IW (n : Z) | IXZR | IWZR.
Inductive imm_style := Decimal | Hexadecimal.
Inductive amode :=
| ABase
| AImm (st : imm_style) (v : Z)
| APre (st : imm_style) (v : Z)
| APost (st : imm_style) (v : Z)
| AIndex (i : index_name)
| AIndexExt (i : index_name) (k : extend_kind) (amount : option Z).

Inductive dest_class := DB | DH | DW | DS | DX | DD.
(** A destination is a class letter and a number, or the zero register. *)
Record dest := mk_dest { d_class : dest_class; d_num : option Z }.

Definition class_letter (d : dest_class) : ascii :=
  match d with DB => "b" | DH => "h" | DW => "w" | DS => "s" | DX => "x" | DD => "d" end%char.
Definition class_size (d : dest_class) : Z :=
  match d with DB => 1 | DH => 2 | DW | DS => 4 | DX | DD => 8 end.

Definition print_dest (d : dest) : text :=
  class_letter (d_class d) :: match d_num d with Some n => dec_u64 n | None => txt "zr" end.
Definition print_base (b : base_name) : text :=
  match b with BX n => "x"%char :: dec_u64 n | BSP => txt "sp" end.
Definition print_index (i : index_name) : text :=
  match i with
  | IX n => "x"%char :: dec_u64 n | IW n => "w"%char :: dec_u64 n
  | IXZR => txt "xzr" | IWZR => txt "wzr"
  end.
Definition print_magnitude (st : imm_style) (z : Z) : text :=
  match st with Decimal => dec_u64 z | Hexadecimal => txt "0x" ++ hex_digits z end.
Definition print_imm (st : imm_style) (v : Z) : text :=
  "#"%char :: (if v <? 0 then "-"%char :: print_magnitude st (- v) else print_magnitude st v).
Definition extend_name (k : extend_kind) : text :=
  match k with
  | EXT_NONE | EXT_LSL => txt "lsl" | EXT_UXTW => txt "uxtw" | EXT_SXTW => txt "sxtw"
  | EXT_UXTX => txt "uxtx" | EXT_SXTX => txt "sxtx"
  end.
Definition print_extend (k : extend_kind) (amount : option Z) : text :=
  extend_name k ++ match amount with Some a => txt " #" ++ dec_u64 a | None => [] end.

(** The items inside the brackets and what follows them. *)
Definition bracket_items (b : base_name) (m : amode) : list text :=
  match m with
  | ABase | APost _ _ => [print_base b]
  | AImm st v | APre st v => [print_base b; print_imm st v]
  | AIndex i => [print_base b; print_index i]
  | AIndexExt i k a => [print_base b; print_index i; print_extend k a]
  end.
Definition after_bracket (m : amode) : text :=
  match m with
  | APre _ _ => txt "!"
  | APost st v => txt ", " ++ print_imm st v
  | _ => []
  end.
Fixpoint comma_list (items : list text) : text :=
  match items with
  | [] => []
  | [x] => x
  | x :: r => x ++ txt ", " ++ comma_list r
  end.
Definition print_operands (d : dest) (b : base_name) (m : amode) : text :=
  print_dest d ++ txt ", [" ++ comma_list (bracket_items b m) ++ txt "]" ++ after_bracket m.

(** Operands the instruction set has: general registers 0 to 30, a shift of at
    most 4, immediates of the encodable size.  Register [w30] as an index is
    left out: [parse_reg_name] does not know it. *)
Definition base_wf (b : base_name) : Prop := match b with BX n => 0 <= n <= 30 | BSP => True end.
Definition index_wf (i : index_name) : Prop :=
  match i with IX n => 0 <= n <= 30 | IW n => 0 <= n <= 29 | _ => True end.
Definition imm_wf (v : Z) : Prop := -2147483648 <= v < 2147483648.
Definition is_x_index (i : index_name) : bool := match i with IX _ | IXZR => true | _ => false end.
Definition extend_fits (i : index_name) (k : extend_kind) : Prop :=
  match k with
  | EXT_LSL | EXT_SXTX | EXT_UXTX => is_x_index i = true
  | EXT_UXTW | EXT_SXTW => is_x_index i = false
  | EXT_NONE => False
  end.
Definition amode_wf (m : amode) : Prop :=
  match m with
  | ABase => True
  | AImm _ v | APre _ v | APost _ v => imm_wf v
  | AIndex i => index_wf i /\ is_x_index i = true
  | AIndexExt i k a => index_wf i /\ extend_fits i k /\ 0 <= default 0 a <= 4
  end.
Definition dest_wf (d : dest) : Prop := match d_num d with Some n => 0 <= n <= 31 | None => True end.

(** The architectural address, before reduction modulo [2^64]. *)
Definition base_value (regs : pt_regs) (b : base_name) : Z :=
  match b with BX n => reg_value regs n | BSP => pr_sp regs end.
Definition index_value (regs : pt_regs) (i : index_name) : Z :=
  match i with IX n | IW n => reg_value regs n | IXZR | IWZR => 0 end.
Definition extended_value (k : extend_kind) (raw : Z) : Z :=
  match k with
  | EXT_UXTW => u32 raw | EXT_SXTW => s32 raw
  | EXT_SXTX => s64 raw | EXT_NONE | EXT_LSL | EXT_UXTX => raw
  end.
Definition operand_address (regs : pt_regs) (b : base_name) (m : amode) : Z :=
  base_value regs b +
  match m with
  | ABase | APost _ _ => 0
  | AImm _ v | APre _ v => v
  | AIndex i => index_value regs i
  | AIndexExt i k a => extended_value k (index_value regs i) * 2 ^ default 0 a
  end.

Example print_demo :
  print_operands (mk_dest DX (Some 0)) (BX 1) (AIndexExt (IW 2) EXT_SXTW (Some 3)) =
  txt "x0, [x1, w2, sxtw #3]".
Proof. reflexivity. Qed.

Example decode_demo :
  decode_from_asm_operands (txt "ldr") (txt "x0, [x1, w2, sxtw #3]") =
  Ok (mk_template 8 1 false false 0 true 2 true false EXT_SXTW 3).
Proof. reflexivity. Qed.

(** * Text lemmas *)

Lemma trim_id c m d :
  isspace c = false -> isspace d = false -> trim_ascii_space (c :: m ++ [d]) = c :: m ++ [d].
Proof.
  intros Hc Hd; unfold trim_ascii_space; rewrite skip_while_stop by done.
  rewrite app_comm_cons, rev_app_distr; cbn [rev app]; rewrite skip_while_stop by done.
  cbn [rev]; by rewrite rev_app_distr, rev_involutive.
Qed.

Lemma trim_no_space s : Forall (fun c => isspace c = false) s -> trim_ascii_space s = s.
Proof.
  intros H; unfold trim_ascii_space.
  assert (Hs : forall t, Forall (fun c => isspace c = false) t -> skip_while isspace t = t).
  { intros t [|c t' Hc Ht]; [done|]; by apply skip_while_stop. }
  rewrite (Hs s) by done; rewrite Hs, rev_involutive; [done|].
  by apply Forall_rev.
Qed.

Lemma trim_space s : trim_ascii_space (SPACE :: s) = trim_ascii_space s.
Proof. reflexivity. Qed.

(** An item of a bracket: no separator inside, no space at its ends. *)
Definition item_ok (s : text) : Prop :=
  s <> [] /\ free_of "," s /\ free_of "]" s /\ trim_ascii_space s = s.

Lemma split_comma_list items :
  items <> [] -> Forall item_ok items -> split_comma (comma_list items) = items.
Proof.
  intros Hne H; unfold split_comma.
  assert (Hmain : forall l, l <> [] -> Forall item_ok l ->
    getlines "," (SPACE :: comma_list l) = (fun x => SPACE :: x) <$> l).
  { intros l; induction l as [|x [|y r] IH]; intros Hl Hf; [done|..];
      inversion Hf as [|? ? (Hx & Hcx & _ & _) Hr]; subst.
    - cbn [comma_list fmap list_fmap]; rewrite getlines_last; [done| |done]; by constructor.
    - change (SPACE :: comma_list (x :: y :: r))
        with ((SPACE :: x) ++ ","%char :: (SPACE :: comma_list (y :: r))).
      rewrite getlines_app by (by constructor); by rewrite IH. }
  destruct items as [|x [|y r]]; [done|..]; inversion H as [|? ? (Hx & Hcx & _ & Ht) Hr]; subst.
  - cbn [comma_list]; rewrite getlines_last by done; cbn; by rewrite Ht.
  - change (comma_list (x :: y :: r)) with (x ++ ","%char :: (SPACE :: comma_list (y :: r))).
    rewrite getlines_app, Hmain by done; cbn [fmap list_fmap]; rewrite Ht; f_equal.
    rewrite trim_space.
    inversion Hr as [|? ? (_ & _ & _ & Hy) Hr']; subst; rewrite Hy; f_equal.
    clear -Hr'; induction Hr' as [|z r (_ & _ & _ & Hz) _ IH]; [done|]; cbn [fmap list_fmap].
    by rewrite trim_space, Hz, IH.
Qed.

Lemma comma_list_free_bracket items : Forall item_ok items -> free_of "]" (comma_list items).
Proof.
  induction 1 as [|x r (_ & _ & Hx & _) _ IH]; [constructor|]; destruct r as [|y r']; [done|].
  change (free_of "]" (x ++ txt ", " ++ comma_list (y :: r'))).
  rewrite !free_of_app; split_and!; [done| |done]; repeat constructor.
Qed.

(** The shape of an operand text: everything outside the bracket is cut off. *)
Lemma decode_shape m d items post size :
  free_of "," d -> parse_access_size_from_dest (trim_ascii_space d) = Ok size -> size <= 8 ->
  items <> [] -> Forall item_ok items ->
  decode_from_asm_operands m (d ++ txt ", [" ++ comma_list items ++ txt "]" ++ post) =
  decode_items (mk_template size (-1) false false 0 false (-1) false false EXT_NONE 0) items.
Proof.
  intros Hd Hsz H8 Hne Hit; unfold decode_from_asm_operands.
  set (inner := comma_list items).
  change (d ++ txt ", [" ++ inner ++ txt "]" ++ post)
    with (d ++ ","%char :: SPACE :: "["%char :: inner ++ "]"%char :: post).
  rewrite find_app by done; unfold substr at 1; rewrite drop_0, take_app_length, Hsz; cbn [rbind].
  assert ((8 <? size) = false) as -> by lia.
  assert (Hdrop : forall k t, drop (length d + k) (d ++ t) = drop k t).
  { intros k t; rewrite drop_app_ge by lia; f_equal; lia. }
  unfold find_from at 1; rewrite drop_app_length.
  pose proof (find_app "[" [","%char; SPACE] (inner ++ "]"%char :: post)) as Hlb.
  cbn [app] in Hlb; rewrite Hlb by (repeat constructor); clear Hlb; cbn [option_map length].
  unfold find_from; rewrite Hdrop; cbn [drop].
  change ("["%char :: inner ++ "]"%char :: post) with (("["%char :: inner) ++ "]"%char :: post).
  rewrite find_app by (constructor; [done|by apply comma_list_free_bracket]).
  cbn [option_map length]; destruct (_ <=? _)%nat eqn:E; [apply Nat.leb_le in E; lia|].
  unfold substr; rewrite <- (Nat.add_assoc (length d) 2 1), Hdrop; cbn [drop Nat.add app].
  rewrite drop_0; replace (_ - _ - 1)%nat with (length inner) by lia.
  rewrite take_app_length; f_equal; by apply split_comma_list.
Qed.

(** * Names and numbers *)

Lemma parse_x_reg n : 0 <= n <= 30 ->
  parse_reg_name ("x"%char :: dec_u64 n) = Some (mk_reg_name n false false false).
Proof.
  intros Hn; revert n Hn; assert (H : forall n, 0 <= n < Z.of_nat 31 ->
    parse_reg_name ("x"%char :: dec_u64 n) = Some (mk_reg_name n false false false)).
  { apply (forall_below 31); repeat (constructor; [vm_compute; reflexivity|]); constructor. }
  intros; apply H; lia.
Qed.

Lemma parse_w_reg n : 0 <= n <= 29 ->
  parse_reg_name ("w"%char :: dec_u64 n) = Some (mk_reg_name n false true false).
Proof.
  intros Hn; revert n Hn; assert (H : forall n, 0 <= n < Z.of_nat 30 ->
    parse_reg_name ("w"%char :: dec_u64 n) = Some (mk_reg_name n false true false)).
  { apply (forall_below 30); repeat (constructor; [vm_compute; reflexivity|]); constructor. }
  intros; apply H; lia.
Qed.

Lemma parse_base b : base_wf b ->
  parse_reg_name (print_base b) =
  Some (mk_reg_name (match b with BX n => n | BSP => 31 end)
    (match b with BX _ => false | BSP => true end) false false).
Proof. destruct b as [n|]; intros Hb; [by apply parse_x_reg|reflexivity]. Qed.

Definition index_number (i : index_name) : Z := match i with IX n | IW n => n | _ => -1 end.
Definition is_zero_index (i : index_name) : bool := match i with IXZR | IWZR => true | _ => false end.

Lemma parse_index i : index_wf i ->
  parse_reg_name (print_index i) =
  Some (mk_reg_name (index_number i) false (negb (is_x_index i)) (is_zero_index i)).
Proof.
  destruct i as [n|n| |]; intros Hi; [by apply parse_x_reg|by apply parse_w_reg|reflexivity..].
Qed.

Lemma strto_neg c s m :
  isspace c = false -> ceqb c "-" = false -> ceqb c "+" = false ->
  strto 0 (c :: s) = (false, m, []) -> strto 0 ("-"%char :: c :: s) = (true, m, []).
Proof.
  intros H1 H2 H3; unfold strto at 1; rewrite skip_while_stop by done; cbn [read_sign].
  rewrite H2, H3; unfold strto.
  assert (read_sign (skip_while isspace ("-"%char :: c :: s)) = (true, c :: s)) as -> by reflexivity.
  destruct (number_base 0 (c :: s)) as [b s2]; destruct s2 as [|d r]; [done|].
  destruct (digit_in b d); [|done]; destruct (read_digits b 0 (d :: r)); by intros [= -> ->].
Qed.

Lemma strto_magnitude st z : is_u64 z -> strto 0 (print_magnitude st z) = (false, z, []).
Proof. intros Hz; destruct st; [by apply strto0_dec|by apply strto0_hex]. Qed.

Lemma magnitude_head st z : is_u64 z ->
  exists c r, print_magnitude st z = c :: r /\ isspace c = false /\ ceqb c "-" = false /\ ceqb c "+" = false.
Proof.
  intros Hz; destruct st; cbn [print_magnitude]; [|by eexists _, _].
  unfold dec_u64, print_u; destruct (print_digits_head 64 10 z []) as (v & r & -> & Hv & _); [lia..|].
  destruct (digit_char_plain v) as (D1 & D2 & D3 & _); [lia|].
  by exists (digit_char v), r.
Qed.

Lemma parse_imm st v : imm_wf v -> parse_scaled_imm (print_imm st v) = Ok v.
Proof.
  intros Hv; unfold imm_wf in Hv; unfold print_imm, parse_scaled_imm.
  rewrite ceqb_refl; cbn [negb].
  match goal with |- context [strtoll 0 ?t] => assert (Hs : strtoll 0 t = v) end.
  { unfold strtoll, LLONG_MIN, LLONG_MAX; destruct (v <? 0) eqn:E.
    - destruct (magnitude_head st (- v)) as (c & r & Hm & H1 & H2 & H3); [lia|].
      pose proof (strto_magnitude st (- v) ltac:(lia)) as Hst; rewrite Hm in *.
      rewrite (strto_neg c r (- v)) by done; lia.
    - rewrite strto_magnitude by lia; lia. }
  rewrite Hs; f_equal; unfold s32, u32.
  destruct (decide (0 <= v)); [rewrite Z.mod_small by lia; split_if; lia|].
  replace (v mod 4294967296) with (v + 4294967296); [split_if; lia|].
  symmetry; rewrite <- (Z.mod_add v 1) by lia; apply Z.mod_small; lia.
Qed.

Lemma dec_text_ok z (P : ascii -> Prop) :
  0 <= z -> (forall v, 0 <= v < 16 -> P (digit_char v)) -> Forall P (dec_u64 z).
Proof. intros; apply print_u_forall; [lia|done..]. Qed.

(** Characters of names and immediates. *)
Definition plain (c : ascii) : Prop :=
  isspace c = false /\ ceqb c "," = false /\ ceqb c "]" = false.
Lemma plain_digit v : 0 <= v < 16 -> plain (digit_char v).
Proof. intros Hv; destruct (digit_char_plain v Hv) as (? & _ & _ & ? & ? & _); by split_and!. Qed.
Lemma plain_item s : s <> [] -> Forall plain s -> item_ok s.
Proof.
  intros Hne H; split_and!; [done| | |].
  - eapply Forall_impl; [exact H|]; by intros c (_ & ? & _).
  - eapply Forall_impl; [exact H|]; by intros c (_ & _ & ?).
  - apply trim_no_space; eapply Forall_impl; [exact H|]; by intros c (? & _).
Qed.

Ltac plain_text :=
  repeat lazymatch goal with
  | |- Forall _ (dec_u64 _) => apply dec_text_ok; [lia|apply plain_digit]
  | |- Forall _ (hex_digits _) => apply print_u_forall; [lia|lia|apply plain_digit]
  | |- Forall _ (_ :: _) => apply Forall_cons_2; [by split_and!|]
  | |- Forall _ [] => apply Forall_nil_2
  | |- Forall _ (_ ++ _) => apply Forall_app_2
  end.

Lemma base_item b : base_wf b -> item_ok (print_base b).
Proof. destruct b as [n|]; cbn; intros; apply plain_item; try done; plain_text. Qed.

Lemma index_item i : index_wf i -> item_ok (print_index i).
Proof. destruct i as [n|n| |]; cbn; intros; apply plain_item; try done; plain_text. Qed.

Lemma imm_item st v : item_ok (print_imm st v).
Proof.
  apply plain_item; [done|]; unfold print_imm; destruct (v <? 0) eqn:E, st; cbn; plain_text.
Qed.

Lemma dec_u64_snoc z : 0 <= z <= 4 -> exists d, dec_u64 z = [d] /\ isspace d = false /\
  ceqb d "," = false /\ ceqb d "]" = false /\ ceqb d "#" = false.
Proof.
  intros Hz; assert (Hr : 0 <= z < Z.of_nat 5) by lia; clear Hz; revert z Hr.
  apply (forall_below 5); repeat (constructor; [by eexists|]); constructor.
Qed.

Lemma extend_item k a : 0 <= default 0 a <= 4 -> item_ok (print_extend k a).
Proof.
  intros Ha; destruct a as [z|]; cbn in Ha; unfold print_extend.
  - destruct (dec_u64_snoc z Ha) as (d & -> & H1 & H2 & H3 & _).
    split_and!; [by destruct k|..]; try (destruct k; cbn; repeat constructor; by rewrite ?H2, ?H3).
    destruct k; [apply (trim_id "l" (txt "sl #"))|apply (trim_id "l" (txt "sl #"))
      |apply (trim_id "u" (txt "xtw #"))|apply (trim_id "s" (txt "xtw #"))
      |apply (trim_id "u" (txt "xtx #"))|apply (trim_id "s" (txt "xtx #"))]; done.
  - destruct k; apply plain_item; try done; cbn; plain_text.
Qed.

Lemma decode_extend_spec dec k a :
  k <> EXT_NONE -> 0 <= default 0 a <= 4 -> dt_shift dec = 0 ->
  decode_extend dec (print_extend k a) =
  Ok (dec ⟦ dt_extend := k ⟧ ⟦ dt_shift := default 0 a ⟧).
Proof.
  intros Hk Ha Hs; destruct dec; cbn in Hs; subst; destruct a as [z|]; cbn in Ha.
  - assert (Hr : 0 <= z < Z.of_nat 5) by lia; clear Ha; revert z Hr.
    destruct k; try done; apply (forall_below 5); repeat (constructor; [vm_compute; reflexivity|]); constructor.
  - destruct k; try done; vm_compute; reflexivity.
Qed.

(** * The theorems *)

(** The template each operand is decoded to. *)
Definition template_of (d : dest) (b : base_name) (m : amode) : decode_template :=
  let dec := mk_template (class_size (d_class d)) (match b with BX n => n | BSP => 31 end)
    (match b with BX _ => false | BSP => true end) false 0 false (-1) false false EXT_NONE 0 in
  let indexed i := dec ⟦ dt_has_index := true ⟧ ⟦ dt_index_reg := index_number i ⟧
    ⟦ dt_index_is_32 := negb (is_x_index i) ⟧ ⟦ dt_index_is_zero := is_zero_index i ⟧ in
  match m with
  | ABase | APost _ _ => dec
  | AImm _ v | APre _ v => dec ⟦ dt_has_imm := true ⟧ ⟦ dt_imm := v ⟧
  | AIndex i => indexed i
  | AIndexExt i k a => indexed i ⟦ dt_extend := k ⟧ ⟦ dt_shift := default 0 a ⟧
  end.

Lemma dest_size d : dest_wf d ->
  free_of "," (print_dest d) /\
  parse_access_size_from_dest (trim_ascii_space (print_dest d)) = Ok (class_size (d_class d)).
Proof.
  intros Hd; assert (Hp : Forall plain (print_dest d)).
  { destruct d as [c [n|]]; unfold print_dest; cbn in Hd |- *; destruct c; plain_text. }
  assert (Ht : trim_ascii_space (print_dest d) = print_dest d).
  { apply plain_item; [|done]; by destruct d. }
  split; [eapply Forall_impl; [exact Hp|]; by intros ? (_ & ? & _)|].
  unfold parse_access_size_from_dest; rewrite !Ht; by destruct d as [[] ?].
Qed.

Lemma bracket_items_ok b m : base_wf b -> amode_wf m -> Forall item_ok (bracket_items b m).
Proof.
  intros Hb Hm; pose proof (base_item b Hb).
  destruct m; cbn in Hm |- *; destruct_and?;
    repeat (first [apply Forall_nil_2 | apply Forall_cons_2]);
    auto using imm_item, index_item, extend_item.
Qed.

Lemma decode_print mn d b m :
  dest_wf d -> base_wf b -> amode_wf m ->
  decode_from_asm_operands mn (print_operands d b m) = Ok (template_of d b m).
Proof.
  intros Hd Hb Hm; destruct (dest_size d Hd) as [Hf Hsz]; unfold print_operands.
  rewrite (decode_shape mn _ _ _ _ Hf Hsz);
    [|by destruct d as [[] ?]|by destruct m|by apply bracket_items_ok].
  destruct m as [|st v|st v|st v|i|i k a]; cbn [bracket_items decode_items];
    rewrite parse_base by done; cbn [rn_is_zero rn_reg rn_is_sp]; try done.
  - change (head_is "#" (print_imm st v)) with true; cbn iota; by rewrite parse_imm.
  - change (head_is "#" (print_imm st v)) with true; cbn iota; by rewrite parse_imm.
  - destruct Hm as [Hi _].
    assert (head_is "#" (print_index i) = false) as -> by (by destruct i).
    by rewrite parse_index.
  - destruct Hm as (Hi & Hk & Ha).
    assert (head_is "#" (print_index i) = false) as -> by (by destruct i).
    rewrite parse_index by done; by rewrite decode_extend_spec by (by destruct k).
Qed.

Lemma extend_reg_uapi dec raw :
  extend_reg (to_uapi_decode dec) raw =
  match dt_extend dec with
  | EXT_NONE => if dt_index_is_32 dec then u32 raw else raw
  | EXT_LSL => (if dt_index_is_32 dec then u32 raw else raw) * 2 ^ dt_shift dec
  | k => extended_value k raw * 2 ^ dt_shift dec
  end.
Proof. by destruct dec as [? ? ? ? ? ? ? [] ? [] ?]. Qed.

Lemma template_ea d b m regs :
  base_wf b -> amode_wf m ->
  ea_spec (to_uapi_decode (template_of d b m)) regs = operand_address regs b m.
Proof.
  intros Hb Hm; unfold ea_spec, operand_address, base_value; rewrite extend_reg_uapi.
  destruct m as [|st v|st v|st v|i|i k a], b as [n|]; cbn -[Z.add s32 u32 s64]; try lia.
  all: destruct Hm as [_ Hk]; destruct i; try discriminate Hk; cbn -[Z.add s32 u32 s64]; try lia.
  all: destruct Hk as [Hk _]; destruct k; try discriminate Hk; try done; cbn -[Z.add s32 u32 s64]; lia.
Qed.

Lemma template_valid d b m :
  base_wf b -> amode_wf m -> decode_valid (to_uapi_decode (template_of d b m)).
Proof.
  intros Hb Hm; split; [|split; [|split]].
  - destruct d as [[] n], m; vm_compute; tauto.
  - destruct b, m; cbn in *; lia.
  - destruct m as [|st v|st v|st v|[]|[] k a]; cbn in *; intros; try done; lia.
  - destruct m as [|st v|st v|st v|i|i [] a]; vm_compute; discriminate.
Qed.

(** C27. For every A64 load or store operand with an access of at most 8 bytes,
    in the syntax the disassemblers print (no offset, immediate, pre- and
    post-indexed, register-indexed with or without an extension), decoding the
    text succeeds, the kernel module accepts the resulting template with the
    access size of the instruction, and the address it computes from the saved
    registers at a breakpoint is the architectural address of the operand. *)
Theorem decoded_operand_address_correct (mn : text) (d : dest) (b : base_name) (m : amode)
    (regs : pt_regs) (Hd : dest_wf d) (Hb : base_wf b) (Hm : amode_wf m) (Hr : pt_regs_wf regs) :
  exists dec, decode_from_asm_operands mn (print_operands d b m) = Ok dec /\
    (forall off pc n, pc <> 0 -> rd_validate_target (mk_target off pc n (to_uapi_decode dec)) = 0) /\
    access_size (to_uapi_decode dec) = class_size (d_class d) /\
    rd_compute_effective_address (to_uapi_decode dec) regs = Some (u64 (operand_address regs b m)).
Proof.
  exists (template_of d b m); split; [by apply decode_print|].
  pose proof (template_valid d b m Hb Hm) as Hv; split_and!.
  - intros off pc n Hpc; by apply rd_validate_target_ok.
  - destruct d as [[] n], m; reflexivity.
  - destruct (compute_ea_spec (to_uapi_decode (template_of d b m)) regs) as (a & -> & _ & ->);
      [done|done|..].
    + destruct m as [|st v|st v|st v|i|i [] o]; vm_compute; discriminate.
    + destruct m as [|st v|st v|st v|i|i k o]; cbn in *; lia.
    + unfold shift_undefined; rewrite (proj2 (Z.leb_gt 64 _)), andb_false_r; [done|].
      destruct m as [|st v|st v|st v|i|i k o]; cbn in *; lia.
    + by rewrite template_ea.
Qed.

Lemma decoded_operand_address_correct_witness :
  exists dec, decode_from_asm_operands (txt "str") (txt "w7, [sp, x30, lsl #2]") = Ok dec /\
    (forall off pc n, pc <> 0 -> rd_validate_target (mk_target off pc n (to_uapi_decode dec)) = 0) /\
    access_size (to_uapi_decode dec) = 4 /\
    rd_compute_effective_address (to_uapi_decode dec) demo_regs = Some (65536 + 30 * 4096 * 4).
Proof.
  apply (decoded_operand_address_correct (txt "str") (mk_dest DW (Some 7)) BSP
    (AIndexExt (IX 30) EXT_LSL (Some 2)) demo_regs);
    [cbn; lia|exact I|cbn; lia|apply demo_regs_wf].
Defined.

(** * Which failures are filtered *)

Lemma decode_items_error dec items e :
  decode_items dec items = Throw e -> is_filterable_hotspot_error e = true.
Proof.
  unfold decode_items, decode_extend, parse_scaled_imm, rbind.
  repeat first [done | case_match]; try (intros [= <-]; reflexivity).
  all: intros [= ->]; simplify_eq; reflexivity.
Qed.

Lemma access_size_error t e : parse_access_size_from_dest t = Throw e -> is_filterable_hotspot_error e = true.
Proof.
  unfold parse_access_size_from_dest; destruct (trim_ascii_space t) as [|c r]; [by intros [= <-]|].
  repeat split_if; by intros [= <-].
Qed.

(** Whatever text the disassembler prints for the operands, a failure to
    decode it is of the kind that filters the hotspot out and keeps the run
    going; a successful decode has an access of 1, 2, 4 or 8 bytes and a base
    register the module accepts. *)
Theorem decode_failure_is_filtered (mn operands : text) :
  match decode_from_asm_operands mn operands with
  | Throw e => is_filterable_hotspot_error e = true
  | Ok dec => In (dt_access_size dec) [1; 2; 4; 8] /\ 0 <= dt_base_reg dec <= 31 /\
              (dt_has_index dec = true -> dt_index_is_zero dec = false -> 0 <= dt_index_reg dec <= 31)
  end.
Proof.
  destruct (decode_from_asm_operands mn operands) as [dec|e] eqn:H.
  { apply decoded_template_wf in H as [W1 W2 W3 W4]; unfold PERF_REG_ARM64_SP in *.
    split; [cbn; lia|]; split; [lia|]; intros Hi Hz; destruct (W3 Hi); [congruence|lia]. }
  unfold decode_from_asm_operands in H; destruct (find _ _) as [comma|]; [|by injection H as <-].
  destruct (parse_access_size_from_dest _) as [size|e'] eqn:Es; cbn [rbind] in H;
    [|injection H as <-; by eapply access_size_error].
  destruct (8 <? size); [by injection H as <-|].
  destruct (find_from "[" _ _) as [lb|]; [|by injection H as <-].
  destruct (find_from "]" _ _) as [rb|]; [|by injection H as <-].
  destruct (_ <=? _)%nat; [by injection H as <-|by eapply decode_items_error].
Qed.

End AsmDecode.
