(* ===== verification/Objdump.v ===== *)
(** Disassembly of one hotspot: [shell_quote], [run_command_capture] and
    [decode_target_via_objdump] of [src/targeted_rd.cc].  The disassembler is run
    through the shell ([popen]); the process and the shell are a parameter, what
    is modelled is the command line that is built and the scan of the output. *)
From S2P Require Import Prelude Uapi EffAddr CText AsmDecode.
Import EffAddr AsmDecode.

Record hot_target := mk_hot_target {
  ht_pc_offset : Z;
  ht_abs_pc : Z;
  ht_aggregated_samples : Z;
  ht_path : text;
  ht_mnemonic : text;
  ht_operands : text;
  ht_decode : decode_template;
}.
#[export] Instance eta_hot_target : Eta hot_target := fun r =>
  mk_hot_target (ht_pc_offset r) (ht_abs_pc r) (ht_aggregated_samples r) (ht_path r)
    (ht_mnemonic r) (ht_operands r) (ht_decode r).

Module Objdump.

Definition disassembly_command (tool : text) (pc_offset : Z) (binary_path : text) : text :=
  tool ++ txt " -d --start-address=0x" ++ hex_digits pc_offset ++
  txt " --stop-address=0x" ++ hex_digits (u64 (pc_offset + 4)) ++ txt " " ++
  shell_quote binary_path ++ txt " 2>/dev/null".

(** The disassembled line of the hotspot: [inl] keeps scanning. *)
Definition scan_line (binary_path : text) (pc_offset aggregated_samples : Z) (line : text) :
    unit + result hot_target :=
  let t := trim_ascii_space line in
  match find ":" t with
  | None => inl tt
  | Some colon =>
      if negb (strtoull 16 (substr t 0 colon) =? pc_offset) then inl tt else
      match read_tokens 2 (trim_ascii_space (drop (S colon) t)) with
      | Some ([bytes; mnemonic], rest) =>
          let operands := trim_ascii_space (getline_rest rest) in
          if negb (bool_decide (mnemonic = txt "ldr")) && negb (bool_decide (mnemonic = txt "str")) &&
             negb (bool_decide (mnemonic = txt "ldur")) && negb (bool_decide (mnemonic = txt "stur"))
          then inr (Throw (txt "unsupported hotspot instruction '" ++ mnemonic ++ txt "' at 0x" ++ hex_u64 pc_offset))
          else inr (dec <-! decode_from_asm_operands mnemonic operands;
                    Ok (mk_hot_target pc_offset 0 aggregated_samples binary_path mnemonic operands dec))
      | _ => inl tt
      end
  end.

Fixpoint scan_lines (binary_path : text) (pc_offset aggregated_samples : Z) (lines : list text) :
    result hot_target :=
  match lines with
  | [] => Throw (txt "cannot find disassembly for hotspot PC offset 0x" ++ hex_u64 pc_offset)
  | line :: lines' =>
      match scan_line binary_path pc_offset aggregated_samples line with
      | inl _ => scan_lines binary_path pc_offset aggregated_samples lines'
      | inr r => r
      end
  end.

Section objdump.

(** [popen], the reads and [pclose]: the output and the wait status of the
    command, [None] when the process cannot be started. *)
Context (popen : text -> option (text * Z)).

Definition run_command_capture (cmd : text) : result text :=
  match popen cmd with
  | None => Throw (txt "popen failed")
  | Some (out, status) => if negb (status =? 0) then Ok [] else Ok out
  end.

(** The loop over the tools, left at the first non-empty output. *)
Fixpoint try_tools (tools : list text) (pc_offset : Z) (binary_path : text) : result text :=
  match tools with
  | [] => Ok []
  | tool :: more =>
      output <-! run_command_capture (disassembly_command tool pc_offset binary_path);
      match output with
      | [] => try_tools more pc_offset binary_path
      | _ => Ok output
      end
  end.

Definition decode_target_via_objdump (binary_path : text) (pc_offset aggregated_samples : Z) :
    result hot_target :=
  output <-! try_tools [txt "objdump"; txt "llvm-objdump"] pc_offset binary_path;
  match output with
  | [] => Throw (txt "cannot disassemble hotspot PC offset 0x" ++ hex_u64 pc_offset)
  | _ => scan_lines binary_path pc_offset aggregated_samples (getlines NEWLINE output)
  end.

End objdump.

(** What a decoded target carries over from the request. *)
Lemma scan_lines_fields path pc n lines t :
  scan_lines path pc n lines = Ok t ->
  ht_pc_offset t = pc /\ ht_aggregated_samples t = n /\ ht_path t = path /\
  decode_from_asm_operands (ht_mnemonic t) (ht_operands t) = Ok (ht_decode t).
Proof.
  induction lines as [|line lines IH]; cbn [scan_lines]; [done|].
  destruct (scan_line path pc n line) as [u|r] eqn:E; [exact IH|]; intros ->; unfold scan_line in E.
  repeat case_match; simplify_eq.
  match goal with H : rbind _ _ = Ok _ |- _ => apply rbind_Ok in H as (dec & Hd & [= <-]) end; done.
Qed.

Lemma decode_target_fields popen path pc n t :
  decode_target_via_objdump popen path pc n = Ok t ->
  ht_pc_offset t = pc /\ ht_aggregated_samples t = n /\ ht_path t = path /\
  decode_from_asm_operands (ht_mnemonic t) (ht_operands t) = Ok (ht_decode t).
Proof.
  unfold decode_target_via_objdump; intros (out & _ & H)%rbind_Ok; destruct out; [done|].
  by apply scan_lines_fields in H.
Qed.

(** * The shell

    Word splitting and quote removal of a POSIX shell on a simple command:
    blanks separate words, single quotes keep everything up to the next single
    quote, a backslash keeps the next character.  Characters that start an
    expansion, a pipeline or a list are outside this fragment ([None]). *)

Definition sh_blank (c : ascii) : bool := ceqb c SPACE || ceqb c TAB.
Definition sh_special (c : ascii) : bool :=
  existsb (ceqb c) (NEWLINE :: chr 34 :: txt "$`&|;<()*?[#~{").

Fixpoint sh_split (in_quote : bool) (cur : option text) (s : text) : option (list text) :=
  match s with
  | [] => if in_quote then None else Some (option_list cur)
  | c :: s' =>
      if in_quote then
        if ceqb c QUOTE then sh_split false cur s'
        else sh_split true (Some (default [] cur ++ [c])) s'
      else if sh_blank c then
        match cur with
        | None => sh_split false None s'
        | Some w => cons w <$> sh_split false None s'
        end
      else if ceqb c QUOTE then sh_split true (Some (default [] cur)) s'
      else if ceqb c BACKSLASH then
        match s' with
        | d :: s'' => sh_split false (Some (default [] cur ++ [d])) s''
        | [] => None
        end
      else if sh_special c then None
      else sh_split false (Some (default [] cur ++ [c])) s'
  end.

Lemma sh_quote_body w s rest :
  sh_split true (Some w) (quote_body s ++ QUOTE :: rest) = sh_split false (Some (w ++ s)) rest.
Proof.
  revert w; induction s as [|c s IH]; intros w; [by rewrite app_nil_r|].
  cbn [quote_body]; destruct (ceqb c QUOTE) eqn:E.
  - apply ceqb_true in E as ->; rewrite <- app_assoc.
    assert (Hq : forall x t, sh_split true (Some x) ([QUOTE; BACKSLASH; QUOTE; QUOTE] ++ t) =
      sh_split true (Some (x ++ [QUOTE])) t) by reflexivity.
    rewrite Hq, IH; by rewrite <- app_assoc.
  - cbn [app sh_split]; rewrite E; cbn [default]; rewrite IH; by rewrite <- app_assoc.
Qed.

Definition sh_plain (c : ascii) : Prop :=
  sh_blank c = false /\ ceqb c QUOTE = false /\ ceqb c BACKSLASH = false /\ sh_special c = false.

Lemma sh_plain_word w s rest :
  Forall sh_plain s -> sh_split false (Some w) (s ++ rest) = sh_split false (Some (w ++ s)) rest.
Proof.
  intros H; revert w; induction H as [|c s (H1 & H2 & H3 & H4) _ IH]; intros w; [by rewrite app_nil_r|].
  cbn [app sh_split]; rewrite H1, H2, H3, H4; cbn [default]; rewrite IH; by rewrite <- app_assoc.
Qed.

Lemma sh_plain_start s rest :
  s <> [] -> Forall sh_plain s -> sh_split false None (s ++ rest) = sh_split false (Some s) rest.
Proof.
  intros Hne H; destruct H as [|c s (H1 & H2 & H3 & H4) Hs]; [done|].
  cbn [app sh_split]; rewrite H1, H2, H3, H4; cbn [default app]; by rewrite sh_plain_word.
Qed.

Lemma sh_plain_digit v : 0 <= v < 16 -> sh_plain (digit_char v).
Proof. revert v; apply (forall_below 16); repeat (constructor; [done|]); constructor. Qed.

Ltac sh_words :=
  lazymatch goal with
  | |- Forall sh_plain (hex_digits _) => apply print_u_forall; [lia|lia|apply sh_plain_digit]
  | |- Forall sh_plain (_ ++ _) => apply Forall_app_2; sh_words
  | |- Forall sh_plain (txt _) => repeat (constructor; [done|]); constructor
  end.

Lemma sh_space w rest : sh_split false (Some w) (SPACE :: rest) = cons w <$> sh_split false None rest.
Proof. reflexivity. Qed.

(** C31. The command line the profiler builds for a hotspot is read by the shell
    as the disassembler with its two address bounds and the binary's path as one
    unchanged argument, whatever characters the path has. *)
Theorem disassembly_command_words (pc_offset : Z) (binary_path : text) (Hpc : is_u64 pc_offset) :
  sh_split false None (disassembly_command (txt "objdump") pc_offset binary_path) =
  Some [txt "objdump"; txt "-d"; txt "--start-address=0x" ++ hex_digits pc_offset;
        txt "--stop-address=0x" ++ hex_digits (u64 (pc_offset + 4)); binary_path; txt "2>/dev/null"].
Proof.
  pose proof (u64_range (pc_offset + 4)).
  set (p := txt "--start-address=0x" ++ hex_digits pc_offset).
  set (q := txt "--stop-address=0x" ++ hex_digits (u64 (pc_offset + 4))).
  assert (Hcmd : disassembly_command (txt "objdump") pc_offset binary_path =
    txt "objdump" ++ SPACE :: txt "-d" ++ SPACE :: p ++ SPACE :: q ++ SPACE ::
    QUOTE :: quote_body binary_path ++ QUOTE :: SPACE :: txt "2>/dev/null").
  { unfold disassembly_command, p, q, shell_quote; by simplify_list_eq. }
  rewrite Hcmd, sh_plain_start, sh_space by (done || sh_words).
  rewrite sh_plain_start, sh_space by (done || sh_words).
  rewrite sh_plain_start, sh_space by (done || (subst p; sh_words)).
  rewrite sh_plain_start, sh_space by (done || (subst q; sh_words)).
  assert (Hq : forall t, sh_split false None (QUOTE :: t) = sh_split true (Some []) t) by reflexivity.
  rewrite Hq, sh_quote_body; reflexivity.
Qed.

Lemma disassembly_command_words_witness :
  sh_split false None (disassembly_command (txt "objdump") 4660 (txt "/tmp/it's $HOME; rm")) =
  Some [txt "objdump"; txt "-d"; txt "--start-address=0x1234"; txt "--stop-address=0x1238";
        txt "/tmp/it's $HOME; rm"; txt "2>/dev/null"].
Proof. apply (disassembly_command_words 4660 (txt "/tmp/it's $HOME; rm")); lia. Defined.

(** * The output of the disassembler *)

(** One printed instruction: address, encoding, mnemonic and operands. *)
Definition objdump_line (pc : Z) (encoding mnemonic operands : text) : text :=
  txt "    " ++ hex_digits pc ++ ":"%char :: TAB :: encoding ++ SPACE :: TAB ::
  mnemonic ++ TAB :: operands.

(** Lines the scan passes over: no colon, another address, or (the symbol line
    [<main+0x10>:]) nothing after the colon. *)
Definition other_line (pc : Z) (line : text) : Prop :=
  forall path n, scan_line path pc n line = inl tt.

Lemma trim_ends c m t :
  isspace c = false -> word t -> trim_ascii_space (c :: m ++ t) = c :: m ++ t.
Proof.
  intros Hc [Hne Ht]; destruct t as [|d t _] using rev_ind; [done|].
  apply Forall_app in Ht as [_ [Hd _]%Forall_cons].
  rewrite app_assoc; by apply trim_id.
Qed.

(** Operand text: a non-space head and a last word. *)
Definition operand_text (s : text) : Prop :=
  (exists c m t, s = c :: m ++ t /\ isspace c = false /\ word t) /\
  Forall (fun c => isspace c = false \/ c = SPACE) s.

Lemma operand_text_trim s : operand_text s -> trim_ascii_space s = s.
Proof. intros [(c & m & t & -> & Hc & Ht) _]; by apply trim_ends. Qed.

Lemma operand_text_line s : operand_text s -> getline_rest s = s.
Proof.
  intros [_ H]; unfold getline_rest; induction H as [|c s Hc _ IH]; [done|]; cbn [take_until].
  destruct (ceqb NEWLINE c) eqn:E; [|by rewrite IH].
  apply ceqb_true in E as <-; by destruct Hc.
Qed.

Definition supported_mnemonic (mn : text) : Prop :=
  In mn [txt "ldr"; txt "str"; txt "ldur"; txt "stur"].

Lemma scan_objdump_line path pc n enc mn ops :
  is_u64 pc -> word enc -> supported_mnemonic mn -> operand_text ops ->
  scan_line path pc n (objdump_line pc enc mn ops) =
  inr (dec <-! decode_from_asm_operands mn ops; Ok (mk_hot_target pc 0 n path mn ops dec)).
Proof.
  intros Hpc He Hm Ho.
  assert (Hmw : word mn) by (destruct Hm as [<-|[<-|[<-|[<-|[]]]]]; split; [done|repeat constructor|..];
    try done; repeat constructor).
  set (tail := enc ++ SPACE :: TAB :: mn ++ TAB :: ops).
  assert (Hends : forall c m, isspace c = false -> trim_ascii_space (c :: m ++ ops) = c :: m ++ ops).
  { intros c m Hc; destruct Ho as [(c' & m' & t & -> & _ & Ht) _].
    replace (m ++ c' :: m' ++ t) with ((m ++ c' :: m') ++ t) by (by rewrite <- app_assoc).
    by apply trim_ends. }
  assert (Hline : trim_ascii_space (objdump_line pc enc mn ops) = hex_digits pc ++ ":"%char :: TAB :: tail).
  { unfold objdump_line; change (txt "    ") with [SPACE; SPACE; SPACE; SPACE]; cbn [app].
    rewrite !trim_space; fold tail; destruct (word_digits pc Hpc) as [Hne Hs].
    destruct (hex_digits pc) as [|c m]; [done|]; inversion Hs; subst.
    unfold tail; rewrite <- app_comm_cons.
    specialize (Hends c (m ++ ":"%char :: TAB :: enc ++ SPACE :: TAB :: mn ++ [TAB])); simplify_list_eq.
    rewrite <- ?app_assoc in Hends; cbn [app] in Hends; by rewrite Hends. }
  assert (Htail : trim_ascii_space (TAB :: tail) = tail).
  { change (trim_ascii_space (TAB :: tail)) with (trim_ascii_space tail); unfold tail.
    destruct He as [Hne Hs]; destruct enc as [|c m]; [done|]; inversion Hs; subst.
    specialize (Hends c (m ++ SPACE :: TAB :: mn ++ [TAB])); simplify_list_eq.
    rewrite <- ?app_assoc in Hends; cbn [app] in Hends; by rewrite Hends. }
  unfold scan_line; rewrite Hline, find_app.
  2: { apply print_u_forall; [lia|lia|]; intros v Hv; apply (digit_char_plain v Hv). }
  unfold substr; rewrite drop_0, take_app_length.
  assert (strtoull 16 (hex_digits pc) = pc) as ->.
  { unfold strtoull, hex_digits; rewrite <- (app_nil_r (print_u 16 pc)), strto_print by (cbn; auto; lia).
    unfold U64_MAX; split_if; lia. }
  rewrite Z.eqb_refl; cbn [negb].
  rewrite drop_app_ge by lia; replace (S _ - _)%nat with 1%nat by lia; cbn [drop]; rewrite Htail.
  assert (Htok : read_tokens 2 tail = Some ([enc; mn], TAB :: ops)).
  { cbn [read_tokens]; unfold tail; rewrite read_token_word by done; cbn [mbind option_bind].
    by rewrite !read_token_space, read_token_word by done. }
  rewrite Htok.
  assert (trim_ascii_space (getline_rest (TAB :: ops)) = ops) as ->.
  { change (getline_rest (TAB :: ops)) with (TAB :: getline_rest ops); rewrite operand_text_line by done.
    change (trim_ascii_space (TAB :: ops)) with (trim_ascii_space ops); by apply operand_text_trim. }
  destruct Hm as [<-|[<-|[<-|[<-|[]]]]]; reflexivity.
Qed.

Definition opchar (c : ascii) : Prop := isspace c = false \/ c = SPACE.

Lemma plain_opchar s : Forall plain s -> Forall opchar s.
Proof. intros H; eapply Forall_impl; [exact H|]; intros c (? & _); by left. Qed.

Lemma space_opchar : opchar SPACE.
Proof. by right. Qed.

Ltac opchars :=
  repeat lazymatch goal with
  | |- Forall opchar (dec_u64 _) => apply plain_opchar, dec_text_ok; [lia|apply plain_digit]
  | |- Forall opchar (hex_digits _) => apply plain_opchar, print_u_forall; [lia|lia|apply plain_digit]
  | |- Forall opchar (_ :: _) => apply Forall_cons_2; [first [by left | by right]|]
  | |- Forall opchar [] => apply Forall_nil_2
  | |- Forall opchar (_ ++ _) => apply Forall_app_2
  | |- Forall opchar (txt _) => cbn [txt String.list_ascii_of_string]
  end.

Lemma print_imm_plain st v : Forall plain (print_imm st v).
Proof. unfold print_imm; destruct (v <? 0) eqn:E, st; cbn; plain_text. Qed.

Lemma items_opchar b m : base_wf b -> amode_wf m -> Forall (Forall opchar) (bracket_items b m).
Proof.
  intros Hb Hm; assert (Forall opchar (print_base b)) by (destruct b; cbn in *; opchars).
  assert (Hi : forall i, index_wf i -> Forall opchar (print_index i)) by (intros []; cbn; intros; opchars).
  assert (He : forall k a, 0 <= default 0 a <= 4 -> Forall opchar (print_extend k a)).
  { intros k [a|]; cbn; intros; unfold print_extend; destruct k; cbn [extend_name]; opchars. }
  destruct m; cbn in Hm |- *; destruct_and?;
    repeat lazymatch goal with
    | |- Forall (Forall _) (_ :: _) => apply Forall_cons_2
    | |- Forall (Forall _) [] => apply Forall_nil_2
    end; auto using plain_opchar, print_imm_plain.
Qed.

Lemma comma_list_opchar items : Forall (Forall opchar) items -> Forall opchar (comma_list items).
Proof.
  induction 1 as [|x [|y r] Hx _ IH]; [constructor|done|].
  change (Forall opchar (x ++ txt ", " ++ comma_list (y :: r))); by opchars.
Qed.

Lemma print_operands_text d b m :
  dest_wf d -> base_wf b -> amode_wf m -> operand_text (print_operands d b m).
Proof.
  intros Hd Hb Hm; unfold print_operands; split.
  - set (inner := comma_list _).
    assert (Hc : isspace (class_letter (d_class d)) = false) by (by destruct (d_class d)).
    unfold print_dest; set (num := match d_num d with Some _ => _ | None => _ end).
    destruct m as [|st v|st v|st v|i|i k a]; cbn [after_bracket].
    4: { exists (class_letter (d_class d)), (num ++ txt ", [" ++ inner ++ txt "]" ++ txt ", "), (print_imm st v).
      split; [cbn [app]; rewrite <- ?app_assoc; reflexivity|]; split; [done|]; split; [done|].
      eapply Forall_impl; [apply print_imm_plain|]; by intros c (? & _). }
    3: { exists (class_letter (d_class d)), (num ++ txt ", [" ++ inner), (txt "]!").
      split; [cbn [app]; rewrite <- ?app_assoc; reflexivity|]; split; [done|]; split; [done|repeat constructor]. }
    all: exists (class_letter (d_class d)), (num ++ txt ", [" ++ inner), (txt "]").
    all: split; [cbn [app]; rewrite <- ?app_assoc; reflexivity|]; split; [done|]; split; [done|repeat constructor].
  - change (Forall opchar (print_dest d ++ txt ", [" ++ comma_list (bracket_items b m) ++ txt "]" ++ after_bracket m)).
    repeat apply Forall_app_2; [|opchars|by apply comma_list_opchar, items_opchar|opchars|].
    + destruct d as [c [n|]]; cbn in Hd; unfold print_dest; destruct c; cbn; opchars.
    + destruct m; cbn [after_bracket]; opchars; apply plain_opchar, print_imm_plain.
Qed.

Lemma scan_skips path pc n pre lines :
  Forall (other_line pc) pre -> scan_lines path pc n (pre ++ lines) = scan_lines path pc n lines.
Proof. induction 1 as [|l pre Hl _ IH]; [done|]; cbn [app scan_lines]; by rewrite Hl. Qed.


Definition demo_popen (cmd : text) : option (text * Z) :=
  Some (concat ((fun l => l ++ [NEWLINE]) <$>
    [txt "a.out:     file format elf64-littleaarch64"; txt "0000000000001234 <f+0x10>:";
     objdump_line 4660 (txt "f8627820") (txt "ldr") (txt "x0, [x1, x2, lsl #3]")]), 0).


End Objdump.
