(* ===== verification/ProcMaps.v ===== *)
(** What both halves of the user-space tool read from [/proc/self]: the
    executable mappings ([snapshot_module_maps], [remember_module_map] and
    [find_module_map] of [src/monitor.cc]; [resolve_absolute_pc] and
    [snapshot_runtime_module_maps] of [src/targeted_rd.cc]) and the CPU a thread
    last ran on.  Phase one turns a program counter into a file offset, phase
    two turns the offset back; the main theorem is that round trip, through the
    text of the maps file. *)
From S2P Require Import Prelude CText AsmDecode.
Import AsmDecode.

Record module_map_entry := mk_module_map {
  mm_module_id : Z;
  mm_vm_start : Z;
  mm_vm_end : Z;
  mm_file_offset : Z;
  mm_path : text;
}.
#[export] Instance module_map_entry_eq_dec : EqDecision module_map_entry.
Proof. solve_decision. Defined.

Module ProcMaps.

(** The part the three readers share: five fields, the [x] permission, the range
    and the offset; the unread rest of the line is the path. *)
Definition exec_mapping (line : text) : option (Z * Z * Z * text) :=
  match read_tokens 5 line with
  | Some ([range; perms; offset_hex; dev; inode], rest) =>
      match perms with
      | _ :: _ :: p :: _ =>
          if negb (ceqb p "x") then None else
          match strto_end 16 range with
          | c :: r =>
              if ceqb c "-" then
                Some (strtoull 16 range, strtoull 16 r, strtoull 16 offset_hex, getline_rest rest)
              else None
          | [] => None
          end
      | _ => None
      end
  | _ => None
  end.

(** [trim_ascii_space] of [src/monitor.cc] removes leading blanks only. *)
Definition trim_leading (s : text) : text := skip_while isspace s.

Section maps.

(** [realpath(3)]: the resolved path, [None] when it fails. *)
Context (realpath : text -> option text).

Definition normalize_filesystem_path (path : text) : text :=
  match path with
  | c :: _ => if ceqb c "/" then default path (realpath path) else path
  | [] => path
  end.

(** * Phase two: [src/targeted_rd.cc] *)

Definition cannot_resolve (pc_offset : Z) : text :=
  txt "cannot resolve current absolute PC for hotspot offset 0x" ++ hex_u64 pc_offset.

Fixpoint resolve_in_lines (lines : list text) (binary_path : text) (pc_offset : Z) : result Z :=
  match lines with
  | [] => Throw (cannot_resolve pc_offset)
  | line :: more =>
      match exec_mapping line with
      | Some (vm_start, vm_end, file_offset, rest) =>
          let path := normalize_filesystem_path (trim_ascii_space rest) in
          let span := u64 (vm_end - vm_start) in
          if negb (bool_decide (path = binary_path)) then resolve_in_lines more binary_path pc_offset else
          if (pc_offset <? file_offset) || (u64 (file_offset + span) <=? pc_offset)
          then resolve_in_lines more binary_path pc_offset
          else Ok (u64 (vm_start + u64 (pc_offset - file_offset)))
      | None => resolve_in_lines more binary_path pc_offset
      end
  end.

(** [maps] is the content of [/proc/self/maps], [None] if it cannot be opened. *)
Definition resolve_absolute_pc (maps : option text) (binary_path : text) (pc_offset : Z) : result Z :=
  match maps with
  | None => Throw (txt "cannot open /proc/self/maps")
  | Some content => resolve_in_lines (getlines NEWLINE content) binary_path pc_offset
  end.

Fixpoint runtime_maps_from (modules : list module_map_entry) (lines : list text) : list module_map_entry :=
  match lines with
  | [] => modules
  | line :: more =>
      match exec_mapping line with
      | Some (vm_start, vm_end, file_offset, rest) =>
          let path := normalize_filesystem_path (trim_ascii_space rest) in
          if bool_decide (path = []) then runtime_maps_from modules more
          else runtime_maps_from
                 (modules ++ [mk_module_map (u32 (zlen modules)) vm_start vm_end file_offset path]) more
      | None => runtime_maps_from modules more
      end
  end.
Definition snapshot_runtime_module_maps (maps : option text) : list module_map_entry :=
  match maps with
  | None => []
  | Some content => runtime_maps_from [] (getlines NEWLINE content)
  end.

(** * Phase one: [src/monitor.cc] *)

Definition same_map (vm_start vm_end file_offset : Z) (path : text) (e : module_map_entry) : bool :=
  (mm_vm_start e =? vm_start) && (mm_vm_end e =? vm_end) && (mm_file_offset e =? file_offset) &&
  bool_decide (mm_path e = path).

Definition remember_module_map (vm_start vm_end file_offset : Z) (path : text)
    (module_maps : list module_map_entry) : list module_map_entry :=
  let effective_path := match path with
                        | [] => txt "[anonymous_exec]"
                        | _ => normalize_filesystem_path path
                        end in
  if existsb (same_map vm_start vm_end file_offset effective_path) module_maps then module_maps
  else module_maps ++
    [mk_module_map (u32 (zlen module_maps)) vm_start vm_end file_offset effective_path].

Fixpoint module_maps_from (module_maps : list module_map_entry) (lines : list text) :
    list module_map_entry :=
  match lines with
  | [] => module_maps
  | line :: more =>
      match exec_mapping line with
      | Some (vm_start, vm_end, file_offset, rest) =>
          module_maps_from
            (remember_module_map vm_start vm_end file_offset (trim_leading rest) module_maps) more
      | None => module_maps_from module_maps more
      end
  end.

(** [pc_present] is [sample_pc_present()]. *)
Definition snapshot_module_maps (pc_present : bool) (maps : option text)
    (module_maps : list module_map_entry) : result (list module_map_entry) :=
  if negb pc_present then Ok module_maps else
  match maps with
  | None => Throw (txt "Cannot open /proc/self/maps")
  | Some content => Ok (module_maps_from module_maps (getlines NEWLINE content))
  end.

End maps.

Fixpoint find_module_map (module_maps : list module_map_entry) (pc : Z) : option module_map_entry :=
  match module_maps with
  | [] => None
  | entry :: more =>
      if (mm_vm_start entry <=? pc) && (pc <? mm_vm_end entry) then Some entry
      else find_module_map more pc
  end.

Definition is_main_binary_module (main_binary_path : text) (entry : module_map_entry) : bool :=
  negb (bool_decide (main_binary_path = [])) && bool_decide (mm_path entry = main_binary_path).

(** The offset [record_hotspot_sample] files a sample under. *)
Definition hotspot_offset (entry : module_map_entry) (pc : Z) : Z :=
  u64 (u64 (pc - mm_vm_start entry) + mm_file_offset entry).

(** * The CPU a thread last ran on

    [stat] is the content of [/proc/self/task/<tid>/stat]; both
    [parse_cpu_from_tid_stat] and [read_thread_last_cpu_stat] compute this. *)
Definition parse_cpu_from_tid_stat (stat : option text) : Z :=
  match stat with
  | None => -1
  | Some content =>
      let line := getline_rest content in
      match find "(" line, rfind ")" line with
      | Some l, Some r =>
          if (r <=? l)%nat then -1 else
          match read_tokens 37 (drop (S r) line) with
          | Some (toks, _) => match last toks with Some tok => atoi tok | None => -1 end
          | None => -1
          end
      | _, _ => -1
      end
  end.
Definition read_thread_last_cpu_stat (stat : option text) : Z :=
  match stat with
  | None => -1
  | Some content =>
      let line := getline_rest content in
      if bool_decide (line = []) then -1 else
      match find "(" line, rfind ")" line with
      | Some l, Some r =>
          if (r <=? l)%nat then -1 else
          match read_tokens 37 (drop (S r) line) with
          | Some (toks, _) => match last toks with Some tok => atoi tok | None => -1 end
          | None => -1
          end
      | _, _ => -1
      end
  end.

(** * The text of the maps file

    One line as the kernel prints it. *)
Record mapping := mk_mapping {
  mp_start : Z; mp_end : Z; mp_perms : text; mp_offset : Z; mp_dev : text; mp_inode : text;
  mp_pad : nat; mp_path : text;
}.

Definition spaces (n : nat) : text := replicate n SPACE.
Definition print_mapping (m : mapping) : text :=
  (pad_hex 8 (mp_start m) ++ "-"%char :: pad_hex 8 (mp_end m)) ++ SPACE :: mp_perms m ++ SPACE ::
  pad_hex 8 (mp_offset m) ++ SPACE :: mp_dev m ++ SPACE :: mp_inode m ++ SPACE ::
  spaces (mp_pad m) ++ mp_path m.
Definition maps_text (ms : list mapping) : text :=
  concat ((fun l => l ++ [NEWLINE]) <$> (print_mapping <$> ms)).

Definition mapping_wf (m : mapping) : Prop :=
  is_u64 (mp_start m) /\ is_u64 (mp_end m) /\ is_u64 (mp_offset m) /\
  mp_start m <= mp_end m /\ mp_offset m + (mp_end m - mp_start m) < 18446744073709551616 /\
  word (mp_perms m) /\ word (mp_dev m) /\ word (mp_inode m) /\
  free_of NEWLINE (mp_path m) /\ skip_while isspace (mp_path m) = mp_path m /\
  skip_while isspace (rev (mp_path m)) = rev (mp_path m).

Definition executable (m : mapping) : bool := bool_decide (mp_perms m !! 2%nat = Some "x"%char).

Lemma nospace_no_newline s : Forall (fun c => isspace c = false) s -> free_of NEWLINE s.
Proof.
  intros H; eapply Forall_impl; [exact H|]; intros c Hc; cbn in Hc.
  destruct (ceqb c NEWLINE) eqn:E; [|done]; by apply ceqb_true in E as ->.
Qed.

Lemma free_of_newline_line s : free_of NEWLINE s -> getline_rest s = s.
Proof.
  unfold getline_rest; induction 1 as [|c s Hc _ IH]; [done|]; cbn [take_until].
  destruct (ceqb NEWLINE c) eqn:E; [|by rewrite IH].
  apply ceqb_true in E as <-; by rewrite ceqb_refl in Hc.
Qed.

Lemma spaces_no_newline n : free_of NEWLINE (spaces n).
Proof. by apply Forall_replicate. Qed.

Lemma skip_spaces n s : skip_while isspace (spaces n ++ s) = skip_while isspace s.
Proof. induction n as [|n IH]; [done|]; exact IH. Qed.

Lemma trim_spaces n s : trim_ascii_space (spaces n ++ s) = trim_ascii_space s.
Proof. unfold trim_ascii_space; by rewrite skip_spaces. Qed.

Lemma range_word m : mapping_wf m -> word (pad_hex 8 (mp_start m) ++ "-"%char :: pad_hex 8 (mp_end m)).
Proof.
  intros (H1 & H2 & _); apply word_app; [by apply word_pad_hex|].
  constructor; [done|]; by apply word_pad_hex.
Qed.

(** What the shared reader makes of a printed line. *)
Lemma exec_mapping_print m :
  mapping_wf m ->
  exec_mapping (print_mapping m) =
  if executable m then Some (mp_start m, mp_end m, mp_offset m, spaces (S (mp_pad m)) ++ mp_path m)
  else None.
Proof.
  intros Hm; pose proof (range_word m Hm) as Hrange.
  destruct Hm as (H1 & H2 & H3 & _ & _ & H4 & H5 & H6 & H7 & _).
  assert (Htok : read_tokens 5 (print_mapping m) =
    Some ([pad_hex 8 (mp_start m) ++ "-"%char :: pad_hex 8 (mp_end m); mp_perms m;
           pad_hex 8 (mp_offset m); mp_dev m; mp_inode m], spaces (S (mp_pad m)) ++ mp_path m)).
  { unfold print_mapping; cbn [read_tokens].
    rewrite read_token_word by done; cbn [mbind option_bind].
    rewrite read_token_space, read_token_word by done; cbn [mbind option_bind].
    rewrite read_token_space, read_token_word by (done || by apply word_pad_hex); cbn [mbind option_bind].
    rewrite read_token_space, read_token_word by done; cbn [mbind option_bind].
    rewrite read_token_space, read_token_word by done; cbn [mbind option_bind]; reflexivity. }
  assert (Hline : getline_rest (spaces (S (mp_pad m)) ++ mp_path m) = spaces (S (mp_pad m)) ++ mp_path m).
  { apply free_of_newline_line, free_of_app; split; [apply spaces_no_newline|done]. }
  unfold exec_mapping; rewrite Htok, Hline; unfold executable.
  destruct (mp_perms m) as [|p0 [|p1 [|p ps]]]; try done; cbn [lookup list_lookup].
  destruct (ceqb p "x") eqn:E; cbn [negb].
  - apply ceqb_true in E as ->; rewrite bool_decide_true by done.
    unfold strto_end; rewrite strto_pad_hex by done; cbn [snd]; rewrite ceqb_refl.
    rewrite strtoull_pad_hex by done.
    rewrite <- (app_nil_r (pad_hex 8 (mp_end m))) at 1; rewrite <- (app_nil_r (pad_hex 8 (mp_offset m))) at 1.
    by rewrite !strtoull_pad_hex by done.
  - rewrite bool_decide_false; [done|]; intros [= ->]; by rewrite ceqb_refl in E.
Qed.

Lemma print_mapping_line m : mapping_wf m -> free_of NEWLINE (print_mapping m).
Proof.
  intros Hm; pose proof (range_word m Hm) as [_ Hr].
  destruct Hm as (_ & _ & H3 & _ & _ & [_ H4] & [_ H5] & [_ H6] & H7 & _).
  destruct (word_pad_hex 8 _ H3) as [_ Ho].
  unfold print_mapping, free_of.
  repeat lazymatch goal with
  | |- Forall _ ((_ ++ _ :: _) ++ _) => apply Forall_app_2; [by apply nospace_no_newline|]
  | |- Forall _ (_ ++ _) => apply Forall_app_2
  | |- Forall _ (_ :: _) => apply Forall_cons_2; [done|]
  end; auto using nospace_no_newline, spaces_no_newline.
  - by apply nospace_no_newline.
  - by apply nospace_no_newline.
  - by apply nospace_no_newline.
  - by apply nospace_no_newline.
  - by apply spaces_no_newline.
Qed.

Lemma maps_text_lines ms :
  Forall mapping_wf ms -> getlines NEWLINE (maps_text ms) = print_mapping <$> ms.
Proof.
  intros H; apply getlines_concat, Forall_fmap.
  eapply Forall_impl; [exact H|]; exact print_mapping_line.
Qed.

Lemma trimmed_path m : mapping_wf m -> forall n, trim_ascii_space (spaces n ++ mp_path m) = mp_path m.
Proof.
  intros (_ & _ & _ & _ & _ & _ & _ & _ & _ & Hs & Hr) n; rewrite trim_spaces; unfold trim_ascii_space.
  by rewrite Hs, Hr, rev_involutive.
Qed.

Lemma leading_path m : mapping_wf m -> forall n, trim_leading (spaces n ++ mp_path m) = mp_path m.
Proof.
  intros (_ & _ & _ & _ & _ & _ & _ & _ & _ & Hs & _) n; unfold trim_leading; by rewrite skip_spaces.
Qed.

Section roundtrip.
Context (realpath : text -> option text).

(** [m] is an executable mapping that covers the address [pc]. *)
Definition covers (pc : Z) (m : mapping) : bool :=
  executable m && (mp_start m <=? pc) && (pc <? mp_end m).

(** [m] is an executable mapping of [binary] that holds the file offset [off]. *)
Definition holds_offset (binary : text) (off : Z) (m : mapping) : bool :=
  executable m && bool_decide (normalize_filesystem_path realpath (mp_path m) = binary) &&
  (mp_offset m <=? off) && (off <? mp_offset m + (mp_end m - mp_start m)).

Lemma resolve_print ms binary off :
  Forall mapping_wf ms -> is_u64 off ->
  resolve_absolute_pc realpath (Some (maps_text ms)) binary off =
  match List.find (holds_offset binary off) ms with
  | Some m => Ok (mp_start m + (off - mp_offset m))
  | None => Throw (cannot_resolve off)
  end.
Proof.
  intros Hms Hoff; unfold resolve_absolute_pc; rewrite maps_text_lines by done.
  induction Hms as [|m ms Hm _ IH]; [done|]; cbn [fmap list_fmap resolve_in_lines List.find].
  rewrite exec_mapping_print by done; unfold holds_offset at 1.
  destruct (executable m); cbn [andb]; [|exact IH].
  rewrite trimmed_path by done; destruct (bool_decide _); cbn [negb andb]; [|exact IH].
  destruct Hm as (H1 & H2 & H3 & H4 & H5 & _); rewrite (u64_id (mp_end m - mp_start m)) by lia.
  rewrite (u64_id (mp_offset m + _)) by lia.
  destruct (off <? mp_offset m) eqn:E1, (mp_offset m <=? off) eqn:F1; try lia; cbn [orb andb]; [exact IH|].
  destruct (off <? mp_offset m + _) eqn:E3.
  - destruct (mp_offset m + (mp_end m - mp_start m) <=? off) eqn:E2; [lia|]; rewrite (u64_id (off - mp_offset m)), u64_id by lia; done.
  - destruct (mp_offset m + (mp_end m - mp_start m) <=? off) eqn:E2; [exact IH|lia].
Qed.

(** The path phase one records for a mapping. *)
Definition effective_path (p : text) : text :=
  match p with [] => txt "[anonymous_exec]" | _ => normalize_filesystem_path realpath p end.

Definition entry_of (id : Z) (m : mapping) : module_map_entry :=
  mk_module_map id (mp_start m) (mp_end m) (mp_offset m) (effective_path (mp_path m)).

Lemma find_module_map_app l e pc :
  find_module_map (l ++ [e]) pc =
  match find_module_map l pc with
  | Some x => Some x
  | None => if (mm_vm_start e <=? pc) && (pc <? mm_vm_end e) then Some e else None
  end.
Proof. induction l as [|x l IH]; cbn [app find_module_map]; [done|]; split_if; [done|exact IH]. Qed.

Lemma find_remembered maps m pc :
  find_module_map (remember_module_map realpath (mp_start m) (mp_end m) (mp_offset m) (mp_path m) maps) pc =
  match find_module_map maps pc with
  | Some x => Some x
  | None => if (mp_start m <=? pc) && (pc <? mp_end m)
            then Some (entry_of (u32 (zlen maps)) m) else None
  end.
Proof.
  unfold remember_module_map; fold (effective_path (mp_path m)).
  destruct (existsb _ maps) eqn:E; [|apply find_module_map_app].
  destruct (find_module_map maps pc) eqn:F; [done|]; split_if; [exfalso|done].
  apply existsb_exists in E as (e & He & Hs); unfold same_map in Hs.
  clear -He Hs F G; induction maps as [|x maps IH]; [done|]; cbn [find_module_map] in F.
  destruct (_ && _) eqn:Gx in F; [done|]; destruct He as [->|He]; [lia|by apply IH].
Qed.

Lemma find_in_snapshot maps ms pc :
  Forall mapping_wf ms ->
  match find_module_map maps pc, List.find (covers pc) ms with
  | Some x, _ => find_module_map (module_maps_from realpath maps (print_mapping <$> ms)) pc = Some x
  | None, Some m => exists id,
      find_module_map (module_maps_from realpath maps (print_mapping <$> ms)) pc = Some (entry_of id m)
  | None, None => find_module_map (module_maps_from realpath maps (print_mapping <$> ms)) pc = None
  end.
Proof.
  intros Hms; revert maps; induction Hms as [|m ms Hm _ IH]; intros maps;
    cbn [fmap list_fmap module_maps_from List.find].
  { by destruct (find_module_map maps pc). }
  rewrite exec_mapping_print by done; unfold covers at 1.
  destruct (executable m); cbn [andb]; [|exact (IH maps)].
  rewrite leading_path by done.
  specialize (IH (remember_module_map realpath (mp_start m) (mp_end m) (mp_offset m) (mp_path m) maps)).
  rewrite find_remembered in IH; destruct (find_module_map maps pc); [exact IH|].
  destruct (_ && _); [eexists; exact IH|exact IH].
Qed.

End roundtrip.

Definition demo_realpath (p : text) : option text := Some p.
Definition demo_map (start : Z) : list mapping :=
  [mk_mapping (start - 4096) start (txt "r--p") 0 (txt "08:01") (txt "42") 20 (txt "/bin/a.out");
   mk_mapping start (start + 8192) (txt "r-xp") 4096 (txt "08:01") (txt "42") 20 (txt "/bin/a.out");
   mk_mapping 281470681743360 281470681751552 (txt "r-xp") 0 (txt "00:00") (txt "0") 20 (txt "[vdso]")].

Example demo_line :
  print_mapping (mk_mapping 4194304 4202496 (txt "r-xp") 4096 (txt "08:01") (txt "42") 2 (txt "/bin/a")) =
  txt "00400000-00402000 r-xp 00001000 08:01 42   /bin/a".
Proof. reflexivity. Qed.

Lemma demo_map_wf start : 4096 <= start < 281470681743360 -> Forall mapping_wf (demo_map start).
Proof.
  intros Hs; repeat apply Forall_cons_2; [..|apply Forall_nil_2]; unfold mapping_wf, word, free_of;
    cbn [mp_start mp_end mp_perms mp_offset mp_dev mp_inode mp_path];
    repeat first [lia | done | apply conj | apply Forall_cons_2 | apply Forall_nil_2].
Qed.

(** * The stat line of a thread *)

(** The thread id, the command name in parentheses and the remaining fields. *)
Definition stat_line (tid : Z) (comm : text) (fields : list text) : text :=
  dec_u64 tid ++ SPACE :: "("%char :: comm ++ ")"%char :: concat (cons SPACE <$> fields).

Lemma rfind_app c p r : free_of c r -> rfind c (p ++ c :: r) = Some (length p).
Proof.
  intros H; unfold rfind; rewrite rev_app_distr; cbn [rev]; rewrite <- app_assoc; cbn [app].
  rewrite find_app by (by apply Forall_rev); cbn [option_map]; f_equal.
  rewrite length_rev, length_app; cbn [length]; lia.
Qed.

Lemma read_tokens_fields n fs :
  Forall word fs -> (n < length fs)%nat ->
  read_tokens n (concat (cons SPACE <$> fs)) = Some (take n fs, concat (cons SPACE <$> drop n fs)).
Proof.
  revert fs; induction n as [|n IH]; intros fs Hfs Hn; [done|].
  destruct fs as [|f [|g fs]]; cbn [length] in Hn; [lia..|]; inversion Hfs as [|? ? Hf Hfs']; subst.
  cbn [read_tokens]; assert (Hr : read_token (concat (cons SPACE <$> f :: g :: fs)) =
    Some (f, concat (cons SPACE <$> g :: fs))).
  { cbn [fmap list_fmap concat]; rewrite <- app_comm_cons, read_token_space by done.
    rewrite <- app_comm_cons; by apply read_token_word. }
  rewrite Hr; cbn [mbind option_bind]; rewrite IH by (done || cbn [length]; lia); reflexivity.
Qed.

Lemma atoi_dec z : 0 <= z < 2147483648 -> atoi (dec_u64 z) = z.
Proof.
  intros Hz; unfold atoi, strtoll, dec_u64, LLONG_MIN, LLONG_MAX.
  rewrite <- (app_nil_r (print_u 10 z)), strto_print by (cbn; auto; lia).
  unfold s32, u32; rewrite Z.mod_small by lia; split_if; lia.
Qed.

Lemma cpu_of_stat_line tid comm fields cpu :
  is_u64 tid -> free_of NEWLINE comm -> Forall word fields -> Forall (free_of ")") fields ->
  (38 <= length fields)%nat -> fields !! 36%nat = Some (dec_u64 cpu) -> 0 <= cpu < 2147483648 ->
  parse_cpu_from_tid_stat (Some (stat_line tid comm fields)) = cpu.
Proof.
  intros Ht Hc Hw Hp Hl Hcpu Hr.
  assert (Hd : forall c, (forall v, 0 <= v < 16 -> ceqb (digit_char v) c = false) -> free_of c (dec_u64 tid))
    by (intros c H; by apply print_u_forall; [lia|lia|]).
  assert (Hfl : forall c, ceqb SPACE c = false -> Forall (free_of c) fields ->
    free_of c (concat (cons SPACE <$> fields))).
  { intros c Hs H; apply Forall_concat, Forall_fmap; eapply Forall_impl; [exact H|]; intros f Hf; by constructor. }
  assert (Hline : getline_rest (stat_line tid comm fields) = stat_line tid comm fields).
  { apply free_of_newline_line; unfold stat_line, free_of; apply Forall_app_2.
    - apply Hd; intros v Hv; apply (digit_char_plain v Hv).
    - do 2 (apply Forall_cons_2; [done|]); apply Forall_app_2; [done|]; apply Forall_cons_2; [done|].
      apply Hfl; [done|]; eapply Forall_impl; [exact Hw|]; intros f [_ Hf]; by apply nospace_no_newline. }
  unfold parse_cpu_from_tid_stat; rewrite Hline.
  set (p := dec_u64 tid ++ [SPACE]).
  assert (Hs1 : stat_line tid comm fields = p ++ "("%char :: comm ++ ")"%char :: concat (cons SPACE <$> fields))
    by (unfold stat_line, p; by rewrite <- app_assoc).
  set (q := p ++ "("%char :: comm).
  assert (Hs2 : stat_line tid comm fields = q ++ ")"%char :: concat (cons SPACE <$> fields))
    by (rewrite Hs1; unfold q; by rewrite <- app_assoc).
  rewrite Hs1 at 1; rewrite find_app; [|apply Forall_app_2; [apply Hd|by repeat constructor]].
  2: { apply (forall_below 16); repeat (constructor; [reflexivity|]); constructor. }
  rewrite Hs2, rfind_app by (by apply Hfl).
  destruct (_ <=? _)%nat eqn:E; [apply Nat.leb_le in E; unfold q in E; rewrite length_app in E; cbn in E; lia|].
  rewrite drop_app_ge by lia; replace (S _ - _)%nat with 1%nat by lia; cbn [drop].
  rewrite drop_0, read_tokens_fields by (done || lia).
  rewrite last_lookup, length_take, lookup_take by lia.
  replace (pred _) with 36%nat by lia; rewrite decide_True by lia; rewrite Hcpu; by apply atoi_dec.
Qed.

(** Both spellings of the reader agree on every content of the file. *)
Lemma last_cpu_readers_agree stat : read_thread_last_cpu_stat stat = parse_cpu_from_tid_stat stat.
Proof.
  destruct stat as [s|]; [|done]; unfold read_thread_last_cpu_stat, parse_cpu_from_tid_stat.
  destruct (getline_rest s); reflexivity.
Qed.

(** The CPU both profilers pin by is the [processor] field of the thread's
    stat line, whatever the command name contains (blanks and parentheses
    included): the field is counted from the last closing parenthesis. *)
Theorem last_cpu_is_processor_field (tid : Z) (comm : text) (fields : list text) (cpu : Z)
    (Ht : is_u64 tid) (Hc : free_of NEWLINE comm) (Hw : Forall word fields)
    (Hp : Forall (free_of ")") fields) (Hl : (38 <= length fields)%nat)
    (Hcpu : fields !! 36%nat = Some (dec_u64 cpu)) (Hr : 0 <= cpu < 2147483648) :
  parse_cpu_from_tid_stat (Some (stat_line tid comm fields)) = cpu /\
  read_thread_last_cpu_stat (Some (stat_line tid comm fields)) = cpu.
Proof. rewrite last_cpu_readers_agree; split; by apply cpu_of_stat_line. Qed.

Definition demo_fields : list text := txt "S" :: replicate 35 (txt "0") ++ [txt "7"; txt "0"; txt "0"].

Lemma last_cpu_is_processor_field_witness :
  parse_cpu_from_tid_stat (Some (stat_line 4711 (txt "a) R (b") demo_fields)) = 7 /\
  read_thread_last_cpu_stat (Some (stat_line 4711 (txt "a) R (b") demo_fields)) = 7.
Proof.
  apply (last_cpu_is_processor_field 4711 (txt "a) R (b") demo_fields 7).
  - lia.
  - repeat constructor.
  - repeat (apply Forall_cons_2; [split; [done|repeat constructor]|]); constructor.
  - repeat (apply Forall_cons_2; [repeat constructor|]); constructor.
  - cbn; lia.
  - reflexivity.
  - lia.
Defined.

End ProcMaps.
