(* ===== verification/Hotspots.v ===== *)
(** Phase one's hotspot table: [record_hotspot_sample] and
    [collect_hotspots_for_thread] of [src/monitor.cc] with the records of
    [include/monitor.hh].  Samples are filed by module and file offset; at the
    end each thread's offsets are ranked, the Pareto front of sample count and
    average latency first.  [double] is IEEE binary64 as the Standard Library
    specifies it. *)
From S2P Require Import Prelude Uapi CText ProcMaps.
From Stdlib Require Import SpecFloat.
Import ProcMaps.

(** * Flags of a sample *)

Definition SPE_SAMPLE_FLAG_PC_VALID : Z := Z.shiftl 1 0.
Definition SPE_SAMPLE_FLAG_LAT_TOTAL_VALID : Z := Z.shiftl 1 1.
Definition SPE_SAMPLE_FLAG_LAT_ISSUE_VALID : Z := Z.shiftl 1 2.
Definition SPE_SAMPLE_FLAG_LAT_XLAT_VALID : Z := Z.shiftl 1 3.
Definition SPE_SAMPLE_FLAG_EVENTS_VALID : Z := Z.shiftl 1 4.
Definition SPE_SAMPLE_FLAG_LAT_EXEC_VALID : Z := Z.shiftl 1 5.
Definition SPE_SAMPLE_FLAG_DATA_VA_VALID : Z := Z.shiftl 1 6.

Definition SPE_EVENT_L1D_REFILL : Z := 3.
Definition SPE_EVENT_TLB_WALK : Z := 5.
Definition SPE_EVENT_LLC_MISS : Z := 9.
Definition SPE_EVENT_REMOTE_ACCESS : Z := 10.

(** [flags & mask] as a condition. *)
Definition has_flag (flags mask : Z) : bool := negb (Z.land flags mask =? 0).

Lemma has_flag_bit flags k : 0 <= k -> has_flag flags (2 ^ k) = Z.testbit flags k.
Proof.
  intros Hk; unfold has_flag; assert (Hb : forall n, 0 <= n -> Z.testbit (Z.land flags (2 ^ k)) n = Z.testbit flags k && (k =? n)).
  { intros n Hn; rewrite Z.land_spec, Z.pow2_bits_eqb by lia; destruct (k =? n) eqn:E; [|by rewrite !andb_false_r].
    by apply Z.eqb_eq in E as ->. }
  destruct (Z.testbit flags k) eqn:E.
  - apply negb_true_iff, Z.eqb_neq; intros H; specialize (Hb k Hk); rewrite H, Z.bits_0, Z.eqb_refl in Hb; done.
  - apply negb_false_iff, Z.eqb_eq, Z.bits_inj'; intros n Hn; by rewrite Hb, Z.bits_0.
Qed.

Record spe_instruction_sample := mk_sample {
  sm_pc : Z;
  sm_data_va : Z;
  sm_lat_total : Z;
  sm_lat_issue : Z;
  sm_lat_xlat : Z;
  sm_event_bits : Z;
  sm_flags : Z;
}.
#[export] Instance eta_sample : Eta spe_instruction_sample := fun r =>
  mk_sample (sm_pc r) (sm_data_va r) (sm_lat_total r) (sm_lat_issue r) (sm_lat_xlat r)
    (sm_event_bits r) (sm_flags r).
#[export] Instance sample_eq_dec : EqDecision spe_instruction_sample.
Proof. solve_decision. Defined.

Record hotspot_stats := mk_stats {
  hst_sample_count : Z;
  hst_lat_total_sum : Z;
  hst_lat_total_count : Z;
  hst_lat_issue_sum : Z;
  hst_lat_issue_count : Z;
  hst_lat_xlat_sum : Z;
  hst_lat_xlat_count : Z;
  hst_lat_exec_sum : Z;
  hst_lat_exec_count : Z;
  hst_l1d_refill_count : Z;
  hst_llc_miss_count : Z;
  hst_tlb_walk_count : Z;
  hst_remote_access_count : Z;
}.
#[export] Instance eta_stats : Eta hotspot_stats := fun r =>
  mk_stats (hst_sample_count r) (hst_lat_total_sum r) (hst_lat_total_count r) (hst_lat_issue_sum r)
    (hst_lat_issue_count r) (hst_lat_xlat_sum r) (hst_lat_xlat_count r) (hst_lat_exec_sum r)
    (hst_lat_exec_count r) (hst_l1d_refill_count r) (hst_llc_miss_count r) (hst_tlb_walk_count r)
    (hst_remote_access_count r).
Definition zero_stats : hotspot_stats := mk_stats 0 0 0 0 0 0 0 0 0 0 0 0 0.

(** [hotspot_key]: module id and file offset. *)
Definition hotspot_key : Type := Z * Z.

Record hotspot_summary := mk_summary {
  su_tid : Z;
  su_module_id : Z;
  su_pc_offset : Z;
  su_sample_count : Z;
  su_pareto_front : Z;
  su_candidate_score : Z;
  su_candidate_metric : text;
  su_avg_mem_latency : spec_float;
  su_lat_total_sum : Z;
  su_lat_issue_sum : Z;
  su_lat_xlat_sum : Z;
  su_lat_exec_sum : Z;
  su_l1d_refill_count : Z;
  su_llc_miss_count : Z;
  su_tlb_walk_count : Z;
  su_remote_access_count : Z;
  su_path : text;
}.
#[export] Instance eta_summary : Eta hotspot_summary := fun r =>
  mk_summary (su_tid r) (su_module_id r) (su_pc_offset r) (su_sample_count r) (su_pareto_front r)
    (su_candidate_score r) (su_candidate_metric r) (su_avg_mem_latency r) (su_lat_total_sum r)
    (su_lat_issue_sum r) (su_lat_xlat_sum r) (su_lat_exec_sum r) (su_l1d_refill_count r)
    (su_llc_miss_count r) (su_tlb_walk_count r) (su_remote_access_count r) (su_path r).

Module Hotspots.

(** * Recording samples *)

Record hot_state := mk_hot_state {
  thread_hotspots : gmap Z (gmap hotspot_key hotspot_stats);
  hotspot_unmapped_samples : Z;
}.
#[export] Instance eta_hot_state : Eta hot_state := fun r =>
  mk_hot_state (thread_hotspots r) (hotspot_unmapped_samples r).

Definition spe_sample_has_event (sample : spe_instruction_sample) (event_bit : Z) : bool :=
  has_flag (sm_flags sample) SPE_SAMPLE_FLAG_EVENTS_VALID &&
  has_flag (sm_event_bits sample) (Z.shiftl 1 event_bit).

(** [if (b) { ... }] on an entry. *)
Definition when (b : bool) (f : hotspot_stats -> hotspot_stats) (stats : hotspot_stats) : hotspot_stats :=
  if b then f stats else stats.

(** The updates of one [hotspot_stats] entry, in the order of the source. *)
Definition add_sample (sample : spe_instruction_sample) (stats : hotspot_stats) : hotspot_stats :=
  let stats := stats ⟦ hst_sample_count ::= inc64 ⟧ in
  let stats := when (has_flag (sm_flags sample) SPE_SAMPLE_FLAG_LAT_TOTAL_VALID) (fun stats =>
    stats ⟦ hst_lat_total_sum ::= fun x => u64 (x + sm_lat_total sample) ⟧
          ⟦ hst_lat_total_count ::= inc64 ⟧) stats in
  let stats := when (has_flag (sm_flags sample) SPE_SAMPLE_FLAG_LAT_ISSUE_VALID) (fun stats =>
    stats ⟦ hst_lat_issue_sum ::= fun x => u64 (x + sm_lat_issue sample) ⟧
          ⟦ hst_lat_issue_count ::= inc64 ⟧) stats in
  let stats := when (has_flag (sm_flags sample) SPE_SAMPLE_FLAG_LAT_XLAT_VALID) (fun stats =>
    stats ⟦ hst_lat_xlat_sum ::= fun x => u64 (x + sm_lat_xlat sample) ⟧
          ⟦ hst_lat_xlat_count ::= inc64 ⟧) stats in
  let stats := when (has_flag (sm_flags sample) SPE_SAMPLE_FLAG_LAT_EXEC_VALID) (fun stats =>
    let issue_and_xlat := u64 (sm_lat_issue sample + sm_lat_xlat sample) in
    stats ⟦ hst_lat_exec_sum ::= fun x => u64 (x + u64 (sm_lat_total sample - issue_and_xlat)) ⟧
          ⟦ hst_lat_exec_count ::= inc64 ⟧) stats in
  let stats := when (spe_sample_has_event sample SPE_EVENT_L1D_REFILL)
    (fun stats => stats ⟦ hst_l1d_refill_count ::= inc64 ⟧) stats in
  let stats := when (spe_sample_has_event sample SPE_EVENT_LLC_MISS)
    (fun stats => stats ⟦ hst_llc_miss_count ::= inc64 ⟧) stats in
  let stats := when (spe_sample_has_event sample SPE_EVENT_TLB_WALK)
    (fun stats => stats ⟦ hst_tlb_walk_count ::= inc64 ⟧) stats in
  when (spe_sample_has_event sample SPE_EVENT_REMOTE_ACCESS)
    (fun stats => stats ⟦ hst_remote_access_count ::= inc64 ⟧) stats.

(** A field of the result of a conditional update. *)
Lemma when_field {T} (p : hotspot_stats -> T) b f st : p (when b f st) = if b then p (f st) else p st.
Proof. by destruct b. Qed.

Lemma when_same {T} (p : hotspot_stats -> T) b f st : (forall st, p (f st) = p st) -> p (when b f st) = p st.
Proof. intros H; destruct b; [apply H|done]. Qed.

Section record.
Context (pc_present : bool) (module_maps : list module_map_entry) (main_binary_path : text).

Definition record_hotspot_sample (tid : Z) (sample : spe_instruction_sample) (h : hot_state) : hot_state :=
  if negb pc_present || (tid <=? 0) || (sm_pc sample =? 0) ||
     negb (has_flag (sm_flags sample) SPE_SAMPLE_FLAG_PC_VALID) then h else
  match find_module_map module_maps (sm_pc sample) with
  | None => h ⟦ hotspot_unmapped_samples ::= inc64 ⟧
  | Some entry =>
      if negb (is_main_binary_module main_binary_path entry) then h else
      let key : hotspot_key := (mm_module_id entry, hotspot_offset entry (sm_pc sample)) in
      let table := default ∅ (thread_hotspots h !! tid) in
      let stats := default zero_stats (table !! key) in
      h ⟦ thread_hotspots := <[tid := <[key := add_sample sample stats]> table]> (thread_hotspots h) ⟧
  end.

End record.

(** * Ranking *)

Definition hotspot_latency_count (stats : hotspot_stats) : Z :=
  if truthy (hst_lat_exec_count stats) then hst_lat_exec_count stats else hst_lat_total_count stats.

Definition hotspot_candidate_score (stats : hotspot_stats) : Z :=
  if truthy (hst_lat_exec_count stats) then hst_lat_exec_sum stats else hst_lat_total_sum stats.

Definition hotspot_candidate_metric (stats : hotspot_stats) : text :=
  if truthy (hst_lat_exec_count stats) then txt "lat_exec_sum" else txt "lat_total_sum".

(** [(double)z] and [/] on [double]: binary64, round to nearest. *)
Definition to_double (z : Z) : spec_float := binary_normalize 53 1024 z 0 false.
Definition ddiv (a b : spec_float) : spec_float := SFdiv 53 1024 a b.

Definition hotspot_avg_mem_latency (stats : hotspot_stats) : spec_float :=
  if truthy (hst_lat_exec_count stats)
  then ddiv (to_double (hst_lat_exec_sum stats)) (to_double (hst_lat_exec_count stats))
  else if truthy (hst_lat_total_count stats)
  then ddiv (to_double (hst_lat_total_sum stats)) (to_double (hst_lat_total_count stats))
  else S754_zero false.

Definition hotspot_dominates (a b : hotspot_summary) : bool :=
  let sample_ge := su_sample_count b <=? su_sample_count a in
  let latency_ge := SFleb (su_avg_mem_latency b) (su_avg_mem_latency a) in
  let sample_gt := su_sample_count b <? su_sample_count a in
  let latency_gt := SFltb (su_avg_mem_latency b) (su_avg_mem_latency a) in
  sample_ge && latency_ge && (sample_gt || latency_gt).

Definition hotspot_score_before (a b : hotspot_summary) : bool :=
  if negb (su_candidate_score a =? su_candidate_score b)
  then su_candidate_score b <? su_candidate_score a else
  if negb (su_sample_count a =? su_sample_count b)
  then su_sample_count b <? su_sample_count a else
  if negb (su_module_id a =? su_module_id b)
  then su_module_id a <? su_module_id b else
  su_pc_offset a <? su_pc_offset b.

(** [std::sort(.., hotspot_score_before)]: [a] may stand before [b] when [b] is
    not before [a]. *)
Definition score_le (a b : hotspot_summary) : Prop := hotspot_score_before b a = false.
#[export] Instance score_le_dec a b : Decision (score_le a b).
Proof. unfold score_le; apply _. Defined.
Definition sort_by_score : list hotspot_summary -> list hotspot_summary := merge_sort score_le.

Section collect.
Context (module_maps : list module_map_entry).
Context (hotspot_top_k hotspot_min_samples hotspot_min_latency_samples : Z).

Definition summarize (tid : Z) (kv : hotspot_key * hotspot_stats) : hotspot_summary :=
  let '((module_id, pc_offset), stats) := kv in
  mk_summary tid module_id pc_offset (hst_sample_count stats) 0
    (hotspot_candidate_score stats) (hotspot_candidate_metric stats) (hotspot_avg_mem_latency stats)
    (hst_lat_total_sum stats) (hst_lat_issue_sum stats) (hst_lat_xlat_sum stats)
    (hst_lat_exec_sum stats) (hst_l1d_refill_count stats) (hst_llc_miss_count stats)
    (hst_tlb_walk_count stats) (hst_remote_access_count stats)
    (match module_maps !!z module_id with
     | Some e => mm_path e
     | None => txt "[unknown_module]"
     end).

(** The second lookup of the entry, by the key in the summary. *)
Definition is_filtered (table : gmap hotspot_key hotspot_stats) (s : hotspot_summary) : bool :=
  let latency_count := match table !! (su_module_id s, su_pc_offset s) with
                       | Some stats => hotspot_latency_count stats
                       | None => 0
                       end in
  (hotspot_min_samples <=? su_sample_count s) && (hotspot_min_latency_samples <=? latency_count).

(** The inner loop over [j], which skips [i] itself. *)
Definition dominated_at (filtered : list hotspot_summary) (i : nat) (s : hotspot_summary) : bool :=
  existsb (fun jr => negb (jr.1 =? i)%nat && hotspot_dominates jr.2 s) (imap pair filtered).

Definition flagged (filtered : list hotspot_summary) : list hotspot_summary :=
  imap (fun i s => s ⟦ su_pareto_front := if dominated_at filtered i s then 0 else 1 ⟧) filtered.

(** [for (x : l) { if (acc.size() >= top_k) break; acc.push_back(x); }] *)
Fixpoint push_upto (acc l : list hotspot_summary) : list hotspot_summary :=
  match l with
  | [] => acc
  | x :: r => if hotspot_top_k <=? zlen acc then acc else push_upto (acc ++ [x]) r
  end.

(** The body after the lookup of the thread; [entries] is the table in the
    iteration order of the hash map. *)
Definition collect_from (tid : Z) (table : gmap hotspot_key hotspot_stats)
    (entries : list (hotspot_key * hotspot_stats)) : list hotspot_summary :=
  let all_summaries := summarize tid <$> entries in
  let filtered := List.filter (is_filtered table) all_summaries in
  let fallback := List.filter (fun s => negb (is_filtered table s)) all_summaries in
  let marked := flagged filtered in
  let front := List.filter (fun s => su_pareto_front s =? 1) marked in
  let non_front := List.filter (fun s => negb (su_pareto_front s =? 1)) marked in
  let summaries := push_upto [] (sort_by_score front) in
  let summaries := push_upto summaries (sort_by_score non_front) in
  push_upto summaries ((fun s => s ⟦ su_pareto_front := 0 ⟧) <$> sort_by_score fallback).

Definition collect_hotspots_for_thread (h : hot_state) (tid : Z) : list hotspot_summary :=
  match thread_hotspots h !! tid with
  | None => []
  | Some table => collect_from tid table (map_to_list table)
  end.

End collect.

(** * What the table holds *)

Section table.
Context (pc_present : bool) (module_maps : list module_map_entry) (main_binary_path : text).

Definition stats_at (h : hot_state) (tid : Z) (key : hotspot_key) : hotspot_stats :=
  default zero_stats (default ∅ (thread_hotspots h !! tid) !! key).

(** A sample that carries a usable program counter. *)
Definition usable (tid : Z) (s : spe_instruction_sample) : bool :=
  pc_present && (0 <? tid) && negb (sm_pc s =? 0) && has_flag (sm_flags s) SPE_SAMPLE_FLAG_PC_VALID.

(** The table entry of a sample of the main binary. *)
Definition sample_key (tid : Z) (s : spe_instruction_sample) : option (Z * hotspot_key) :=
  if usable tid s then
    match find_module_map module_maps (sm_pc s) with
    | Some e => if is_main_binary_module main_binary_path e
                then Some (tid, (mm_module_id e, hotspot_offset e (sm_pc s))) else None
    | None => None
    end
  else None.

Definition unmapped (tid : Z) (s : spe_instruction_sample) : bool :=
  usable tid s && bool_decide (find_module_map module_maps (sm_pc s) = None).

Definition record_all (l : list (Z * spe_instruction_sample)) (h : hot_state) : hot_state :=
  foldl (fun h ts => record_hotspot_sample pc_present module_maps main_binary_path ts.1 ts.2 h) h l.

Lemma record_spec tid s h :
  let h' := record_hotspot_sample pc_present module_maps main_binary_path tid s h in
  (forall t k, stats_at h' t k =
     if bool_decide (sample_key tid s = Some (t, k)) then add_sample s (stats_at h t k) else stats_at h t k) /\
  hotspot_unmapped_samples h' =
    if unmapped tid s then inc64 (hotspot_unmapped_samples h) else hotspot_unmapped_samples h.
Proof.
  assert (Hu : negb pc_present || (tid <=? 0) || (sm_pc s =? 0) ||
     negb (has_flag (sm_flags s) SPE_SAMPLE_FLAG_PC_VALID) = negb (usable tid s)).
  { unfold usable; destruct pc_present, (tid <=? 0) eqn:E, (0 <? tid) eqn:E', (sm_pc s =? 0),
      (has_flag _ _); try done; lia. }
  unfold record_hotspot_sample, sample_key, unmapped; rewrite Hu; destruct (usable tid s); cbn [negb andb];
    [|split; [intros; by rewrite bool_decide_false|done]].
  destruct (find_module_map _ _) as [e|]; [|split; [intros; by rewrite bool_decide_false|done]].
  rewrite (bool_decide_false (Some e = None)) by done.
  destruct (is_main_binary_module _ e); cbn [negb]; [|split; [intros; by rewrite bool_decide_false|done]].
  split; [|done]; intros t k; unfold stats_at; cbn.
  destruct (decide (tid = t)) as [->|Ht].
  - rewrite lookup_insert_eq; cbn [default id]; unfold id.
    destruct (decide ((mm_module_id e, hotspot_offset e (sm_pc s)) = k)) as [->|Hk].
    + by rewrite lookup_insert_eq, bool_decide_true.
    + rewrite lookup_insert_ne by done; rewrite bool_decide_false by congruence; done.
  - rewrite lookup_insert_ne by done; rewrite bool_decide_false by congruence; done.
Qed.

(** The samples filed under an entry. *)
Definition samples_of (l : list (Z * spe_instruction_sample)) (t : Z) (k : hotspot_key) :
    list spe_instruction_sample :=
  snd <$> filter (fun ts => sample_key ts.1 ts.2 = Some (t, k)) l.

Lemma record_all_stats l h t k :
  stats_at (record_all l h) t k = foldl (fun st s => add_sample s st) (stats_at h t k) (samples_of l t k).
Proof.
  unfold samples_of; revert h; induction l as [|[tid s] l IH]; intros h; [done|].
  unfold record_all in *; cbn [foldl]; rewrite IH.
  rewrite (proj1 (record_spec tid s h)), filter_cons; cbn [fst snd].
  by case_decide; [rewrite bool_decide_true|rewrite bool_decide_false].
Qed.

Lemma record_all_unmapped l h :
  hotspot_unmapped_samples (record_all l h) ≡₆₄
  hotspot_unmapped_samples h + zcount (fun ts => unmapped ts.1 ts.2) l.
Proof.
  revert h; induction l as [|[tid s] l IH]; intros h; [rewrite Z.add_0_r; reflexivity|].
  unfold record_all in *; cbn [foldl]; rewrite IH, zcount_cons; cbn [fst snd].
  rewrite (proj2 (record_spec tid s h)); destruct (unmapped tid s).
  - rewrite inc64_eqm; apply eqm64_of_eq; lia.
  - apply eqm64_of_eq; lia.
Qed.

(** The sum of [v] over the samples that satisfy [p]. *)
Definition sum_where (p : spe_instruction_sample -> bool) (v : spe_instruction_sample -> Z)
    (l : list spe_instruction_sample) : Z :=
  sumZ ((fun s => if p s then v s else 0) <$> l).
(** Bit [n] of the flags; event [n], where bit 4 of the flags says that the event
    bits are there. *)
Definition flagged_bit (n : Z) (s : spe_instruction_sample) : bool := Z.testbit (sm_flags s) n.
Definition event_seen (n : Z) (s : spe_instruction_sample) : bool :=
  Z.testbit (sm_flags s) 4 && Z.testbit (sm_event_bits s) n.

(** A field of an entry after a list of samples. *)
Lemma fold_field (f : hotspot_stats -> Z) (g : spe_instruction_sample -> Z) l st :
  (forall s st, f (add_sample s st) ≡₆₄ f st + g s) ->
  f (foldl (fun st s => add_sample s st) st l) ≡₆₄ f st + sumZ (g <$> l).
Proof.
  intros H; revert st; induction l as [|s l IH]; intros st; cbn; [rewrite Z.add_0_r; reflexivity|].
  rewrite IH, H, sumZ_cons; apply eqm64_of_eq; lia.
Qed.

Lemma has_event_bit s n : 0 <= n -> spe_sample_has_event s n = event_seen n s.
Proof.
  intros Hn; unfold spe_sample_has_event, event_seen; rewrite Z.shiftl_1_l, has_flag_bit by done; f_equal.
  by apply (has_flag_bit (sm_flags s) 4).
Qed.

(** The updates of [add_sample] under the bits they are guarded by. *)
Lemma add_sample_bits s st :
  add_sample s st =
  when (event_seen 10 s) (fun st => st ⟦ hst_remote_access_count ::= inc64 ⟧)
  (when (event_seen 5 s) (fun st => st ⟦ hst_tlb_walk_count ::= inc64 ⟧)
  (when (event_seen 9 s) (fun st => st ⟦ hst_llc_miss_count ::= inc64 ⟧)
  (when (event_seen 3 s) (fun st => st ⟦ hst_l1d_refill_count ::= inc64 ⟧)
  (when (flagged_bit 5 s) (fun st =>
     st ⟦ hst_lat_exec_sum ::= fun x => u64 (x + u64 (sm_lat_total s - u64 (sm_lat_issue s + sm_lat_xlat s))) ⟧
        ⟦ hst_lat_exec_count ::= inc64 ⟧)
  (when (flagged_bit 3 s) (fun st =>
     st ⟦ hst_lat_xlat_sum ::= fun x => u64 (x + sm_lat_xlat s) ⟧ ⟦ hst_lat_xlat_count ::= inc64 ⟧)
  (when (flagged_bit 2 s) (fun st =>
     st ⟦ hst_lat_issue_sum ::= fun x => u64 (x + sm_lat_issue s) ⟧ ⟦ hst_lat_issue_count ::= inc64 ⟧)
  (when (flagged_bit 1 s) (fun st =>
     st ⟦ hst_lat_total_sum ::= fun x => u64 (x + sm_lat_total s) ⟧ ⟦ hst_lat_total_count ::= inc64 ⟧)
  (st ⟦ hst_sample_count ::= inc64 ⟧)))))))).
Proof.
  unfold add_sample; rewrite !has_event_bit by done; unfold flagged_bit.
  rewrite <- (has_flag_bit (sm_flags s) 1), <- (has_flag_bit (sm_flags s) 2), <- (has_flag_bit (sm_flags s) 3),
    <- (has_flag_bit (sm_flags s) 5) by done; reflexivity.
Qed.

(** What a sample adds to each field. *)
Definition increments (s : spe_instruction_sample) : list Z :=
  let if_set n v := if flagged_bit n s then v else 0 in
  let if_event n := if event_seen n s then 1 else 0 in
  [1; if_set 1 (sm_lat_total s); if_set 1 1; if_set 2 (sm_lat_issue s); if_set 2 1; if_set 3 (sm_lat_xlat s); if_set 3 1;
   if_set 5 (sm_lat_total s - (sm_lat_issue s + sm_lat_xlat s)); if_set 5 1;
   if_event 3; if_event 9; if_event 5; if_event 10].
Definition fields_of (st : hotspot_stats) : list Z :=
  [hst_sample_count st; hst_lat_total_sum st; hst_lat_total_count st; hst_lat_issue_sum st; hst_lat_issue_count st;
   hst_lat_xlat_sum st; hst_lat_xlat_count st; hst_lat_exec_sum st; hst_lat_exec_count st; hst_l1d_refill_count st;
   hst_llc_miss_count st; hst_tlb_walk_count st; hst_remote_access_count st].

Lemma add_sample_fields s st : Forall2 eqm64 (fields_of (add_sample s st)) (zip_with Z.add (fields_of st) (increments s)).
Proof.
  rewrite add_sample_bits; unfold increments, fields_of; destruct st; unfold when.
  destruct (event_seen 10 s), (event_seen 5 s), (event_seen 9 s), (event_seen 3 s);
    destruct (flagged_bit 5 s), (flagged_bit 3 s), (flagged_bit 2 s), (flagged_bit 1 s); cbn;
    repeat constructor; rewrite ?inc64_eqm, ?u64_eqm, ?Z.add_0_r; try reflexivity.
Qed.

Lemma add_sample_field i s st : (i < 13)%nat ->
  nth i (fields_of (add_sample s st)) 0 ≡₆₄ nth i (fields_of st) 0 + nth i (increments s) 0.
Proof.
  intros Hi; pose proof (add_sample_fields s st) as H; unfold increments in *; generalize (fields_of (add_sample s st)) H.
  intros l Hl; unfold fields_of in *; do 13 (destruct i as [|i]; [inversion Hl; subst; assumption|inversion Hl as [|? ? ? ? _ Hl']; subst; clear Hl; rename Hl' into Hl; cbn [nth]]).
  lia.
Qed.

(** Every field of an entry is a sum over the samples filed under it. *)
Lemma record_all_field i l t k : (i < 13)%nat ->
  nth i (fields_of (stats_at (record_all l (mk_hot_state ∅ 0)) t k)) 0 ≡₆₄
  sumZ ((fun s => nth i (increments s) 0) <$> samples_of l t k).
Proof.
  intros Hi; rewrite record_all_stats.
  rewrite (fold_field (fun st => nth i (fields_of st) 0) (fun s => nth i (increments s) 0)) by (intros; by apply add_sample_field).
  change (stats_at (mk_hot_state ∅ 0) t k) with zero_stats; apply eqm64_of_eq.
  do 13 (destruct i as [|i]; [reflexivity|]); lia.
Qed.

Lemma record_all_count l t k :
  hst_sample_count (stats_at (record_all l (mk_hot_state ∅ 0)) t k) ≡₆₄ zlen (samples_of l t k).
Proof.
  pose proof (record_all_field 0 l t k ltac:(lia)) as H; change (nth 0 (fields_of ?st) 0) with (hst_sample_count st) in H.
  rewrite H; change (fun s => nth 0 (increments s) 0) with (fun _ : spe_instruction_sample => 1); apply eqm64_of_eq.
  clear H; induction (samples_of l t k) as [|x xs IH]; [done|].
  change (sumZ ((fun _ => 1) <$> x :: xs)) with (sumZ (1 :: ((fun _ => 1) <$> xs))); rewrite sumZ_cons, IH; cbn [length]; lia.
Qed.

(** C32. After any sequence of samples, every entry of a thread's hotspot table
    counts exactly the samples of that thread whose program counter lies in the
    main binary at that offset.  Its three latency sums and counts are over those
    of the samples whose flags say that the latency is there, its execution
    latency is the sum of total minus issue minus translation over the samples
    flagged for it, with their count; and it counts the samples with an L1D
    refill, a last-level miss, a TLB walk and a remote access by their event bits
    (3, 9, 5 and 10).  Samples outside every mapping are counted apart.  Counters
    are 64 bits wide. *)
Theorem hotspot_table_aggregates (l : list (Z * spe_instruction_sample)) (t : Z) (k : hotspot_key) :
  let h := record_all l (mk_hot_state ∅ 0) in
  let ss := samples_of l t k in
  let st := stats_at h t k in
  hst_sample_count st ≡₆₄ zlen ss /\
  hst_lat_total_sum st ≡₆₄ sum_where (flagged_bit 1) sm_lat_total ss /\
  hst_lat_total_count st ≡₆₄ zcount (flagged_bit 1) ss /\
  hst_lat_issue_sum st ≡₆₄ sum_where (flagged_bit 2) sm_lat_issue ss /\
  hst_lat_issue_count st ≡₆₄ zcount (flagged_bit 2) ss /\
  hst_lat_xlat_sum st ≡₆₄ sum_where (flagged_bit 3) sm_lat_xlat ss /\
  hst_lat_xlat_count st ≡₆₄ zcount (flagged_bit 3) ss /\
  hst_lat_exec_sum st ≡₆₄
    sum_where (flagged_bit 5) (fun s => sm_lat_total s - (sm_lat_issue s + sm_lat_xlat s)) ss /\
  hst_lat_exec_count st ≡₆₄ zcount (flagged_bit 5) ss /\
  hst_l1d_refill_count st ≡₆₄ zcount (event_seen 3) ss /\
  hst_llc_miss_count st ≡₆₄ zcount (event_seen 9) ss /\
  hst_tlb_walk_count st ≡₆₄ zcount (event_seen 5) ss /\
  hst_remote_access_count st ≡₆₄ zcount (event_seen 10) ss /\
  hotspot_unmapped_samples h ≡₆₄ zcount (fun ts => unmapped ts.1 ts.2) l.
Proof.
  cbn zeta; split; [apply record_all_count|]; pose proof (fun i => record_all_field i l t k) as H.
  split; [apply (H 1%nat); lia|]; split; [apply (H 2%nat); lia|]; split; [apply (H 3%nat); lia|].
  split; [apply (H 4%nat); lia|]; split; [apply (H 5%nat); lia|]; split; [apply (H 6%nat); lia|].
  split; [apply (H 7%nat); lia|]; split; [apply (H 8%nat); lia|]; split; [apply (H 9%nat); lia|].
  split; [apply (H 10%nat); lia|]; split; [apply (H 11%nat); lia|]; split; [apply (H 12%nat); lia|].
  by rewrite record_all_unmapped.
Qed.

End table.

(** * The order on [double]

    [SFcompare] compares sign, exponent and mantissa lexicographically. *)

Definition float_rank (f : spec_float) : option (Z * Z * Z) :=
  match f with
  | S754_nan => None
  | S754_infinity true => Some (-2, 0, 0)
  | S754_finite true m e => Some (-1, - e, Z.neg m)
  | S754_zero _ => Some (0, 0, 0)
  | S754_finite false m e => Some (1, e, Z.pos m)
  | S754_infinity false => Some (2, 0, 0)
  end.
Definition lex_lt (a b : Z * Z * Z) : Prop :=
  let '(a1, a2, a3) := a in let '(b1, b2, b3) := b in
  a1 < b1 \/ (a1 = b1 /\ (a2 < b2 \/ (a2 = b2 /\ a3 < b3))).

Lemma SFcompare_rank a b :
  match float_rank a, float_rank b with
  | Some x, Some y =>
      match SFcompare a b with
      | Some Lt => lex_lt x y | Some Gt => lex_lt y x | Some Eq => x = y | None => False
      end
  | _, _ => SFcompare a b = None
  end.
Proof.
  destruct a as [sa|[]| |[] ma ea], b as [sb|[]| |[] mb eb]; cbn; try done; try lia.
  all: destruct (Z.compare_spec ea eb); cbn; try lia.
  all: change (Pos.compare_cont Eq ma mb) with (Pos.compare ma mb);
    destruct (Pos.compare_spec ma mb); cbn; subst; try lia; done.
Qed.

Definition float_le (a b : spec_float) : Prop :=
  match float_rank a, float_rank b with
  | Some x, Some y => lex_lt x y \/ x = y
  | _, _ => False
  end.
Definition float_lt (a b : spec_float) : Prop :=
  match float_rank a, float_rank b with Some x, Some y => lex_lt x y | _, _ => False end.

Lemma lex_lt_irrefl x : ~ lex_lt x x.
Proof. destruct x as [[a b] c]; cbn; lia. Qed.
Lemma lex_lt_trans x y z : lex_lt x y -> lex_lt y z -> lex_lt x z.
Proof. destruct x as [[? ?] ?], y as [[? ?] ?], z as [[? ?] ?]; cbn; lia. Qed.

Lemma SFleb_le a b : SFleb a b = true <-> float_le a b.
Proof.
  pose proof (SFcompare_rank a b); unfold SFleb, float_le.
  destruct (float_rank a) as [x|], (float_rank b) as [y|]; try (rewrite H; done).
  destruct (SFcompare a b) as [[]|]; split; auto; try done.
  intros [H'|H']; [by destruct (lex_lt_irrefl x); eauto using lex_lt_trans|by subst; destruct (lex_lt_irrefl y)].
Qed.

Lemma SFltb_lt a b : SFltb a b = true <-> float_lt a b.
Proof.
  pose proof (SFcompare_rank a b); unfold SFltb, float_lt.
  destruct (float_rank a) as [x|], (float_rank b) as [y|]; try (rewrite H; done).
  destruct (SFcompare a b) as [[]|]; split; auto; try done; intros H'.
  - subst; by destruct (lex_lt_irrefl y).
  - by destruct (lex_lt_irrefl x); eauto using lex_lt_trans.
Qed.

(** Dominance, read back as a strict partial order. *)
Definition dominates (a b : hotspot_summary) : Prop :=
  su_sample_count b <= su_sample_count a /\ float_le (su_avg_mem_latency b) (su_avg_mem_latency a) /\
  (su_sample_count b < su_sample_count a \/ float_lt (su_avg_mem_latency b) (su_avg_mem_latency a)).

Lemma hotspot_dominates_spec a b : hotspot_dominates a b = true <-> dominates a b.
Proof.
  unfold hotspot_dominates, dominates.
  rewrite !andb_true_iff, orb_true_iff, SFleb_le, SFltb_lt, Z.leb_le, Z.ltb_lt; tauto.
Qed.

Lemma dominates_irrefl a : ~ dominates a a.
Proof.
  intros (_ & _ & [H|H]); [lia|]; unfold float_lt in H.
  destruct (float_rank _) as [x|]; [by apply (lex_lt_irrefl x)|done].
Qed.

Lemma dominates_trans a b c : dominates a b -> dominates b c -> dominates a c.
Proof.
  unfold dominates, float_le, float_lt; intros (A1 & A2 & A3) (B1 & B2 & B3).
  destruct (float_rank (su_avg_mem_latency a)) as [x|], (float_rank (su_avg_mem_latency b)) as [y|],
    (float_rank (su_avg_mem_latency c)) as [z|]; try done; try (by destruct A2); try (by destruct B2).
  assert (z = x \/ lex_lt z x) by (destruct A2 as [A2|A2], B2 as [B2|B2]; subst; eauto using lex_lt_trans).
  split; [lia|]; split; [tauto|].
  destruct (decide (su_sample_count c < su_sample_count a)); [by left|right].
  destruct A3 as [|A3]; [lia|]; destruct B3 as [|B3]; [lia|]; eauto using lex_lt_trans.
Qed.

(** A finite set of candidates has a dominating element above each member. *)
Lemma undominated_above l a :
  In a l -> exists b, In b l /\ (b = a \/ dominates b a) /\ forall c, In c l -> ~ dominates c b.
Proof.
  remember (length l) as n eqn:Hn; revert l a Hn; induction n as [|n IH]; intros l a Hn Ha.
  { by destruct l. }
  destruct (existsb (fun c => hotspot_dominates c a) l) eqn:E.
  - apply existsb_exists in E as (c & Hc & Hd%hotspot_dominates_spec).
    apply in_split in Ha as (l1 & l2 & ->).
    assert (Hc' : In c (l1 ++ l2)).
    { apply in_app_iff in Hc as [?|[->|?]]; [apply in_app_iff; auto|by apply dominates_irrefl in Hd|
        apply in_app_iff; auto]. }
    destruct (IH (l1 ++ l2) c) as (b & Hb & Hbc & Hmax); [rewrite length_app in *; cbn in Hn; lia|done|].
    exists b; split; [apply in_app_iff in Hb as [?|?]; apply in_app_iff; [auto|right; by right]|].
    assert (Hba : dominates b a) by (destruct Hbc as [->|?]; eauto using dominates_trans).
    split; [by right|]; intros d Hd'; apply in_app_iff in Hd' as [?|[<-|?]];
      [apply Hmax, in_app_iff; auto| |apply Hmax, in_app_iff; auto].
    intros Hab; apply (dominates_irrefl a); eauto using dominates_trans.
  - exists a; split; [done|]; split; [by left|]; intros c Hc Hd%hotspot_dominates_spec.
    assert (existsb (fun c => hotspot_dominates c a) l = true) by (apply existsb_exists; eauto); congruence.
Qed.

(** * The ranking *)

Lemma score_le_refl a : score_le a a.
Proof. unfold score_le, hotspot_score_before; repeat split_if; lia. Qed.
#[export] Instance score_le_trans : Transitive score_le.
Proof. intros a b c; unfold score_le, hotspot_score_before; repeat split_if; lia. Qed.
#[export] Instance score_le_total : Total score_le.
Proof. intros a b; unfold score_le, hotspot_score_before; repeat split_if; lia. Qed.

(** Equal rank means the same module and offset. *)
Lemma score_le_antisym a b :
  score_le a b -> score_le b a -> (su_module_id a, su_pc_offset a) = (su_module_id b, su_pc_offset b).
Proof. unfold score_le, hotspot_score_before; repeat split_if; intros; f_equal; lia. Qed.

Lemma filter_partition {A} (p : A -> bool) l :
  List.filter p l ++ List.filter (fun x => negb (p x)) l ≡ₚ l.
Proof.
  induction l as [|x l IH]; [done|]; cbn; destruct (p x); cbn; [by rewrite IH|].
  by rewrite <- Permutation_middle, IH.
Qed.

Lemma push_upto_take k acc l : push_upto k acc l = acc ++ take (Z.to_nat k - length acc) l.
Proof.
  revert acc; induction l as [|x l IH]; intros acc; cbn [push_upto]; [by rewrite take_nil, app_nil_r|].
  destruct (k <=? zlen acc) eqn:E.
  - replace (Z.to_nat k - length acc)%nat with 0%nat by lia; by rewrite take_0, app_nil_r.
  - rewrite IH, length_app; cbn [length].
    replace (Z.to_nat k - length acc)%nat with (S (Z.to_nat k - (length acc + 1)))%nat by lia.
    rewrite firstn_cons, <- app_assoc; done.
Qed.

Section ranking.
Context (module_maps : list module_map_entry).
Context (top_k min_samples min_latency : Z).
Context (tid : Z) (table : gmap hotspot_key hotspot_stats).

Abbreviation eligible := (is_filtered min_samples min_latency table).
Abbreviation summaries entries := (summarize module_maps tid <$> entries).

(** On the Pareto front of [all]: eligible and not dominated by an eligible entry. *)
Definition on_front (all : list hotspot_summary) (s : hotspot_summary) : bool :=
  eligible s && negb (existsb (fun t => eligible t && hotspot_dominates t s) all).
Definition mark (all : list hotspot_summary) (s : hotspot_summary) : hotspot_summary :=
  s ⟦ su_pareto_front := if on_front all s then 1 else 0 ⟧.

(** Front entries, then other eligible entries, then the rest; by score within. *)
Definition tier (s : hotspot_summary) : Z :=
  if eligible s then (if su_pareto_front s =? 1 then 0 else 1) else 2.
Definition rank_le (a b : hotspot_summary) : Prop :=
  tier a < tier b \/ (tier a = tier b /\ score_le a b).

#[local] Instance rank_le_trans : Transitive rank_le.
Proof. intros a b c [?|[? ?]] [?|[? ?]]; try (left; lia); right; split; [lia|by etransitivity]. Qed.

Lemma dominated_at_spec l i s :
  l !! i = Some s -> dominated_at l i s = existsb (fun t => hotspot_dominates t s) l.
Proof.
  intros Hi; unfold dominated_at; apply eq_iff_eq_true; rewrite !existsb_exists; split.
  - intros ([j y] & Hin & [_ Hd]%andb_prop); cbn in Hd; exists y; split; [|done].
    apply list_elem_of_In, elem_of_lookup_imap in Hin as (k & z & [= -> ->] & Hk).
    by apply list_elem_of_In, list_elem_of_lookup_2 with k.
  - intros (y & Hin & Hd); apply list_elem_of_In, list_elem_of_lookup in Hin as [j Hj].
    exists (j, y); split; [apply list_elem_of_In, elem_of_lookup_imap; by exists j, y|]; cbn.
    destruct (j =? i)%nat eqn:E; [apply Nat.eqb_eq in E as ->|done].
    rewrite Hi in Hj; injection Hj as ->; by apply hotspot_dominates_spec, dominates_irrefl in Hd.
Qed.

Lemma flagged_mark all :
  flagged (List.filter eligible all) = mark all <$> List.filter eligible all.
Proof.
  apply list_eq; intros i; unfold flagged; rewrite list_lookup_imap, list_lookup_fmap.
  destruct (List.filter eligible all !! i) as [s|] eqn:E; [|done]; cbn; f_equal; unfold mark, on_front.
  assert (Hel : eligible s = true).
  { apply list_elem_of_lookup_2, list_elem_of_In, filter_In in E; apply E. }
  rewrite Hel, (dominated_at_spec _ _ _ E); cbn [andb].
  assert (existsb (fun t => hotspot_dominates t s) (List.filter eligible all) =
    existsb (fun t => eligible t && hotspot_dominates t s) all) as ->; [|by destruct (existsb _ all)].
  clear; induction all as [|t all IH]; [done|]; cbn.
  destruct (eligible t); cbn; by rewrite IH.
Qed.

Lemma mark_fallback all : 
  (fun s => s ⟦ su_pareto_front := 0 ⟧) <$> sort_by_score (List.filter (fun s => negb (eligible s)) all) =
  mark all <$> sort_by_score (List.filter (fun s => negb (eligible s)) all).
Proof.
  apply list_fmap_ext; intros i s Hs; unfold mark, on_front.
  apply list_elem_of_lookup_2 in Hs; unfold sort_by_score in Hs; rewrite merge_sort_Permutation in Hs.
  apply list_elem_of_In, filter_In in Hs as [_ Hs]; by destruct (eligible s).
Qed.

Definition ranking (all : list hotspot_summary) : list hotspot_summary :=
  sort_by_score (List.filter (fun s => su_pareto_front s =? 1) (mark all <$> List.filter eligible all)) ++
  sort_by_score (List.filter (fun s => negb (su_pareto_front s =? 1)) (mark all <$> List.filter eligible all)) ++
  (mark all <$> sort_by_score (List.filter (fun s => negb (eligible s)) all)).

Lemma collect_take_ranking entries :
  collect_from module_maps top_k min_samples min_latency tid table entries =
  take (Z.to_nat top_k) (ranking (summaries entries)).
Proof.
  unfold collect_from, ranking; rewrite flagged_mark, mark_fallback, !push_upto_take; cbn [app length].
  rewrite Nat.sub_0_r; set (F := sort_by_score _); set (N := sort_by_score _); set (B := mark _ <$> _).
  rewrite !take_app.
  rewrite <- app_assoc; f_equal; f_equal.
  - f_equal; rewrite length_take; lia.
  - f_equal; rewrite length_app, !length_take; lia.
Qed.

Lemma ranking_perm all : ranking all ≡ₚ mark all <$> all.
Proof.
  unfold ranking, sort_by_score; rewrite !merge_sort_Permutation, app_assoc, filter_partition.
  rewrite <- fmap_app; by rewrite filter_partition.
Qed.

Lemma sort_sorted l : StronglySorted score_le (sort_by_score l).
Proof. apply StronglySorted_merge_sort; apply _. Qed.

Lemma tier_sorted n l :
  StronglySorted score_le l -> (forall s, s ∈ l -> tier s = n) -> StronglySorted rank_le l.
Proof.
  induction 1 as [|x l _ IH Hx]; intros Ht; [constructor|]; constructor.
  - apply IH; intros; apply Ht; by right.
  - rewrite Forall_forall in *; intros y Hy; right; split; [|by apply Hx].
    rewrite !Ht; [done|by right|by left].
Qed.

Lemma tier_mark all s : tier (mark all s) =
  if eligible s then (if on_front all s then 0 else 1) else 2.
Proof. unfold tier, mark; cbn; unfold is_filtered; cbn; by destruct (on_front all s). Qed.

Lemma ranking_tiers all :
  (forall s, s ∈ sort_by_score (List.filter (fun s => su_pareto_front s =? 1) (mark all <$> List.filter eligible all)) -> tier s = 0) /\
  (forall s, s ∈ sort_by_score (List.filter (fun s => negb (su_pareto_front s =? 1)) (mark all <$> List.filter eligible all)) -> tier s = 1) /\
  (forall s, s ∈ mark all <$> sort_by_score (List.filter (fun s => negb (eligible s)) all) -> tier s = 2).
Proof.
  unfold sort_by_score; split_and!; intros s Hs.
  1, 2: rewrite merge_sort_Permutation in Hs; apply list_elem_of_In, filter_In in Hs as [Hs Hp];
    apply list_elem_of_In, list_elem_of_fmap in Hs as (x & -> & Hx);
    apply list_elem_of_In, filter_In in Hx as [_ Hx]; rewrite tier_mark, Hx;
    unfold mark in Hp; cbn in Hp; by destruct (on_front all x).
  apply list_elem_of_fmap in Hs as (x & -> & Hx); rewrite merge_sort_Permutation in Hx.
  apply list_elem_of_In, filter_In in Hx as [_ Hx]; rewrite tier_mark; by destruct (eligible x).
Qed.

Lemma ranking_sorted all : StronglySorted rank_le (ranking all).
Proof.
  destruct (ranking_tiers all) as (T0 & T1 & T2); unfold ranking.
  assert (HB : StronglySorted rank_le (mark all <$> sort_by_score (List.filter (fun s => negb (eligible s)) all))).
  { apply (tier_sorted 2); [|done]; eapply StronglySorted_fmap; [|apply sort_sorted]; done. }
  apply StronglySorted_app_2; [|by apply (tier_sorted 0), T0; apply sort_sorted|].
  - intros x y Hx [Hy|Hy]%elem_of_app; left; rewrite (T0 x Hx); [rewrite (T1 y Hy)|rewrite (T2 y Hy)]; lia.
  - apply StronglySorted_app_2; [|by apply (tier_sorted 1), T1; apply sort_sorted|done].
    intros x y Hx Hy; left; rewrite (T1 x Hx), (T2 y Hy); lia.
Qed.

Lemma mark_perm all all' s : all ≡ₚ all' -> mark all s = mark all' s.
Proof.
  intros Hp; unfold mark, on_front.
  assert (existsb (fun t => eligible t && hotspot_dominates t s) all =
    existsb (fun t => eligible t && hotspot_dominates t s) all') as ->; [|done].
  apply eq_iff_eq_true; rewrite !existsb_exists; split; intros (x & Hx & Hd); exists x; (split; [|done]); apply list_elem_of_In; apply list_elem_of_In in Hx;
    [by rewrite <- Hp|by rewrite Hp].
Qed.

Lemma summary_keys entries :
  (fun s => (su_module_id s, su_pc_offset s)) <$> summaries entries = entries.*1.
Proof.
  rewrite <- list_fmap_compose; apply list_fmap_ext; by intros i [[m o] st] _.
Qed.

Lemma ranking_unique entries entries' :
  entries ≡ₚ entries' -> NoDup entries.*1 -> ranking (summaries entries) = ranking (summaries entries').
Proof.
  intros Hp Hnd; assert (Hall : summaries entries ≡ₚ summaries entries') by (by rewrite Hp).
  assert (Hr : ranking (summaries entries) ≡ₚ ranking (summaries entries')).
  { rewrite !ranking_perm; rewrite (list_fmap_ext (mark (summaries entries)) (mark (summaries entries')) _
      (fun i s _ => mark_perm _ _ s Hall)); by rewrite Hall. }
  apply (StronglySorted_unique_strong rank_le); [|apply ranking_sorted..|done].
  intros x y Hx Hy Hxy Hyx; rewrite <- Hr in Hy.
  rewrite ranking_perm in Hx, Hy.
  apply list_elem_of_fmap in Hx as (a & -> & Ha); apply list_elem_of_fmap in Hy as (b & -> & Hb).
  assert (Hk : (su_module_id a, su_pc_offset a) = (su_module_id b, su_pc_offset b)).
  { destruct Hxy as [?|[? H1]], Hyx as [?|[? H2]]; try lia; by apply (score_le_antisym _ _ H1 H2). }
  f_equal; apply list_elem_of_lookup in Ha as [n Ha]; apply list_elem_of_lookup in Hb as [m Hb].
  assert (n = m) as <-; [|congruence].
  eapply (NoDup_lookup entries.*1 n m (su_module_id a, su_pc_offset a)); [done|..];
    rewrite <- summary_keys, list_lookup_fmap; [by rewrite Ha|by rewrite Hb, Hk].
Qed.

End ranking.

Section selection.
Context (module_maps : list module_map_entry).
Context (top_k min_samples min_latency : Z).

Abbreviation collect := (collect_hotspots_for_thread module_maps top_k min_samples min_latency).
Abbreviation all_of tid table := (summarize module_maps tid <$> map_to_list table).


(** The selection depends on the table only, not on the order in which the
    hash map is traversed: any enumeration of the entries gives the same list. *)
Theorem hotspot_selection_order_independent (h : hot_state) (tid : Z)
    (table : gmap hotspot_key hotspot_stats) (entries : list (hotspot_key * hotspot_stats))
    (Ht : thread_hotspots h !! tid = Some table) (Hp : entries ≡ₚ map_to_list table) :
  collect_from module_maps top_k min_samples min_latency tid table entries = collect h tid.
Proof.
  unfold collect_hotspots_for_thread; rewrite Ht, !collect_take_ranking.
  f_equal; symmetry; apply ranking_unique; [by symmetry|apply NoDup_fst_map_to_list].
Qed.

(** If some entry meets the thresholds and at least one hotspot may be
    reported, the first one reported lies on the Pareto front: it is flagged and
    no eligible entry dominates it. *)
Theorem first_hotspot_on_front (h : hot_state) (tid : Z) (table : gmap hotspot_key hotspot_stats)
    (s : hotspot_summary) (Ht : thread_hotspots h !! tid = Some table) (Hk : 1 <= top_k)
    (Hs : In s (all_of tid table)) (Hel : is_filtered min_samples min_latency table s = true) :
  exists best rest, collect h tid = best :: rest /\ su_pareto_front best = 1 /\
    forall t, In t (all_of tid table) -> is_filtered min_samples min_latency table t = true ->
      ~ dominates t best.
Proof.
  set (all := all_of tid table) in *; set (el := is_filtered min_samples min_latency table) in *.
  destruct (undominated_above (List.filter el all) s) as (b & Hb & _ & Hmax); [by apply filter_In|].
  apply filter_In in Hb as [Hb Hbel].
  assert (Hfront : on_front min_samples min_latency table all b = true).
  { unfold on_front; fold el; rewrite Hbel; cbn [andb]; apply negb_true_iff, not_true_is_false.
    rewrite existsb_exists; intros (t & Ht' & [Hte Htd]%andb_prop).
    apply (Hmax t); [by apply filter_In|by apply hotspot_dominates_spec]. }
  pose proof (ranking_sorted min_samples min_latency table all) as Hsort.
  pose proof (ranking_perm min_samples min_latency table all) as Hperm.
  unfold collect_hotspots_for_thread; rewrite Ht, collect_take_ranking; fold all.
  assert (Hin : mark min_samples min_latency table all b ∈ ranking min_samples min_latency table all).
  { rewrite Hperm; by apply list_elem_of_fmap_2, list_elem_of_In. }
  destruct (ranking min_samples min_latency table all) as [|x r]; [by apply not_elem_of_nil in Hin|].
  destruct (Z.to_nat top_k) as [|n] eqn:En; [lia|]; exists x, (take n r); split; [done|].
  assert (Hx : x ∈ mark min_samples min_latency table all <$> all) by (rewrite <- Hperm; by left).
  apply list_elem_of_fmap in Hx as (y & -> & Hy).
  assert (Htier : tier min_samples min_latency table (mark min_samples min_latency table all y) <= 0).
  { assert (H0 : tier min_samples min_latency table (mark min_samples min_latency table all b) = 0)
      by (rewrite tier_mark; fold el; by rewrite Hbel, Hfront).
    apply StronglySorted_cons in Hsort as [Hall _]; apply elem_of_cons in Hin as [Heq|Hin];
      [rewrite <- Heq; lia|].
    rewrite Forall_forall in Hall; destruct (Hall _ Hin) as [?|[? _]]; lia. }
  rewrite tier_mark in Htier; fold el in Htier; destruct (el y) eqn:Ey; [|lia].
  destruct (on_front min_samples min_latency table all y) eqn:Ef; [|lia].
  unfold mark; rewrite Ef; split; [done|]; intros t Hta Hte Hd.
  unfold on_front in Ef; apply andb_prop in Ef as [_ Ef]; apply negb_true_iff, not_true_iff_false in Ef.
  apply Ef, existsb_exists; exists t; split; [done|]; apply andb_true_intro; split; [done|].
  by apply hotspot_dominates_spec.
Qed.

End selection.

(** * A small run *)

Definition demo_maps : list module_map_entry := [mk_module_map 0 65536 131072 4096 (txt "/bin/a.out")].
Definition demo_sample (pc total : Z) : spe_instruction_sample := mk_sample pc 0 total 2 1 0 47.
Definition demo_samples : list (Z * spe_instruction_sample) :=
  [(7, demo_sample 65540 10); (7, demo_sample 65540 20); (7, demo_sample 65544 90);
   (7, demo_sample 65548 5); (7, demo_sample 32 5)].
Definition demo_hot : hot_state :=
  record_all true demo_maps (txt "/bin/a.out") demo_samples (mk_hot_state ∅ 0).
Definition demo_table : gmap hotspot_key hotspot_stats := default ∅ (thread_hotspots demo_hot !! 7).

Lemma demo_table_found : thread_hotspots demo_hot !! 7 = Some demo_table.
Proof. vm_compute; reflexivity. Qed.

(** The front is the frequent entry and the slow one; the third is dominated. *)
Example demo_collected :
  (fun s => (su_pc_offset s, su_sample_count s, su_pareto_front s, su_candidate_score s)) <$>
    collect_hotspots_for_thread demo_maps 12 1 1 demo_hot 7 =
  [(4104, 1, 1, 87); (4100, 2, 1, 24); (4108, 1, 0, 2)].
Proof. vm_compute; reflexivity. Qed.


Lemma hotspot_selection_order_independent_witness :
  collect_from demo_maps 2 1 1 7 demo_table (reverse (map_to_list demo_table)) =
  collect_hotspots_for_thread demo_maps 2 1 1 demo_hot 7.
Proof.
  apply (hotspot_selection_order_independent demo_maps 2 1 1 demo_hot 7 demo_table
    (reverse (map_to_list demo_table)) demo_table_found), reverse_Permutation.
Defined.

Definition demo_summary : hotspot_summary :=
  summarize demo_maps 7 ((0, 4108), stats_at demo_hot 7 (0, 4108)).

Lemma first_hotspot_on_front_witness :
  exists best rest, collect_hotspots_for_thread demo_maps 12 1 1 demo_hot 7 = best :: rest /\
    su_pareto_front best = 1 /\
    forall t, In t (summarize demo_maps 7 <$> map_to_list demo_table) -> is_filtered 1 1 demo_table t = true ->
      ~ dominates t best.
Proof.
  apply (first_hotspot_on_front demo_maps 12 1 1 demo_hot 7 demo_table demo_summary demo_table_found).
  - lia.
  - vm_compute; tauto.
  - vm_compute; reflexivity.
Defined.

End Hotspots.
