(* ===== verification/SpePacket.v ===== *)
(** Decoding of ARM SPE packets: the packet predicates and payload readers, the
    packet loop of [process_samples_locked] and
    [flush_pending_spe_sample_locked] of [src/monitor.cc].  A sampled
    instruction arrives as several packets, is collected in the [pending_*]
    fields of its sampler slot and is written out at an end or timestamp packet. *)
From S2P Require Import Prelude Uapi CText ProcMaps Hotspots.
Import ProcMaps Hotspots.

Definition SPE_PACKET_TS_HEADER : Z := 0x71.
Definition SPE_PACKET_PADDING_HEADER : Z := 0x00.
Definition SPE_PACKET_END_HEADER : Z := 0x01.
Definition SPE_PACKET_HEADER_PAYLOAD_SIZE_MASK : Z := 0x30.
Definition SPE_PACKET_SHORT_INDEX_MASK : Z := 0x07.
Definition SPE_PACKET_EVENTS_MASK : Z := 0xCF.
Definition SPE_PACKET_EVENTS_HEADER : Z := 0x42.
Definition SPE_PACKET_ADDRESS_MASK : Z := 0xF8.
Definition SPE_PACKET_ADDRESS_HEADER : Z := 0xB0.
Definition SPE_PACKET_COUNTER_MASK : Z := 0xF8.
Definition SPE_PACKET_COUNTER_HEADER : Z := 0x98.
Definition SPE_ADDR_PKT_HDR_INDEX_INS : Z := 0x0.
Definition SPE_ADDR_PKT_HDR_INDEX_BRANCH : Z := 0x1.
Definition SPE_ADDR_PKT_HDR_INDEX_DATA_VIRT : Z := 0x2.
Definition SPE_ADDR_PKT_HDR_INDEX_PREV_BRANCH : Z := 0x4.
Definition SPE_CNT_PKT_HDR_INDEX_TOTAL_LAT : Z := 0x0.
Definition SPE_CNT_PKT_HDR_INDEX_ISSUE_LAT : Z := 0x1.
Definition SPE_CNT_PKT_HDR_INDEX_TRANS_LAT : Z := 0x2.
Definition SPE_ADDR_PKT_BYTE7_SHIFT : Z := 56.
Definition SPE_ADDR_PKT_EL1 : Z := 1.
Definition SPE_ADDR_PKT_EL2 : Z := 2.

(** The [pending_*] fields of a sampler slot. *)
Record pending_sample := mk_pending {
  pending_pc : Z;
  pending_data_va : Z;
  pending_lat_total : Z;
  pending_lat_issue : Z;
  pending_lat_xlat : Z;
  pending_event_bits : Z;
  pending_flags : Z;
}.
#[export] Instance eta_pending : Eta pending_sample := fun r =>
  mk_pending (pending_pc r) (pending_data_va r) (pending_lat_total r) (pending_lat_issue r)
    (pending_lat_xlat r) (pending_event_bits r) (pending_flags r).

(** What the packet loop reads and writes besides the buffer: the slot's pending
    fields, the samples appended to its file, the caller's [num_samples] and the
    monitor's counters and hotspot table. *)
Record drain_state := mk_drain {
  ds_pending : pending_sample;
  ds_file : list spe_instruction_sample;
  ds_num_samples : Z;
  ds_written_sample_bytes : Z;
  ds_hot : hot_state;
  ds_time_packet_flush_count : Z;
  ds_end_packet_flush_count : Z;
  ds_empty_flush_count : Z;
  ds_unknown_packet_count : Z;
}.
#[export] Instance eta_drain : Eta drain_state := fun r =>
  mk_drain (ds_pending r) (ds_file r) (ds_num_samples r) (ds_written_sample_bytes r) (ds_hot r)
    (ds_time_packet_flush_count r) (ds_end_packet_flush_count r) (ds_empty_flush_count r)
    (ds_unknown_packet_count r).

Module SpePacket.

Definition is_arm_spe_address_packet (header : Z) : bool :=
  Z.land header SPE_PACKET_ADDRESS_MASK =? SPE_PACKET_ADDRESS_HEADER.
Definition is_arm_spe_counter_packet (header : Z) : bool :=
  Z.land header SPE_PACKET_COUNTER_MASK =? SPE_PACKET_COUNTER_HEADER.
Definition is_arm_spe_events_packet (header : Z) : bool :=
  Z.land header SPE_PACKET_EVENTS_MASK =? SPE_PACKET_EVENTS_HEADER.
Definition arm_spe_short_index (header : Z) : Z := Z.land header SPE_PACKET_SHORT_INDEX_MASK.
Definition arm_spe_payload_size (header : Z) : Z :=
  Z.shiftl 1 (Z.shiftr (Z.land header SPE_PACKET_HEADER_PAYLOAD_SIZE_MASK) 4).

(** Little-endian value of consecutive bytes. *)
Fixpoint le_value (bytes : list Z) : Z :=
  match bytes with
  | [] => 0
  | b :: r => b + 256 * le_value r
  end.
(** [n] bytes of [mem] at [pos]; [None] past the end of the mapping. *)
Definition read_le (mem : list Z) (pos : Z) (n : nat) : option Z :=
  if (0 <=? pos) && (pos + Z.of_nat n <=? zlen mem)
  then Some (le_value (take n (drop (Z.to_nat pos) mem))) else None.

(** [memcpy] of the payload behind the header byte at [packet]. *)
Definition read_spe_payload (mem : list Z) (packet payload_size : Z) : option Z :=
  read_le mem (packet + 1) (Z.to_nat payload_size).

Definition arm_spe_addr_get_bytes_0_6 (payload : Z) : Z :=
  Z.land payload (Z.shiftl 1 SPE_ADDR_PKT_BYTE7_SHIFT - 1).

Definition decode_arm_spe_address_payload (index payload : Z) : Z :=
  if (index =? SPE_ADDR_PKT_HDR_INDEX_INS) || (index =? SPE_ADDR_PKT_HDR_INDEX_BRANCH) ||
     (index =? SPE_ADDR_PKT_HDR_INDEX_PREV_BRANCH) then
    let ns := Z.land (Z.shiftr payload 63) 1 in
    let el := Z.land (Z.shiftr payload 61) 3 in
    let payload := arm_spe_addr_get_bytes_0_6 payload in
    if truthy ns && ((el =? SPE_ADDR_PKT_EL1) || (el =? SPE_ADDR_PKT_EL2))
    then Z.lor payload (Z.shiftl 255 SPE_ADDR_PKT_BYTE7_SHIFT) else payload
  else if index =? SPE_ADDR_PKT_HDR_INDEX_DATA_VIRT then arm_spe_addr_get_bytes_0_6 payload
  else payload.

Definition reset_pending_spe_sample (p : pending_sample) : pending_sample := mk_pending 0 0 0 0 0 0 0.

Section decode.
Context (pc_present : bool) (module_maps : list module_map_entry) (main_binary_path : text) (tid : Z).

Definition SAMPLE_BYTES : Z := 56.

Definition latency_flags : Z :=
  Z.lor (Z.lor SPE_SAMPLE_FLAG_LAT_TOTAL_VALID SPE_SAMPLE_FLAG_LAT_ISSUE_VALID)
    SPE_SAMPLE_FLAG_LAT_XLAT_VALID.

(** The record written for the pending state. *)
Definition pending_record (p : pending_sample) : spe_instruction_sample :=
  let sample := mk_sample (pending_pc p) (pending_data_va p) (pending_lat_total p)
    (pending_lat_issue p) (pending_lat_xlat p) (pending_event_bits p) (pending_flags p) in
  if (Z.land (sm_flags sample) latency_flags =? latency_flags) &&
     (u64 (sm_lat_issue sample + sm_lat_xlat sample) <=? sm_lat_total sample)
  then sample ⟦ sm_flags ::= fun f => Z.lor f SPE_SAMPLE_FLAG_LAT_EXEC_VALID ⟧ else sample.

Definition flush_pending_spe_sample_locked (from_end_packet : bool) (st : drain_state) : drain_state :=
  if negb (has_flag (pending_flags (ds_pending st)) SPE_SAMPLE_FLAG_PC_VALID) then
    st ⟦ ds_pending ::= reset_pending_spe_sample ⟧ ⟦ ds_empty_flush_count ::= inc64 ⟧
  else
    let sample := pending_record (ds_pending st) in
    let st := st ⟦ ds_file ::= fun f => f ++ [sample] ⟧
      ⟦ ds_written_sample_bytes ::= fun n => u64 (n + SAMPLE_BYTES) ⟧
      ⟦ ds_hot ::= record_hotspot_sample pc_present module_maps main_binary_path tid sample ⟧
      ⟦ ds_num_samples ::= inc64 ⟧ in
    let st := if from_end_packet then st ⟦ ds_end_packet_flush_count ::= inc64 ⟧
              else st ⟦ ds_time_packet_flush_count ::= inc64 ⟧ in
    st ⟦ ds_pending ::= reset_pending_spe_sample ⟧.

(** [pending_x = v; pending_flags |= flag] for each kind of packet. *)
Definition set_flag (flag : Z) (p : pending_sample) : pending_sample :=
  p ⟦ pending_flags ::= fun f => Z.lor f flag ⟧.
Definition take_address (index addr : Z) (p : pending_sample) : pending_sample :=
  if index =? SPE_ADDR_PKT_HDR_INDEX_INS
  then set_flag SPE_SAMPLE_FLAG_PC_VALID (p ⟦ pending_pc := addr ⟧) else
  if index =? SPE_ADDR_PKT_HDR_INDEX_DATA_VIRT
  then set_flag SPE_SAMPLE_FLAG_DATA_VA_VALID (p ⟦ pending_data_va := addr ⟧) else p.
Definition take_counter (index value : Z) (p : pending_sample) : pending_sample :=
  if index =? SPE_CNT_PKT_HDR_INDEX_TOTAL_LAT
  then set_flag SPE_SAMPLE_FLAG_LAT_TOTAL_VALID (p ⟦ pending_lat_total := value ⟧) else
  if index =? SPE_CNT_PKT_HDR_INDEX_ISSUE_LAT
  then set_flag SPE_SAMPLE_FLAG_LAT_ISSUE_VALID (p ⟦ pending_lat_issue := value ⟧) else
  if index =? SPE_CNT_PKT_HDR_INDEX_TRANS_LAT
  then set_flag SPE_SAMPLE_FLAG_LAT_XLAT_VALID (p ⟦ pending_lat_xlat := value ⟧) else p.
Definition take_events (value : Z) (p : pending_sample) : pending_sample :=
  set_flag SPE_SAMPLE_FLAG_EVENTS_VALID (p ⟦ pending_event_bits := value ⟧).

(** The default branch: the size of the payload to skip. *)
Definition unknown_payload_size (header : Z) : Z :=
  let bits := Z.land header 0x30 in
  if bits =? 0x00 then 1 else if bits =? 0x10 then 2 else if bits =? 0x20 then 4 else
  if bits =? 0x30 then 8 else 0.

(** One iteration of the packet loop at the byte [packet] of the AUX mapping:
    the new state and the payload size. *)
Definition packet_step (mem : list Z) (packet : Z) (st : drain_state) : option (drain_state * Z) :=
  spe_header ← read_le mem packet 1;
  if is_arm_spe_address_packet spe_header then
    let addr_index := arm_spe_short_index spe_header in
    raw_addr ← read_spe_payload mem packet 8;
    let decoded_addr := decode_arm_spe_address_payload addr_index raw_addr in
    Some (st ⟦ ds_pending ::= take_address addr_index decoded_addr ⟧, 8)
  else if is_arm_spe_counter_packet spe_header then
    let size := arm_spe_payload_size spe_header in
    value ← read_spe_payload mem packet size;
    Some (st ⟦ ds_pending ::= take_counter (arm_spe_short_index spe_header) value ⟧, size)
  else if is_arm_spe_events_packet spe_header then
    let size := arm_spe_payload_size spe_header in
    value ← read_spe_payload mem packet size;
    Some (st ⟦ ds_pending ::= take_events value ⟧, size)
  else if spe_header =? SPE_PACKET_PADDING_HEADER then Some (st, 0)
  else if spe_header =? SPE_PACKET_END_HEADER then Some (flush_pending_spe_sample_locked true st, 0)
  else if spe_header =? SPE_PACKET_TS_HEADER then Some (flush_pending_spe_sample_locked false st, 8)
  else Some (st ⟦ ds_unknown_packet_count ::= inc64 ⟧, unknown_payload_size spe_header).

(** [while (it < aux.aux_size)]: every packet is at least one byte, so as many
    iterations as bytes are enough. *)
Fixpoint packet_loop (fuel : nat) (mem : list Z) (aux_offset aux_size it : Z) (st : drain_state) :
    option drain_state :=
  if it <? aux_size then
    match fuel with
    | O => None
    | S fuel' =>
        let packet := u64 (aux_offset + it) mod zlen mem in
        '(st', payload_size) ← packet_step mem packet st;
        packet_loop fuel' mem aux_offset aux_size (u64 (it + 1 + payload_size)) st'
    end
  else Some st.

Definition decode_aux (mem : list Z) (aux_offset aux_size : Z) (st : drain_state) : option drain_state :=
  packet_loop (Z.to_nat aux_size) mem aux_offset aux_size 0 st.

End decode.

(** * Encoded packets

    The reference: the short-format packets of the SPE profile and their bytes. *)

Inductive packet :=
| PAddress (index payload : Z)
| PCounter (index value : Z)
| PEvents (size_code value : Z)
| PPadding
| PEnd
| PTimestamp (value : Z)
| POther (header : Z) (payload : list Z).

Fixpoint le_bytes (n : nat) (v : Z) : list Z :=
  match n with
  | O => []
  | S n' => v mod 256 :: le_bytes n' (v / 256)
  end.

Definition event_bytes (size_code : Z) : nat := Z.to_nat (Z.shiftl 1 size_code).

Definition encode (p : packet) : list Z :=
  match p with
  | PAddress i v => 0xB0 + i :: le_bytes 8 v
  | PCounter i v => 0x98 + i :: le_bytes 2 v
  | PEvents k v => 0x42 + 16 * k :: le_bytes (event_bytes k) v
  | PPadding => [0x00]
  | PEnd => [0x01]
  | PTimestamp v => 0x71 :: le_bytes 8 v
  | POther h bs => h :: bs
  end.

(** The one-byte headers of the packets that the profiler does not use. *)
Definition other_header (h : Z) : bool :=
  negb ((0xB0 <=? h) && (h <=? 0xB7)) && negb ((0x98 <=? h) && (h <=? 0x9F)) &&
  negb ((h =? 0x42) || (h =? 0x52) || (h =? 0x62) || (h =? 0x72)) &&
  negb ((h =? 0x00) || (h =? 0x01) || (h =? 0x71)).

(** Bits 4 and 5 of such a header give the size of the payload. *)
Definition packet_wf (p : packet) : Prop :=
  match p with
  | PAddress i v => 0 <= i < 8 /\ is_u64 v
  | PCounter i v => 0 <= i < 8 /\ 0 <= v < 65536
  | PEvents k v => 0 <= k < 4 /\ 0 <= v < 256 ^ Z.of_nat (event_bytes k)
  | PPadding | PEnd => True
  | PTimestamp v => is_u64 v
  | POther h bs => 0 <= h < 256 /\ other_header h = true /\ zlen bs = 2 ^ ((h / 16) mod 4)
  end.

Lemma length_le_bytes n v : length (le_bytes n v) = n.
Proof. revert v; induction n as [|n IH]; intros v; cbn; [done|]; by rewrite IH. Qed.

Lemma le_value_bytes n v : 0 <= v < 256 ^ Z.of_nat n -> le_value (le_bytes n v) = v.
Proof.
  revert v; induction n as [|n IH]; intros v Hv; cbn [le_bytes le_value].
  { change (256 ^ Z.of_nat 0) with 1 in Hv; lia. }
  rewrite Nat2Z.inj_succ, Z.pow_succ_r in Hv by lia.
  rewrite IH; [|split; [apply Z.div_pos; lia|apply Z.div_lt_upper_bound; lia]].
  pose proof (Z_div_mod_eq_full v 256); lia.
Qed.

Lemma read_le_app pre bs post :
  read_le (pre ++ bs ++ post) (zlen pre) (length bs) = Some (le_value bs).
Proof.
  unfold read_le; rewrite !length_app, Nat2Z.id.
  rewrite (proj2 (Z.leb_le 0 (zlen pre))), (proj2 (Z.leb_le (_ + _) _)) by lia.
  cbn [andb]; by rewrite drop_app_length, take_app_length.
Qed.

Lemma read_header pre h rest : read_le (pre ++ h :: rest) (zlen pre) 1 = Some h.
Proof. pose proof (read_le_app pre [h] rest) as H; cbn [length app le_value] in H; rewrite H; f_equal; lia. Qed.

Lemma read_payload pre h n v post :
  0 <= v < 256 ^ Z.of_nat n ->
  read_spe_payload (pre ++ (h :: le_bytes n v) ++ post) (zlen pre) (Z.of_nat n) = Some v.
Proof.
  intros Hv; unfold read_spe_payload; rewrite Nat2Z.id.
  replace (pre ++ (h :: le_bytes n v) ++ post) with ((pre ++ [h]) ++ le_bytes n v ++ post)
    by (by rewrite <- app_assoc).
  replace (zlen pre + 1) with (zlen (pre ++ [h])) by (rewrite length_app; cbn; lia).
  pose proof (read_le_app (pre ++ [h]) (le_bytes n v) post) as H.
  by rewrite length_le_bytes, le_value_bytes in H by done.
Qed.

Section semantics.
Context (pc_present : bool) (module_maps : list module_map_entry) (main_binary_path : text) (tid : Z).

Abbreviation flush := (flush_pending_spe_sample_locked pc_present module_maps main_binary_path tid).
Abbreviation step := (packet_step pc_present module_maps main_binary_path tid).
Abbreviation decode := (decode_aux pc_present module_maps main_binary_path tid).

(** The effect of one packet. *)
Definition apply_packet (p : packet) (st : drain_state) : drain_state :=
  match p with
  | PAddress i v => st ⟦ ds_pending ::= take_address i (decode_arm_spe_address_payload i v) ⟧
  | PCounter i v => st ⟦ ds_pending ::= take_counter i v ⟧
  | PEvents _ v => st ⟦ ds_pending ::= take_events v ⟧
  | PPadding => st
  | PEnd => flush true st
  | PTimestamp _ => flush false st
  | POther _ _ => st ⟦ ds_unknown_packet_count ::= inc64 ⟧
  end.

Lemma address_header i : 0 <= i < 8 ->
  is_arm_spe_address_packet (0xB0 + i) = true /\ arm_spe_short_index (0xB0 + i) = i.
Proof. revert i; apply (forall_below 8); repeat (constructor; [done|]); constructor. Qed.

Lemma counter_header i : 0 <= i < 8 ->
  is_arm_spe_address_packet (0x98 + i) = false /\ is_arm_spe_counter_packet (0x98 + i) = true /\
  arm_spe_short_index (0x98 + i) = i /\ arm_spe_payload_size (0x98 + i) = 2.
Proof. revert i; apply (forall_below 8); repeat (constructor; [done|]); constructor. Qed.

Lemma events_header k : 0 <= k < 4 ->
  is_arm_spe_address_packet (0x42 + 16 * k) = false /\ is_arm_spe_counter_packet (0x42 + 16 * k) = false /\
  is_arm_spe_events_packet (0x42 + 16 * k) = true /\
  arm_spe_payload_size (0x42 + 16 * k) = Z.of_nat (event_bytes k).
Proof. revert k; apply (forall_below 4); repeat (constructor; [done|]); constructor. Qed.

(** The header of an unused packet reaches the default branch. *)
Definition skipped_header (h : Z) : bool :=
  negb (is_arm_spe_address_packet h) && negb (is_arm_spe_counter_packet h) && negb (is_arm_spe_events_packet h) &&
  negb (h =? SPE_PACKET_PADDING_HEADER) && negb (h =? SPE_PACKET_END_HEADER) && negb (h =? SPE_PACKET_TS_HEADER) &&
  (unknown_payload_size h =? 2 ^ ((h / 16) mod 4)).
Lemma other_header_skipped h : 0 <= h < 256 -> other_header h = true -> skipped_header h = true.
Proof.
  intros Hh Ho; assert (H : forallb (fun h => implb (other_header h) (skipped_header h)) (seqZ 0 256) = true) by (by vm_compute).
  rewrite forallb_forall in H; specialize (H h ltac:(apply list_elem_of_In, elem_of_seqZ; lia)); by rewrite Ho in H.
Qed.

Lemma step_encode pre p post st :
  packet_wf p ->
  step (pre ++ encode p ++ post) (zlen pre) st = Some (apply_packet p st, zlen (encode p) - 1).
Proof.
  assert (Hhd : forall h bs, read_le (pre ++ (h :: bs) ++ post) (zlen pre) 1 = Some h)
    by (intros; apply read_header).
  destruct p as [i v|i v|k v| | |v|h bs]; intros Hp; cbn [encode apply_packet packet_wf] in *;
    unfold packet_step; rewrite Hhd; cbn [mbind option_bind].
  - destruct Hp as [Hi Hv]; destruct (address_header i Hi) as (-> & ->).
    rewrite (read_payload pre _ 8 v post) by (cbn; lia); cbn [mbind option_bind]; done.
  - destruct Hp as [Hi Hv]; destruct (counter_header i Hi) as (-> & -> & -> & ->).
    rewrite (read_payload pre _ 2 v post) by (cbn; lia); cbn [mbind option_bind]; done.
  - destruct Hp as [Hk Hv]; destruct (events_header k Hk) as (-> & -> & -> & ->).
    rewrite (read_payload pre _ (event_bytes k) v post) by done; cbn [mbind option_bind].
    cbn [length]; rewrite length_le_bytes; do 2 f_equal; lia.
  - done.
  - done.
  - done.
  - destruct Hp as (Hh & Ho%other_header_skipped & Hl); [|done]; unfold skipped_header in Ho.
    apply andb_prop in Ho as [Ho Hu%Z.eqb_eq].
    repeat (apply andb_prop in Ho as [Ho ?%negb_true_iff]); apply negb_true_iff in Ho.
    repeat match goal with H : _ = false |- _ => rewrite H; clear H end.
    do 2 f_equal; cbn [length]; lia.
Qed.

Lemma encode_positive p : (1 <= length (encode p))%nat.
Proof. destruct p; cbn; lia. Qed.

(** The packets lie in the AUX buffer one after the other from position [pos] on,
    modulo its size; no packet crosses the end of the buffer. *)
Fixpoint aux_holds (mem : list Z) (pos : Z) (ps : list packet) : Prop :=
  match ps with
  | [] => True
  | p :: ps => take (length (encode p)) (drop (Z.to_nat (pos mod zlen mem)) mem) = encode p /\
               aux_holds mem (pos + zlen (encode p)) ps
  end.
Definition packet_bytes (ps : list packet) : Z := zlen (concat (encode <$> ps)).

Lemma packet_bytes_cons p ps : packet_bytes (p :: ps) = zlen (encode p) + packet_bytes ps.
Proof. unfold packet_bytes; cbn [fmap list_fmap concat]; rewrite length_app; lia. Qed.

(** A packet that is found at a position splits the buffer there. *)
Lemma held_split mem n p :
  (n <= length mem)%nat -> take (length (encode p)) (drop n mem) = encode p ->
  exists pre post, mem = pre ++ encode p ++ post /\ length pre = n.
Proof.
  intros Hn H; exists (take n mem), (drop (length (encode p)) (drop n mem)); split.
  - rewrite <- H at 1; by rewrite take_drop, take_drop.
  - rewrite length_take; lia.
Qed.

Lemma loop_encode mem off size ps : forall fuel it st,
  Forall packet_wf ps -> aux_holds mem (off + it) ps ->
  0 <= off -> 0 <= it -> size = it + packet_bytes ps -> off + size < 18446744073709551616 ->
  packet_bytes ps <= Z.of_nat fuel ->
  packet_loop pc_present module_maps main_binary_path tid fuel mem off size it st =
  Some (foldl (fun st p => apply_packet p st) st ps).
Proof.
  induction ps as [|p ps IH]; intros fuel it st Hwf Hat Hoff Hit Hsz Hov Hfuel.
  - change (packet_bytes []) with 0 in Hsz; destruct fuel; cbn [packet_loop]; destruct (it <? size) eqn:E; (lia || done).
  - inversion Hwf as [|? ? Hp Hps]; subst; clear Hwf; destruct Hat as [Hp0 Hat].
    rewrite packet_bytes_cons in *; pose proof (encode_positive p) as Hlen.
    assert (Hnn : 0 <= packet_bytes ps) by (unfold packet_bytes; lia).
    assert (Hmem : 0 < zlen mem).
    { apply (f_equal length) in Hp0; rewrite length_take, length_drop in Hp0; lia. }
    destruct fuel as [|fuel]; [lia|]; cbn [packet_loop]; destruct (it <? _) eqn:E; [|lia].
    rewrite u64_id by lia; pose proof (Z.mod_pos_bound (off + it) (zlen mem) Hmem) as Hm.
    destruct (held_split mem (Z.to_nat ((off + it) mod zlen mem)) p) as (pre & post & Em & Hpre); [lia|done|].
    replace ((off + it) mod zlen mem) with (zlen pre) by lia.
    replace (step mem (zlen pre) st) with (step (pre ++ encode p ++ post) (zlen pre) st) by (by rewrite <- Em).
    rewrite step_encode by done; cbn [mbind option_bind foldl].
    rewrite u64_id by lia; replace (it + 1 + (zlen (encode p) - 1)) with (it + zlen (encode p)) by lia.
    apply IH; [done| |lia|lia|lia|lia|lia]; by rewrite Z.add_assoc.
Qed.

(** * Sampled instructions

    The reference.  The packets of one sampled instruction come in any order,
    mixed with packets that are not used, and are closed by an end packet or a
    timestamp; of several packets of a kind the last one counts. *)

(** Bits 63, 62 and 61 of an instruction address are the security state and the
    exception level; an address of the kernel or the hypervisor has its top byte
    restored. *)
Definition pc_value (v : Z) : Z :=
  v mod 2 ^ 56 + (if Z.testbit v 63 && xorb (Z.testbit v 61) (Z.testbit v 62) then 255 * 2 ^ 56 else 0).

Definition pc_of (p : packet) : option Z :=
  match p with PAddress i v => if i =? 0 then Some (pc_value v) else None | _ => None end.
Definition va_of (p : packet) : option Z :=
  match p with PAddress i v => if i =? 2 then Some (v mod 2 ^ 56) else None | _ => None end.
Definition counter_of (index : Z) (p : packet) : option Z :=
  match p with PCounter i v => if i =? index then Some v else None | _ => None end.
Definition events_of (p : packet) : option Z := match p with PEvents _ v => Some v | _ => None end.
Definition pick {A} (f : packet -> option A) (ps : list packet) : option A := last (omap f ps).

Definition flag_if {A} (flag : Z) (o : option A) : Z := match o with Some _ => flag | None => 0 end.
(** Execution latency is valid when all three counters are present and the total
    covers the other two. *)
Definition exec_valid (ps : list packet) : bool :=
  match pick (counter_of 0) ps, pick (counter_of 1) ps, pick (counter_of 2) ps with
  | Some t, Some i, Some x => i + x <=? t
  | _, _, _ => false
  end.
Definition presence (ps : list packet) : Z :=
  flag_if 1 (pick pc_of ps) + flag_if 2 (pick (counter_of 0) ps) + flag_if 4 (pick (counter_of 1) ps) +
  flag_if 8 (pick (counter_of 2) ps) + flag_if 16 (pick events_of ps) + flag_if 64 (pick va_of ps).
(** The sample of a group of packets; none without a program counter. *)
Definition sample_of (ps : list packet) : option spe_instruction_sample :=
  match pick pc_of ps with
  | None => None
  | Some pc => Some (mk_sample pc (default 0 (pick va_of ps)) (default 0 (pick (counter_of 0) ps))
      (default 0 (pick (counter_of 1) ps)) (default 0 (pick (counter_of 2) ps)) (default 0 (pick events_of ps))
      (presence ps + (if exec_valid ps then 32 else 0)))
  end.

(** [Some true] for an end packet, [Some false] for a timestamp. *)
Definition closes (p : packet) : option bool :=
  match p with PEnd => Some true | PTimestamp _ => Some false | _ => None end.
(** The groups that are closed in [ps], and the packets that are left open;
    [open] was left open before. *)
Fixpoint groups (open ps : list packet) : list (list packet * bool) * list packet :=
  match ps with
  | [] => ([], open)
  | p :: ps =>
      match closes p with
      | Some at_end => let '(gs, rest) := groups [] ps in ((open, at_end) :: gs, rest)
      | None => groups (open ++ [p]) ps
      end
  end.
Definition samples (gs : list (list packet * bool)) : list spe_instruction_sample := omap (fun g => sample_of g.1) gs.

Lemma groups_app ps1 : forall open ps2,
  groups open (ps1 ++ ps2) =
  let '(g1, r1) := groups open ps1 in let '(g2, r2) := groups r1 ps2 in (g1 ++ g2, r2).
Proof.
  induction ps1 as [|p ps1 IH]; intros open ps2; cbn [groups app]; [by destruct (groups open ps2)|].
  destruct (closes p) as [b|]; rewrite IH; [|done].
  destruct (groups [] ps1) as [g1 r1]; by destruct (groups r1 ps2).
Qed.

Lemma groups_open_wf ps : forall open,
  Forall packet_wf open -> Forall packet_wf ps -> Forall packet_wf (groups open ps).2.
Proof.
  induction ps as [|p ps IH]; intros open Ho Hp; cbn [groups]; [done|]; inversion Hp; subst.
  destruct (closes p) as [b|]; [|by apply IH; [apply Forall_app_2; [|apply Forall_singleton]|]].
  specialize (IH [] (Forall_nil_2 _) ltac:(done)); by destruct (groups [] ps).
Qed.

(** ** The pending fields hold the open group *)

Definition collected (ps : list packet) : pending_sample :=
  mk_pending (default 0 (pick pc_of ps)) (default 0 (pick va_of ps)) (default 0 (pick (counter_of 0) ps))
    (default 0 (pick (counter_of 1) ps)) (default 0 (pick (counter_of 2) ps)) (default 0 (pick events_of ps))
    (presence ps).

Lemma pick_snoc {A} (f : packet -> option A) ps p :
  pick f (ps ++ [p]) = match f p with Some v => Some v | None => pick f ps end.
Proof. unfold pick; rewrite omap_app, last_app; cbn; by destruct (f p). Qed.

Lemma low56 v : arm_spe_addr_get_bytes_0_6 v = v mod 2 ^ 56.
Proof. unfold arm_spe_addr_get_bytes_0_6; change (Z.shiftl 1 _ - 1) with (Z.ones 56); by rewrite Z.land_ones. Qed.

Lemma restored_top x : 0 <= x < 2 ^ 56 -> Z.lor x (Z.shiftl 255 56) = x + 255 * 2 ^ 56.
Proof.
  intros Hx; rewrite <- Z.add_nocarry_lor; [by rewrite Z.shiftl_mul_pow2|].
  rewrite <- (Z.mod_small x (2 ^ 56)) by lia; rewrite <- Z.land_ones by lia.
  apply Z.bits_inj'; intros n Hn; rewrite !Z.land_spec, Z.bits_0.
  destruct (decide (n < 56)); [rewrite Z.shiftl_spec_low by lia; apply andb_false_r|].
  rewrite Z.ones_spec_high by lia; by rewrite andb_false_r.
Qed.

Lemma decode_pc v : decode_arm_spe_address_payload 0 v = pc_value v.
Proof.
  unfold decode_arm_spe_address_payload, pc_value, SPE_ADDR_PKT_EL1, SPE_ADDR_PKT_EL2, SPE_ADDR_PKT_BYTE7_SHIFT.
  change (0 =? SPE_ADDR_PKT_HDR_INDEX_INS) with true; cbn [orb]; rewrite low56.
  pose proof (Z.mod_pos_bound v (2 ^ 56) ltac:(lia)) as Hlow; rewrite restored_top by done.
  change 1 with (Z.ones 1) at 1; change 3 with (Z.ones 2) at 1 2; rewrite !Z.land_ones, !Z.shiftr_div_pow2 by lia.
  pose proof (Z.testbit_spec' v 63 ltac:(lia)) as H63; pose proof (Z.testbit_spec' v 61 ltac:(lia)) as H61.
  pose proof (Z.testbit_spec' v 62 ltac:(lia)) as H62; change (2 ^ 62) with (2 ^ 61 * 2) in H62.
  rewrite <- Z.div_div in H62 by lia; change (2 ^ 1) with 2; change (2 ^ 2) with 4.
  assert (H4 : (v / 2 ^ 61) mod 4 = Z.b2z (Z.testbit v 61) + 2 * Z.b2z (Z.testbit v 62)).
  { rewrite H61, H62; symmetry; apply (Zmod_unique _ 4 (v / 2 ^ 61 / 2 / 2)).
    - pose proof (Z.mod_pos_bound (v / 2 ^ 61) 2); pose proof (Z.mod_pos_bound (v / 2 ^ 61 / 2) 2); lia.
    - pose proof (Z_div_mod_eq_full (v / 2 ^ 61) 2); pose proof (Z_div_mod_eq_full (v / 2 ^ 61 / 2) 2); lia. }
  rewrite H4, <- H63; clear; generalize (v mod 2 ^ 56); intros x; set (top := 255 * 2 ^ 56); clearbody top.
  destruct (Z.testbit v 63), (Z.testbit v 61), (Z.testbit v 62); cbn [xorb andb]; rewrite ?Z.add_0_r; reflexivity.
Qed.

Lemma decode_va v : decode_arm_spe_address_payload 2 v = v mod 2 ^ 56.
Proof. apply low56. Qed.

(** A packet that does not close the group. *)
Lemma collect_packet p open st :
  closes p = None -> packet_wf p -> ds_pending st = collected open ->
  apply_packet p st =
    st ⟦ ds_pending := collected (open ++ [p]) ⟧
       ⟦ ds_unknown_packet_count ::= match p with POther _ _ => inc64 | _ => id end ⟧.
Proof.
  intros Hc Hp Hst; destruct st as [pend]; cbn in Hst; subst pend; unfold collected, presence; rewrite !pick_snoc.
  assert (Hidx : forall i, 0 <= i < 8 -> i = 0 \/ i = 1 \/ i = 2 \/ i = 3 \/ i = 4 \/ i = 5 \/ i = 6 \/ i = 7) by lia.
  destruct p as [i v|i v|k v| | |v|h bs]; cbn in Hc, Hp; try discriminate.
  - destruct Hp as [Hi _]; unfold apply_packet.
    destruct (Hidx i Hi) as [->|[->|[->|[->|[->|[->|[-> | ->]]]]]]]; rewrite ?decode_pc, ?decode_va;
      cbn [pc_of va_of counter_of events_of Z.eqb Pos.eqb];
      destruct (pick pc_of open), (pick va_of open), (pick (counter_of 0) open), (pick (counter_of 1) open),
        (pick (counter_of 2) open), (pick events_of open); reflexivity.
  - destruct Hp as [Hi _]; unfold apply_packet.
    destruct (Hidx i Hi) as [->|[->|[->|[->|[->|[->|[-> | ->]]]]]]];
      cbn [pc_of va_of counter_of events_of Z.eqb Pos.eqb];
      destruct (pick pc_of open), (pick va_of open), (pick (counter_of 0) open), (pick (counter_of 1) open),
        (pick (counter_of 2) open), (pick events_of open); reflexivity.
  - cbn [pc_of va_of counter_of events_of]; destruct (pick pc_of open), (pick va_of open), (pick (counter_of 0) open),
      (pick (counter_of 1) open), (pick (counter_of 2) open), (pick events_of open); reflexivity.
  - reflexivity.
  - reflexivity.
Qed.

Lemma counter_range i ps v : Forall packet_wf ps -> pick (counter_of i) ps = Some v -> 0 <= v < 65536.
Proof.
  intros Hwf H; apply last_Some in H as [l H]; assert (Hin : v ∈ omap (counter_of i) ps) by (rewrite H; set_solver).
  apply list_elem_of_omap in Hin as (p & Hp & Hv); rewrite Forall_forall in Hwf; specialize (Hwf p Hp).
  destruct p as [| i' v' | | | | |]; try discriminate; cbn in Hv; destruct (i' =? i); [|done].
  injection Hv as <-; apply Hwf.
Qed.

Lemma pending_record_collected ps s :
  Forall packet_wf ps -> sample_of ps = Some s -> pending_record (collected ps) = s.
Proof.
  intros Hwf; pose proof (counter_range 0 ps) as Ht; pose proof (counter_range 1 ps) as Hi; pose proof (counter_range 2 ps) as Hx.
  unfold sample_of, pending_record, collected, presence, exec_valid; destruct (pick pc_of ps); [|done]; intros [= <-].
  destruct (pick (counter_of 0) ps) as [t|], (pick (counter_of 1) ps) as [i|], (pick (counter_of 2) ps) as [x|],
    (pick events_of ps), (pick va_of ps); cbn -[u64 Z.leb Z.add]; try reflexivity.
  all: specialize (Ht t Hwf eq_refl); specialize (Hi i Hwf eq_refl); specialize (Hx x Hwf eq_refl).
  all: rewrite u64_id by lia; destruct (i + x <=? t); reflexivity.
Qed.

Definition cleared : pending_sample := mk_pending 0 0 0 0 0 0 0.

(** A closing packet. *)
Lemma flush_group open b st :
  Forall packet_wf open -> ds_pending st = collected open ->
  flush b st =
  match sample_of open with
  | Some s =>
      let st := st ⟦ ds_pending := cleared ⟧ ⟦ ds_file ::= fun f => f ++ [s] ⟧
        ⟦ ds_written_sample_bytes ::= fun n => u64 (n + 56) ⟧
        ⟦ ds_hot ::= record_hotspot_sample pc_present module_maps main_binary_path tid s ⟧
        ⟦ ds_num_samples ::= inc64 ⟧ in
      if b then st ⟦ ds_end_packet_flush_count ::= inc64 ⟧ else st ⟦ ds_time_packet_flush_count ::= inc64 ⟧
  | None => st ⟦ ds_pending := cleared ⟧ ⟦ ds_empty_flush_count ::= inc64 ⟧
  end.
Proof.
  intros Hwf Hst; unfold flush_pending_spe_sample_locked; rewrite Hst.
  assert (has_flag (pending_flags (collected open)) SPE_SAMPLE_FLAG_PC_VALID = bool_decide (is_Some (sample_of open))) as ->.
  { unfold collected, presence, sample_of; destruct (pick pc_of open), (pick (counter_of 0) open), (pick (counter_of 1) open),
      (pick (counter_of 2) open), (pick events_of open), (pick va_of open); reflexivity. }
  destruct (sample_of open) as [s|] eqn:E; cbn [negb bool_decide decide]; [|by destruct st].
  rewrite (pending_record_collected open s) by done; by destruct st, b.
Qed.

(** Everything a sequence of packets changes; [open] is the group that was open
    before it. *)
Record decoded (open ps : list packet) (st st' : drain_state) : Prop := {
  dc_pending : ds_pending st' = collected (groups open ps).2;
  dc_file : ds_file st' = ds_file st ++ samples (groups open ps).1;
  dc_num : ds_num_samples st' ≡₆₄ ds_num_samples st + zlen (samples (groups open ps).1);
  dc_bytes : ds_written_sample_bytes st' ≡₆₄ ds_written_sample_bytes st + 56 * zlen (samples (groups open ps).1);
  dc_hot : ds_hot st' =
    record_all pc_present module_maps main_binary_path (pair tid <$> samples (groups open ps).1) (ds_hot st);
  dc_end : ds_end_packet_flush_count st' ≡₆₄
    ds_end_packet_flush_count st + zlen (samples (filter (fun g => g.2 = true) (groups open ps).1));
  dc_time : ds_time_packet_flush_count st' ≡₆₄
    ds_time_packet_flush_count st + zlen (samples (filter (fun g => g.2 = false) (groups open ps).1));
  dc_empty : ds_empty_flush_count st' ≡₆₄
    ds_empty_flush_count st + zlen (filter (fun g => sample_of g.1 = None) (groups open ps).1);
  dc_unknown : ds_unknown_packet_count st' ≡₆₄
    ds_unknown_packet_count st + zcount (fun p => match p with POther _ _ => true | _ => false end) ps;
}.

Lemma decoded_nil open st : ds_pending st = collected open -> decoded open [] st st.
Proof.
  intros Hst; split; cbn [groups fst snd]; rewrite ?app_nil_r; try done; apply eqm64_of_eq; symmetry; apply Z.add_0_r.
Qed.

Lemma decoded_app open ps1 ps2 st st1 st2 :
  decoded open ps1 st st1 -> decoded (groups open ps1).2 ps2 st1 st2 -> decoded open (ps1 ++ ps2) st st2.
Proof.
  intros [A1 A2 A3 A4 A5 A6 A7 A8 A9] [B1 B2 B3 B4 B5 B6 B7 B8 B9]; split; rewrite ?groups_app, ?zcount_app;
    destruct (groups open ps1) as [g1 r1]; cbn [fst snd] in *; destruct (groups r1 ps2) as [g2 r2]; cbn [fst snd] in *.
  all: unfold samples in *; rewrite ?filter_app, ?omap_app, ?fmap_app, ?length_app.
  - done.
  - by rewrite B2, A2, <- app_assoc.
  - rewrite B3, A3; apply eqm64_of_eq; lia.
  - rewrite B4, A4; apply eqm64_of_eq; lia.
  - rewrite B5, A5; symmetry; apply foldl_app.
  - rewrite B6, A6; apply eqm64_of_eq; lia.
  - rewrite B7, A7; apply eqm64_of_eq; lia.
  - rewrite B8, A8; apply eqm64_of_eq; lia.
  - rewrite B9, A9; apply eqm64_of_eq; lia.
Qed.

(** A group closes. *)
Lemma decoded_flush open p b st :
  closes p = Some b -> Forall packet_wf open -> ds_pending st = collected open -> decoded open [p] st (flush b st).
Proof.
  intros Hc Ho Hst; assert (Hg : groups open [p] = ([(open, b)], [])) by (cbn; by rewrite Hc).
  assert (Hz : zcount (fun p => match p with POther _ _ => true | _ => false end) [p] = 0) by (by destruct p).
  rewrite (flush_group open b st Ho Hst); split; rewrite ?Hg, ?Hz; unfold samples; cbn [fst snd omap list_omap];
    rewrite ?filter_cons, ?filter_nil; cbn [fst snd]; destruct (sample_of open) as [s|] eqn:Es, b;
    repeat first [rewrite decide_True by done|rewrite decide_False by done]; cbn [omap list_omap fst length fmap list_fmap];
    rewrite ?Es, ?app_nil_r; try reflexivity; cbn; rewrite ?inc64_eqm, ?u64_eqm; apply eqm64_of_eq; lia.
Qed.

Lemma decoded_packet open p st :
  Forall packet_wf open -> packet_wf p -> ds_pending st = collected open -> decoded open [p] st (apply_packet p st).
Proof.
  intros Ho Hp Hst; destruct (closes p) as [b|] eqn:Hc.
  - replace (apply_packet p st) with (flush b st) by (destruct p; try discriminate; by injection Hc as <-).
    by apply decoded_flush.
  - rewrite (collect_packet p open st Hc Hp Hst).
    assert (Hg : groups open [p] = ([], open ++ [p])) by (cbn; by rewrite Hc).
    split; rewrite ?Hg; cbn [fst snd]; rewrite ?app_nil_r; try done; try (apply eqm64_of_eq; symmetry; apply Z.add_0_r).
    rewrite zcount_cons; unfold zcount; destruct p; cbn; rewrite ?inc64_eqm; apply eqm64_of_eq; change (sumZ []) with 0; lia.
Qed.

Lemma packets_effect ps : forall open st,
  Forall packet_wf open -> Forall packet_wf ps -> ds_pending st = collected open ->
  decoded open ps st (foldl (fun st p => apply_packet p st) st ps).
Proof.
  induction ps as [|p ps IH]; intros open st Ho Hps Hst; [by apply decoded_nil|].
  inversion Hps as [|? ? Hp Hps']; subst; cbn [foldl]; pose proof (decoded_packet open p st Ho Hp Hst) as D.
  apply (decoded_app open [p] ps _ _ _ D), IH; [apply groups_open_wf; [done|by apply Forall_singleton]|done|apply D].
Qed.

(** Decoding the packets that the AUX buffer holds. *)
Lemma decode_packets mem off ps open st :
  Forall packet_wf ps -> Forall packet_wf open -> ds_pending st = collected open -> 0 <= off ->
  aux_holds mem off ps -> off + packet_bytes ps < 18446744073709551616 ->
  exists st', decode mem off (packet_bytes ps) st = Some st' /\ decoded open ps st st'.
Proof.
  intros Hps Ho Hst Hoff Hat Hov; eexists; split; [|by apply packets_effect].
  unfold decode_aux; apply loop_encode; try done; [by rewrite Z.add_0_r|unfold packet_bytes; lia].
Qed.

(** C26. The packet decoder agrees with the reference on every sequence of SPE
    packets with one-byte headers, in whatever order, that lies in the AUX buffer
    with no packet across its end (the sequence as a whole may wrap).  [open] are
    the packets of an instruction whose beginning was decoded earlier.  One
    sample is written for each group that an end packet or a timestamp closes and
    that has a program counter: its program counter, data address, latencies and
    event bits are those of the last packet of each kind in the group, its flags
    say which were present; packets of other kinds are counted and change nothing
    else.  The same samples reach the hotspot table, groups without a program
    counter are counted as empty, each counter grows by the number of its events,
    and the packets after the last closing one stay pending. *)
Theorem spe_packets_decode (mem : list Z) (off : Z) (ps open : list packet) (st : drain_state)
    (Hps : Forall packet_wf ps) (Hopen : Forall packet_wf open) (Hst : ds_pending st = collected open)
    (Hoff : 0 <= off) (Hat : aux_holds mem off ps) (Hov : off + packet_bytes ps < 18446744073709551616) :
  exists st', decode mem off (packet_bytes ps) st = Some st' /\ decoded open ps st st'.
Proof. by apply decode_packets. Qed.

End semantics.

(** A load: a context packet, padding, events before the program counter, an
    operation type after it, latencies, the data address and the end. *)
Definition demo_packets : list packet :=
  [POther 0x64 [0; 0; 0; 0]; PPadding; PEvents 1 0x208; PAddress 0 (0x4005d8 + 2 ^ 56 * 0x80); POther 0x49 [0];
   PCounter 0 40; PCounter 2 2; PCounter 1 3; PAddress 2 0xf000aaaab000; PEnd].
Definition demo_drain : drain_state := mk_drain cleared [] 0 0 (mk_hot_state ∅ 0) 0 0 0 0.

Lemma demo_packets_wf : Forall packet_wf demo_packets.
Proof.
  unfold demo_packets; repeat (apply Forall_cons_2; [cbn; split_and?; try lia; try reflexivity; try done|]); apply Forall_nil_2.
Qed.

Example demo_groups :
  samples (groups [] (demo_packets ++ [PTimestamp 5])).1 = [mk_sample 0x4005d8 0xf000aaaab000 40 3 2 0x208 127] /\
  (groups [] (demo_packets ++ [PPadding])).2 = [PPadding].
Proof. vm_compute; done. Qed.

Lemma spe_packets_decode_witness :
  let bytes := concat (encode <$> demo_packets) in
  exists st', decode_aux true [] [] 7 (drop 6 bytes ++ [0; 0; 0] ++ take 6 bytes) (zlen bytes - 3) (packet_bytes demo_packets)
      demo_drain = Some st' /\
    ds_file st' = [mk_sample 0x4005d8 0xf000aaaab000 40 3 2 0x208 127] /\ ds_pending st' = cleared.
Proof.
  destruct (spe_packets_decode true [] [] 7 (drop 6 (concat (encode <$> demo_packets)) ++ [0; 0; 0] ++
    take 6 (concat (encode <$> demo_packets))) (zlen (concat (encode <$> demo_packets)) - 3) demo_packets [] demo_drain)
    as (st' & H & D).
  - exact demo_packets_wf.
  - apply Forall_nil_2.
  - reflexivity.
  - vm_compute; discriminate.
  - vm_compute; repeat split.
  - vm_compute; reflexivity.
  - exists st'; split; [exact H|]; split; [rewrite (dc_file _ _ _ _ _ _ _ _ D)|rewrite (dc_pending _ _ _ _ _ _ _ _ D)];
      vm_compute; reflexivity.
Defined.

End SpePacket.
