(* ===== verification/RingDrain.v ===== *)
(** Draining one sampler slot: [process_samples_locked] of [src/monitor.cc] over
    the bytes of the perf ring buffer.  Records of the ring are read modulo the
    buffer size; an AUX record names a range of the AUX buffer whose packets
    [SpePacket] decodes. *)
From S2P Require Import Prelude Uapi CText ProcMaps Hotspots SpePacket.
Import ProcMaps Hotspots SpePacket.

Definition PERF_RECORD_THROTTLE : Z := 5.
Definition PERF_RECORD_UNTHROTTLE : Z := 6.
Definition PERF_RECORD_SAMPLE : Z := 9.
Definition PERF_RECORD_AUX : Z := 11.
Definition PERF_RECORD_ITRACE_START : Z := 12.
Definition PERF_AUX_FLAG_TRUNCATED : Z := 1.
Definition PERF_AUX_FLAG_COLLISION : Z := 8.

(** The mapped buffers of a slot: the control page's indices, the data area and
    the AUX area. *)
Record ring_buffer := mk_ring {
  rb_data : list Z;
  rb_aux : list Z;
  rb_data_head : Z;
  rb_data_tail : Z;
  rb_aux_tail : Z;
}.
#[export] Instance eta_ring : Eta ring_buffer := fun r =>
  mk_ring (rb_data r) (rb_aux r) (rb_data_head r) (rb_data_tail r) (rb_aux_tail r).

(** The counters of the current window that a drain updates. *)
Record window_counts := mk_window { wc_num_samples : Z; wc_sample_throttles : Z }.
#[export] Instance eta_window : Eta window_counts := fun r =>
  mk_window (wc_num_samples r) (wc_sample_throttles r).

(** What the drain of a slot changes: the buffer, the packet decoder's state, the
    [time,addr] samples of a plain sampler and the windows ([_kinfos], the last
    one is the current window). *)
Record slot_state := mk_slot {
  sl_ring : ring_buffer;
  sl_drain : drain_state;
  sl_plain : list (Z * Z);
  sl_kinfos : list window_counts;
}.
#[export] Instance eta_slot : Eta slot_state := fun r =>
  mk_slot (sl_ring r) (sl_drain r) (sl_plain r) (sl_kinfos r).

Module RingDrain.

(** [_kinfos.back()] *)
Definition on_back (f : window_counts -> window_counts) (l : list window_counts) : list window_counts :=
  match last l with
  | Some w => take (length l - 1) l ++ [f w]
  | None => l
  end.

Section drain.
Context (pc_present : bool) (module_maps : list module_map_entry) (main_binary_path : text) (tid : Z).

(** A field of the record at [data_tail], read modulo the size of the data area. *)
Definition ring_read (data : list Z) (pos : Z) (n : nat) : option Z :=
  read_le data (u64 pos mod zlen data) n.

(** The [switch (header->type)] for the record at [data_tail].  The 32 bytes of the
    [sample_id] of an AUX record are copied in one piece from where they start, so
    the copy leaves the data area when they cross its end; nothing of them is
    used. *)
Definition record_step (st : slot_state) (data_tail type : Z) : option slot_state :=
  let data := rb_data (sl_ring st) in
  if type =? PERF_RECORD_SAMPLE then
    let base := data_tail + 8 in
    time ← ring_read data (base + 8) 8;
    addr ← ring_read data (base + 16) 8;
    Some (st ⟦ sl_plain ::= fun f => f ++ [(time, addr)] ⟧
             ⟦ sl_drain ::= fun d => d ⟦ ds_written_sample_bytes ::= fun n => u64 (n + 16) ⟧
                                       ⟦ ds_num_samples ::= inc64 ⟧ ⟧)
  else if type =? PERF_RECORD_THROTTLE then
    Some (st ⟦ sl_kinfos ::= on_back (fun w => w ⟦ wc_sample_throttles ::= inc64 ⟧) ⟧)
  else if type =? PERF_RECORD_UNTHROTTLE then Some st
  else if type =? PERF_RECORD_ITRACE_START then Some st
  else if type =? PERF_RECORD_AUX then
    aux_offset ← ring_read data (data_tail + 8) 8;
    aux_size ← ring_read data (data_tail + 16) 8;
    flags ← ring_read data (data_tail + 24) 8;
    _ ← ring_read data (data_tail + 32) 32;
    let st := if has_flag flags PERF_AUX_FLAG_COLLISION
              then st ⟦ sl_kinfos ::= on_back (fun w => w ⟦ wc_sample_throttles ::= inc64 ⟧) ⟧ else st in
    if negb (flags =? PERF_AUX_FLAG_TRUNCATED) then
      d ← decode_aux pc_present module_maps main_binary_path tid (rb_aux (sl_ring st)) aux_offset aux_size (sl_drain st);
      Some (st ⟦ sl_drain := d ⟧
               ⟦ sl_ring ::= fun r => r ⟦ rb_aux_tail ::= fun t => u64 (t + aux_size) ⟧ ⟧)
    else Some st
  else Some st.

(** [while (data_tail < data_head)]; a record of size 0 would keep the loop
    running for ever, which the model reports as [None] when its fuel, one unit
    per byte, is used up. *)
Fixpoint record_loop (fuel : nat) (data_head data_tail : Z) (st : slot_state) : option (slot_state * Z) :=
  if data_tail <? data_head then
    match fuel with
    | O => None
    | S fuel' =>
        type ← ring_read (rb_data (sl_ring st)) data_tail 4;
        size ← ring_read (rb_data (sl_ring st)) (data_tail + 6) 2;
        st' ← record_step st data_tail type;
        record_loop fuel' data_head (u64 (data_tail + size)) st'
    end
  else Some (st, data_tail).

(** [has_writer]: the thread is known and has a writer for the slot. *)
Definition process_samples_locked (has_writer : bool) (st : slot_state) : option (slot_state * result Z) :=
  let data_head := rb_data_head (sl_ring st) in
  let data_tail := rb_data_tail (sl_ring st) in
  match sl_kinfos st with
  | [] => Some (st ⟦ sl_ring ::= fun r => r ⟦ rb_data_tail := data_head ⟧ ⟧, Ok 0)
  | _ =>
      if data_head =? data_tail then Some (st, Ok 0) else
      if negb has_writer then Some (st, Throw (txt "writer missing for sampler slot")) else
      '(st, data_tail) ← record_loop (Z.to_nat (data_head - data_tail)) data_head data_tail
         (st ⟦ sl_drain ::= fun d => d ⟦ ds_num_samples := 0 ⟧ ⟧);
      if negb (data_head =? data_tail) then Some (st, Throw (txt "corrupted samples mapping")) else
      let num_samples := ds_num_samples (sl_drain st) in
      Some (st ⟦ sl_ring ::= fun r => r ⟦ rb_data_tail := data_tail ⟧ ⟧
               ⟦ sl_kinfos ::= on_back (fun w => w ⟦ wc_num_samples ::= fun n => u64 (n + num_samples) ⟧) ⟧,
            Ok num_samples)
  end.

(** A drain keeps the number of windows. *)
Lemma length_on_back f l : length (on_back f l) = length l.
Proof.
  unfold on_back; destruct (last l) as [w|] eqn:E; [|done].
  rewrite length_app, length_take; cbn; destruct l; [done|cbn; lia].
Qed.

Lemma record_step_windows st tail type st' :
  record_step st tail type = Some st' -> length (sl_kinfos st') = length (sl_kinfos st).
Proof.
  unfold record_step; intros H; repeat (case_match; simplify_option_eq; cbn; rewrite ?length_on_back; try done).
Qed.

Lemma record_loop_windows fuel head : forall tail st st' tail',
  record_loop fuel head tail st = Some (st', tail') -> length (sl_kinfos st') = length (sl_kinfos st).
Proof.
  induction fuel as [|fuel IH]; intros tail st st' tail' H; cbn [record_loop] in H; destruct (tail <? head); simplify_option_eq; [done|..|done].
  match goal with E : record_step _ _ _ = Some ?x, H : record_loop _ _ _ ?x = _ |- _ =>
    apply record_step_windows in E; apply IH in H; congruence end.
Qed.

Lemma process_samples_windows has_writer st st' r :
  process_samples_locked has_writer st = Some (st', r) -> length (sl_kinfos st') = length (sl_kinfos st).
Proof.
  unfold process_samples_locked; intros H; destruct (sl_kinfos st) as [|k ks] eqn:Ek; [by simplify_eq; cbn; rewrite Ek|].
  destruct (_ =? _); [by simplify_eq; rewrite Ek|]; destruct has_writer; cbn [negb] in H; [|by simplify_eq; rewrite Ek].
  destruct (record_loop _ _ _ _) as [[st1 t1]|] eqn:E; [|done]; apply record_loop_windows in E; cbn in E, H; rewrite Ek in E.
  destruct (_ =? _); cbn [negb] in H; simplify_eq; cbn; rewrite ?length_on_back; done.
Qed.

End drain.

(** * Records of the ring *)

Inductive perf_record :=
| RSample (pid_tid time addr : Z)
| RThrottle (words : list Z)
| RUnthrottle (words : list Z)
| RItraceStart (words : list Z)
| RAux (off size flags : Z) (sample_id : list Z) (ps : list packet).

Definition record_type (r : perf_record) : Z :=
  match r with
  | RSample _ _ _ => PERF_RECORD_SAMPLE | RThrottle _ => PERF_RECORD_THROTTLE
  | RUnthrottle _ => PERF_RECORD_UNTHROTTLE | RItraceStart _ => PERF_RECORD_ITRACE_START
  | RAux _ _ _ _ _ => PERF_RECORD_AUX
  end.
Definition record_words (r : perf_record) : list Z :=
  match r with
  | RSample p t a => [p; t; a]
  | RThrottle ws | RUnthrottle ws | RItraceStart ws => ws
  | RAux off size flags ws _ => off :: size :: flags :: ws
  end.
Definition record_size (r : perf_record) : Z := 8 * (1 + zlen (record_words r)).
(** [struct perf_event_header] and the payload words, little-endian. *)
Definition encode_record (r : perf_record) : list Z :=
  le_bytes 4 (record_type r) ++ le_bytes 2 0 ++ le_bytes 2 (record_size r) ++
  concat (le_bytes 8 <$> record_words r).

(** The AUX range of a record that is decoded holds its packets.  A record whose
    flags are exactly TRUNCATED is not decoded. *)
Definition ring_record_wf (aux : list Z) (r : perf_record) : Prop :=
  Forall (fun w => is_u64 w) (record_words r) /\ record_size r < 65536 /\
  match r with
  | RAux off size flags _ ps =>
      flags <> PERF_AUX_FLAG_TRUNCATED -> Forall packet_wf ps /\ size = packet_bytes ps /\ aux_holds aux off ps /\
        off + size < 18446744073709551616
  | _ => True
  end.

(** The 32 bytes behind the three words of an AUX record at [tail] do not cross
    the end of the data area. *)
Definition sample_id_inside (size tail : Z) (r : perf_record) : Prop :=
  match r with RAux _ _ _ _ _ => (tail + 32) mod size + 32 <= size | _ => True end.
Fixpoint sample_ids_inside (size tail : Z) (recs : list perf_record) : Prop :=
  match recs with
  | [] => True
  | r :: recs => sample_id_inside size tail r /\ sample_ids_inside size (tail + record_size r) recs
  end.

(** The data area holds [bytes] from index [tail] on, wrapping at its end. *)
Definition ring_holds (data : list Z) (tail : Z) (bytes : list Z) : Prop :=
  forall k : nat, (k < length bytes)%nat ->
    data !! Z.to_nat ((tail + Z.of_nat k) mod zlen data) = bytes !! k.

Lemma ring_read_word data tail bytes (k : Z) n :
  ring_holds data tail bytes -> zlen data mod 8 = 0 -> 0 < zlen data -> tail mod 8 = 0 ->
  0 <= tail -> 0 <= k -> k mod 8 + Z.of_nat n <= 8 -> k + Z.of_nat n <= zlen bytes ->
  tail + k < 18446744073709551616 ->
  ring_read data (tail + k) n = Some (le_value (take n (drop (Z.to_nat k) bytes))).
Proof.
  intros Hh H8 Hpos Ht Ht0 Hk Hn Hb Hov; unfold ring_read; rewrite u64_id by lia.
  set (q := (tail + k) mod zlen data).
  pose proof (Z.mod_pos_bound (tail + k) (zlen data) Hpos) as Hq; fold q in Hq.
  assert (Hq8 : q mod 8 = k mod 8).
  { unfold q; rewrite (Z.mod_eq (tail + k) (zlen data)) by lia.
    replace (zlen data) with (8 * (zlen data / 8)) at 1 by (pose proof (Z_div_mod_eq_full (zlen data) 8); lia).
    rewrite Zminus_mod, <- Z.mul_assoc, (Z.mul_comm 8), Z.mod_mul, Z.sub_0_r, Z.mod_mod by lia.
    rewrite Zplus_mod, Ht, Z.add_0_l, Z.mod_mod; lia. }
  assert (Hqn : q + Z.of_nat n <= zlen data).
  { pose proof (Z_div_mod_eq_full q 8); pose proof (Z_div_mod_eq_full (zlen data) 8).
    pose proof (Z.mod_pos_bound q 8 ltac:(lia)); lia. }
  unfold read_le; rewrite (proj2 (Z.leb_le 0 q)), (proj2 (Z.leb_le (q + _) _)) by lia; cbn [andb].
  do 2 f_equal; apply list_eq_same_length with (n := n).
  - rewrite length_take, length_drop; lia.
  - rewrite length_take, length_drop; lia.
  - intros i x y Hi; rewrite !lookup_take_lt, !lookup_drop by lia.
    specialize (Hh (Z.to_nat k + i)%nat ltac:(lia)).
    assert (Hmod : (tail + Z.of_nat (Z.to_nat k + i)) mod zlen data = q + Z.of_nat i).
    { replace (tail + Z.of_nat (Z.to_nat k + i)) with ((tail + k) + Z.of_nat i) by lia.
      rewrite Z.add_mod by lia; fold q; rewrite (Z.mod_small (Z.of_nat i)) by lia; apply Z.mod_small; lia. }
    rewrite Hmod in Hh; replace (Z.to_nat q + i)%nat with (Z.to_nat (q + Z.of_nat i)) by lia.
    rewrite Hh; intros; congruence.
Qed.

Lemma ring_holds_app data tail b1 b2 :
  ring_holds data tail (b1 ++ b2) -> ring_holds data tail b1 /\ ring_holds data (tail + zlen b1) b2.
Proof.
  intros H; split; intros k Hk.
  - rewrite H by (rewrite length_app; lia); by rewrite lookup_app_l.
  - specialize (H (length b1 + k)%nat ltac:(rewrite length_app; lia)).
    rewrite lookup_app_r in H by lia; replace (length b1 + k - length b1)%nat with k in H by lia.
    rewrite <- H; by replace (tail + zlen b1 + Z.of_nat k) with (tail + Z.of_nat (length b1 + k)) by lia.
Qed.

Lemma length_encode_record r : zlen (encode_record r) = record_size r.
Proof.
  unfold encode_record, record_size; rewrite !length_app, !length_le_bytes.
  assert (H : forall ws, length (concat (le_bytes 8 <$> ws)) = (8 * length ws)%nat).
  { intros ws; induction ws as [|w ws IH]; [done|]; cbn [fmap list_fmap concat].
    rewrite length_app, length_le_bytes; cbn [length]; rewrite IH; lia. }
  rewrite H; lia.
Qed.

Lemma drop_words ws j w rest :
  ws !! j = Some w -> take 8 (drop (8 * j) (concat (le_bytes 8 <$> ws) ++ rest)) = le_bytes 8 w.
Proof.
  revert j; induction ws as [|x ws IH]; intros [|j] Hw; try done; cbn [fmap list_fmap concat].
  - injection Hw as ->; rewrite <- app_assoc, Nat.mul_0_r, drop_0.
    replace 8%nat with (length (le_bytes 8 w)) at 1 by apply length_le_bytes; apply take_app_length.
  - rewrite <- app_assoc, drop_app_ge by (rewrite length_le_bytes; lia); rewrite length_le_bytes.
    replace (8 * S j - 8)%nat with (8 * j)%nat by lia; by apply IH.
Qed.

Section reads.
Context (data : list Z) (tail : Z) (r : perf_record) (rest : list Z).
Hypothesis Hh : ring_holds data tail (encode_record r ++ rest).
Hypothesis H8 : zlen data mod 8 = 0.
Hypothesis Hpos : 0 < zlen data.
Hypothesis Ht8 : tail mod 8 = 0.
Hypothesis Ht0 : 0 <= tail.
Hypothesis Hov : tail + record_size r < 18446744073709551616.
Hypothesis Hw : Forall (fun w => is_u64 w) (record_words r).
Hypothesis Hsz : record_size r < 65536.

Lemma header_room : 8 <= record_size r.
Proof. unfold record_size; lia. Qed.

Lemma read_type : ring_read data tail 4 = Some (record_type r).
Proof.
  pose proof header_room as Hroom; pose proof (length_encode_record r) as Hl.
  replace tail with (tail + 0) by lia.
  rewrite (ring_read_word data tail (encode_record r ++ rest)) by (try done; rewrite ?length_app; lia).
  rewrite drop_0; unfold encode_record; rewrite <- app_assoc.
  replace 4%nat with (length (le_bytes 4 (record_type r))) at 1 by apply length_le_bytes.
  rewrite take_app_length, le_value_bytes; [done|]; destruct r; vm_compute; intuition congruence.
Qed.

Lemma read_size : ring_read data (tail + 6) 2 = Some (record_size r).
Proof.
  pose proof header_room as Hroom; pose proof (length_encode_record r) as Hl.
  rewrite (ring_read_word data tail (encode_record r ++ rest))
    by (try done; rewrite ?length_app; change (6 mod 8) with 6; lia).
  unfold encode_record; rewrite <- !app_assoc; rewrite (app_assoc (le_bytes 4 _)).
  rewrite drop_app_length' by (by rewrite length_app, !length_le_bytes).
  rewrite take_app_length' by (by rewrite length_le_bytes).
  rewrite le_value_bytes; [done|]; change (256 ^ Z.of_nat 2) with 65536; lia.
Qed.

Lemma read_word j w : record_words r !! j = Some w -> ring_read data (tail + 8 * (Z.of_nat j + 1)) 8 = Some w.
Proof.
  intros Hj; pose proof (lookup_lt_Some _ _ _ Hj) as Hlt; pose proof (length_encode_record r) as Hl.
  assert (Hin : 8 * (Z.of_nat j + 1) + 8 <= record_size r) by (unfold record_size; lia).
  rewrite (ring_read_word data tail (encode_record r ++ rest)); try done; try lia.
  2: { rewrite Z.mul_comm, Z.mod_mul; lia. }
  2: { rewrite length_app; lia. }
  unfold encode_record; rewrite <- !app_assoc.
  rewrite (app_assoc (le_bytes 4 _)), (app_assoc (le_bytes 4 _ ++ _)).
  rewrite drop_app_ge by (rewrite !length_app, !length_le_bytes; lia).
  rewrite !length_app, !length_le_bytes.
  replace (Z.to_nat (8 * (Z.of_nat j + 1)) - (4 + 2 + 2))%nat with (8 * j)%nat by lia.
  rewrite (drop_words _ _ _ _ Hj), le_value_bytes; [done|].
  change (256 ^ Z.of_nat 8) with 18446744073709551616; eapply Forall_lookup_1 in Hw; eauto.
Qed.

End reads.

(** * The effect of a drain *)

Record effect := mk_effect {
  e_plain : list (Z * Z);
  e_packets : list packet;
  e_throttles : Z;
  e_aux : Z;
}.
Definition no_effect : effect := mk_effect [] [] 0 0.
Definition eff_app (a b : effect) : effect :=
  mk_effect (e_plain a ++ e_plain b) (e_packets a ++ e_packets b) (e_throttles a + e_throttles b) (e_aux a + e_aux b).

(** What one record stands for: a plain sample, a throttle count, or the packets
    and the space of an AUX range. *)
Definition record_effect (r : perf_record) : effect :=
  match r with
  | RSample _ t a => mk_effect [(t, a)] [] 0 0
  | RThrottle _ => mk_effect [] [] 1 0
  | RUnthrottle _ | RItraceStart _ => no_effect
  | RAux _ size flags _ ps =>
      if flags =? PERF_AUX_FLAG_TRUNCATED then no_effect
      else mk_effect [] ps (if Z.testbit flags 3 then 1 else 0) size
  end.
Definition records_effect (recs : list perf_record) : effect :=
  foldr (fun r e => eff_app (record_effect r) e) no_effect recs.

Section effects.
Context (pc_present : bool) (module_maps : list module_map_entry) (main_binary_path : text) (tid : Z).

(** [st'] is [st] after the effect [e], with [open] the packets of a group that
    was open before; the ring's indices and the number of samples of the window are
    not touched yet. *)
Record drained (open : list packet) (e : effect) (st st' : slot_state) : Prop := {
  dr_pending : ds_pending (sl_drain st') = collected (groups open (e_packets e)).2;
  dr_file : ds_file (sl_drain st') = ds_file (sl_drain st) ++ samples (groups open (e_packets e)).1;
  dr_plain : sl_plain st' = sl_plain st ++ e_plain e;
  dr_num : ds_num_samples (sl_drain st') ≡₆₄
    ds_num_samples (sl_drain st) + zlen (e_plain e) + zlen (samples (groups open (e_packets e)).1);
  dr_bytes : ds_written_sample_bytes (sl_drain st') ≡₆₄
    ds_written_sample_bytes (sl_drain st) + 16 * zlen (e_plain e) + 56 * zlen (samples (groups open (e_packets e)).1);
  dr_hot : ds_hot (sl_drain st') =
    record_all pc_present module_maps main_binary_path (pair tid <$> samples (groups open (e_packets e)).1)
      (ds_hot (sl_drain st));
  dr_kinfos : forall ks w, sl_kinfos st = ks ++ [w] -> exists w', sl_kinfos st' = ks ++ [w'] /\
    wc_num_samples w' = wc_num_samples w /\
    wc_sample_throttles w' ≡₆₄ wc_sample_throttles w + e_throttles e;
  dr_aux_tail : rb_aux_tail (sl_ring st') ≡₆₄ rb_aux_tail (sl_ring st) + e_aux e;
  dr_ring : rb_data (sl_ring st') = rb_data (sl_ring st) /\ rb_aux (sl_ring st') = rb_aux (sl_ring st) /\
    rb_data_head (sl_ring st') = rb_data_head (sl_ring st) /\ rb_data_tail (sl_ring st') = rb_data_tail (sl_ring st);
}.

Lemma drained_trans open e1 e2 st st1 st2 :
  drained open e1 st st1 -> drained (groups open (e_packets e1)).2 e2 st1 st2 -> drained open (eff_app e1 e2) st st2.
Proof.
  intros [A1 A2 A3 A4 A5 A6 A7 A8 A9] [B1 B2 B3 B4 B5 B6 B7 B8 B9]; split; cbn [eff_app e_plain e_packets e_throttles e_aux].
  1,2,4,5,6: rewrite groups_app; destruct (groups open (e_packets e1)) as [g1 r1]; cbn [fst snd] in *;
    destruct (groups r1 (e_packets e2)) as [g2 r2]; cbn [fst snd] in *; unfold samples in *;
    rewrite ?omap_app, ?fmap_app, ?length_app.
  - done.
  - by rewrite B2, A2, <- app_assoc.
  - rewrite B4, A4; apply eqm64_of_eq; lia.
  - rewrite B5, A5; apply eqm64_of_eq; lia.
  - rewrite B6, A6; symmetry; apply foldl_app.
  - by rewrite B3, A3, <- app_assoc.
  - intros ks w Hk; destruct (A7 ks w Hk) as (w1 & Hk1 & N1 & T1); destruct (B7 ks w1 Hk1) as (w2 & Hk2 & N2 & T2).
    exists w2; split; [done|]; split; [congruence|]; rewrite T2, T1; apply eqm64_of_eq; lia.
  - rewrite B8, A8; apply eqm64_of_eq; lia.
  - destruct A9 as (? & ? & ? & ?), B9 as (? & ? & ? & ?); split_and!; congruence.
Qed.

Lemma drained_refl open st : ds_pending (sl_drain st) = collected open -> drained open no_effect st st.
Proof.
  intros Hp; split; cbn; rewrite ?app_nil_r; try done; try (apply eqm64_of_eq; lia).
  intros ks w Hk; exists w; split_and!; try done; apply eqm64_of_eq; lia.
Qed.

Lemma on_back_snoc f ks w : on_back f (ks ++ [w]) = ks ++ [f w].
Proof.
  unfold on_back; rewrite last_snoc, length_app; cbn [length].
  replace (length ks + 1 - 1)%nat with (length ks) by lia; by rewrite take_app_length.
Qed.

Lemma drained_throttle open st :
  ds_pending (sl_drain st) = collected open ->
  drained open (mk_effect [] [] 1 0) st
    (st ⟦ sl_kinfos ::= on_back (fun w => w ⟦ wc_sample_throttles ::= inc64 ⟧) ⟧).
Proof.
  intros Hp; split; cbn; rewrite ?app_nil_r; try done; try (apply eqm64_of_eq; lia).
  intros ks w ->; rewrite on_back_snoc; eexists; split_and!; [done..|]; cbn; apply inc64_eqm.
Qed.

Lemma drained_aux open st d ps n :
  decoded pc_present module_maps main_binary_path tid open ps (sl_drain st) d ->
  drained open (mk_effect [] ps 0 n) st
    (st ⟦ sl_drain := d ⟧ ⟦ sl_ring ::= fun r => r ⟦ rb_aux_tail ::= fun t => u64 (t + n) ⟧ ⟧).
Proof.
  intros [W1 W2 W3 W4 W5 _ _ _ _]; split; cbn; rewrite ?app_nil_r; try done.
  - rewrite W3; apply eqm64_of_eq; lia.
  - rewrite W4; apply eqm64_of_eq; lia.
  - intros ks w ->; exists w; split_and!; try done; apply eqm64_of_eq; lia.
  - apply u64_eqm.
Qed.

Lemma drained_open open e st st' :
  drained open e st st' -> Forall packet_wf open -> Forall packet_wf (e_packets e) ->
  ds_pending (sl_drain st') = collected (groups open (e_packets e)).2 /\ Forall packet_wf (groups open (e_packets e)).2.
Proof. intros D Ho He; split; [apply D|by apply groups_open_wf]. Qed.

Lemma record_effect_wf aux r : ring_record_wf aux r -> Forall packet_wf (e_packets (record_effect r)).
Proof.
  intros (_ & _ & H); destruct r as [| | | |off size flags ws ps]; cbn; try apply Forall_nil_2.
  destruct (flags =? PERF_AUX_FLAG_TRUNCATED) eqn:E; [apply Forall_nil_2|]; apply H; lia.
Qed.

Lemma sample_id_read data tail r :
  0 < zlen data -> 0 <= tail -> tail + 32 < 18446744073709551616 ->
  sample_id_inside (zlen data) tail r -> record_type r = PERF_RECORD_AUX -> is_Some (ring_read data (tail + 32) 32).
Proof.
  intros Hpos Ht Hov Hin Hr; destruct r; try discriminate; cbn in Hin; unfold ring_read, read_le; rewrite u64_id by lia.
  pose proof (Z.mod_pos_bound (tail + 32) (zlen data) Hpos).
  rewrite (proj2 (Z.leb_le 0 _)), (proj2 (Z.leb_le (_ + _) _)) by lia; by eexists.
Qed.

Abbreviation step := (record_step pc_present module_maps main_binary_path tid).

Lemma has_collision flags : has_flag flags PERF_AUX_FLAG_COLLISION = Z.testbit flags 3.
Proof. by apply (has_flag_bit flags 3). Qed.

Lemma step_effect open st tail r rest :
  ring_holds (rb_data (sl_ring st)) tail (encode_record r ++ rest) ->
  zlen (rb_data (sl_ring st)) mod 8 = 0 -> 0 < zlen (rb_data (sl_ring st)) -> tail mod 8 = 0 -> 0 <= tail ->
  tail + record_size r < 18446744073709551616 ->
  ring_record_wf (rb_aux (sl_ring st)) r -> sample_id_inside (zlen (rb_data (sl_ring st))) tail r ->
  Forall packet_wf open -> ds_pending (sl_drain st) = collected open ->
  exists st', step st tail (record_type r) = Some st' /\ drained open (record_effect r) st st'.
Proof.
  intros Hh H8 Hpos Ht8 Ht0 Hov (Hw & Hsz & Hr) Hin Ho Hp.
  pose proof (read_word _ _ _ _ Hh H8 Hpos Ht8 Ht0 Hov Hw) as Hread.
  destruct r as [p t a|ws|ws|ws|off size flags ws ps]; unfold record_step; cbn [record_type record_effect].
  - change (PERF_RECORD_SAMPLE =? PERF_RECORD_SAMPLE) with true; cbn iota zeta.
    replace (tail + 8 + 8) with (tail + 8 * (Z.of_nat 1 + 1)) by lia.
    replace (tail + 8 + 16) with (tail + 8 * (Z.of_nat 2 + 1)) by lia.
    rewrite (Hread 1%nat t eq_refl), some_bind, (Hread 2%nat a eq_refl), some_bind.
    eexists; split; [done|]; split; cbn; rewrite ?app_nil_r; try done; try (apply eqm64_of_eq; lia).
    + rewrite inc64_eqm; apply eqm64_of_eq; lia.
    + rewrite u64_eqm; apply eqm64_of_eq; lia.
    + intros ks w ->; exists w; split_and!; try done; apply eqm64_of_eq; lia.
  - eexists; split; [reflexivity|]; by apply drained_throttle.
  - eexists; split; [reflexivity|]; by apply drained_refl.
  - eexists; split; [reflexivity|]; by apply drained_refl.
  - change (PERF_RECORD_AUX =? PERF_RECORD_SAMPLE) with false; change (PERF_RECORD_AUX =? PERF_RECORD_THROTTLE) with false;
      change (PERF_RECORD_AUX =? PERF_RECORD_UNTHROTTLE) with false;
      change (PERF_RECORD_AUX =? PERF_RECORD_ITRACE_START) with false;
      change (PERF_RECORD_AUX =? PERF_RECORD_AUX) with true; cbn iota.
    replace (tail + 8) with (tail + 8 * (Z.of_nat 0 + 1)) by lia.
    replace (tail + 16) with (tail + 8 * (Z.of_nat 1 + 1)) by lia.
    replace (tail + 24) with (tail + 8 * (Z.of_nat 2 + 1)) by lia.
    rewrite (Hread 0%nat off eq_refl), some_bind, (Hread 1%nat size eq_refl), some_bind,
      (Hread 2%nat flags eq_refl), some_bind.
    destruct (sample_id_read _ _ _ Hpos Ht0 ltac:(unfold record_size in Hov; cbn in Hov; lia) Hin eq_refl) as [sid ->].
    rewrite some_bind; cbn zeta.
    destruct (flags =? PERF_AUX_FLAG_TRUNCATED) eqn:Ef; cbn [negb].
    + apply Z.eqb_eq in Ef as ->; exists st; split; [reflexivity|by apply drained_refl].
    + destruct Hr as (Hps & -> & Hat & Hoff); [lia|]; rewrite has_collision.
      set (st1 := if Z.testbit flags 3 then _ else st).
      assert (H1 : drained open (mk_effect [] [] (if Z.testbit flags 3 then 1 else 0) 0) st st1).
      { unfold st1; destruct (Z.testbit flags 3); [by apply drained_throttle|by apply drained_refl]. }
      destruct (drained_open _ _ _ _ H1 Ho (Forall_nil_2 _)) as [Hp1 Ho1].
      pose proof H1 as [_ _ _ _ _ _ _ _ (_ & D2 & _)]; rewrite D2.
      destruct (decode_packets pc_present module_maps main_binary_path tid (rb_aux (sl_ring st)) off ps open (sl_drain st1))
        as (d & Hd & Hall); try done; [inversion Hw; lia|].
      rewrite Hd, some_bind; eexists; split; [done|].
      pose proof (drained_trans _ _ _ _ _ _ H1 (drained_aux open st1 d ps (packet_bytes ps) Hall)) as D.
      unfold eff_app in D; cbn [e_plain e_packets e_throttles e_aux app] in D; rewrite Z.add_0_r in D; exact D.
Qed.

Definition total_size (recs : list perf_record) : Z := zlen (concat (encode_record <$> recs)).

Lemma loop_effect recs : forall open fuel st tail head,
  ring_holds (rb_data (sl_ring st)) tail (concat (encode_record <$> recs)) ->
  zlen (rb_data (sl_ring st)) mod 8 = 0 -> 0 < zlen (rb_data (sl_ring st)) -> tail mod 8 = 0 -> 0 <= tail ->
  head = tail + total_size recs -> head < 18446744073709551616 -> total_size recs <= Z.of_nat fuel ->
  Forall (ring_record_wf (rb_aux (sl_ring st))) recs -> sample_ids_inside (zlen (rb_data (sl_ring st))) tail recs ->
  Forall packet_wf open -> ds_pending (sl_drain st) = collected open ->
  exists st', record_loop pc_present module_maps main_binary_path tid fuel head tail st = Some (st', head) /\
    drained open (records_effect recs) st st'.
Proof.
  induction recs as [|r recs IH]; intros open fuel st tail head Hh H8 Hpos Ht8 Ht0 -> Hov Hf Hwf Hin Ho Hp.
  - exists st; split; [|by apply drained_refl]; change (total_size []) with 0; rewrite Z.add_0_r.
    destruct fuel; cbn [record_loop]; by rewrite Z.ltb_irrefl.
  - inversion Hwf as [|? ? Hr Hrs]; subst; pose proof Hr as (Hw & Hsz & _); destruct Hin as [Hin Hins].
    pose proof (length_encode_record r) as Hlen.
    assert (Htot : total_size (r :: recs) = record_size r + total_size recs).
    { unfold total_size; cbn [fmap list_fmap concat]; rewrite length_app; lia. }
    assert (Hroom : 8 <= record_size r) by (unfold record_size; lia).
    assert (Hnn : 0 <= total_size recs) by (unfold total_size; lia).
    cbn [fmap list_fmap concat] in Hh; pose proof (ring_holds_app _ _ _ _ Hh) as [_ Hrest].
    rewrite Hlen in Hrest.
    destruct fuel as [|fuel]; [lia|]; cbn [record_loop].
    destruct (tail <? _) eqn:E; [|lia].
    rewrite (read_type _ _ _ _ Hh H8 Hpos Ht8 Ht0) by (done || lia); rewrite some_bind.
    rewrite (read_size _ _ _ _ Hh H8 Hpos Ht8 Ht0) by lia; rewrite some_bind.
    destruct (step_effect open st tail r _ Hh H8 Hpos Ht8 Ht0 ltac:(lia) Hr Hin Ho Hp) as (st1 & -> & Hd); rewrite some_bind.
    pose proof (dr_ring _ _ _ _ Hd) as (R1 & R2 & _).
    destruct (drained_open _ _ _ _ Hd Ho (record_effect_wf _ _ Hr)) as [Hp1 Ho1]; rewrite u64_id by lia.
    destruct (IH (groups open (e_packets (record_effect r))).2 fuel st1 (tail + record_size r) (tail + total_size (r :: recs)))
      as (st' & Hl & Hd'); rewrite ?R1, ?R2; try done; try lia.
    + unfold record_size; rewrite Z.mul_comm, Z.mod_add by lia; done.
    + exists st'; split; [exact Hl|]; exact (drained_trans _ _ _ _ _ _ Hd Hd').
Qed.

(** C25. When a window is open and the ring holds a sequence of perf records
    (plain samples, throttle records, AUX records with SPE packets), wrapped
    around the end of the data area or not, one drain terminates and consumes all
    of them.  Every plain sample is appended to its file in ring order.  The
    packets of the AUX records whose flags are not exactly TRUNCATED are decoded
    in ring order, continuing the group [open] that an earlier drain left: a
    sample is appended for every group that is closed and has a program counter,
    and the hotspot table receives it; the group that is not closed stays pending.
    The window's sample and throttle counters grow by the numbers of samples and
    throttled records, the data tail reaches the head, and the AUX tail advances
    by the sizes of the records that were decoded (not by those of the TRUNCATED
    ones).  Conditions on the buffers: no packet crosses the end of the AUX area,
    and no [sample_id] of an AUX record crosses the end of the data area, where
    the code reads past it. *)
Theorem ring_drain_complete (st : slot_state) (recs : list perf_record) (open : list packet)
    (ks : list window_counts) (w : window_counts)
    (Hk : sl_kinfos st = ks ++ [w]) (Hne : recs <> [])
    (Hdata : ring_holds (rb_data (sl_ring st)) (rb_data_tail (sl_ring st)) (concat (encode_record <$> recs)))
    (Hsize : zlen (rb_data (sl_ring st)) mod 8 = 0 /\ 0 < zlen (rb_data (sl_ring st)))
    (Htail : rb_data_tail (sl_ring st) mod 8 = 0 /\ 0 <= rb_data_tail (sl_ring st))
    (Hhead : rb_data_head (sl_ring st) = rb_data_tail (sl_ring st) + total_size recs)
    (Hov : rb_data_head (sl_ring st) < 18446744073709551616)
    (Hwf : Forall (ring_record_wf (rb_aux (sl_ring st))) recs)
    (Hin : sample_ids_inside (zlen (rb_data (sl_ring st))) (rb_data_tail (sl_ring st)) recs)
    (Hopen : Forall packet_wf open) (Hp : ds_pending (sl_drain st) = collected open) :
  let e := records_effect recs in
  let written := samples (groups open (e_packets e)).1 in
  exists st' n w', process_samples_locked pc_present module_maps main_binary_path tid true st = Some (st', Ok n) /\
    n ≡₆₄ zlen (e_plain e) + zlen written /\
    sl_plain st' = sl_plain st ++ e_plain e /\
    ds_file (sl_drain st') = ds_file (sl_drain st) ++ written /\
    ds_pending (sl_drain st') = collected (groups open (e_packets e)).2 /\
    ds_hot (sl_drain st') =
      record_all pc_present module_maps main_binary_path (pair tid <$> written) (ds_hot (sl_drain st)) /\
    sl_kinfos st' = ks ++ [w'] /\
    wc_num_samples w' ≡₆₄ wc_num_samples w + zlen (e_plain e) + zlen written /\
    wc_sample_throttles w' ≡₆₄ wc_sample_throttles w + e_throttles e /\
    rb_data_tail (sl_ring st') = rb_data_head (sl_ring st) /\
    rb_aux_tail (sl_ring st') ≡₆₄ rb_aux_tail (sl_ring st) + e_aux e.
Proof.
  destruct Hsize as [H8 Hpos], Htail as [Ht8 Ht0]; intros e written.
  assert (Hgt : 0 < total_size recs).
  { destruct recs as [|r recs]; [done|]; unfold total_size; cbn [fmap list_fmap concat]; rewrite length_app.
    pose proof (length_encode_record r); unfold record_size in *; lia. }
  set (st0 := st ⟦ sl_drain ::= fun d => d ⟦ ds_num_samples := 0 ⟧ ⟧).
  destruct (loop_effect recs open (Z.to_nat (rb_data_head (sl_ring st) - rb_data_tail (sl_ring st))) st0
    (rb_data_tail (sl_ring st)) (rb_data_head (sl_ring st))) as (st1 & Hl & Hd); try done; [lia|].
  unfold process_samples_locked; rewrite Hk.
  destruct (ks ++ [w]) as [|k0 kt] eqn:Ekw; [by destruct ks|].
  destruct (_ =? _) eqn:E; [lia|]; cbn [negb]; fold st0; rewrite Hl, some_bind, Z.eqb_refl; cbn [negb].
  destruct Hd as [D1 D2 D3 D4 D5 D6 D7 D8 (D9 & D10 & D11 & D12)].
  destruct (D7 ks w) as (w1 & Hk1 & N1 & T1); [by cbn; rewrite Hk|].
  eexists _, _, _; split; [reflexivity|]; cbn.
  assert (Hn : ds_num_samples (sl_drain st1) ≡₆₄ zlen (e_plain e) + zlen written) by exact D4.
  rewrite Hk1, on_back_snoc; split_and!; [exact Hn|exact D3|exact D2|exact D1|exact D6|reflexivity|..|done|exact D8].
  - cbn; rewrite u64_eqm, N1, Hn; apply eqm64_of_eq; lia.
  - cbn; exact T1.
Qed.

(** The [sample_id] of an AUX record that crosses the end of the data area is
    read past it. *)
Theorem wrapped_sample_id_overruns (st : slot_state) (tail off size flags : Z) (sample_id : list Z) (ps : list packet)
    (rest : list Z)
    (Hdata : ring_holds (rb_data (sl_ring st)) tail (encode_record (RAux off size flags sample_id ps) ++ rest))
    (Hsize : zlen (rb_data (sl_ring st)) mod 8 = 0 /\ 0 < zlen (rb_data (sl_ring st)))
    (Htail : tail mod 8 = 0 /\ 0 <= tail /\ tail + record_size (RAux off size flags sample_id ps) < 18446744073709551616)
    (Hw : Forall (fun w => is_u64 w) (record_words (RAux off size flags sample_id ps)))
    (Hout : zlen (rb_data (sl_ring st)) < (tail + 32) mod zlen (rb_data (sl_ring st)) + 32) :
  step st tail PERF_RECORD_AUX = None.
Proof.
  destruct Hsize as [H8 Hpos], Htail as (Ht8 & Ht0 & Hov); unfold record_step; cbn [Z.eqb Pos.eqb].
  pose proof (read_word _ _ _ _ Hdata H8 Hpos Ht8 Ht0 Hov Hw) as Hread.
  change (PERF_RECORD_AUX =? PERF_RECORD_SAMPLE) with false; change (PERF_RECORD_AUX =? PERF_RECORD_THROTTLE) with false;
    change (PERF_RECORD_AUX =? PERF_RECORD_UNTHROTTLE) with false;
    change (PERF_RECORD_AUX =? PERF_RECORD_ITRACE_START) with false; change (PERF_RECORD_AUX =? PERF_RECORD_AUX) with true; cbn iota.
  replace (tail + 8) with (tail + 8 * (Z.of_nat 0 + 1)) by lia.
  replace (tail + 16) with (tail + 8 * (Z.of_nat 1 + 1)) by lia.
  replace (tail + 24) with (tail + 8 * (Z.of_nat 2 + 1)) by lia.
  rewrite (Hread 0%nat off eq_refl), some_bind, (Hread 1%nat size eq_refl), some_bind, (Hread 2%nat flags eq_refl), some_bind.
  unfold ring_read at 1, read_le; rewrite u64_id by (unfold record_size in Hov; cbn in Hov; lia).
  by rewrite (proj2 (Z.leb_gt (_ + _) _)), andb_false_r by lia.
Qed.

(** An AUX record whose flags are exactly "truncated" is consumed from the
    data ring without decoding its packets and without advancing the AUX tail:
    the space it occupies is never handed back to the kernel. *)
Theorem truncated_aux_keeps_space (st : slot_state) (off size : Z) (sample_id : list Z)
    (ks : list window_counts) (w : window_counts)
    (Hk : sl_kinfos st = ks ++ [w])
    (Hdata : ring_holds (rb_data (sl_ring st)) (rb_data_tail (sl_ring st))
      (encode_record (RAux off size PERF_AUX_FLAG_TRUNCATED sample_id [])))
    (Hsize : zlen (rb_data (sl_ring st)) mod 8 = 0 /\ 0 < zlen (rb_data (sl_ring st)))
    (Htail : rb_data_tail (sl_ring st) mod 8 = 0 /\ 0 <= rb_data_tail (sl_ring st))
    (Hhead : rb_data_head (sl_ring st) =
      rb_data_tail (sl_ring st) + record_size (RAux off size PERF_AUX_FLAG_TRUNCATED sample_id []))
    (Hov : rb_data_head (sl_ring st) < 18446744073709551616)
    (Hw : Forall (fun x => is_u64 x) (off :: size :: sample_id))
    (Hsz : record_size (RAux off size PERF_AUX_FLAG_TRUNCATED sample_id []) < 65536)
    (Hin : sample_id_inside (zlen (rb_data (sl_ring st))) (rb_data_tail (sl_ring st))
      (RAux off size PERF_AUX_FLAG_TRUNCATED sample_id [])) :
  exists st', process_samples_locked pc_present module_maps main_binary_path tid true st = Some (st', Ok 0) /\
    rb_data_tail (sl_ring st') = rb_data_head (sl_ring st) /\
    rb_aux_tail (sl_ring st') = rb_aux_tail (sl_ring st) /\
    ds_file (sl_drain st') = ds_file (sl_drain st).
Proof.
  set (r := RAux off size PERF_AUX_FLAG_TRUNCATED sample_id []) in *.
  destruct Hsize as [H8 Hpos], Htail as [Ht8 Ht0]; inversion Hw as [|? ? Ho Hw1]; inversion Hw1 as [|? ? Hs Hws]; subst.
  assert (Hwords : Forall (fun x => is_u64 x) (record_words r)).
  { repeat apply Forall_cons_2; [done|done|unfold PERF_AUX_FLAG_TRUNCATED; lia|done]. }
  rewrite <- (app_nil_r (encode_record r)) in Hdata.
  assert (Hroom : 8 <= record_size r) by (unfold record_size; lia).
  pose proof (read_word _ _ _ _ Hdata H8 Hpos Ht8 Ht0 ltac:(lia) Hwords) as Hread.
  unfold process_samples_locked; rewrite Hk.
  destruct (ks ++ [w]) as [|k0 kt] eqn:Ekw; [by destruct ks|].
  destruct (_ =? _) eqn:E; [lia|]; cbn [negb].
  set (st0 := st ⟦ sl_drain ::= fun d => d ⟦ ds_num_samples := 0 ⟧ ⟧).
  assert (Hl : record_loop pc_present module_maps main_binary_path tid
    (Z.to_nat (rb_data_head (sl_ring st) - rb_data_tail (sl_ring st))) (rb_data_head (sl_ring st))
    (rb_data_tail (sl_ring st)) st0 = Some (st0, rb_data_head (sl_ring st))).
  { destruct (Z.to_nat _) as [|fuel] eqn:Ef; [lia|]; cbn [record_loop].
    destruct (_ <? _) eqn:E2; [|lia].
    change (sl_ring st0) with (sl_ring st).
    rewrite (read_type _ _ _ _ Hdata H8 Hpos Ht8 Ht0) by (done || lia); rewrite some_bind.
    rewrite (read_size _ _ _ _ Hdata H8 Hpos Ht8 Ht0) by lia; rewrite some_bind.
    assert (record_step pc_present module_maps main_binary_path tid st0 (rb_data_tail (sl_ring st)) (record_type r) = Some st0) as ->.
    { unfold record_step; change (sl_ring st0) with (sl_ring st); cbn [record_type r Z.eqb].
      replace (rb_data_tail (sl_ring st) + 8) with (rb_data_tail (sl_ring st) + 8 * (Z.of_nat 0 + 1)) by lia.
      replace (rb_data_tail (sl_ring st) + 16) with (rb_data_tail (sl_ring st) + 8 * (Z.of_nat 1 + 1)) by lia.
      replace (rb_data_tail (sl_ring st) + 24) with (rb_data_tail (sl_ring st) + 8 * (Z.of_nat 2 + 1)) by lia.
      rewrite (Hread 0%nat off eq_refl), some_bind, (Hread 1%nat size eq_refl), some_bind,
        (Hread 2%nat PERF_AUX_FLAG_TRUNCATED eq_refl), some_bind.
      destruct (sample_id_read _ _ r Hpos Ht0 ltac:(unfold record_size in Hhead; cbn in Hhead; lia) Hin eq_refl) as [sid ->].
      reflexivity. }
    rewrite some_bind, u64_id by lia; rewrite <- Hhead.
    destruct fuel; cbn [record_loop]; by rewrite Z.ltb_irrefl. }
  rewrite Hl, some_bind, Z.eqb_refl; cbn [negb].
  eexists; split; [reflexivity|]; done.
Qed.

End effects.

(** * A small ring, wrapped around its end *)

Lemma ring_holds_check data tail bytes :
  forallb (fun k => bool_decide (data !! Z.to_nat ((tail + Z.of_nat k) mod zlen data) = bytes !! k))
    (seq 0 (length bytes)) = true -> ring_holds data tail bytes.
Proof.
  intros H k Hk; rewrite forallb_forall in H.
  specialize (H k ltac:(apply in_seq; lia)); by apply bool_decide_eq_true in H.
Qed.

Definition demo_aux : list Z := concat (encode <$> demo_packets) ++ [0; 0; 0].
Definition demo_aux_record : perf_record := RAux 0 (packet_bytes demo_packets) 0 [1; 2; 3; 4] demo_packets.
Definition demo_recs : list perf_record := [RSample 7 1000 4660; demo_aux_record].
(** The records begin 32 bytes before the end of a data area of 192 bytes. *)
Definition demo_slot (recs : list perf_record) : slot_state :=
  let bytes := concat (encode_record <$> recs) in
  mk_slot (mk_ring (drop 32 bytes ++ replicate (192 - length bytes) 0 ++ take 32 bytes) demo_aux
      (160 + zlen bytes) 160 0) demo_drain [] [mk_window 5 1].
Definition demo_sample : spe_instruction_sample := mk_sample 0x4005d8 0xf000aaaab000 40 3 2 0x208 127.

Lemma ring_drain_complete_witness :
  exists st' n w', process_samples_locked true [] [] 7 true (demo_slot demo_recs) = Some (st', Ok n) /\
    n ≡₆₄ 2 /\ sl_plain st' = [(1000, 4660)] /\ ds_file (sl_drain st') = [demo_sample] /\
    sl_kinfos st' = [w'] /\ wc_num_samples w' ≡₆₄ 5 + 1 + 1 /\ wc_sample_throttles w' ≡₆₄ 1 + 0 /\
    rb_data_tail (sl_ring st') = 256 /\ rb_aux_tail (sl_ring st') ≡₆₄ 0 + packet_bytes demo_packets.
Proof.
  destruct (ring_drain_complete true [] [] 7 (demo_slot demo_recs) demo_recs [] [] (mk_window 5 1))
    as (st' & n & w' & H1 & H2 & H3 & H4 & _ & _ & H5 & H6 & H7 & H8 & H9).
  - reflexivity.
  - discriminate.
  - apply ring_holds_check; vm_compute; reflexivity.
  - split; [reflexivity|vm_compute; reflexivity].
  - split; [reflexivity|vm_compute; discriminate].
  - reflexivity.
  - vm_compute; reflexivity.
  - apply Forall_cons_2; [|apply Forall_cons_2; [|apply Forall_nil_2]].
    + split; [repeat (apply Forall_cons_2; [lia|]); apply Forall_nil_2|]; split; [vm_compute; reflexivity|exact I].
    + split; [repeat (apply Forall_cons_2; [vm_compute; intuition congruence|]); apply Forall_nil_2|].
      split; [vm_compute; reflexivity|]; intros _; split; [exact demo_packets_wf|]; split; [reflexivity|].
      split; [vm_compute; repeat split|vm_compute; reflexivity].
  - split; [exact I|]; split; [vm_compute; discriminate|exact I].
  - apply Forall_nil_2.
  - reflexivity.
  - exists st', n, w'; split; [exact H1|]; split; [exact H2|]; split; [exact H3|].
    split; [rewrite H4; vm_compute; reflexivity|]; split; [exact H5|]; split; [exact H6|]; split; [exact H7|].
    split; [exact H8|exact H9].
Defined.

(** An AUX record at byte 144 of an area of 192 bytes: its identifiers begin at
    byte 176 and cross the end. *)
Lemma wrapped_sample_id_overruns_witness :
  record_step true [] [] 7
    (mk_slot (mk_ring (drop 48 (encode_record demo_aux_record) ++ replicate 128 0 ++ take 48 (encode_record demo_aux_record))
       demo_aux 208 144 0) demo_drain [] []) 144 PERF_RECORD_AUX = None.
Proof.
  apply (wrapped_sample_id_overruns true [] [] 7 _ 144 0 (packet_bytes demo_packets) 0 [1; 2; 3; 4] demo_packets []).
  - apply ring_holds_check; vm_compute; reflexivity.
  - split; [reflexivity|vm_compute; reflexivity].
  - split; [reflexivity|]; split; [lia|vm_compute; reflexivity].
  - repeat (apply Forall_cons_2; [vm_compute; intuition congruence|]); apply Forall_nil_2.
  - vm_compute; reflexivity.
Defined.

Definition demo_truncated : list perf_record := [RAux 0 24 PERF_AUX_FLAG_TRUNCATED [] []].

Lemma truncated_aux_keeps_space_witness :
  exists st', process_samples_locked true [] [] 7 true (demo_slot demo_truncated) = Some (st', Ok 0) /\
    rb_data_tail (sl_ring st') = 192 /\ rb_aux_tail (sl_ring st') = 0 /\ ds_file (sl_drain st') = [].
Proof.
  apply (truncated_aux_keeps_space true [] [] 7 (demo_slot demo_truncated) 0 24 [] [] (mk_window 5 1)).
  - reflexivity.
  - apply ring_holds_check; vm_compute; reflexivity.
  - split; [reflexivity|vm_compute; reflexivity].
  - split; [reflexivity|vm_compute; discriminate].
  - reflexivity.
  - vm_compute; reflexivity.
  - repeat (apply Forall_cons_2; [lia|]); apply Forall_nil_2.
  - vm_compute; reflexivity.
  - vm_compute; discriminate.
Defined.

End RingDrain.
