(* ===== verification/LoadTargets.v ===== *)
(** The targeted phase's target table: [load_targets] of [src/targeted_rd.cc].
    It reads the phase-one manifest, merges the lines of one offset, orders the
    offsets by score, and decodes and relocates them until the breakpoint
    capacity is reached.  The executable's disassembly, [/proc/self/maps] and
    [realpath] are parameters. *)
From S2P Require Import Prelude Uapi EffAddr CText AsmDecode Objdump ProcMaps.
Import AsmDecode Objdump ProcMaps.

Record aggregated_hotspot := mk_agg {
  ag_sample_count : Z;
  ag_candidate_score : Z;
  ag_has_candidate_score : bool;
}.
#[export] Instance eta_agg : Eta aggregated_hotspot := fun r =>
  mk_agg (ag_sample_count r) (ag_candidate_score r) (ag_has_candidate_score r).

Record rejected_target := mk_rejected {
  rj_pc_offset : Z;
  rj_aggregated_samples : Z;
  rj_reason : text;
}.

(** The members [load_targets] sets. *)
Record target_table := mk_table {
  tt_candidate_target_count : Z;
  tt_capacity_truncated_target_count : Z;
  tt_targets : list hot_target;
  tt_rejected_targets : list rejected_target;
}.

Module LoadTargets.

Definition UINT32_MAX : Z := 4294967295.

(** * Reading the manifest *)

Section manifest.
Context (realpath : text -> option text) (main_binary_path : text).

Definition main_binary_prefix : text := txt "hotspot_main_binary=".
Definition hotspot_prefix : text := txt "hotspot=".

(** [aggregated[pc_offset]] and the updates through the reference. *)
Definition add_hotspot (pc_offset sample_count : Z) (score : option Z)
    (aggregated : gmap Z aggregated_hotspot) : gmap Z aggregated_hotspot :=
  let item := default (mk_agg 0 0 false) (aggregated !! pc_offset) in
  let item := item ⟦ ag_sample_count ::= fun x => u64 (x + sample_count) ⟧ in
  let item := match score with
              | Some v => item ⟦ ag_candidate_score ::= fun x => u64 (x + v) ⟧ ⟦ ag_has_candidate_score := true ⟧
              | None => item
              end in
  <[pc_offset := item]> aggregated.

(** One line: the manifest's main binary so far and the merged hotspots. *)
Definition manifest_line (st : text * gmap Z aggregated_hotspot) (line : text) :
    result (text * gmap Z aggregated_hotspot) :=
  let '(manifest_main_binary, aggregated) := st in
  if has_prefix main_binary_prefix line then
    Ok (normalize_filesystem_path realpath (drop (length main_binary_prefix) line), aggregated)
  else if negb (has_prefix hotspot_prefix line) then Ok st
  else
    match split_tab (drop (length hotspot_prefix) line) with
    | _ :: _ :: f2 :: _ :: f4 :: f5 :: more =>
        let sample_count := strtoull 10 f2 in
        let pc_offset := strtoull 0 f4 in
        let path := normalize_filesystem_path realpath f5 in
        if negb (bool_decide (path = [])) && negb (bool_decide (path = main_binary_path)) then
          Throw (txt "targeted_rd only supports main binary hotspots; got " ++ path)
        else
          Ok (manifest_main_binary,
              add_hotspot pc_offset sample_count
                (match more with _ :: f7 :: _ => Some (strtoull 10 f7) | _ => None end) aggregated)
    | _ => Throw (txt "bad hotspot line in manifest")
    end.

Fixpoint manifest_lines (st : text * gmap Z aggregated_hotspot) (lines : list text) :
    result (text * gmap Z aggregated_hotspot) :=
  match lines with
  | [] => Ok st
  | line :: more => st' <-! manifest_line st line; manifest_lines st' more
  end.

End manifest.

(** * Ordering *)

Definition score_of (a : aggregated_hotspot) : Z :=
  if ag_has_candidate_score a then ag_candidate_score a else ag_sample_count a.

(** The comparator of [std::sort]. *)
Definition hotter (a b : Z * aggregated_hotspot) : bool :=
  let a_score := score_of a.2 in
  let b_score := score_of b.2 in
  if negb (a_score =? b_score) then b_score <? a_score else
  if negb (ag_sample_count a.2 =? ag_sample_count b.2)
  then ag_sample_count b.2 <? ag_sample_count a.2 else
  a.1 <? b.1.

Definition order_le (a b : Z * aggregated_hotspot) : Prop := hotter b a = false.
#[export] Instance order_le_dec a b : Decision (order_le a b).
Proof. unfold order_le; apply _. Defined.
Definition sort_hotspots : list (Z * aggregated_hotspot) -> list (Z * aggregated_hotspot) :=
  merge_sort order_le.

(** * Choosing targets *)

Section choose.
Context (realpath : text -> option text) (popen : text -> option (text * Z)) (maps : option text).
Context (main_binary_path target_file : text) (bp_capacity : Z).

(** The [try] block for one candidate. *)
Definition make_target (kv : Z * aggregated_hotspot) : result hot_target :=
  target <-! decode_target_via_objdump popen main_binary_path kv.1 (ag_sample_count kv.2);
  abs <-! resolve_absolute_pc realpath maps main_binary_path kv.1;
  Ok (target ⟦ ht_abs_pc := abs ⟧).

(** The loop over the candidates: targets, rejected targets, truncated count. *)
Fixpoint choose_targets (order : list (Z * aggregated_hotspot)) (targets : list hot_target)
    (rejected : list rejected_target) : result (list hot_target * list rejected_target * Z) :=
  match order with
  | [] => Ok (targets, rejected, 0)
  | kv :: more =>
      if bp_capacity <=? zlen targets then
        Ok (targets, rejected, Z.min (zlen order) UINT32_MAX)
      else
        match make_target kv with
        | Ok target => choose_targets more (targets ++ [target]) rejected
        | Throw reason =>
            if negb (is_filterable_hotspot_error reason) then Throw reason else
            choose_targets more targets
              (rejected ++ [mk_rejected kv.1 (ag_sample_count kv.2) reason])
        end
  end.

(** [manifest] is the content of the manifest file, [None] if it cannot be read. *)
Definition load_targets (manifest : option text) : result target_table :=
  match manifest with
  | None => Throw (txt "cannot open hotspot manifest " ++ target_file)
  | Some content =>
      parsed <-! manifest_lines realpath main_binary_path ([], ∅) (getlines NEWLINE content);
      let '(manifest_main_binary, aggregated) := parsed in
      if negb (bool_decide (manifest_main_binary = [])) &&
         negb (bool_decide (manifest_main_binary = main_binary_path)) then
        Throw (txt "hotspot manifest main binary does not match current executable")
      else if bool_decide (aggregated = ∅) then
        Throw (txt "no hotspots found in " ++ target_file)
      else
        let order := sort_hotspots (map_to_list aggregated) in
        chosen <-! choose_targets order [] [];
        let '(targets, rejected, truncated) := chosen in
        if bool_decide (length targets = 0%nat) then
          if negb (bool_decide (length rejected = 0%nat)) then
            Throw (txt "no supported hotspots remain after filtering unsupported targets from " ++ target_file)
          else Throw (txt "no supported hotspots found in " ++ target_file)
        else Ok (mk_table (Z.min (zlen order) UINT32_MAX) truncated targets rejected)
  end.

End choose.

(** * Theorems *)

#[export] Instance order_le_trans : Transitive order_le.
Proof. intros a b c; unfold order_le, hotter; repeat split_if; lia. Qed.
#[export] Instance order_le_total : Total order_le.
Proof. intros a b; unfold order_le, hotter; repeat split_if; lia. Qed.
Lemma order_le_antisym a b : order_le a b -> order_le b a -> a.1 = b.1.
Proof. unfold order_le, hotter; repeat split_if; lia. Qed.

(** The order a list of hotspots should have: the higher heat first (the sum of
    the candidate scores when the manifest gives scores, the number of samples
    otherwise), then more samples, then the lower offset. *)
Definition heat (a : aggregated_hotspot) : Z :=
  match a with mk_agg samples score true => score | mk_agg samples _ false => samples end.
Definition at_least_as_hot (a b : Z * aggregated_hotspot) : Prop :=
  heat a.2 > heat b.2 \/
  heat a.2 = heat b.2 /\
    (ag_sample_count a.2 > ag_sample_count b.2 \/ ag_sample_count a.2 = ag_sample_count b.2 /\ a.1 <= b.1).

Lemma order_le_hot a b : order_le a b -> at_least_as_hot a b.
Proof.
  destruct a as [ka [sa ca []]], b as [kb [sb cb []]]; unfold order_le, hotter, at_least_as_hot, score_of, heat; cbn;
    repeat split_if; lia.
Qed.

Lemma sorted_hot l : StronglySorted at_least_as_hot (sort_hotspots l).
Proof.
  assert (H : StronglySorted order_le (sort_hotspots l)) by (apply StronglySorted_merge_sort; apply _).
  induction H as [|x l' _ IH Hx]; constructor; [done|]; eapply Forall_impl; [exact Hx|]; intros y; apply order_le_hot.
Qed.

(** The hash map's traversal order does not matter. *)
Lemma sort_hotspots_unique (l l' : list (Z * aggregated_hotspot)) :
  l ≡ₚ l' -> NoDup l.*1 -> sort_hotspots l = sort_hotspots l'.
Proof.
  intros Hp Hnd; unfold sort_hotspots; apply (StronglySorted_unique_strong order_le).
  - intros x y Hx Hy H1 H2; rewrite merge_sort_Permutation in Hx, Hy; rewrite <- Hp in Hy.
    pose proof (order_le_antisym x y H1 H2) as Hk.
    apply list_elem_of_lookup in Hx as [n Hx]; apply list_elem_of_lookup in Hy as [m Hy].
    assert (n = m) as <-; [|congruence].
    eapply (NoDup_lookup l.*1 n m x.1); [done|..]; rewrite list_lookup_fmap; [by rewrite Hx|by rewrite Hy, Hk].
  - apply StronglySorted_merge_sort; apply _.
  - apply StronglySorted_merge_sort; apply _.
  - by rewrite !merge_sort_Permutation.
Qed.

Section theorems.
Context (realpath : text -> option text) (popen : text -> option (text * Z)) (maps : option text).
Context (main_binary_path target_file : text) (bp_capacity : Z).

Abbreviation make := (make_target realpath popen maps main_binary_path).
Abbreviation choose := (choose_targets realpath popen maps main_binary_path bp_capacity).

(** The outcome of each examined candidate: a target or a filtered reason. *)
Definition chosen_of (order : list (Z * aggregated_hotspot)) : list hot_target :=
  omap (fun kv => match make kv with Ok t => Some t | Throw _ => None end) order.
Definition rejected_of (order : list (Z * aggregated_hotspot)) : list rejected_target :=
  omap (fun kv => match make kv with
                  | Ok _ => None
                  | Throw reason => Some (mk_rejected kv.1 (ag_sample_count kv.2) reason)
                  end) order.

(** The offsets in the manifest are 64-bit numbers. *)
Lemma manifest_offsets rp main lines : forall st main' agg',
  manifest_lines rp main st lines = Ok (main', agg') -> (forall k v, st.2 !! k = Some v -> is_u64 k) ->
  forall k v, agg' !! k = Some v -> is_u64 k.
Proof.
  induction lines as [|l lines IH]; intros st main' agg' H Hst; cbn [manifest_lines] in H.
  { injection H as ->; exact Hst. }
  apply rbind_Ok in H as ([m1 agg1] & Hl & H); eapply IH; [exact H|]; cbn [snd].
  destruct st as [m0 agg0]; unfold manifest_line in Hl; split_if; [injection Hl as _ <-; exact Hst|].
  split_if; [injection Hl as _ <-; exact Hst|].
  destruct (split_tab _) as [|f0 [|f1 [|f2 [|f3 [|f4 [|f5 more]]]]]]; try done; revert Hl; split_if; [done|].
  intros [= _ <-] k v; unfold add_hotspot; intros [[<- _]|[_ Hk]]%lookup_insert_Some; [|by eapply Hst].
  by apply strtoull_range.
Qed.

Lemma choose_spec order : forall targets rejected targets' rejected' truncated,
  choose order targets rejected = Ok (targets', rejected', truncated) -> zlen targets <= bp_capacity \/ order = [] ->
  exists n, (n <= length order)%nat /\
    targets' = targets ++ chosen_of (take n order) /\ rejected' = rejected ++ rejected_of (take n order) /\
    truncated = Z.min (zlen (drop n order)) UINT32_MAX /\
    (zlen targets <= bp_capacity -> zlen targets' <= bp_capacity) /\
    ((n < length order)%nat -> zlen targets' = bp_capacity) /\
    Forall (fun kv => forall e, make kv = Throw e -> is_filterable_hotspot_error e = true) (take n order).
Proof.
  induction order as [|kv order IH]; intros targets rejected targets' rejected' truncated H Hc.
  - cbn in H; injection H as <- <- <-; exists 0%nat; rewrite !app_nil_r; cbn [length take drop]; split_and!; try done; try lia; constructor.
  - cbn [choose_targets] in H; destruct Hc as [Hc|Hc]; [|done].
    destruct (bp_capacity <=? zlen targets) eqn:E.
    { injection H as <- <- <-; exists 0%nat; rewrite take_0, drop_0; cbn [chosen_of rejected_of omap].
      rewrite !app_nil_r; split_and!; try done; try lia; constructor. }
    destruct (make kv) as [t|reason] eqn:Em.
    + destruct (IH _ _ _ _ _ H) as (n & Hn & -> & -> & -> & H1 & H2 & H3); [left; rewrite length_app; cbn; lia|].
      exists (S n); cbn [length take drop]; unfold chosen_of, rejected_of; cbn [omap list_omap].
      rewrite Em; fold (chosen_of (take n order)); fold (rejected_of (take n order)).
      rewrite <- app_assoc in *; split_and!; try done; try lia.
      * intros _; apply H1; rewrite length_app; cbn; lia.
      * constructor; [|done]; intros e He; congruence.
    + destruct (is_filterable_hotspot_error reason) eqn:Ef; cbn [negb] in H; [|done].
      destruct (IH _ _ _ _ _ H) as (n & Hn & -> & -> & -> & H1 & H2 & H3); [by left|].
      exists (S n); cbn [length take drop]; unfold chosen_of, rejected_of; cbn [omap list_omap].
      rewrite Em; fold (chosen_of (take n order)); fold (rejected_of (take n order)).
      rewrite <- app_assoc in *; split_and!; try done; try lia.
      constructor; [|done]; intros e He; congruence.
Qed.

(** The loop ends without an exception when every failure is filterable, and a
    candidate that decodes gives a target. *)
Lemma choose_ok order : forall targets rejected,
  Forall (fun kv => forall e, make kv = Throw e -> is_filterable_hotspot_error e = true) order ->
  exists targets' rejected' truncated,
    choose order targets rejected = Ok (targets', rejected', truncated) /\
    (targets <> [] -> targets' <> []) /\
    (0 < bp_capacity -> (exists kv t, kv ∈ order /\ make kv = Ok t) -> targets' <> []).
Proof.
  induction order as [|kv order IH]; intros targets rejected Ho; cbn [choose_targets].
  { eexists _, _, _; split_and!; [reflexivity|done|]; intros _ (kv & t & Hkv & _); by apply not_elem_of_nil in Hkv. }
  apply Forall_cons_1 in Ho as [Hkv Ho]; destruct (bp_capacity <=? zlen targets) eqn:E.
  { eexists _, _, _; split_and!; [reflexivity|done|]; intros Hc _ Ht; rewrite Ht in E; change ((bp_capacity <=? 0) = true) in E; lia. }
  destruct (make kv) as [t|e] eqn:Em.
  - destruct (IH (targets ++ [t]) rejected Ho) as (t' & r' & n & E' & Hn & _); exists t', r', n.
    assert (t' <> []) by (apply Hn; by destruct targets); split_and!; done.
  - rewrite (Hkv e eq_refl); cbn [negb].
    destruct (IH targets (rejected ++ [mk_rejected kv.1 (ag_sample_count kv.2) e]) Ho) as (t' & r' & n & E' & Hn & Hx).
    exists t', r', n; split_and!; [done..|]; intros Hc (kv' & t & [->|Hin]%elem_of_cons & Hm); [congruence|eauto].
Qed.

(** What holds of every outcome holds of every target. *)
Lemma choose_forall (P : hot_target -> Prop) order : forall targets rejected targets' rejected' truncated,
  Forall (fun kv => forall t, make kv = Ok t -> P t) order ->
  choose order targets rejected = Ok (targets', rejected', truncated) -> Forall P targets -> Forall P targets'.
Proof.
  induction order as [|kv order IH]; intros targets rejected targets' rejected' truncated Ho H Ht;
    cbn [choose_targets] in H; [by injection H as <- _ _|].
  apply Forall_cons_1 in Ho as [Hkv Ho]; destruct (bp_capacity <=? zlen targets); [by injection H as <- _ _|].
  destruct (make kv) as [t|e] eqn:E.
  - eapply IH; [exact Ho|exact H|]; apply Forall_app; split; [done|]; constructor; [by apply Hkv|constructor].
  - split_if; [done|]; by eapply IH.
Qed.

Lemma load_targets_forall (P : hot_target -> Prop) content tbl :
  load_targets realpath popen maps main_binary_path target_file bp_capacity content = Ok tbl ->
  (forall kv t, is_u64 kv.1 -> make kv = Ok t -> P t) -> Forall P (tt_targets tbl).
Proof.
  intros H HP; destruct content as [content|]; cbn [load_targets] in H; [|done].
  apply rbind_Ok in H as ([main aggregated] & Hm & H); split_if; [done|]; split_if; [done|].
  apply rbind_Ok in H as ([[targets rejected] truncated] & Hch & H); split_if; [revert H; by split_if|].
  injection H as <-; cbn; eapply choose_forall; [|exact Hch|constructor].
  apply Forall_forall; intros kv Hkv t; apply HP.
  unfold sort_hotspots in Hkv; rewrite merge_sort_Permutation in Hkv; destruct kv as [k v].
  apply elem_of_map_to_list in Hkv; eapply (manifest_offsets _ _ _ _ _ _ Hm); [|exact Hkv].
  cbn [snd]; intros k' v' Hk; by rewrite lookup_empty in Hk.
Qed.

(** Every target was decoded and relocated from some candidate. *)
Lemma load_targets_made content tbl :
  load_targets realpath popen maps main_binary_path target_file bp_capacity content = Ok tbl ->
  Forall (fun t => exists kv, make kv = Ok t) (tt_targets tbl).
Proof. intros H; eapply load_targets_forall; [exact H|]; eauto. Qed.

Lemma load_targets_offsets content tbl :
  load_targets realpath popen maps main_binary_path target_file bp_capacity content = Ok tbl ->
  Forall (fun t => is_u64 (ht_pc_offset t)) (tt_targets tbl).
Proof.
  intros H; eapply load_targets_forall; [exact H|]; intros kv t Hkv (t0 & H0 & Hr)%rbind_Ok.
  apply rbind_Ok in Hr as (a & _ & [= <-]); apply decode_target_fields in H0 as (E & _); cbn; by rewrite E.
Qed.

Lemma load_targets_nonempty content tbl :
  load_targets realpath popen maps main_binary_path target_file bp_capacity content = Ok tbl ->
  tt_targets tbl <> [].
Proof.
  destruct content as [content|]; cbn [load_targets]; [|done].
  intros ([main aggregated] & _ & H)%rbind_Ok; split_if; [done|]; split_if; [done|].
  apply rbind_Ok in H as ([[targets rejected] truncated] & _ & H).
  destruct (bool_decide (length targets = 0%nat)) eqn:E; [revert H; by split_if|].
  injection H as <-; cbn; apply bool_decide_eq_false in E; by destruct targets.
Qed.

(** When every failure is filterable and some merged offset decodes, the load
    succeeds, and its targets are made of merged offsets. *)
Lemma load_targets_ok content aggregated :
  manifest_lines realpath main_binary_path ([], ∅) (getlines NEWLINE content) = Ok (main_binary_path, aggregated) ->
  0 < bp_capacity ->
  (forall k v e, aggregated !! k = Some v -> make (k, v) = Throw e -> is_filterable_hotspot_error e = true) ->
  (exists k v t, aggregated !! k = Some v /\ make (k, v) = Ok t) ->
  exists tbl, load_targets realpath popen maps main_binary_path target_file bp_capacity (Some content) = Ok tbl /\
    1 <= zlen (tt_targets tbl) <= bp_capacity /\
    Forall (fun t => exists k v, aggregated !! k = Some v /\ make (k, v) = Ok t) (tt_targets tbl).
Proof.
  intros Hp Hcap Hf (k0 & v0 & t0 & Hk0 & Ht0); unfold load_targets; rewrite Hp; cbn [rbind].
  rewrite (bool_decide_true (main_binary_path = main_binary_path)), andb_false_r by done.
  rewrite bool_decide_false by (intros ->; by rewrite lookup_empty in Hk0).
  set (order := sort_hotspots (map_to_list aggregated)).
  assert (Ho : forall k v, (k, v) ∈ order <-> aggregated !! k = Some v).
  { intros k v; unfold order, sort_hotspots; by rewrite merge_sort_Permutation, elem_of_map_to_list. }
  destruct (choose_ok order [] []) as (ts & rs & n & E & _ & Hne).
  { apply Forall_forall; intros [k v] Hkv e; apply Hf; by apply Ho. }
  assert (Hts : ts <> []) by (apply Hne; [done|]; exists (k0, v0), t0; by rewrite Ho).
  rewrite E; cbn [rbind]; rewrite bool_decide_false by (by destruct ts); eexists; split; [reflexivity|].
  cbn [tt_targets]; split.
  - destruct (choose_spec order [] [] ts rs n E) as (i & _ & _ & _ & _ & Hle & _); [left; cbn; lia|].
    destruct ts; [done|]; cbn [length] in *; lia.
  - eapply choose_forall; [|exact E|constructor]; apply Forall_forall; intros [k v] Hkv t Ht; exists k, v; by rewrite <- Ho.
Qed.

Lemma chosen_rejected_length order :
  zlen (chosen_of order) + zlen (rejected_of order) = zlen order.
Proof.
  unfold chosen_of, rejected_of; induction order as [|kv order IH]; [done|]; cbn [omap list_omap length].
  destruct (make kv); cbn [length]; lia.
Qed.

(** C28. When the targets are loaded, they and the rejected ones are exactly the
    outcomes of the hottest candidates, in descending order of heat (candidate
    score or else sample count; then samples; then ascending offset), up to the
    point where the breakpoint capacity is reached: the table is not empty, holds
    at most [bp_capacity] targets, candidates are left out only when it is full,
    every candidate is accounted for as a target, as rejected with a filterable
    reason or as truncated, and each target's absolute address is its offset
    resolved through the current mappings. *)
Theorem load_targets_selects_hottest (content : text) (tbl : target_table) (Hcap : 0 < bp_capacity)
    (Hload : load_targets realpath popen maps main_binary_path target_file bp_capacity (Some content) = Ok tbl) :
  exists main aggregated order n,
    manifest_lines realpath main_binary_path ([], ∅) (getlines NEWLINE content) = Ok (main, aggregated) /\
    (main = [] \/ main = main_binary_path) /\
    order ≡ₚ map_to_list aggregated /\ StronglySorted at_least_as_hot order /\
    tt_targets tbl = chosen_of (take n order) /\ tt_rejected_targets tbl = rejected_of (take n order) /\
    1 <= zlen (tt_targets tbl) <= bp_capacity /\
    ((n < length order)%nat -> zlen (tt_targets tbl) = bp_capacity) /\
    Forall (fun r => is_filterable_hotspot_error (rj_reason r) = true) (tt_rejected_targets tbl) /\
    Forall (fun t => resolve_absolute_pc realpath maps main_binary_path (ht_pc_offset t) = Ok (ht_abs_pc t))
      (tt_targets tbl) /\
    (zlen order <= UINT32_MAX ->
     tt_candidate_target_count tbl = zlen order /\
     tt_candidate_target_count tbl =
       zlen (tt_targets tbl) + zlen (tt_rejected_targets tbl) + tt_capacity_truncated_target_count tbl).
Proof.
  unfold load_targets in Hload; apply rbind_Ok in Hload as ([main aggregated] & Hparse & H).
  destruct (negb _ && negb _) eqn:Emain; [done|].
  destruct (bool_decide (aggregated = ∅)); [done|].
  apply rbind_Ok in H as ([[targets rejected] truncated] & Hch & H).
  set (order := sort_hotspots (map_to_list aggregated)) in *.
  destruct (choose_spec order [] [] targets rejected truncated Hch) as (n & Hn & -> & -> & -> & H1 & H2 & H3);
    [left; cbn; lia|]; cbn [app] in *.
  destruct (bool_decide (length (chosen_of (take n order)) = 0%nat)) eqn:E0; [exfalso; revert H; by case_match|].
  apply bool_decide_eq_false in E0; injection H as <-; cbn [tt_targets tt_rejected_targets
    tt_candidate_target_count tt_capacity_truncated_target_count].
  exists main, aggregated, order, n; split_and!; try done.
  - rewrite <- negb_orb in Emain; apply negb_false_iff, orb_prop in Emain as [E|E];
      apply bool_decide_eq_true in E; auto.
  - apply merge_sort_Permutation.
  - apply sorted_hot.
  - lia.
  - apply H1; cbn; lia.
  - apply Forall_forall; intros r (kv & Hkv & Hr)%list_elem_of_omap.
    rewrite Forall_forall in H3; specialize (H3 kv Hkv); destruct (make kv); [done|].
    injection Hr as <-; cbn; by apply H3.
  - apply Forall_forall; intros t (kv & Hkv & Ht)%list_elem_of_omap.
    destruct (make kv) as [t'|] eqn:Em; [|done]; injection Ht as ->.
    unfold make_target in Em; apply rbind_Ok in Em as (t0 & Hd & Em); apply rbind_Ok in Em as (a & Ha & [= <-]).
    apply decode_target_fields in Hd as (Hpc & _); cbn; by rewrite Hpc.
  - intros Hlen; split; [lia|].
    pose proof (chosen_rejected_length (take n order)) as Hc; rewrite length_take in Hc; rewrite length_drop; lia.
Qed.

End theorems.

End LoadTargets.
