(* ===== verification/Effects.v ===== *)
(** Programs of the user-space half: state, exceptions and crashes.

    A component keeps its members in [P] and acts on an operating system [O].  An
    operation ends with a value or a thrown [RdException]; what was changed
    before a throw stays changed, as in the source.  [None] is a crash: an
    access out of bounds, undefined behaviour or a stop of the machine.  [wp] is
    the weakest precondition of such a program: it does not crash and ends, by a
    value or a throw, in a state that satisfies the postcondition; [wlp] is the
    same for programs that may crash. *)
From S2P Require Import Prelude CText.

Section programs.
Context {P O : Type}.

Definition prog (A : Type) : Type := P * O -> option (result A * (P * O)).

Definition ret {A} (a : A) : prog A := fun s => Some (Ok a, s).
Definition throw {A} (e : text) : prog A := fun s => Some (Throw e, s).
Definition bind {A B} (m : prog A) (f : A -> prog B) : prog B := fun s =>
  match m s with
  | None => None
  | Some (Throw e, s') => Some (Throw e, s')
  | Some (Ok a, s') => f a s'
  end.

Definition get : prog P := fun s => Some (Ok s.1, s).
Definition modify (f : P -> P) : prog unit := fun s => Some (Ok tt, (f s.1, s.2)).
Definition call {A} (f : O -> A * O) : prog A := fun s =>
  let '(a, o) := f s.2 in Some (Ok a, (s.1, o)).
Definition lift {A} (r : result A) : prog A := fun s => Some (r, s).
Definition crash_if_none {A} (r : option A) : prog A := fun s => a ← r; Some (Ok a, s).

(** [try { m } catch (const std::exception& e)]: the message that was caught. *)
Definition try_catch (m : prog unit) : prog (option text) := fun s =>
  '(r, s) ← m s; Some (Ok (match r with Ok _ => None | Throw e => Some e end), s).
(** [try { m } catch (...) { h; throw; }]. *)
Definition on_throw {A} (m : prog A) (h : prog unit) : prog A := fun s =>
  '(r, s) ← m s;
  match r with
  | Ok a => Some (Ok a, s)
  | Throw e => '(_, s) ← h s; Some (Throw e, s)
  end.

(** The body of a thread: an exception that escapes ends the process. *)
Definition terminate_on_throw {A} (m : prog A) : prog unit := fun s =>
  '(r, s) ← m s; match r with Ok _ => Some (Ok tt, s) | Throw _ => None end.

End programs.
Arguments prog : clear implicits.

Notation "x <-- m ; k" := (bind m (fun x => k))
  (at level 100, m at level 90, k at level 200, right associativity) : rd_scope.
Notation "m ;; k" := (bind m (fun _ => k))
  (at level 100, k at level 200, right associativity) : rd_scope.

Fixpoint forM {P O A} (l : list A) (f : A -> prog P O unit) : prog P O unit :=
  match l with
  | [] => ret tt
  | a :: l' => f a;; forM l' f
  end.

(** A loop that adds up [size_t] results. *)
Fixpoint sumM {P O A} (l : list A) (f : A -> prog P O Z) : prog P O Z :=
  match l with
  | [] => ret 0
  | a :: l' => n <-- f a; m <-- sumM l' f; ret (u64 (n + m))
  end.

(** * Weakest preconditions *)

(** [crash] tells whether a crash is excluded ([False]) or ignored ([True]). *)
Definition wpc (crash : Prop) {P O A} (m : prog P O A) (Q : result A -> P * O -> Prop) (s : P * O) : Prop :=
  match m s with
  | None => crash
  | Some (r, s') => Q r s'
  end.
Abbreviation wp := (wpc False).
Abbreviation wlp := (wpc True).

Section logic.
Context {P O : Type} {crash : Prop}.
Implicit Types (s : P * O).
#[local] Abbreviation wp := (wpc crash).

Lemma wp_mono {A} (m : prog P O A) (Q Q' : result A -> P * O -> Prop) s :
  wp m Q s -> (forall r s', Q r s' -> Q' r s') -> wp m Q' s.
Proof. unfold wpc; destruct (m s) as [[r s']|]; auto. Qed.

Lemma wp_and {A} (m : prog P O A) (Q1 Q2 : result A -> P * O -> Prop) s :
  wp m Q1 s -> wp m Q2 s -> wp m (fun r s' => Q1 r s' /\ Q2 r s') s.
Proof. unfold wpc; destruct (m s) as [[r s']|]; auto. Qed.

Lemma wp_bind {A B} (m : prog P O A) (f : A -> prog P O B) Q s :
  wp m (fun r s' => match r with Ok a => wp (f a) Q s' | Throw e => Q (Throw e) s' end) s ->
  wp (bind m f) Q s.
Proof. unfold wpc, bind; destruct (m s) as [[[a|e] s']|]; auto. Qed.

Lemma wp_ret {A} (a : A) (Q : result A -> P * O -> Prop) s : Q (Ok a) s -> wp (ret a) Q s.
Proof. done. Qed.
Lemma wp_throw {A} e (Q : result A -> P * O -> Prop) s : Q (Throw e) s -> wp (throw e) Q s.
Proof. done. Qed.
Lemma wp_get (Q : result P -> P * O -> Prop) s : Q (Ok s.1) s -> wp get Q s.
Proof. done. Qed.
Lemma wp_modify f (Q : result unit -> P * O -> Prop) s : Q (Ok tt) (f s.1, s.2) -> wp (modify f) Q s.
Proof. done. Qed.
Lemma wp_call {A} (f : O -> A * O) Q s : Q (Ok (f s.2).1) (s.1, (f s.2).2) -> wp (call f) Q s.
Proof. unfold wpc, call; destruct (f s.2); done. Qed.
Lemma wp_lift {A} (r : result A) Q s : Q r s -> wp (lift r) Q s.
Proof. done. Qed.
Lemma wp_if {A} (b : bool) (m m' : prog P O A) Q s :
  (b = true -> wp m Q s) -> (b = false -> wp m' Q s) -> wp (if b then m else m') Q s.
Proof. destruct b; auto. Qed.

Lemma wp_forM {A} (l : list A) (f : A -> prog P O unit) (I : P * O -> Prop) s :
  I s -> (forall a s, I s -> wp (f a) (fun _ s' => I s') s) -> wp (forM l f) (fun _ s' => I s') s.
Proof.
  intros Hi Hf; revert s Hi; induction l as [|a l IH]; intros s Hi; [done|].
  apply wp_bind; eapply wp_mono; [by apply Hf|]; intros [[]|e] s' Hs'; [by apply IH|done].
Qed.

Lemma wp_sumM {A} (l : list A) (f : A -> prog P O Z) (I : P * O -> Prop) s :
  I s -> (forall a s, I s -> wp (f a) (fun _ s' => I s') s) -> wp (sumM l f) (fun _ s' => I s') s.
Proof.
  intros Hi Hf; revert s Hi; induction l as [|a l IH]; intros s Hi; [done|].
  apply wp_bind; eapply wp_mono; [by apply Hf|]; intros [n|e] s' Hs'; [|done].
  apply wp_bind; eapply wp_mono; [by apply IH|]; intros [m|e] s2 Hs2; done.
Qed.

(** An invariant that a throw may break. *)
Lemma wp_sumM_returns {A} (l : list A) (f : A -> prog P O Z) (I : P * O -> Prop) s :
  I s -> (forall a s, I s -> wp (f a) (fun r s' => match r with Ok _ => I s' | Throw _ => True end) s) ->
  wp (sumM l f) (fun r s' => match r with Ok _ => I s' | Throw _ => True end) s.
Proof.
  intros Hi Hf; revert s Hi; induction l as [|a l IH]; intros s Hi; [done|].
  apply wp_bind; eapply wp_mono; [by apply Hf|]; intros [n|e] s' Hs'; [|done].
  apply wp_bind; eapply wp_mono; [by apply IH|]; intros [m|e] s2 Hs2; done.
Qed.

Lemma wp_forM_ok {A} (l : list A) (f : A -> prog P O unit) (I : P * O -> Prop) s :
  I s -> (forall a s, a ∈ l -> I s -> wp (f a) (fun r s' => r = Ok tt /\ I s') s) ->
  wp (forM l f) (fun r s' => r = Ok tt /\ I s') s.
Proof.
  intros H0 Hf; revert s H0; induction l as [|a l IH]; intros s H0; [by apply wp_ret|].
  apply wp_bind; eapply wp_mono; [apply Hf; [left|exact H0]|]; intros r s' [-> Hs'].
  apply IH; [|exact Hs']; intros b s1 Hb; apply Hf; by right.
Qed.

(** A loop with an invariant that counts the iterations. *)
Lemma wp_forM_count {A} (l : list A) (f : A -> prog P O unit) (I : nat -> P * O -> Prop) s :
  I 0%nat s ->
  (forall k a s, l !! k = Some a -> I k s -> wp (f a) (fun r s' => r = Ok tt /\ I (S k) s') s) ->
  wp (forM l f) (fun r s' => r = Ok tt /\ I (length l) s') s.
Proof.
  revert I s; induction l as [|a l IH]; intros I s H0 Hf; [by apply wp_ret|].
  apply wp_bind; eapply wp_mono; [by apply (Hf 0%nat)|]; intros r s' [-> H1].
  apply (IH (fun k => I (S k))); [done|]; intros k b s1 Hb H; by apply (Hf (S k)).
Qed.

Lemma wp_try_catch (m : prog P O unit) Q s :
  wp m (fun r s' => Q (Ok (match r with Ok _ => None | Throw e => Some e end)) s') s -> wp (try_catch m) Q s.
Proof. unfold wpc, try_catch; by destruct (m s) as [[r s']|]. Qed.

Lemma wp_on_throw {A} (m : prog P O A) h Q s :
  wp m (fun r s' => match r with
                    | Ok a => Q (Ok a) s'
                    | Throw e => wp h (fun _ s'' => Q (Throw e) s'') s'
                    end) s ->
  wp (on_throw m h) Q s.
Proof.
  unfold wpc, on_throw; destruct (m s) as [[[a|e] s']|]; cbn; [done| |done].
  by destruct (h s') as [[r s'']|].
Qed.

End logic.

(** ** Frames

    A program keeps a view of the members when it ends, by a value or a throw, with
    the view it began with. *)

Section frames.
Context {P O V : Type} (view : P -> V).

Definition keeps {A} (m : prog P O A) : Prop := forall s v, view s.1 = v -> wlp m (fun _ s' => view s'.1 = v) s.

Lemma keeps_bind {A B} (m : prog P O A) (f : A -> prog P O B) : keeps m -> (forall a, keeps (f a)) -> keeps (bind m f).
Proof.
  intros Hm Hf s v E; apply wp_bind; eapply wp_mono; [by apply Hm|]; intros [a|e] s' E'; [by apply Hf|done].
Qed.
Lemma keeps_get : keeps get.
Proof. intros s v E; by apply wp_get. Qed.
Lemma keeps_ret {A} (a : A) : keeps (ret a).
Proof. intros s v E; by apply wp_ret. Qed.
Lemma keeps_throw {A} e : keeps (throw e : prog P O A).
Proof. intros s v E; by apply wp_throw. Qed.
Lemma keeps_lift {A} (r : result A) : keeps (lift r).
Proof. intros s v E; by apply wp_lift. Qed.
Lemma keeps_crash_if_none {A} (r : option A) : keeps (crash_if_none r).
Proof. intros s v E; unfold wpc, crash_if_none; by destruct r. Qed.
Lemma keeps_call {A} (f : O -> A * O) : keeps (call f).
Proof. intros s v E; by apply wp_call. Qed.
Lemma keeps_modify f : (forall p, view (f p) = view p) -> keeps (modify f).
Proof. intros Hf s v E; apply wp_modify; cbn; by rewrite Hf. Qed.
Lemma keeps_forM {A} (l : list A) f : (forall a, keeps (f a)) -> keeps (forM l f).
Proof. intros Hf s v E; apply (wp_forM l f (fun s => view s.1 = v)); [done|]; intros a s' E'; by apply Hf. Qed.
Lemma keeps_sumM {A} (l : list A) f : (forall a, keeps (f a)) -> keeps (sumM l f).
Proof. intros Hf s v E; apply (wp_sumM l f (fun s => view s.1 = v)); [done|]; intros a s' E'; by apply Hf. Qed.
Lemma keeps_if {A} (b : bool) (m m' : prog P O A) : keeps m -> keeps m' -> keeps (if b then m else m').
Proof. by destruct b. Qed.
Lemma keeps_try_catch m : keeps m -> keeps (try_catch m).
Proof. intros Hm s v E; apply wp_try_catch; eapply wp_mono; [by apply Hm|]; done. Qed.
Lemma keeps_on_throw {A} (m : prog P O A) h : keeps m -> keeps h -> keeps (on_throw m h).
Proof.
  intros Hm Hh s v E; apply wp_on_throw; eapply wp_mono; [by apply Hm|]; intros [a|e] s' E'; [done|].
  eapply wp_mono; [by apply Hh|]; done.
Qed.
Lemma keeps_terminate {A} (m : prog P O A) : keeps m -> keeps (terminate_on_throw m).
Proof. intros Hm s v E; specialize (Hm s v E); unfold wpc, terminate_on_throw in *; by destruct (m s) as [[[] ?]|]. Qed.

End frames.

Create HintDb keeps.
#[export] Hint Resolve keeps_get keeps_ret keeps_throw keeps_lift keeps_crash_if_none keeps_call : keeps.

(** Follows the structure of a program. *)
Ltac keeps := repeat first
  [ solve [auto with keeps] | apply keeps_bind; [|intros ?] | apply keeps_forM; intros ? | apply keeps_sumM; intros ?
  | apply keeps_if | apply keeps_try_catch | apply keeps_on_throw | apply keeps_terminate | by apply keeps_modify
  | match goal with
    | |- keeps _ (match ?x with None => _ | Some _ => _ end) => destruct x
    | |- keeps _ (match ?x with [] => _ | _ :: _ => _ end) => destruct x
    end ].
