(* ===== verification/PerfEvents.v ===== *)
(** Perf events as [src/monitor.cc] opens them: event specifications, the ARM SPE
    event names, the attributes of an event and the batch open of a thread's
    descriptors.

    [PerfApi] is the operating system below the monitor: perf descriptors and
    their mapped buffers, epoll, the clock and the files of [/proc/self].  It is
    an abstract interface; [PerfLaws] in [MonitorInv.v] states what its
    documentation promises. *)
From S2P Require Import Prelude Uapi CText ProcMaps Hotspots SpePacket RingDrain.

Definition PERF_SAMPLE_IP : Z := 1.
Definition PERF_SAMPLE_TID : Z := 2.
Definition PERF_SAMPLE_TIME : Z := 4.
Definition PERF_SAMPLE_ADDR : Z := 8.
Definition PERF_SAMPLE_CPU : Z := 128.
Definition PERF_SAMPLE_DATA_SRC : Z := 32768.
Definition PERF_SAMPLE_IDENTIFIER : Z := 65536.
Definition PERF_FORMAT_TOTAL_TIME_ENABLED : Z := 1.
Definition PERF_FORMAT_TOTAL_TIME_RUNNING : Z := 2.
Definition SAMPLE_WAKEUP : Z := 1024.
Definition CLOCK_MONOTONIC_RAW : Z := 4.

Definition PERF_EVENT_IOC_ENABLE : Z := 9216.
Definition PERF_EVENT_IOC_DISABLE : Z := 9217.
Definition PERF_EVENT_IOC_RESET : Z := 9219.

(** The fields of [perf_event_attr] that the source sets; flags are 0 or 1. *)
Record perf_attr := mk_attr {
  at_type : Z;
  at_config : Z;
  at_inherit : Z;
  at_sample_period : Z;
  at_sample_type : Z;
  at_precise_ip : Z;
  at_wakeup_events : Z;
  at_pinned : Z;
  at_disabled : Z;
  at_use_clockid : Z;
  at_clockid : Z;
  at_exclude_kernel : Z;
  at_exclude_hv : Z;
  at_sample_id_all : Z;
  at_read_format : Z;
}.
#[export] Instance eta_attr : Eta perf_attr := fun r =>
  mk_attr (at_type r) (at_config r) (at_inherit r) (at_sample_period r) (at_sample_type r) (at_precise_ip r)
    (at_wakeup_events r) (at_pinned r) (at_disabled r) (at_use_clockid r) (at_clockid r) (at_exclude_kernel r)
    (at_exclude_hv r) (at_sample_id_all r) (at_read_format r).
Definition zero_attr : perf_attr := mk_attr 0 0 0 0 0 0 0 0 0 0 0 0 0 0 0.

Record read_format := mk_read { rf_value : Z; rf_time_enabled : Z; rf_time_running : Z }.

(** [event_spec]: the names with their group-leader flags. *)
Definition event_spec : Type := list (text * bool).

Class PerfApi := {
  perf_os : Type;
  (** [perf_event_open(attr, pid, cpu, group_fd, 0)]: a descriptor or a negative error number. *)
  perf_event_open : perf_attr -> Z -> Z -> Z -> perf_os -> Z * perf_os;
  perf_ioctl : Z -> Z -> perf_os -> perf_os;
  (** [read] of a whole [read_format]. *)
  perf_read : Z -> perf_os -> option read_format;
  perf_close : Z -> perf_os -> perf_os;
  (** [mmap(0, bytes, ..., fd, offset)], a private anonymous mapping when [fd] is -1. *)
  perf_mmap : Z -> Z -> Z -> perf_os -> option Z * perf_os;
  perf_munmap : Z -> Z -> perf_os -> perf_os;
  (** The buffers behind a mapped ring, and stores to its control page. *)
  ring_at : Z -> perf_os -> ring_buffer;
  set_ring : Z -> ring_buffer -> perf_os -> perf_os;
  set_aux_area : Z -> Z -> Z -> perf_os -> perf_os;
  (** [epoll_ctl] on a set: add a descriptor with its token, remove it. *)
  epoll_add : Z -> Z -> Z -> perf_os -> bool * perf_os;
  epoll_del : Z -> Z -> perf_os -> perf_os;
  (** A descriptor, or -1. *)
  epoll_create : perf_os -> Z * perf_os;
  eventfd_create : perf_os -> Z * perf_os;
  eventfd_write : Z -> Z -> perf_os -> bool * perf_os;
  eventfd_read : Z -> perf_os -> option Z * perf_os;
  sem_init : perf_os -> bool * perf_os;
  sem_destroy : perf_os -> perf_os;
  sem_wait : perf_os -> perf_os;
  sem_post : perf_os -> perf_os;
  perf_setaffinity : Z -> Z -> perf_os -> perf_os;
  perf_stat : Z -> perf_os -> option text;
  perf_page_size : Z;
  (** [clock_gettime] and [clock_getres] of [CLOCK_MONOTONIC_RAW]: seconds and nanoseconds. *)
  clock_gettime : perf_os -> option (Z * Z) * perf_os;
  clock_getres : option (Z * Z);
  perf_exe : perf_os -> option text;
  perf_realpath : text -> perf_os -> option text;
  perf_maps : perf_os -> option text;
  (** Whether a file can be opened for writing. *)
  perf_writable : text -> perf_os -> bool;
  (** [opendir("/proc/self/task")] and its entries. *)
  perf_tasks : perf_os -> option (list text);
  pfm_initialize : bool;
  (** [pfm_get_os_event_encoding]: success, and the attributes it leaves. *)
  pfm_encode : text -> perf_attr -> bool * perf_attr;
  (** The content of [/sys/bus/event_source/devices/arm_spe_0/type]. *)
  spe_type_file : option text;
  perf_strerror : Z -> text;
}.

Module PerfEvents.

Definition EVENTFD_TOKEN : Z := 0.
Definition SAMPLER_TOKEN_KIND : Z := 1.

Definition make_sampler_token (slot_id : Z) : Z :=
  Z.lor (Z.shiftl SAMPLER_TOKEN_KIND 32) (u32 slot_id).

(** What the sampler thread takes from a token: its kind and its value. *)
Definition token_kind (token : Z) : Z := u32 (Z.shiftr token 32).
Definition token_value (token : Z) : Z := u32 (Z.land token 0xffffffff).

(** [strncmp] with a length that includes the terminator compares whole names. *)
Definition parse_arm_spe_event (name : text) : Z :=
  if bool_decide (name = txt "ARM_SPE:LOAD") then 0x200000001 else
  if bool_decide (name = txt "ARM_SPE:STORE") then 0x400000001 else
  if bool_decide (name = txt "ARM_SPE:LOADSTORE") then 0x600000001 else 0.

(** The first nonzero configuration, narrowed to [int]. *)
Fixpoint has_arm_spe_event (names : list text) : Z :=
  match names with
  | [] => 0
  | name :: more =>
      let val := s32 (parse_arm_spe_event name) in
      if val =? 0 then has_arm_spe_event more else val
  end.

(** [file >> n] into an [int] that was 0. *)
Definition stream_int (s : text) : Z := Z.max (-2147483648) (Z.min 2147483647 (strtoll 10 s)).

Section opening.
Context `{Pf : PerfApi}.

Definition sampling_attr (sample_period : Z) (attr : perf_attr) : perf_attr :=
  if sample_period =? 0 then attr else
  attr ⟦ at_sample_period := sample_period ⟧
       ⟦ at_sample_type := Z.lor PERF_SAMPLE_ADDR (Z.lor PERF_SAMPLE_TIME PERF_SAMPLE_TID) ⟧
       ⟦ at_precise_ip := 2 ⟧ ⟦ at_wakeup_events := SAMPLE_WAKEUP ⟧ ⟦ at_pinned := 1 ⟧.

Definition spe_sample_type : Z :=
  Z.lor PERF_SAMPLE_IP (Z.lor PERF_SAMPLE_TID (Z.lor PERF_SAMPLE_TIME (Z.lor PERF_SAMPLE_CPU
    (Z.lor PERF_SAMPLE_DATA_SRC PERF_SAMPLE_IDENTIFIER)))).

Definition spe_attr (name : text) (attr : perf_attr) : result perf_attr :=
  let spe_config := parse_arm_spe_event name in
  if spe_config =? 0 then Ok attr else
  match spe_type_file with
  | None => Throw (txt "Failed to open the file /sys/bus/event_source/devices/arm_spe_0/type")
  | Some content =>
      Ok (attr ⟦ at_type := u32 (stream_int content) ⟧ ⟦ at_sample_type := spe_sample_type ⟧
               ⟦ at_config := spe_config ⟧)
  end.

Definition init_perf_attr (name : text) (per_thread : bool) (sample_period : Z) : result perf_attr :=
  let '(encoded, attr) := pfm_encode name zero_attr in
  if negb encoded && (parse_arm_spe_event name =? 0) then
    Throw (txt "pfm_get_os_event_encoding " ++ name ++ txt " fail") else
  let attr := attr ⟦ at_inherit := if per_thread then 0 else 1 ⟧ in
  attr <-! spe_attr name (sampling_attr sample_period attr);
  Ok (attr ⟦ at_disabled := 1 ⟧ ⟦ at_use_clockid := 1 ⟧ ⟦ at_clockid := CLOCK_MONOTONIC_RAW ⟧
           ⟦ at_exclude_kernel := 1 ⟧ ⟦ at_exclude_hv := 1 ⟧ ⟦ at_sample_id_all := 1 ⟧
           ⟦ at_read_format := Z.lor PERF_FORMAT_TOTAL_TIME_ENABLED PERF_FORMAT_TOTAL_TIME_RUNNING ⟧).

(** The loop of [open_fds] from index [i]; the array is returned with what was
    stored before an error. *)
Fixpoint open_fds_loop (pid : Z) (per_thread : bool) (cpu sample_period group_fd i : Z) (spec : event_spec)
    (fds : list Z) (o : perf_os) : list Z * result unit * perf_os :=
  match spec with
  | [] => (fds, Ok tt, o)
  | (name, leader) :: more =>
      let group_fd := if leader then -1 else group_fd in
      match init_perf_attr name per_thread sample_period with
      | Throw e => (fds, Throw e, o)
      | Ok attr =>
          let '(fd, o) := perf_event_open attr pid cpu group_fd o in
          if fd <? 0 then
            (fds, Throw (txt "perf_event_open failed [i=" ++ dec_s i ++ txt ", errno=" ++
                         perf_strerror (- fd) ++ txt "]"), o)
          else
            open_fds_loop pid per_thread cpu sample_period (if group_fd =? -1 then fd else group_fd) (i + 1) more
              (<[Z.to_nat i := fd]> fds) (perf_ioctl fd PERF_EVENT_IOC_RESET o)
      end
  end.

Definition open_fds (pid : Z) (per_thread : bool) (cpu : Z) (spec : event_spec) (sample_period : Z)
    (fds : list Z) (o : perf_os) : list Z * result unit * perf_os :=
  open_fds_loop pid per_thread cpu sample_period (-1) 0 spec fds o.

Definition read_fd (fd : Z) (o : perf_os) : result read_format :=
  match perf_read fd o with
  | Some count => Ok count
  | None => Throw (txt "read() on event fd failed")
  end.

(** [nano_clock] of [src/clock.cc]; [None] is the overflow of a signed product. *)
Definition s64_checked (z : Z) : option Z := if s64 z =? z then Some z else None.
Definition nano_clock (o : perf_os) : option (result Z) * perf_os :=
  let '(time, o) := clock_gettime o in
  match time with
  | None => (Some (Throw (txt "failed clock_gettime")), o)
  | Some (sec, nsec) =>
      match clock_getres with
      | Some (0, res_nsec) =>
          (a ← s64_checked (sec * res_nsec);
           a ← s64_checked (a * 1000000000);
           b ← s64_checked (nsec * res_nsec);
           t ← s64_checked (a + b);
           Some (Ok (u64 t)), o)
      | _ => (Some (Throw (txt "clock_getres failure (CLOCK_MONOTONIC_RAW)")), o)
      end
  end.

End opening.

End PerfEvents.
