(* ===== verification/Manifest.v ===== *)
(** The interface between the two phases: [write_hotspot_manifest] of
    [src/monitor.cc] prints the selected hotspots, [load_targets] of
    [src/targeted_rd.cc] reads them back.  The theorem follows the text: what the
    writer prints, the reader merges into exactly the sums over the hotspots of
    each offset. *)
From S2P Require Import Prelude Uapi EffAddr CText AsmDecode Objdump ProcMaps Hotspots.
From S2P Require Import SpePacket LoadTargets.
From Stdlib Require Import SpecFloat.
Import AsmDecode Objdump ProcMaps Hotspots LoadTargets.

Module Manifest.

(** * [std::ostream << double]

    The default format, [%g] with six significant digits, of a non-negative
    number [n / d]. *)

(** [d > 0]: how many times [n] must be multiplied by ten to reach [d]. *)
Fixpoint tens_below (fuel : nat) (n d : Z) : Z :=
  match fuel with
  | O => 0
  | S f => if d <=? n then 0 else 1 + tens_below f (n * 10) d
  end.
(** Decimal exponent of [n / d]. *)
Definition exponent10 (n d : Z) : Z :=
  if d <=? n then zlen (dec_u64 (n / d)) - 1 else - tens_below 400 n d.
(** [n / d] rounded to the nearest integer, ties to even. *)
Definition round_div (n d : Z) : Z :=
  let q := n / d in
  let r := 2 * (n mod d) in
  if r <? d then q else if d <? r then q + 1 else if Z.even q then q else q + 1.

Fixpoint strip_zeros (s : text) : text :=
  match s with
  | c :: r => if ceqb c "0" then strip_zeros r else s
  | [] => []
  end.
(** Fraction digits without trailing zeros, with their point. *)
Definition fraction (digits : text) : text :=
  match rev (strip_zeros (rev digits)) with
  | [] => []
  | f => "."%char :: f
  end.
Definition pad_dec (n : nat) (z : Z) : text := replicate (n - length (dec_u64 z)) "0"%char ++ dec_u64 z.

Definition print_ratio (n d : Z) : text :=
  let x := exponent10 n d in
  let m := if 0 <=? 5 - x then round_div (n * 10 ^ (5 - x)) d else round_div n (d * 10 ^ (x - 5)) in
  let '(m, x) := if m =? 1000000 then (100000, x + 1) else (m, x) in
  if (-4 <=? x) && (x <? 6) then
    if 0 <=? x then
      dec_u64 (m / 10 ^ (5 - x)) ++ fraction (pad_dec (Z.to_nat (5 - x)) (m mod 10 ^ (5 - x)))
    else txt "0" ++ fraction (replicate (Z.to_nat (- x - 1)) "0"%char ++ dec_u64 m)
  else
    dec_u64 (m / 100000) ++ fraction (pad_dec 5 (m mod 100000)) ++
    (if x <? 0 then txt "e-" else txt "e+") ++ pad_dec 2 (Z.abs x).

Definition print_double (f : spec_float) : text :=
  match f with
  | S754_zero s => if s then txt "-0" else txt "0"
  | S754_infinity s => if s then txt "-inf" else txt "inf"
  | S754_nan => txt "nan"
  | S754_finite s m e =>
      (if s then txt "-" else []) ++
      (if 0 <=? e then print_ratio (Z.pos m * 2 ^ e) 1 else print_ratio (Z.pos m) (2 ^ (- e)))
  end.

Example print_double_demo :
  (print_double <$> [ddiv (to_double 12) (to_double 1); ddiv (to_double 1) (to_double 3);
    ddiv (to_double 12345678) (to_double 1); ddiv (to_double 1) (to_double 100000); to_double 999999]) =
  [txt "12"; txt "0.333333"; txt "1.23457e+07"; txt "1e-05"; txt "999999"].
Proof. vm_compute; reflexivity. Qed.

(** * The writer *)

Definition hotspot_line (rank : Z) (h : hotspot_summary) : text :=
  hotspot_prefix ++ join TAB
    [dec_s (su_tid h); dec_u64 (rank + 1); dec_u64 (su_sample_count h); dec_u64 (su_module_id h);
     hex0x (su_pc_offset h); su_path h; dec_u64 (su_pareto_front h); dec_u64 (su_candidate_score h);
     su_candidate_metric h; print_double (su_avg_mem_latency h); dec_u64 (su_lat_total_sum h);
     dec_u64 (su_lat_issue_sum h); dec_u64 (su_lat_xlat_sum h); dec_u64 (su_lat_exec_sum h);
     dec_u64 (su_l1d_refill_count h); dec_u64 (su_llc_miss_count h); dec_u64 (su_tlb_walk_count h);
     dec_u64 (su_remote_access_count h)].

Definition hotspot_fields_line : text :=
  txt "hotspot_fields=tid,rank,sample_count,module_id,pc_offset,path,pareto_front,candidate_score,candidate_metric,avg_mem_latency,lat_total_sum,lat_issue_sum,lat_xlat_sum,lat_exec_sum,l1d_refill_count,llc_miss_count,tlb_walk_count,remote_access_count".

Section writer.
Context (module_maps : list module_map_entry) (hotspot_top_k min_samples min_latency : Z).
Context (main_binary_path : text).

Abbreviation collect := (collect_hotspots_for_thread module_maps hotspot_top_k min_samples min_latency).

Definition thread_lines (h : hot_state) (tid : Z) : list text :=
  imap (fun rank s => hotspot_line (Z.of_nat rank) s) (collect h tid).

(** The lines written to [<name>.hotpc]: no file without program counters, and none
    when it cannot be opened, which is only a warning. *)
Definition write_hotspot_manifest (pc_present opened : bool) (tids : list Z) (h : hot_state) : option (list text) :=
  if negb pc_present then None else
  if negb opened then None else
  let hotspot_count := sumZ ((fun tid => zlen (collect h tid)) <$> tids) in
  Some ([txt "hotspot_top_k=" ++ dec_u64 hotspot_top_k;
         txt "hotspot_identity=module_offset";
         txt "hotspot_scope=main_binary_only";
         main_binary_prefix ++ main_binary_path;
         txt "hotspot_kind_hint=arm_spe_loadstore";
         txt "hotspot_selection_policy=pareto_sample_count_avg_mem_latency";
         hotspot_fields_line;
         txt "hotspot_count=" ++ dec_u64 hotspot_count;
         txt "hotspot_unmapped_pc_samples=" ++ dec_u64 (hotspot_unmapped_samples h)] ++
        concat (thread_lines h <$> tids)).

End writer.

(** The file the lines make. *)
Definition file_of (lines : list text) : text := concat ((fun l => l ++ [NEWLINE]) <$> lines).

(** * Well-formed summaries *)

(** Module ids are positions in the map table. *)
Definition maps_indexed (module_maps : list module_map_entry) : Prop :=
  forall i e, module_maps !! i = Some e -> mm_module_id e = Z.of_nat i.

(** Every number of an entry is a 64-bit value. *)
Definition u64_ok (z : Z) : Prop := is_u64 z.
Lemma u64_ok_u64 z : u64_ok (u64 z).
Proof. apply u64_range. Qed.
Lemma u64_ok_inc64 z : u64_ok (inc64 z).
Proof. apply u64_range. Qed.
#[local] Hint Resolve u64_ok_u64 u64_ok_inc64 : rd.

Definition stats_wf (st : hotspot_stats) : Prop :=
  u64_ok (hst_sample_count st) /\ u64_ok (hst_lat_total_sum st) /\ u64_ok (hst_lat_total_count st) /\
  u64_ok (hst_lat_issue_sum st) /\ u64_ok (hst_lat_issue_count st) /\ u64_ok (hst_lat_xlat_sum st) /\
  u64_ok (hst_lat_xlat_count st) /\ u64_ok (hst_lat_exec_sum st) /\ u64_ok (hst_lat_exec_count st) /\
  u64_ok (hst_l1d_refill_count st) /\ u64_ok (hst_llc_miss_count st) /\ u64_ok (hst_tlb_walk_count st) /\
  u64_ok (hst_remote_access_count st).

Ltac wf_update :=
  intros; unfold stats_wf in *; cbn [upd eta eta_stats hst_sample_count hst_lat_total_sum hst_lat_total_count
    hst_lat_issue_sum hst_lat_issue_count hst_lat_xlat_sum hst_lat_xlat_count hst_lat_exec_sum
    hst_lat_exec_count hst_l1d_refill_count hst_llc_miss_count hst_tlb_walk_count hst_remote_access_count];
  destruct_and?; split_and!; auto with rd.

Lemma when_wf b f st : (forall st, stats_wf st -> stats_wf (f st)) -> stats_wf st -> stats_wf (when b f st).
Proof. intros H Hst; destruct b; [by apply H|done]. Qed.

Lemma add_sample_wf s st : stats_wf st -> stats_wf (add_sample s st).
Proof.
  intros H; unfold add_sample; cbv zeta; repeat apply when_wf; wf_update.
Qed.

Lemma zero_stats_wf : stats_wf zero_stats.
Proof. unfold stats_wf, u64_ok; cbn; split_and!; lia. Qed.

Section wf.
Context (pc_present : bool) (module_maps : list module_map_entry) (main_binary_path : text).
Hypothesis Hidx : maps_indexed module_maps.
Hypothesis Hlen : zlen module_maps < 4294967296.

(** Entries belong to the main binary and hold 64-bit numbers. *)
Definition table_wf (h : hot_state) : Prop :=
  is_u64 (hotspot_unmapped_samples h) /\
  forall tid table k st, thread_hotspots h !! tid = Some table -> table !! k = Some st ->
    stats_wf st /\ is_u64 k.2 /\ 0 <= k.1 /\
    exists e, module_maps !!z k.1 = Some e /\ mm_path e = main_binary_path.

Lemma find_module_map_In pc e : find_module_map module_maps pc = Some e -> module_maps !!z mm_module_id e = Some e.
Proof.
  intros H; assert (Hin : e ∈ module_maps).
  { clear Hidx Hlen; induction module_maps as [|x l IH]; cbn [find_module_map] in H; [done|].
    split_if; [injection H as ->; left|right; by apply IH]. }
  apply list_elem_of_lookup in Hin as [i Hi]; rewrite (Hidx i e Hi), zlookup_of_nat; exact Hi.
Qed.

Lemma record_wf tid s h :
  table_wf h -> table_wf (record_hotspot_sample pc_present module_maps main_binary_path tid s h).
Proof.
  intros [Hu Ht]; unfold record_hotspot_sample; destruct (_ || _); [done|].
  destruct (find_module_map module_maps (sm_pc s)) as [e|] eqn:E.
  2: { split; [cbn; unfold inc64; apply u64_range|exact Ht]. }
  destruct (is_main_binary_module main_binary_path e) eqn:Em; cbn [negb]; [|done].
  split; [exact Hu|]; cbn; intros t table k st Htab Hk.
  destruct (decide (tid = t)) as [->|Hne]; [|rewrite lookup_insert_ne in Htab by done; by eapply Ht].
  rewrite lookup_insert_eq in Htab; injection Htab as <-.
  set (key := (mm_module_id e, hotspot_offset e (sm_pc s))) in *.
  destruct (decide (key = k)) as [<-|Hnk].
  - rewrite lookup_insert_eq in Hk; injection Hk as <-; pose proof (find_module_map_In _ _ E) as Hin.
    split_and!.
    + apply add_sample_wf; destruct (thread_hotspots h !! t) as [tb|] eqn:Etb; cbn [default].
      * change (stats_wf (default zero_stats (tb !! key))).
        destruct (tb !! key) as [st|] eqn:Est; [exact (proj1 (Ht _ _ _ _ Etb Est))|exact zero_stats_wf].
      * rewrite lookup_empty; exact zero_stats_wf.
    + apply u64_range.
    + apply u64_range.
    + apply zlookup_Some in Hin as [? _]; cbn; lia.
    + exists e; split; [done|].
      unfold is_main_binary_module in Em; apply andb_prop in Em as [_ Em]; by apply bool_decide_eq_true in Em.
  - rewrite lookup_insert_ne in Hk by done.
    destruct (thread_hotspots h !! t) as [tb|] eqn:Etb; cbn in Hk; [exact (Ht _ _ _ _ Etb Hk)|by rewrite lookup_empty in Hk].
Qed.

Lemma record_all_wf l h :
  table_wf h -> table_wf (record_all pc_present module_maps main_binary_path l h).
Proof.
  revert h; induction l as [|[t s] l IH]; intros h Hh; [done|]; apply IH, record_wf, Hh.
Qed.

Definition summary_wf (s : hotspot_summary) : Prop :=
  is_u64 (su_sample_count s) /\ 0 <= su_module_id s /\ is_u64 (su_pc_offset s) /\ su_path s = main_binary_path /\
  0 <= su_pareto_front s /\ is_u64 (su_candidate_score s) /\
  (su_candidate_metric s = txt "lat_exec_sum" \/ su_candidate_metric s = txt "lat_total_sum") /\
  0 <= su_lat_total_sum s /\ 0 <= su_lat_issue_sum s /\ 0 <= su_lat_xlat_sum s /\ 0 <= su_lat_exec_sum s /\
  0 <= su_l1d_refill_count s /\ 0 <= su_llc_miss_count s /\ 0 <= su_tlb_walk_count s /\
  0 <= su_remote_access_count s.

Lemma collected_wf top_k ms ml h tid :
  table_wf h -> Forall summary_wf (collect_hotspots_for_thread module_maps top_k ms ml h tid).
Proof.
  intros [_ Hh]; unfold collect_hotspots_for_thread; destruct (thread_hotspots h !! tid) as [table|] eqn:E; [|constructor].
  rewrite collect_take_ranking; apply Forall_take.
  apply Forall_forall; intros x Hx; rewrite ranking_perm in Hx.
  apply list_elem_of_fmap in Hx as (y & -> & Hy); apply list_elem_of_fmap in Hy as ([[m o] st] & -> & Hin).
  apply elem_of_map_to_list in Hin; destruct (Hh _ _ _ _ E Hin) as ((W1 & W2 & W3 & W4 & W5 & W6 & W7 & W8 & W9 & W10 & W11 & W12 & W13) & Hoff & Hm & e & He & Hp).
  cbn in Hoff, Hm, He; unfold u64_ok in *; unfold summary_wf, mark, summarize; cbn.
  rewrite He; unfold hotspot_candidate_score, hotspot_candidate_metric.
  split_and!; try lia; try done; repeat split_if; try lia; auto.
Qed.

End wf.

(** The table [snapshot_module_maps] builds is indexed by module id. *)
Lemma remember_indexed realpath vs ve off p maps :
  zlen (remember_module_map realpath vs ve off p maps) < 4294967296 ->
  maps_indexed maps -> maps_indexed (remember_module_map realpath vs ve off p maps).
Proof.
  unfold remember_module_map; destruct (existsb _ _); [done|]; intros Hl H i e Hi.
  rewrite length_app in Hl; cbn [length] in Hl.
  apply lookup_app_Some in Hi as [Hi|[Hge Hi]]; [by apply H|].
  destruct (i - length maps)%nat as [|k] eqn:E; [|done]; injection Hi as <-; cbn.
  rewrite u32_id by lia; lia.
Qed.

Lemma remember_grows realpath vs ve off p maps :
  zlen maps <= zlen (remember_module_map realpath vs ve off p maps).
Proof. unfold remember_module_map; destruct (existsb _ _); [lia|]; rewrite length_app; lia. Qed.

Lemma module_maps_grow realpath lines maps : zlen maps <= zlen (module_maps_from realpath maps lines).
Proof.
  revert maps; induction lines as [|l lines IH]; intros maps; cbn [module_maps_from]; [lia|].
  destruct (exec_mapping l) as [[[[vs ve] off] rest]|]; [|apply IH].
  etransitivity; [apply (remember_grows realpath)|apply IH].
Qed.

Lemma module_maps_indexed realpath lines maps :
  zlen (module_maps_from realpath maps lines) < 4294967296 ->
  maps_indexed maps -> maps_indexed (module_maps_from realpath maps lines).
Proof.
  revert maps; induction lines as [|l lines IH]; intros maps; cbn [module_maps_from]; [done|].
  destruct (exec_mapping l) as [[[[vs ve] off] rest]|]; [|apply IH].
  intros Hl H; apply IH; [done|]; apply remember_indexed; [|done].
  eapply Z.le_lt_trans; [apply module_maps_grow|exact Hl].
Qed.

(** * The text of the manifest *)

(** No separator of the manifest's grammar. *)
Definition plain (c : ascii) : Prop := ceqb c TAB = false /\ ceqb c NEWLINE = false.

Lemma plain_free s : Forall plain s -> free_of TAB s /\ free_of NEWLINE s.
Proof. intros H; split; eapply Forall_impl; [exact H|by intros ? []|exact H|by intros ? []]. Qed.
Lemma digit_plain v : 0 <= v < 16 -> plain (digit_char v).
Proof. intros Hv; split; apply (digit_char_plain v Hv). Qed.
Lemma dec_plain z : 0 <= z -> Forall plain (dec_u64 z).
Proof. intros; apply print_u_forall; [lia|done|exact digit_plain]. Qed.
Lemma hex_plain z : 0 <= z -> Forall plain (hex_digits z).
Proof. intros; apply print_u_forall; [lia|done|exact digit_plain]. Qed.
Lemma dec_s_plain z : Forall plain (dec_s z).
Proof. unfold dec_s; split_if; [constructor; [done|]|]; apply dec_plain; lia. Qed.

Lemma plain_zeros n : Forall plain (replicate n "0"%char).
Proof. by apply Forall_replicate. Qed.

Lemma div_nonneg n d : 0 <= n -> 0 <= d -> 0 <= n / d.
Proof. intros Hn Hd; destruct (decide (d = 0)) as [->|]; [by rewrite Z.div_0_r|apply Z.div_pos; lia]. Qed.
Lemma mod_nonneg n d : 0 <= n -> 0 <= d -> 0 <= n mod d.
Proof. intros Hn Hd; destruct (decide (d = 0)) as [->|]; [by rewrite Z.mod_0_r|apply Z.mod_pos_bound; lia]. Qed.

Lemma round_div_nonneg n d : 0 <= n -> 0 <= d -> 0 <= round_div n d.
Proof. intros Hn Hd; pose proof (div_nonneg n d Hn Hd); unfold round_div; repeat split_if; lia. Qed.

Lemma strip_zeros_plain s : Forall plain s -> Forall plain (strip_zeros s).
Proof. induction 1 as [|c s Hc Hs IH]; cbn; [done|]; split_if; [done|by constructor]. Qed.

Lemma fraction_plain s : Forall plain s -> Forall plain (fraction s).
Proof.
  intros H; apply Forall_rev, strip_zeros_plain, Forall_rev in H; unfold fraction.
  destruct (rev (strip_zeros (rev s))); [done|by constructor].
Qed.

Lemma pad_dec_plain n z : 0 <= z -> Forall plain (pad_dec n z).
Proof. intros Hz; apply Forall_app; split; [apply plain_zeros|by apply dec_plain]. Qed.

Lemma print_ratio_plain n d : 0 <= n -> 0 <= d -> Forall plain (print_ratio n d).
Proof.
  intros Hn Hd; unfold print_ratio; set (x := exponent10 n d).
  set (m := if 0 <=? 5 - x then _ else _).
  assert (Hp : forall k, 0 <= 10 ^ k) by (intros; apply Z.pow_nonneg; lia).
  assert (Hm : 0 <= m).
  { pose proof (Hp (5 - x)); pose proof (Hp (x - 5)); unfold m; split_if; apply round_div_nonneg; nia. }
  assert (Hm' : 0 <= (if m =? 1000000 then (100000, x + 1) else (m, x)).1) by (split_if; cbn; lia).
  destruct (if m =? 1000000 then (100000, x + 1) else (m, x)) as [m' x']; cbn in Hm'; clearbody m x.
  pose proof (div_nonneg m' _ Hm' (Hp (5 - x'))); pose proof (mod_nonneg m' _ Hm' (Hp (5 - x'))).
  pose proof (div_nonneg m' 100000 Hm'); pose proof (mod_nonneg m' 100000 Hm').
  repeat split_if; repeat (apply Forall_app; split);
    try (apply fraction_plain); try (apply Forall_app; split);
    first [by apply dec_plain; lia | by apply pad_dec_plain; lia | apply plain_zeros | by repeat constructor].
Qed.

Lemma print_double_plain f : Forall plain (print_double f).
Proof.
  destruct f as [[]|[]| |s m e]; cbn [print_double]; try by repeat constructor.
  apply Forall_app; split; [destruct s; by repeat constructor|].
  split_if; apply print_ratio_plain; try lia; try (apply Z.pow_nonneg; lia).
Qed.

(** * What is read back *)

Lemma strtoull_dec z : is_u64 z -> strtoull 10 (dec_u64 z) = z.
Proof.
  intros Hz; unfold strtoull, dec_u64; rewrite <- (app_nil_r (print_u 10 z)), strto_print by (done || lia).
  unfold U64_MAX; split_if; lia.
Qed.
Lemma strtoull_hex0x z : is_u64 z -> strtoull 0 (hex0x z) = z.
Proof.
  intros Hz; unfold strtoull, hex0x; rewrite strto0_hex by done.
  unfold U64_MAX; split_if; lia.
Qed.

Definition merge (agg : gmap Z aggregated_hotspot) (s : hotspot_summary) : gmap Z aggregated_hotspot :=
  add_hotspot (su_pc_offset s) (su_sample_count s) (Some (su_candidate_score s)) agg.

(** The entry of one offset is the sum over the summaries of that offset. *)
Definition merged_entry (hs : list hotspot_summary) (off : Z) : option aggregated_hotspot :=
  match filter (fun s => su_pc_offset s = off) hs with
  | [] => None
  | l => Some (mk_agg (u64 (sumZ (su_sample_count <$> l))) (u64 (sumZ (su_candidate_score <$> l))) true)
  end.

Lemma sumZ_nil : sumZ [] = 0.
Proof. done. Qed.
Lemma sumZ_nonneg l : Forall (fun x => 0 <= x) l -> 0 <= sumZ l.
Proof. induction 1 as [|x l Hx _ IH]; [done|]; rewrite sumZ_cons; lia. Qed.
Lemma u64_plus_l x y : u64 (u64 x + y) = u64 (x + y).
Proof. unfold u64; apply Zplus_mod_idemp_l. Qed.

Lemma merge_all hs off : foldl merge ∅ hs !! off = merged_entry hs off.
Proof.
  induction hs as [|s hs IH] using rev_ind; [apply lookup_empty|].
  rewrite foldl_app; cbn [foldl]; unfold merge at 1, add_hotspot; unfold merged_entry in *.
  rewrite filter_app, filter_cons, filter_nil.
  destruct (decide (su_pc_offset s = off)) as [<-|Hne].
  - rewrite lookup_insert_eq, IH; destruct (filter _ hs) as [|h l]; cbn -[u64 sumZ].
    + rewrite !sumZ_cons, !sumZ_nil, !Z.add_0_r; done.
    + unfold upd, add_hotspot; cbn [ag_sample_count ag_candidate_score ag_has_candidate_score].
      rewrite !fmap_app, !sumZ_cons, !sumZ_app, !u64_plus_l; cbn [fmap list_fmap].
      rewrite !sumZ_cons, !sumZ_nil; do 2 f_equal; f_equal; lia.
  - by rewrite lookup_insert_ne, IH, app_nil_r by done.
Qed.

Section roundtrip.
Context (realpath : text -> option text) (main_binary_path : text).
Hypothesis Habs : head main_binary_path = Some "/"%char.
Hypothesis Hreal : realpath main_binary_path = Some main_binary_path.
Hypothesis Hplain : Forall plain main_binary_path.

Lemma normalize_main : normalize_filesystem_path realpath main_binary_path = main_binary_path.
Proof.
  destruct main_binary_path as [|c r] eqn:E; [done|]; cbn in Habs; injection Habs as ->.
  cbn [normalize_filesystem_path]; rewrite ceqb_refl; by rewrite Hreal.
Qed.

Lemma hotspot_line_plain rank s :
  0 <= rank -> summary_wf main_binary_path s ->
  free_of NEWLINE (hotspot_line rank s) /\
  split_tab (drop (length hotspot_prefix) (hotspot_line rank s)) =
    [dec_s (su_tid s); dec_u64 (rank + 1); dec_u64 (su_sample_count s); dec_u64 (su_module_id s);
     hex0x (su_pc_offset s); su_path s; dec_u64 (su_pareto_front s); dec_u64 (su_candidate_score s);
     su_candidate_metric s; print_double (su_avg_mem_latency s); dec_u64 (su_lat_total_sum s);
     dec_u64 (su_lat_issue_sum s); dec_u64 (su_lat_xlat_sum s); dec_u64 (su_lat_exec_sum s);
     dec_u64 (su_l1d_refill_count s); dec_u64 (su_llc_miss_count s); dec_u64 (su_tlb_walk_count s);
     dec_u64 (su_remote_access_count s)].
Proof.
  intros Hr (W1 & W2 & W3 & W4 & W5 & W6 & W7 & W8 & W9 & W10 & W11 & W12 & W13 & W14 & W15).
  unfold hotspot_line; rewrite drop_app_length.
  set (fs := [dec_s _; _; _; _; _; _; _; _; _; _; _; _; _; _; _; _; _; _]).
  assert (Hfs : Forall (Forall plain) fs).
  { assert (Hhex : Forall plain (hex0x (su_pc_offset s))) by
      (apply Forall_app; split; [by repeat constructor|apply hex_plain; lia]).
    assert (Hmet : Forall plain (su_candidate_metric s)) by (destruct W7 as [-> | ->]; by repeat constructor).
    unfold fs; repeat lazymatch goal with
      | |- Forall (Forall _) (_ :: _) => apply Forall_cons_2
      | |- Forall (Forall _) [] => apply Forall_nil_2
      end;
      first [apply dec_s_plain | exact Hhex | exact Hmet | by rewrite W4 | apply print_double_plain | apply dec_plain; lia]. }
  split.
  - apply free_of_app; split; [by repeat constructor|]; clearbody fs; clear -Hfs.
    induction Hfs as [|f fs Hf Hfs IH]; [constructor|]; destruct fs as [|f' fs'].
    + by apply plain_free.
    + change (join TAB (f :: f' :: fs')) with (f ++ TAB :: join TAB (f' :: fs')).
      apply free_of_app; split; [by apply plain_free|by constructor].
  - apply getlines_join; [|apply print_u_nonempty; lia].
    eapply Forall_impl; [exact Hfs|]; intros f Hf; by apply plain_free.
Qed.

Lemma read_hotspot_line rank s agg :
  0 <= rank -> summary_wf main_binary_path s ->
  manifest_line realpath main_binary_path (main_binary_path, agg) (hotspot_line rank s) =
  Ok (main_binary_path, merge agg s).
Proof.
  intros Hr Hwf; destruct (hotspot_line_plain rank s Hr Hwf) as [_ Hsplit].
  unfold manifest_line; change (has_prefix main_binary_prefix (hotspot_line rank s)) with false.
  change (has_prefix hotspot_prefix (hotspot_line rank s)) with true; cbn [negb]; rewrite Hsplit.
  destruct Hwf as (W1 & W2 & W3 & W4 & W5 & W6 & _).
  rewrite W4, normalize_main, (bool_decide_eq_true_2 (main_binary_path = main_binary_path)) by done.
  cbn [negb]; rewrite andb_false_r.
  by rewrite !strtoull_dec, strtoull_hex0x by done.
Qed.

Lemma read_thread_lines hs n agg more :
  Forall (summary_wf main_binary_path) hs ->
  manifest_lines realpath main_binary_path (main_binary_path, agg)
    (imap (fun rank s => hotspot_line (Z.of_nat (n + rank)) s) hs ++ more) =
  manifest_lines realpath main_binary_path (main_binary_path, foldl merge agg hs) more.
Proof.
  intros H; revert n agg; induction H as [|s hs Hs _ IH]; intros n agg; [done|].
  cbn [imap app manifest_lines foldl]; rewrite read_hotspot_line by (done || lia); cbn [rbind].
  rewrite <- (IH (S n)); do 2 f_equal; apply imap_ext; intros i x _; unfold compose.
  by replace (n + S i)%nat with (S n + i)%nat by lia.
Qed.

Lemma read_all_lines hss agg :
  Forall (Forall (summary_wf main_binary_path)) hss ->
  manifest_lines realpath main_binary_path (main_binary_path, agg)
    (concat (imap (fun rank s => hotspot_line (Z.of_nat rank) s) <$> hss)) =
  Ok (main_binary_path, foldl merge agg (concat hss)).
Proof.
  intros H; revert agg; induction H as [|hs hss Hhs _ IH]; intros agg; [done|].
  cbn [fmap list_fmap concat]; rewrite (read_thread_lines hs 0) by done.
  by rewrite foldl_app, IH.
Qed.

Lemma skip_header_line st l more :
  has_prefix main_binary_prefix l = false -> has_prefix hotspot_prefix l = false ->
  manifest_lines realpath main_binary_path st (l :: more) = manifest_lines realpath main_binary_path st more.
Proof. intros H1 H2; cbn [manifest_lines]; unfold manifest_line; rewrite H1, H2; by destruct st. Qed.

Lemma read_main_line old agg more :
  manifest_lines realpath main_binary_path (old, agg) ((main_binary_prefix ++ main_binary_path) :: more) =
  manifest_lines realpath main_binary_path (main_binary_path, agg) more.
Proof.
  cbn [manifest_lines]; unfold manifest_line.
  change (has_prefix main_binary_prefix (main_binary_prefix ++ main_binary_path)) with true; cbn iota.
  by rewrite drop_app_length, normalize_main.
Qed.

Lemma lines_free hss :
  Forall (Forall (summary_wf main_binary_path)) hss ->
  Forall (free_of NEWLINE) (concat (imap (fun rank s => hotspot_line (Z.of_nat rank) s) <$> hss)).
Proof.
  intros H; apply Forall_concat, Forall_fmap; eapply Forall_impl; [exact H|]; intros hs Hhs.
  apply Forall_lookup_2; intros i l Hl; rewrite list_lookup_imap in Hl; cbn.
  apply fmap_Some in Hl as (s & Hs & ->); apply (hotspot_line_plain _ s); [lia|].
  by apply (Forall_lookup_1 _ _ _ _ Hhs Hs).
Qed.

End roundtrip.

Lemma thread_lines_fmap maps top_k ms ml h (tids : list Z) :
  thread_lines maps top_k ms ml h <$> tids =
  imap (fun rank s => hotspot_line (Z.of_nat rank) s) <$>
    (collect_hotspots_for_thread maps top_k ms ml h <$> tids).
Proof. by rewrite <- list_fmap_compose. Qed.

(** Reading the printed file back, for the samples of a run. *)
Lemma written_manifest_reads realpath maps top_k min_samples min_latency main samples tids proc_maps :
  head main = Some "/"%char -> realpath main = Some main -> Forall plain main -> 0 <= top_k ->
  snapshot_module_maps realpath true (Some proc_maps) [] = Ok maps -> zlen maps < 4294967296 ->
  let h := record_all true maps main samples (mk_hot_state ∅ 0) in
  let selected := concat (collect_hotspots_for_thread maps top_k min_samples min_latency h <$> tids) in
  exists lines,
    write_hotspot_manifest maps top_k min_samples min_latency main true true tids h = Some lines /\
    manifest_lines realpath main ([], ∅) (getlines NEWLINE (file_of lines)) = Ok (main, foldl merge ∅ selected).
Proof.
  intros Habs Hreal Hplain Hk Hmaps Hlen h selected; eexists; split; [reflexivity|].
  assert (Hidx : maps_indexed maps).
  { injection Hmaps as <-; by apply module_maps_indexed. }
  assert (Hwf : table_wf maps main h).
  { apply record_all_wf; [done|]; split; [cbn; lia|]; intros * H; cbn in H; by rewrite lookup_empty in H. }
  assert (Hsel : Forall (Forall (summary_wf main))
    (collect_hotspots_for_thread maps top_k min_samples min_latency h <$> tids)).
  { apply Forall_fmap, Forall_true; intros tid; by apply collected_wf. }
  unfold file_of; rewrite getlines_concat.
  - rewrite thread_lines_fmap; cbn [app]; do 3 rewrite skip_header_line by reflexivity; rewrite read_main_line by done.
    do 5 rewrite skip_header_line by reflexivity; by apply read_all_lines.
  - apply Forall_app; split.
    + repeat lazymatch goal with
        | |- Forall (free_of _) (_ :: _) => apply Forall_cons_2
        | |- Forall (free_of _) [] => apply Forall_nil_2
        | |- free_of _ (txt _ ++ _) => apply free_of_app; split
        | |- free_of _ (main_binary_prefix ++ _) => apply free_of_app; split
        end;
        try (apply plain_free, dec_plain); try by repeat constructor.
      * by apply plain_free.
      * apply sumZ_nonneg; apply Forall_fmap, Forall_true; intros; cbn; lia.
      * destruct Hwf as [? _]; lia.
    + rewrite thread_lines_fmap; by apply (lines_free main).
Qed.

(** C24. What phase one writes, phase two reads: parsing the file that
    [write_hotspot_manifest] prints for the samples of a run succeeds, finds the
    same main binary, and gives each offset the total of the sample counts and of
    the candidate scores, modulo 2^64, of the selected hotspots with that offset,
    over all threads; an offset that was not selected is absent. *)
Theorem manifest_roundtrip (realpath : text -> option text) (maps : list module_map_entry)
    (top_k min_samples min_latency : Z) (main : text) (samples : list (Z * spe_instruction_sample))
    (tids : list Z) (proc_maps : text)
    (Habs : head main = Some "/"%char) (Hreal : realpath main = Some main) (Hplain : Forall plain main)
    (Hk : 0 <= top_k)
    (Hmaps : snapshot_module_maps realpath true (Some proc_maps) [] = Ok maps)
    (Hlen : zlen maps < 4294967296) :
  let h := record_all true maps main samples (mk_hot_state ∅ 0) in
  let selected := concat (collect_hotspots_for_thread maps top_k min_samples min_latency h <$> tids) in
  exists lines aggregated,
    write_hotspot_manifest maps top_k min_samples min_latency main true true tids h = Some lines /\
    manifest_lines realpath main ([], ∅) (getlines NEWLINE (file_of lines)) = Ok (main, aggregated) /\
    forall off, aggregated !! off = merged_entry selected off.
Proof.
  destruct (written_manifest_reads realpath maps top_k min_samples min_latency main samples tids proc_maps)
    as (lines & Hw & Hr); [done..|].
  exists lines; eexists; split_and!; [exact Hw|exact Hr|]; intros off; apply merge_all.
Qed.

(** * A small run *)

Definition run_maps : text := maps_text (demo_map 187650000000000).
Definition run_modules : list module_map_entry :=
  module_maps_from demo_realpath [] (getlines NEWLINE run_maps).
Definition run_samples : list (Z * spe_instruction_sample) :=
  [(7, demo_sample 187650000000564 10); (7, demo_sample 187650000000568 90); (8, demo_sample 187650000000564 20)].

Lemma manifest_roundtrip_witness :
  let h := record_all true run_modules (txt "/bin/a.out") run_samples (mk_hot_state ∅ 0) in
  exists lines aggregated,
    write_hotspot_manifest run_modules 12 1 1 (txt "/bin/a.out") true true [7; 8] h = Some lines /\
    manifest_lines demo_realpath (txt "/bin/a.out") ([], ∅) (getlines NEWLINE (file_of lines)) =
      Ok (txt "/bin/a.out", aggregated) /\
    forall off, aggregated !! off = merged_entry
      (concat (collect_hotspots_for_thread run_modules 12 1 1 h <$> [7; 8])) off.
Proof.
  apply (manifest_roundtrip demo_realpath run_modules 12 1 1 (txt "/bin/a.out") run_samples [7; 8] run_maps).
  - reflexivity.
  - reflexivity.
  - by repeat constructor.
  - lia.
  - reflexivity.
  - vm_compute; reflexivity.
Defined.

(** The manifest of that run, and the targets phase two makes of it: offset 4660
    was sampled by both threads and decodes, offset 4664 is an unsupported load
    pair. *)
Definition run_manifest : text :=
  default [] (file_of <$> write_hotspot_manifest run_modules 12 1 1 (txt "/bin/a.out") true true [7; 8]
    (record_all true run_modules (txt "/bin/a.out") run_samples (mk_hot_state ∅ 0))).

Definition run_popen (cmd : text) : option (text * Z) :=
  Some (concat ((fun l => l ++ [NEWLINE]) <$>
    [txt "0000000000001234 <f+0x10>:";
     objdump_line 4660 (txt "f8627820") (txt "ldr") (txt "x0, [x1, x2, lsl #3]");
     objdump_line 4664 (txt "a9400c22") (txt "ldp") (txt "x2, x3, [x1]")]), 0).

Definition run_targets : target_table :=
  mk_table 2 0
    [mk_hot_target 4660 187650000000564 2 (txt "/bin/a.out") (txt "ldr") (txt "x0, [x1, x2, lsl #3]")
      (mk_template 8 1 false false 0 true 2 false false EXT_LSL 3)]
    [mk_rejected 4664 1 (txt "unsupported hotspot instruction 'ldp' at 0x1238")].

Example run_loads :
  load_targets demo_realpath run_popen (Some run_maps) (txt "/bin/a.out") (txt "run.hotpc") 6 (Some run_manifest) =
  Ok run_targets.
Proof. vm_compute; reflexivity. Qed.

Lemma load_targets_selects_hottest_witness :
  exists main aggregated order n,
    manifest_lines demo_realpath (txt "/bin/a.out") ([], ∅) (getlines NEWLINE run_manifest) = Ok (main, aggregated) /\
    (main = [] \/ main = txt "/bin/a.out") /\
    order ≡ₚ map_to_list aggregated /\ StronglySorted at_least_as_hot order /\
    tt_targets run_targets = chosen_of demo_realpath run_popen (Some run_maps) (txt "/bin/a.out") (take n order) /\
    tt_rejected_targets run_targets =
      rejected_of demo_realpath run_popen (Some run_maps) (txt "/bin/a.out") (take n order) /\
    1 <= zlen (tt_targets run_targets) <= 6 /\
    ((n < length order)%nat -> zlen (tt_targets run_targets) = 6) /\
    Forall (fun r => is_filterable_hotspot_error (rj_reason r) = true) (tt_rejected_targets run_targets) /\
    Forall (fun t => resolve_absolute_pc demo_realpath (Some run_maps) (txt "/bin/a.out") (ht_pc_offset t) =
                     Ok (ht_abs_pc t)) (tt_targets run_targets) /\
    (zlen order <= UINT32_MAX ->
     tt_candidate_target_count run_targets = zlen order /\
     tt_candidate_target_count run_targets =
       zlen (tt_targets run_targets) + zlen (tt_rejected_targets run_targets) +
       tt_capacity_truncated_target_count run_targets).
Proof.
  apply (load_targets_selects_hottest demo_realpath run_popen (Some run_maps) (txt "/bin/a.out")
    (txt "run.hotpc") 6 run_manifest run_targets); [lia|vm_compute; reflexivity].
Defined.

End Manifest.
