(* ===== verification/Pipeline.v ===== *)
(** From phase one to phase two: the sampled program counters of a profiled run
    are written to the manifest by [src/monitor.cc] and, in a later run of the same
    binary that the loader placed elsewhere, become the breakpoint addresses of
    [src/targeted_rd.cc].  The theorem follows a sample through the module maps,
    the hotspot table, the selection, the text of the manifest, the merge by
    offset, the choice of targets and the relocation. *)
From S2P Require Import Prelude Uapi EffAddr CText AsmDecode Objdump ProcMaps Hotspots SpePacket.
From S2P Require Import LoadTargets Manifest.
Import AsmDecode Objdump ProcMaps Hotspots LoadTargets Manifest.

Module Pipeline.

(** * Two runs of one binary *)

Section relocation.
Context (realpath : text -> option text) (main : text).

(** [m] is an executable mapping of the main binary. *)
Definition main_segment (ms : list mapping) (m : mapping) : Prop :=
  In m ms /\ executable m = true /\ normalize_filesystem_path realpath (mp_path m) = main.

(** The second run maps the executable segments of the first, [delta] further up,
    and no two of them hold the same file offset. *)
Record relocated (ms1 ms2 : list mapping) (delta : Z) : Prop := {
  rl_moved : forall m1, main_segment ms1 m1 -> exists m2, main_segment ms2 m2 /\
    mp_offset m2 = mp_offset m1 /\ mp_start m2 = mp_start m1 + delta /\ mp_end m2 = mp_end m1 + delta;
  rl_disjoint : forall off m m', In m ms2 -> In m' ms2 ->
    holds_offset realpath main off m = true -> holds_offset realpath main off m' = true -> m = m';
}.

(** The file offset of an address in a segment. *)
Definition offset_in (m : mapping) (pc : Z) : Z := mp_offset m + (pc - mp_start m).

Lemma holds_offset_in ms m1 m2 pc delta :
  main_segment ms m2 -> covers pc m1 = true -> mp_offset m2 = mp_offset m1 ->
  mp_start m2 = mp_start m1 + delta -> mp_end m2 = mp_end m1 + delta ->
  holds_offset realpath main (offset_in m1 pc) m2 = true.
Proof.
  intros (_ & Hx & Hp) Hc E1 E2 E3; unfold covers in Hc; apply andb_prop in Hc as [[_ Hlo]%andb_prop Hhi].
  unfold holds_offset, offset_in; rewrite Hx, Hp, bool_decide_true by done; cbn [andb]; lia.
Qed.

Context (ms1 ms2 : list mapping) (delta : Z).
Hypothesis Hrel : relocated ms1 ms2 delta.

(** The offset determines the address. *)
Lemma offset_in_inj m m' pc pc' :
  main_segment ms1 m -> main_segment ms1 m' -> covers pc m = true -> covers pc' m' = true ->
  offset_in m pc = offset_in m' pc' -> pc = pc'.
Proof.
  intros Hm Hm' Hc Hc' E.
  destruct (rl_moved _ _ _ Hrel m Hm) as (n & Hn & A1 & A2 & A3).
  destruct (rl_moved _ _ _ Hrel m' Hm') as (n' & Hn' & B1 & B2 & B3).
  assert (n = n') as <-.
  { apply (rl_disjoint _ _ _ Hrel (offset_in m pc)); [apply Hn|apply Hn'|by eapply holds_offset_in|].
    rewrite E; by eapply holds_offset_in. }
  unfold offset_in in E; lia.
Qed.

Lemma resolve_relocated m pc :
  Forall mapping_wf ms1 -> Forall mapping_wf ms2 -> main_segment ms1 m -> covers pc m = true ->
  resolve_absolute_pc realpath (Some (maps_text ms2)) main (offset_in m pc) = Ok (pc + delta).
Proof.
  intros Hwf1 Hwf2 Hm Hc; destruct (rl_moved _ _ _ Hrel m Hm) as (n & Hn & A1 & A2 & A3).
  pose proof (holds_offset_in _ _ _ _ _ Hn Hc A1 A2 A3) as Hh.
  assert (Hu : is_u64 (offset_in m pc)).
  { destruct Hm as (Hin & _); apply list_elem_of_In in Hin; rewrite Forall_forall in Hwf1.
    destruct (Hwf1 m Hin) as (? & ? & ? & ? & ? & _).
    unfold covers in Hc; apply andb_prop in Hc as [[_ ?]%andb_prop ?]; unfold offset_in; lia. }
  rewrite resolve_print by done; destruct (List.find _ ms2) as [m3|] eqn:E.
  - apply List.find_some in E as [Hin Hh']; destruct Hn as (Hin2 & Hn).
    rewrite (rl_disjoint _ _ _ Hrel _ m3 n Hin Hin2 Hh' Hh); unfold offset_in; f_equal; lia.
  - destruct Hn as (Hin2 & _); by rewrite (List.find_none _ _ E n Hin2) in Hh.
Qed.

End relocation.

(** * Where the entries of the hotspot table come from *)

Section table.
Context (realpath : text -> option text) (main : text) (ms : list mapping) (maps : list module_map_entry).
Hypothesis Habs : head main = Some "/"%char.
Hypothesis Hwf : Forall mapping_wf ms.
Hypothesis Hmaps : snapshot_module_maps realpath true (Some (maps_text ms)) [] = Ok maps.

(** A sample that is filed lies in an executable segment of the main binary, and
    its key holds the file offset. *)
Lemma sample_key_segment tid s t id off :
  sample_key true maps main tid s = Some (t, (id, off)) ->
  exists m, main_segment realpath main ms m /\ covers (sm_pc s) m = true /\ off = offset_in m (sm_pc s).
Proof.
  unfold sample_key; destruct (usable _ _ _); [|done]; unfold snapshot_module_maps in Hmaps; cbn [negb] in Hmaps.
  rewrite maps_text_lines in Hmaps by done; injection Hmaps as <-.
  pose proof (find_in_snapshot realpath [] ms (sm_pc s) Hwf) as Hf; cbn [find_module_map] in Hf.
  destruct (List.find (covers (sm_pc s)) ms) as [m|] eqn:E; [|by rewrite Hf].
  apply List.find_some in E as [Hin Hc]; destruct Hf as [i ->].
  destruct (is_main_binary_module main _) eqn:Em; [|done]; intros [= _ _ <-]; exists m.
  pose proof Hc as Hc'; unfold covers in Hc'; apply andb_prop in Hc' as [[Hx Hlo]%andb_prop Hhi].
  unfold is_main_binary_module in Em; apply andb_prop in Em as [_ Em]; apply bool_decide_eq_true in Em; cbn in Em.
  split_and!; [split_and!; [done..|]|done|].
  - unfold effective_path in Em; destruct (mp_path m); [by rewrite <- Em in Habs|done].
  - rewrite Forall_forall in Hwf; apply list_elem_of_In in Hin; destruct (Hwf m Hin) as (? & ? & ? & ? & ? & _).
    unfold hotspot_offset, entry_of, offset_in; cbn [mm_vm_start mm_file_offset].
    rewrite (u64_id (sm_pc s - mp_start m)), u64_id by lia; lia.
Qed.

(** Only samples make entries. *)
Lemma record_all_entry l : forall h tid table k st,
  thread_hotspots (record_all true maps main l h) !! tid = Some table -> table !! k = Some st ->
  samples_of true maps main l tid k <> [] \/
  exists table0 st0, thread_hotspots h !! tid = Some table0 /\ table0 !! k = Some st0.
Proof.
  induction l as [|[t s] l IH]; intros h tid table k st Ht Hk; [right; eauto|].
  unfold samples_of; rewrite filter_cons; cbn [fst snd]; case_decide as Hd; [by left|].
  destruct (IH _ _ _ _ _ Ht Hk) as [?|(table0 & st0 & Ht0 & Hk0)]; [by left|right].
  cbn [fst snd] in Ht0; revert Ht0; unfold record_hotspot_sample; destruct (_ || _) eqn:Eu; [eauto|].
  destruct (find_module_map maps (sm_pc s)) as [e|] eqn:Ef; [|cbn; eauto].
  destruct (is_main_binary_module main e) eqn:Em; cbn [negb]; [|eauto]; cbn.
  destruct (decide (t = tid)) as [->|Hne]; [|rewrite lookup_insert_ne by done; eauto].
  rewrite lookup_insert_eq; intros [= <-].
  destruct (decide ((mm_module_id e, hotspot_offset e (sm_pc s)) = k)) as [<-|Hnk].
  - destruct Hd; unfold sample_key, usable; apply orb_false_elim in Eu as [[[_ E1]%orb_false_elim E2]%orb_false_elim E3].
    rewrite Ef, Em, E2; apply negb_false_iff in E3; rewrite E3; cbn [andb negb]; by replace (0 <? tid) with true by lia.
  - rewrite lookup_insert_ne in Hk0 by done; destruct (thread_hotspots h !! tid) as [tb|]; cbn in Hk0; [eauto|].
    by rewrite lookup_empty in Hk0.
Qed.

(** Samples filed under different entries are different samples. *)
Lemma filed_disjoint (p : Z * spe_instruction_sample -> bool) (keys : list (Z * hotspot_key)) l :
  NoDup keys ->
  (forall ts k, k ∈ keys -> sample_key true maps main ts.1 ts.2 = Some k -> p ts = true) ->
  sumZ ((fun k => zlen (samples_of true maps main l k.1 k.2)) <$> keys) <= zcount p l.
Proof.
  intros Hnd Hp; induction l as [|ts l IH].
  { rewrite sumZ_zero; [done|]; apply Forall_fmap, Forall_true; done. }
  rewrite zcount_cons; transitivity ((if p ts then 1 else 0) + sumZ ((fun k => zlen (samples_of true maps main l k.1 k.2)) <$> keys)); [|lia].
  clear IH; induction Hnd as [|k keys Hk Hnd IH]; [cbn; destruct (p ts); done|].
  cbn [fmap list_fmap]; rewrite !sumZ_cons; unfold samples_of at 1; rewrite filter_cons.
  destruct k as [t k]; cbn [fst snd]; case_decide as Hd.
  - rewrite (Hp ts (t, k)) by (done || left); cbn [fmap list_fmap length].
    fold (samples_of true maps main l t k); rewrite Nat2Z.inj_succ.
    enough (E : (fun k => zlen (samples_of true maps main (ts :: l) k.1 k.2)) <$> keys =
                (fun k => zlen (samples_of true maps main l k.1 k.2)) <$> keys) by (rewrite E; lia).
    apply list_fmap_ext; intros i [t' k'] Hi%list_elem_of_lookup_2; cbn [fst snd]; unfold samples_of; rewrite filter_cons.
    rewrite decide_False; [done|]; rewrite Hd; by intros [= -> ->].
  - fold (samples_of true maps main l t k).
    specialize (IH (fun ts k Hk => Hp ts k (proj2 (elem_of_cons _ _ _) (or_intror Hk)))); lia.
Qed.

(** * The selected hotspots *)

Context (samples : list (Z * spe_instruction_sample)) (top_k min_samples min_latency : Z).
Hypothesis Hidx : maps_indexed maps.
Hypothesis Hlen : zlen maps < 4294967296.
Hypothesis Hn : zlen samples < 18446744073709551616.

Abbreviation hot := (record_all true maps main samples (mk_hot_state ∅ 0)).
Abbreviation collect := (collect_hotspots_for_thread maps top_k min_samples min_latency hot).
Abbreviation filed := (samples_of true maps main samples).

Definition summary_key (s : hotspot_summary) : Z * hotspot_key := (su_tid s, (su_module_id s, su_pc_offset s)).

Lemma samples_of_length tid k : zlen (filed tid k) <= zlen samples.
Proof. unfold samples_of; rewrite length_fmap; pose proof (length_filter (fun ts => sample_key true maps main ts.1 ts.2 = Some (tid, k)) samples); lia. Qed.

Lemma hot_wf : table_wf maps main hot.
Proof. apply record_all_wf; [done..|]; split; [cbn; lia|]; intros * H; cbn in H; by rewrite lookup_empty in H. Qed.

(** What a selected hotspot counts. *)
Lemma collected_count tid s : s ∈ collect tid ->
  su_tid s = tid /\ su_sample_count s = zlen (filed tid (su_module_id s, su_pc_offset s)) /\ 1 <= su_sample_count s.
Proof.
  unfold collect_hotspots_for_thread; destruct (thread_hotspots hot !! tid) as [table|] eqn:E; [|by intros ?%not_elem_of_nil].
  rewrite collect_take_ranking; intros [i [Hs _]%lookup_take_Some]%list_elem_of_lookup; apply list_elem_of_lookup_2 in Hs.
  rewrite ranking_perm in Hs; apply list_elem_of_fmap in Hs as (y & -> & Hy).
  apply list_elem_of_fmap in Hy as ([[m o] st] & -> & Hin); apply elem_of_map_to_list in Hin; cbn.
  split; [done|].
  pose proof (record_all_count true maps main samples tid (m, o)) as Hc; unfold stats_at in Hc; rewrite E in Hc; cbn in Hc.
  rewrite Hin in Hc; cbn in Hc.
  destruct (record_all_entry samples (mk_hot_state ∅ 0) tid table (m, o) st E Hin) as [Hne|(? & ? & H0 & _)];
    [|cbn in H0; by rewrite lookup_empty in H0].
  destruct (proj2 hot_wf _ _ _ _ E Hin) as ((Hu & _) & _); unfold u64_ok in Hu.
  pose proof (samples_of_length tid (m, o)); assert (Hne' : (0 < length (filed tid (m, o)))%nat).
  { destruct (filed tid (m, o)); [done|cbn; lia]. }
  assert (E' : hst_sample_count st = zlen (filed tid (m, o))); [|lia].
  apply eqm64_u64 in Hc; by rewrite !u64_id in Hc by lia.
Qed.

Lemma collected_keys tid : NoDup (summary_key <$> collect tid).
Proof.
  unfold collect_hotspots_for_thread; destruct (thread_hotspots hot !! tid) as [table|]; [|constructor].
  rewrite collect_take_ranking, fmap_take; eapply sublist_NoDup; [|apply sublist_take].
  rewrite ranking_perm, <- !list_fmap_compose.
  rewrite (list_fmap_ext _ (pair tid ∘ fst)), list_fmap_compose by (by intros i [[m o] st] _).
  apply NoDup_fmap_2; [by intros ? ? [= ->]|apply NoDup_fst_map_to_list].
Qed.

Lemma all_keys tids : NoDup tids -> NoDup (summary_key <$> concat (collect <$> tids)).
Proof.
  induction 1 as [|tid tids Hni _ IH]; [constructor|]; cbn [fmap list_fmap concat]; rewrite fmap_app.
  apply NoDup_app; split_and!; [apply collected_keys| |exact IH].
  intros k (s & -> & Hs)%list_elem_of_fmap (s' & E & Hs')%list_elem_of_fmap; destruct Hni.
  apply collected_count in Hs as [Ht _].
  apply list_elem_of_In, in_concat in Hs' as (l & Hl & Hs'); apply list_elem_of_In in Hl, Hs'.
  apply list_elem_of_fmap in Hl as (tid' & -> & Hl); apply collected_count in Hs' as [Ht' _].
  unfold summary_key in E; injection E as E _ _; congruence.
Qed.

End table.

(** * From samples to breakpoints *)

Lemma merged_offset hs off a : merged_entry hs off = Some a -> off ∈ su_pc_offset <$> hs.
Proof.
  unfold merged_entry; destruct (filter _ hs) as [|s l] eqn:E; [done|]; intros _.
  assert (Hs : s ∈ filter (fun s => su_pc_offset s = off) hs) by (rewrite E; left).
  apply list_elem_of_filter in Hs as [<- Hs]; by apply list_elem_of_fmap_2.
Qed.
Lemma merged_offset_inv hs off : off ∈ su_pc_offset <$> hs -> exists a, merged_entry hs off = Some a.
Proof.
  intros (s & -> & Hs)%list_elem_of_fmap; unfold merged_entry.
  assert (Hf : s ∈ filter (fun x => su_pc_offset x = su_pc_offset s) hs) by by apply list_elem_of_filter.
  destruct (filter _ hs); [by apply not_elem_of_nil in Hf|eauto].
Qed.

Section pipeline.
Context (realpath : text -> option text) (popen : text -> option (text * Z)) (main : text).
Context (ms1 ms2 : list mapping) (delta : Z) (maps : list module_map_entry).
Context (samples : list (Z * spe_instruction_sample)) (tids : list Z) (top_k min_samples min_latency : Z).
Hypothesis Habs : head main = Some "/"%char.
Hypothesis Hwf1 : Forall mapping_wf ms1.
Hypothesis Hwf2 : Forall mapping_wf ms2.
Hypothesis Hrel : relocated realpath main ms1 ms2 delta.
Hypothesis Hmaps : snapshot_module_maps realpath true (Some (maps_text ms1)) [] = Ok maps.
Hypothesis Hlen : zlen maps < 4294967296.
Hypothesis Hn : zlen samples < 18446744073709551616.
Hypothesis Htids : NoDup tids.

Abbreviation hot := (record_all true maps main samples (mk_hot_state ∅ 0)).
Abbreviation collect := (collect_hotspots_for_thread maps top_k min_samples min_latency hot).
Abbreviation all_selected := (concat (collect <$> tids)).
Abbreviation taken_at pc := (zcount (fun ts => sm_pc ts.2 =? pc) samples).

Lemma run_indexed : maps_indexed maps.
Proof. pose proof Hmaps as [= <-]; by apply module_maps_indexed. Qed.

Lemma selected_count s : s ∈ all_selected ->
  su_sample_count s = zlen (samples_of true maps main samples (su_tid s) (su_module_id s, su_pc_offset s)) /\
  1 <= su_sample_count s.
Proof.
  intros (l & Hl & Hs)%list_elem_of_In%in_concat; apply list_elem_of_In in Hl, Hs.
  apply list_elem_of_fmap in Hl as (tid & -> & _).
  by apply collected_count in Hs as (-> & ? & ?); [|apply run_indexed|..].
Qed.

(** A selected offset is that of a sampled instruction. *)
Lemma selected_sampled s : s ∈ all_selected ->
  exists m pc, main_segment realpath main ms1 m /\ covers pc m = true /\ su_pc_offset s = offset_in m pc.
Proof.
  intros [Ec Hc]%selected_count; destruct (samples_of _ _ _ _ _ _) as [|x xs] eqn:Es in Ec; [cbn in Ec; lia|].
  assert (Hx : x ∈ samples_of true maps main samples (su_tid s) (su_module_id s, su_pc_offset s)) by (rewrite Es; left).
  apply list_elem_of_fmap in Hx as ([t y] & -> & [Hk _]%list_elem_of_filter); cbn in Hk.
  apply (sample_key_segment realpath main ms1) in Hk as (m & Hm & Hcov & Eoff); eauto.
Qed.

(** The hotspots of one offset count samples of its instruction, each once. *)
Lemma selected_sum m pc l :
  main_segment realpath main ms1 m -> covers pc m = true -> l `sublist_of` all_selected ->
  Forall (fun s => su_pc_offset s = offset_in m pc) l -> sumZ (su_sample_count <$> l) <= taken_at pc.
Proof.
  intros Hm Hc Hl Ho.
  rewrite (list_fmap_ext _ ((fun k => zlen (samples_of true maps main samples k.1 k.2)) ∘ summary_key)).
  2: { intros i s Hi; apply (selected_count s); eapply elem_of_submseteq; [|by apply sublist_submseteq].
       by apply list_elem_of_lookup_2 in Hi. }
  rewrite list_fmap_compose; apply filed_disjoint.
  - eapply sublist_NoDup; [|apply (fmap_sublist summary_key), Hl].
    apply all_keys; [exact run_indexed|done..].
  - intros [t s] k (x & -> & Hx)%list_elem_of_fmap Hk.
    apply (sample_key_segment realpath main ms1) in Hk as (m' & Hm' & Hc' & E); [|done..]; cbn [snd] in *.
    rewrite Forall_forall in Ho; rewrite (Ho x Hx) in E; apply Z.eqb_eq; symmetry.
    by apply (offset_in_inj realpath main ms1 ms2 delta Hrel m m').
Qed.

(** A merged offset is that of a sampled instruction, and its count is of samples
    of that instruction. *)
Lemma merged_is_sampled off a : merged_entry all_selected off = Some a ->
  exists m pc, main_segment realpath main ms1 m /\ covers pc m = true /\ off = offset_in m pc /\
    1 <= ag_sample_count a <= taken_at pc.
Proof.
  unfold merged_entry; set (l := filter (fun s => su_pc_offset s = off) all_selected).
  assert (Hl : Forall (fun s => s ∈ all_selected /\ su_pc_offset s = off) l).
  { apply Forall_forall; intros s Hs; by apply list_elem_of_filter in Hs as [? ?]. }
  assert (Hsub : l `sublist_of` all_selected) by apply sublist_filter; clearbody l.
  destruct l as [|s0 l']; [done|]; intros [= <-]; cbn [ag_sample_count].
  destruct (Forall_cons_1 _ _ _ Hl) as [[Hs0 Ho] Hl'], (selected_sampled s0 Hs0) as (m & pc & Hm & Hc & E).
  exists m, pc; rewrite Ho in E; do 3 (split; [done|]).
  pose proof (selected_sum m pc (s0 :: l') Hm Hc Hsub) as Hle; rewrite <- E in Hle.
  specialize (Hle (Forall_impl _ _ _ Hl (fun s H => proj2 H))).
  pose proof (zcount_range (fun ts => sm_pc ts.2 =? pc) samples).
  assert (H0 : 0 <= sumZ (su_sample_count <$> l')).
  { apply sumZ_nonneg, Forall_fmap; eapply Forall_impl; [exact Hl'|]; intros s [[_ ?]%selected_count _]; cbn; lia. }
  destruct (selected_count s0 Hs0); rewrite fmap_cons, sumZ_cons in Hle.
  change (1 <= u64 (su_sample_count s0 + sumZ (su_sample_count <$> l')) <= taken_at pc); rewrite u64_id; lia.
Qed.

(** Merging keeps what can be resolved: a candidate fails only where the decoder
    does, and a target stands for a sampled instruction. *)
Lemma merged_make off a : merged_entry all_selected off = Some a ->
  exists pc, 1 <= ag_sample_count a <= taken_at pc /\
    make_target realpath popen (Some (maps_text ms2)) main (off, a) =
    rbind (decode_target_via_objdump popen main off (ag_sample_count a))
      (fun t => Ok (t ⟦ ht_abs_pc := pc + delta ⟧)).
Proof.
  intros (m & pc & Hm & Hc & -> & Ha)%merged_is_sampled; exists pc; split; [done|]; unfold make_target; cbn [fst snd].
  destruct (decode_target_via_objdump _ _ _ _); [|done]; cbn [rbind].
  by rewrite (resolve_relocated realpath main ms1 ms2 delta Hrel).
Qed.

End pipeline.

(** C29. From a sample to a breakpoint.  Phase one samples a run, files the samples
    by file offset, selects hotspots per thread and prints the manifest.  Phase two
    runs the same binary, which the loader placed [delta] further up, and loads the
    manifest.  If the disassembler decodes one selected offset and fails on the
    others only in the ways that are filtered, the load succeeds, with at least one
    and at most [bp_capacity] targets, and every target's address is the address of
    a sampled instruction moved by [delta], with a sample count that is at least
    one and at most the number of samples of that instruction. *)
Theorem breakpoints_are_sampled_instructions (realpath : text -> option text) (popen : text -> option (text * Z))
    (main target_file : text) (ms1 ms2 : list mapping) (delta : Z) (maps : list module_map_entry)
    (samples : list (Z * spe_instruction_sample)) (tids : list Z)
    (top_k min_samples min_latency bp_capacity : Z)
    (Habs : head main = Some "/"%char) (Hreal : realpath main = Some main) (Hplain : Forall plain main)
    (Hk : 0 <= top_k) (Hcap : 0 < bp_capacity)
    (Hwf1 : Forall mapping_wf ms1) (Hwf2 : Forall mapping_wf ms2)
    (Hrel : relocated realpath main ms1 ms2 delta)
    (Hmaps : snapshot_module_maps realpath true (Some (maps_text ms1)) [] = Ok maps)
    (Hlen : zlen maps < 4294967296) (Hn : zlen samples < 18446744073709551616) (Htids : NoDup tids) :
  let h := record_all true maps main samples (mk_hot_state ∅ 0) in
  let selected := concat (collect_hotspots_for_thread maps top_k min_samples min_latency h <$> tids) in
  let decode off n := decode_target_via_objdump popen main off n in
  (forall off n e, off ∈ su_pc_offset <$> selected -> decode off n = Throw e -> is_filterable_hotspot_error e = true) ->
  (exists off, off ∈ su_pc_offset <$> selected /\ forall n, exists t, decode off n = Ok t) ->
  exists lines tbl,
    write_hotspot_manifest maps top_k min_samples min_latency main true true tids h = Some lines /\
    load_targets realpath popen (Some (maps_text ms2)) main target_file bp_capacity (Some (file_of lines)) = Ok tbl /\
    1 <= zlen (tt_targets tbl) <= bp_capacity /\
    Forall (fun t => exists pc, ht_abs_pc t = pc + delta /\
              1 <= ht_aggregated_samples t <= zcount (fun ts => sm_pc ts.2 =? pc) samples) (tt_targets tbl).
Proof.
  intros h selected decode Hfilter (off0 & Hoff0 & Hdec0).
  destruct (written_manifest_reads realpath maps top_k min_samples min_latency main samples tids (maps_text ms1))
    as (lines & Hw & Hr); [done..|]; fold h selected in Hw, Hr.
  assert (Hmake := merged_make realpath popen main ms1 ms2 delta maps samples tids top_k min_samples min_latency
    Habs Hwf1 Hwf2 Hrel Hmaps Hlen Hn Htids); fold h selected in Hmake.
  apply (load_targets_ok realpath popen (Some (maps_text ms2)) main target_file bp_capacity) in Hr as (tbl & Hl & Hz & Ht).
  - exists lines, tbl; split_and!; [done..|lia|lia|]; eapply Forall_impl; [exact Ht|]; intros t (k & v & Hkv & Hm).
    rewrite merge_all in Hkv; apply Hmake in Hkv as (pc & Hc & E); exists pc.
    rewrite E in Hm; apply rbind_Ok in Hm as (t0 & (_ & Hc' & _)%decode_target_fields & [= <-]).
    split; [done|]; cbn; by rewrite Hc'.
  - done.
  - intros k v e Hkv Hm; rewrite merge_all in Hkv; pose proof (merged_offset _ _ _ Hkv) as Hin.
    apply Hmake in Hkv as (pc & _ & E); rewrite E in Hm.
    unfold decode in Hfilter; destruct (decode_target_via_objdump _ _ _ _) eqn:Ed; [done|]; injection Hm as ->; eauto.
  - apply merged_offset_inv in Hoff0 as [v Hv]; rewrite <- merge_all in Hv; exists off0, v.
    destruct (Hdec0 (ag_sample_count v)) as [t Hd]; pose proof Hv as Hv'; rewrite merge_all in Hv'.
    apply Hmake in Hv' as (pc & _ & E); unfold decode in Hd; rewrite Hd in E.
    eexists; split; [exact Hv|exact E].
Qed.

(** * A small run

    The binary of [Manifest.run_samples], loaded again at another address. *)

Definition second_base : Z := 93824992231424.
Definition shift : Z := second_base - 187650000000000.

Lemma run_relocated : relocated demo_realpath (txt "/bin/a.out") (demo_map 187650000000000) (demo_map second_base) shift.
Proof.
  split.
  - intros m ([<-|[<-|[<-|[]]]] & Hx & Hp); [discriminate| |discriminate].
    exists (mk_mapping second_base (second_base + 8192) (txt "r-xp") 4096 (txt "08:01") (txt "42") 20 (txt "/bin/a.out")).
    split; [split_and!; [right; left; reflexivity|reflexivity|reflexivity]|split_and!; reflexivity].
  - intros off m m' [<-|[<-|[<-|[]]]] [<-|[<-|[<-|[]]]] H H'; done.
Qed.

Definition run_selected : list hotspot_summary :=
  concat (collect_hotspots_for_thread run_modules 12 1 1
    (record_all true run_modules (txt "/bin/a.out") run_samples (mk_hot_state ∅ 0)) <$> [7; 8]).

Lemma run_offsets : su_pc_offset <$> run_selected = [4664; 4660; 4660].
Proof. vm_compute; reflexivity. Qed.

Lemma run_decodes n : exists t, decode_target_via_objdump run_popen (txt "/bin/a.out") 4660 n = Ok t.
Proof. eexists; vm_compute; reflexivity. Qed.

Lemma run_filtered off n e : off ∈ su_pc_offset <$> run_selected ->
  decode_target_via_objdump run_popen (txt "/bin/a.out") off n = Throw e -> is_filterable_hotspot_error e = true.
Proof.
  rewrite run_offsets; intros [->|[->|[->|?%not_elem_of_nil]%elem_of_cons]%elem_of_cons]%elem_of_cons; [|vm_compute; discriminate..|done].
  vm_compute; intros [= <-]; reflexivity.
Qed.

Lemma breakpoints_are_sampled_instructions_witness :
  let h := record_all true run_modules (txt "/bin/a.out") run_samples (mk_hot_state ∅ 0) in
  exists lines tbl,
    write_hotspot_manifest run_modules 12 1 1 (txt "/bin/a.out") true true [7; 8] h = Some lines /\
    load_targets demo_realpath run_popen (Some (maps_text (demo_map second_base))) (txt "/bin/a.out")
      (txt "run.hotpc") 6 (Some (file_of lines)) = Ok tbl /\
    1 <= zlen (tt_targets tbl) <= 6 /\
    Forall (fun t => exists pc, ht_abs_pc t = pc + shift /\
              1 <= ht_aggregated_samples t <= zcount (fun ts => sm_pc ts.2 =? pc) run_samples) (tt_targets tbl).
Proof.
  apply (breakpoints_are_sampled_instructions demo_realpath run_popen (txt "/bin/a.out") (txt "run.hotpc")
    (demo_map 187650000000000) (demo_map second_base) shift run_modules run_samples [7; 8] 12 1 1 6).
  - reflexivity.
  - reflexivity.
  - by repeat constructor.
  - lia.
  - lia.
  - apply demo_map_wf; lia.
  - apply demo_map_wf; unfold second_base; lia.
  - exact run_relocated.
  - reflexivity.
  - vm_compute; reflexivity.
  - vm_compute; reflexivity.
  - repeat constructor; set_solver.
  - exact run_filtered.
  - exists 4660; split; [|exact run_decodes].
    change (4660 ∈ su_pc_offset <$> run_selected); rewrite run_offsets; set_solver.
Defined.

End Pipeline.
