(* ===== verification/TargetedCtl.v ===== *)
(** The controller of the targeted phase: [TargetedRdProfiler] of
    [src/targeted_rd.cc] without the result files (see [ResultFiles.v]): the
    environment variables, the session set-up, the CPU and thread tables and the
    window protocol.

    The operating system is the class [OsApi]: the device's ioctls, the affinity
    and memory calls and the files of [/proc].  An operation is a function of the
    controller and the operating system that returns a value or throws; what was
    changed before a throw stays changed, as in the source.  [None] is a crash of
    the machine or an access out of bounds. *)
From S2P Require Import Prelude Uapi EffAddr KernelApi KTypes Lifecycle Session CText AsmDecode Objdump ProcMaps LoadTargets Effects.
Import AsmDecode Objdump ProcMaps LoadTargets.

Class OsApi := {
  os : Type;
  (** [open] of the device: a descriptor, or a negative error number. *)
  os_open : os -> Z * os;
  os_close : Z -> os -> os;
  (** [ioctl]: the result (negative on failure) and what was copied out. *)
  os_ioctl : Z -> ioctl_cmd -> os -> option (Z * reply * os);
  (** [sched_setaffinity] of a thread to one CPU: success. *)
  os_setaffinity : Z -> Z -> os -> bool * os;
  (** [mmap] of private anonymous memory: its address, or failure. *)
  os_mmap : Z -> os -> option Z * os;
  os_munmap : Z -> Z -> os -> os;
  os_page_size : Z;
  (** The content of [/proc/self/task/<tid>/stat]. *)
  os_stat : Z -> os -> option text;
  (** [opendir("/proc/self/task")] and its entries. *)
  os_tasks : os -> option (list text);
  (** A [std::vector] of targets: where its elements are. *)
  os_vector : list rd_wpctl_target -> os -> Z * os;
  os_fopen : text -> os -> bool * os;
  strerror : Z -> text;
}.

(** [thread_binding]; [tb_scratch] is [None] when there is no mapping. *)
Record thread_binding := mk_binding {
  tb_tid : Z;
  tb_cpu : Z;
  tb_scratch : option Z;
  tb_scratch_bytes : Z;
  tb_scratch_base : Z;
  tb_scratch_stride : Z;
  tb_active : bool;
}.
#[export] Instance eta_binding : Eta thread_binding := fun r =>
  mk_binding (tb_tid r) (tb_cpu r) (tb_scratch r) (tb_scratch_bytes r) (tb_scratch_base r)
    (tb_scratch_stride r) (tb_active r).

(** The settings the constructor takes from the environment. *)
Record ctl_config := mk_config {
  cf_target_file : text;
  cf_watchpoint_capacity : Z;
  cf_bp_capacity : Z;
  cf_bp_sample_period : Z;
  cf_callchain_mode : Z;
  cf_dwarf_stack_bytes : Z;
  cf_dwarf_event_capacity : Z;
}.
#[export] Instance eta_config : Eta ctl_config := fun r =>
  mk_config (cf_target_file r) (cf_watchpoint_capacity r) (cf_bp_capacity r) (cf_bp_sample_period r)
    (cf_callchain_mode r) (cf_dwarf_stack_bytes r) (cf_dwarf_event_capacity r).

(** The members of [TargetedRdProfiler]. *)
Record profiler := mk_profiler {
  pf_window_open : bool;
  pf_auto_fallback_active : bool;
  pf_explicit_window_seen : bool;
  pf_auto_window_discarded : bool;
  pf_is_pin : bool;
  pf_num_cpus : Z;
  pf_device_fd : Z;
  pf_config : ctl_config;
  pf_nameprefix : text;
  pf_main_binary_path : text;
  pf_table : target_table;
  pf_cpu_owner : list Z;
  pf_threads : gmap Z thread_binding;
}.
#[export] Instance eta_profiler : Eta profiler := fun r =>
  mk_profiler (pf_window_open r) (pf_auto_fallback_active r) (pf_explicit_window_seen r)
    (pf_auto_window_discarded r) (pf_is_pin r) (pf_num_cpus r) (pf_device_fd r) (pf_config r)
    (pf_nameprefix r) (pf_main_binary_path r) (pf_table r) (pf_cpu_owner r) (pf_threads r).

Module TargetedCtl.

(** * The environment *)

Definition DEFAULT_WP_CAPACITY : Z := 4.
Definition DEFAULT_BP_CAPACITY : Z := 6.
Definition DEFAULT_BP_SAMPLE_PERIOD : Z := 1024.
Definition DEFAULT_DWARF_STACK_BYTES : Z := 8192.
Definition DEFAULT_DWARF_EVENT_CAPACITY : Z := 16384.

Section environment.
Context (getenv : text -> option text).

(** [env && *env]: a variable that is set and not empty. *)
Definition env_set (name : text) : option text :=
  match getenv name with
  | Some [] => None
  | v => v
  end.

(** A positive number, cast to 32 bits. *)
Definition env_positive (name : text) (dflt : Z) : result Z :=
  match env_set name with
  | None => Ok dflt
  | Some s =>
      let v := strtoll 10 s in
      if v <=? 0 then Throw (name ++ txt " must be positive") else Ok (u32 v)
  end.

Definition env_sample_period : result Z :=
  match env_set (txt "RD_BP_SAMPLE_PERIOD") with
  | None => Ok DEFAULT_BP_SAMPLE_PERIOD
  | Some s =>
      let v := strtoll 10 s in
      if v <=? 0 then Throw (txt "RD_BP_SAMPLE_PERIOD must be positive") else Ok (u64 v)
  end.

Definition env_callchain_mode : result Z :=
  match env_set (txt "RD_CALLCHAIN_MODE") with
  | None => Ok RD_CALLCHAIN_OFF
  | Some mode =>
      if bool_decide (mode = txt "off") then Ok RD_CALLCHAIN_OFF else
      if bool_decide (mode = txt "fp") then Ok RD_CALLCHAIN_FP else
      if bool_decide (mode = txt "dwarf") then Ok RD_CALLCHAIN_DWARF else
      Throw (txt "RD_CALLCHAIN_MODE must be off, fp, or dwarf")
  end.

Definition env_dwarf_stack : result Z :=
  match env_set (txt "RD_DWARF_STACK_BYTES") with
  | None => Ok DEFAULT_DWARF_STACK_BYTES
  | Some s =>
      let v := strtoll 10 s in
      if (v <=? 0) || (RD_WPCTL_MAX_DWARF_STACK_BYTES <? v) then
        Throw (txt "RD_DWARF_STACK_BYTES must be in [1, " ++
               dec_u64 RD_WPCTL_MAX_DWARF_STACK_BYTES ++ txt "]")
      else Ok (u32 v)
  end.

(** The environment part of the constructor, in its order. *)
Definition parse_environment : result ctl_config :=
  match env_set (txt "RD_TARGET_FILE") with
  | None => Throw (txt "RD_TARGET_FILE is required for RD_MODE=targeted_rd")
  | Some target_file =>
      wp <-! env_positive (txt "RD_WP_CAPACITY") DEFAULT_WP_CAPACITY;
      bp <-! env_positive (txt "RD_BP_CAPACITY") DEFAULT_BP_CAPACITY;
      period <-! env_sample_period;
      if negb (bool_decide (default (txt "mem_access") (env_set (txt "RD_RD_EVENT")) = txt "mem_access")) then
        Throw (txt "kernel targeted_rd only supports RD_RD_EVENT=mem_access") else
      mode <-! env_callchain_mode;
      stack <-! env_dwarf_stack;
      events <-! env_positive (txt "RD_DWARF_EVENT_CAPACITY") DEFAULT_DWARF_EVENT_CAPACITY;
      Ok (mk_config target_file wp bp period mode stack events)
  end.

End environment.

(** [readlink] of [/proc/self/exe], resolved; empty when it fails. *)
Definition read_self_exe_path (realpath : text -> option text) (readlink : option text) : text :=
  match readlink with
  | None | Some [] => []
  | Some path => normalize_filesystem_path realpath path
  end.

(** [get_threads] of [src/threads.cc] on the entries of the task directory. *)
Definition get_threads (ignored : Z) (tasks : option (list text)) : result (list Z) :=
  match tasks with
  | None => Throw (txt "Cannot open /proc/self/task")
  | Some names =>
      Ok (merge_sort Z.le (filter (fun tid => tid <> 0 /\ tid <> ignored) (atoi <$> names)))
  end.

(** * Operations *)

(** An operation of the controller. *)
Abbreviation ctl := (prog profiler os).

Section operations.
Context `{O : OsApi}.

(** [ioctl] on the device: the raw result. *)
Definition device_ioctl (cmd : ioctl_cmd) : ctl (Z * reply) := fun s =>
  '(r, o) ← os_ioctl (pf_device_fd s.1) cmd s.2; Some (Ok r, (s.1, o)).
(** [if (ioctl(...) < 0) throw RdException(name + " failed: " + strerror(errno))]. *)
Definition ioctl_or_throw (name : text) (cmd : ioctl_cmd) : ctl reply :=
  r <-- device_ioctl cmd;
  if r.1 <? 0 then throw (name ++ txt " failed: " ++ strerror (- r.1)) else ret r.2.

(** ** Session set-up *)

Definition session_cfg (c : ctl_config) : rd_wpctl_session_cfg :=
  let dwarf := cf_callchain_mode c =? RD_CALLCHAIN_DWARF in
  mk_session_cfg (cf_watchpoint_capacity c) (cf_callchain_mode c) (cf_bp_sample_period c)
    (if dwarf then cf_dwarf_stack_bytes c else 0) (if dwarf then cf_dwarf_event_capacity c else 0).

Definition uapi_target (t : hot_target) : rd_wpctl_target :=
  mk_target (ht_pc_offset t) (ht_abs_pc t) (ht_aggregated_samples t) (to_uapi_decode (ht_decode t)).

Definition configure_session : ctl unit :=
  p <-- get;
  ioctl_or_throw (txt "RDKIOC_CONFIG_SESSION") (CONFIG_SESSION (Some (session_cfg (pf_config p))));;
  let targets := uapi_target <$> tt_targets (pf_table p) in
  ptr <-- call (os_vector targets);
  ioctl_or_throw (txt "RDKIOC_LOAD_TARGETS")
    (LOAD_TARGETS (Some (mk_batch ptr (u32 (zlen targets)))));;
  ret tt.

(** ** Windows *)

Definition start_window_locked : ctl unit :=
  p <-- get;
  if pf_window_open p then ret tt else
  ioctl_or_throw (txt "RDKIOC_START_WINDOW") START_WINDOW;;
  modify (fun p => p ⟦ pf_window_open := true ⟧).

Definition stop_window_locked : ctl unit :=
  p <-- get;
  if negb (pf_window_open p) then ret tt else
  ioctl_or_throw (txt "RDKIOC_STOP_WINDOW") STOP_WINDOW;;
  modify (fun p => p ⟦ pf_window_open := false ⟧).

Definition reset_session_locked : ctl unit :=
  p <-- get;
  if pf_window_open p then throw (txt "RDKIOC_RESET_SESSION requires closed window") else
  ioctl_or_throw (txt "RDKIOC_RESET_SESSION") RESET_SESSION;;
  ret tt.

Definition kernel_start : ctl unit :=
  p <-- get;
  if pf_auto_fallback_active p && negb (pf_explicit_window_seen p) then
    stop_window_locked;;
    reset_session_locked;;
    start_window_locked;;
    modify (fun p => p ⟦ pf_auto_fallback_active := false ⟧ ⟦ pf_explicit_window_seen := true ⟧
                       ⟦ pf_auto_window_discarded := true ⟧)
  else
    modify (fun p => p ⟦ pf_explicit_window_seen := true ⟧ ⟦ pf_auto_fallback_active := false ⟧);;
    if pf_window_open p then ret tt else start_window_locked.

Definition kernel_stop : ctl unit :=
  p <-- get;
  if negb (pf_window_open p) then ret tt else
  if pf_auto_fallback_active p && negb (pf_explicit_window_seen p) then ret tt else
  stop_window_locked.

(** ** CPUs *)

(** The scan of [_cpu_owner] from [start]; [None] is an access out of bounds. *)
Fixpoint scan_cpus (owner : list Z) (start num_cpus : Z) (offs : list Z) : option (option Z) :=
  match offs with
  | [] => Some None
  | off :: more =>
      let cpu := (start + off) mod num_cpus in
      o ← owner !!z cpu;
      if o =? 0 then Some (Some cpu) else scan_cpus owner start num_cpus more
  end.

(** [caller] is [gettid_portable()]. *)
Definition allocate_cpu_locked (caller : Z) : ctl Z :=
  p <-- get;
  stat <-- call (fun o => (os_stat caller o, o));
  let cpu := parse_cpu_from_tid_stat stat in
  let start := if pf_is_pin p then (if (cpu <? 0) || (pf_num_cpus p <=? cpu) then 0 else cpu) else 0 in
  found <-- crash_if_none (scan_cpus (pf_cpu_owner p) start (pf_num_cpus p) (seqZ 0 (pf_num_cpus p)));
  match found with
  | None => throw (txt "targeted_rd cannot pin thread: no free CPU available")
  | Some cpu => modify (fun p => p ⟦ pf_cpu_owner ::= <[Z.to_nat cpu := 1]> ⟧);; ret cpu
  end.

Definition release_cpu_locked (cpu : Z) : ctl unit :=
  modify (fun p =>
    if (0 <=? cpu) && (cpu <? pf_num_cpus p) then p ⟦ pf_cpu_owner ::= <[Z.to_nat cpu := 0]> ⟧ else p).

(** ** Threads *)

Definition unmap (scratch : option Z) (bytes : Z) : ctl unit :=
  match scratch with
  | Some base => call (fun o => (tt, os_munmap base bytes o))
  | None => ret tt
  end.

(** The [catch] block of the registration, which throws [e] again. *)
Definition undo_registration {A} (tid : Z) (module_registered : bool) (b : thread_binding) (e : text) : ctl A :=
  (if module_registered then device_ioctl (UNREGISTER_THREAD (Some tid));; ret tt else ret tt);;
  unmap (tb_scratch b) (tb_scratch_bytes b);;
  release_cpu_locked (tb_cpu b);;
  throw e.

Definition pin_tid_to_cpu (tid cpu : Z) : ctl unit :=
  pinned <-- call (os_setaffinity tid cpu);
  if negb pinned then throw (txt "sched_setaffinity failed") else ret tt.

Definition register_thread_locked (caller tid : Z) : ctl thread_binding :=
  p <-- get;
  match pf_threads p !! tid with
  | Some (mk_binding _ _ _ _ _ _ true as b) => ret b
  | found =>
      (if is_null found then ret tt else modify (fun p => p ⟦ pf_threads ::= delete tid ⟧));;
      cpu <-- allocate_cpu_locked caller;
      let b := mk_binding tid cpu None 0 0 0 false in
      failed <-- try_catch (pin_tid_to_cpu tid cpu);
      match failed with Some e => undo_registration tid false b e | None =>
      let stride := u64 os_page_size in
      let bytes := u64 (os_page_size * cf_watchpoint_capacity (pf_config p)) in
      mapped <-- call (os_mmap bytes);
      match mapped with
      | None =>
          undo_registration tid false (b ⟦ tb_scratch_stride := stride ⟧ ⟦ tb_scratch_bytes := bytes ⟧)
            (txt "mmap scratch watchpoint region failed")
      | Some base =>
          let b := mk_binding tid cpu (Some base) bytes base stride false in
          r <-- device_ioctl (REGISTER_THREAD (Some (mk_thread_register tid cpu base stride)));
          if r.1 <? 0 then
            undo_registration tid false b (txt "RDKIOC_REGISTER_THREAD failed: " ++ strerror (- r.1))
          else
            let b := b ⟦ tb_active := true ⟧ in
            modify (fun p => p ⟦ pf_threads ::= <[tid := b]> ⟧);; ret b
      end
      end
  end.

Definition unregister_thread_locked (tid : Z) : ctl unit :=
  p <-- get;
  match pf_threads p !! tid with
  | Some (mk_binding _ cpu scratch bytes _ _ true as b) =>
      ioctl_or_throw (txt "RDKIOC_UNREGISTER_THREAD") (UNREGISTER_THREAD (Some tid));;
      unmap scratch bytes;;
      release_cpu_locked cpu;;
      modify (fun p => p ⟦ pf_threads ::= <[tid := b ⟦ tb_active := false ⟧ ⟦ tb_scratch := None ⟧
                                                    ⟦ tb_scratch_bytes := 0 ⟧]> ⟧)
  | _ => ret tt
  end.

Definition register_current_thread (caller : Z) : ctl unit := register_thread_locked caller caller;; ret tt.
Definition unregister_current_thread (caller : Z) : ctl unit := unregister_thread_locked caller.

(** ** Construction *)

Definition register_initial_threads (caller : Z) : ctl unit :=
  tasks <-- call (fun o => (os_tasks o, o));
  tids <-- lift (get_threads 0 tasks);
  forM tids (fun tid => register_thread_locked caller tid;; ret tt).

(** The members as the initialiser list sets them. *)
Definition initial_profiler (name : option text) (is_pin : bool) (num_cpus : Z) : profiler :=
  mk_profiler false false false false is_pin num_cpus (-1)
    (mk_config [] DEFAULT_WP_CAPACITY DEFAULT_BP_CAPACITY DEFAULT_BP_SAMPLE_PERIOD RD_CALLCHAIN_OFF
       DEFAULT_DWARF_STACK_BYTES DEFAULT_DWARF_EVENT_CAPACITY)
    (default (txt "rd") name) [] (mk_table 0 0 [] []) [] ∅.

Definition RD_WPCTL_DEVICE : text := txt "/dev/rd_wpctl".

(** The body of the constructor; [read_file] is the content of a file. *)
Definition construct (getenv : text -> option text) (realpath : text -> option text) (readlink : option text)
    (popen : text -> option (text * Z)) (maps : option text) (read_file : text -> option text)
    (caller : Z) : ctl unit :=
  config <-- lift (parse_environment getenv);
  modify (fun p => p ⟦ pf_config := config ⟧);;
  let main := read_self_exe_path realpath readlink in
  if bool_decide (main = []) then throw (txt "cannot resolve /proc/self/exe") else
  modify (fun p => p ⟦ pf_main_binary_path := main ⟧
                     ⟦ pf_cpu_owner := replicate (Z.to_nat (pf_num_cpus p)) 0 ⟧);;
  p <-- get;
  let info_path := pf_nameprefix p ++ txt ".rd2.info" in
  opened <-- call (os_fopen info_path);
  if negb opened then throw (txt "cannot open " ++ info_path) else
  fd <-- call os_open;
  modify (fun p => p ⟦ pf_device_fd := fd ⟧);;
  if fd <? 0 then throw (txt "cannot open " ++ RD_WPCTL_DEVICE ++ txt ": " ++ strerror (- fd)) else
  table <-- lift (load_targets realpath popen maps main (cf_target_file config) (cf_bp_capacity config)
                    (read_file (cf_target_file config)));
  modify (fun p => p ⟦ pf_table := table ⟧);;
  configure_session;;
  register_initial_threads caller;;
  start_window_locked;;
  modify (fun p => p ⟦ pf_auto_fallback_active := true ⟧).

End operations.

End TargetedCtl.
