(* ===== verification/Monitor.v ===== *)
(** The phase-one monitor: class [Monitor] of [src/monitor.cc] and
    [include/monitor.hh], its perf descriptors and buffers per thread, the
    counters of each window and the draining of sampler slots.

    The pointer a slot id maps to ([_sampler_slots]) is the thread and the index
    of the slot in the thread's vector; a lookup that finds no such slot is the
    use of a dangling pointer and makes the model crash.  [_threads] is visited
    in the order of [map_to_list]; the source's hash table leaves the order open.
    Each operation runs under [_state_mutex] or before other threads exist, so it
    is one transition; the hand-shake with the sampler thread is in
    [SamplerThread.v]. *)
From S2P Require Import Prelude Uapi CText ProcMaps Hotspots SpePacket RingDrain TargetedCtl Effects PerfEvents.
From Stdlib Require Import SpecFloat.
Import ProcMaps Hotspots SpePacket RingDrain PerfEvents.

Definition MB : Z := 1048576.
Definition DEFAULT_HOTSPOT_TOP_K : Z := 12.
Definition SAMPLER_DRAIN : Z := 1.
Definition SAMPLER_STOP : Z := 2.

(** [sampler_slot]; the [pending_*] fields are one record. *)
Record sampler_slot := mk_sampler {
  ss_slot_id : Z;
  ss_tid : Z;
  ss_sampler_index : Z;
  ss_fd : Z;
  ss_ringbuf : option Z;
  ss_ringbuf_bytes : Z;
  ss_auxbuf : option Z;
  ss_auxbuf_bytes : Z;
  ss_pending : pending_sample;
}.
#[export] Instance eta_sampler : Eta sampler_slot := fun r =>
  mk_sampler (ss_slot_id r) (ss_tid r) (ss_sampler_index r) (ss_fd r) (ss_ringbuf r) (ss_ringbuf_bytes r)
    (ss_auxbuf r) (ss_auxbuf_bytes r) (ss_pending r).

(** [BinaryWriter]: the path and the records written so far. *)
Record writer := mk_writer {
  wr_path : text;
  wr_samples : list spe_instruction_sample;
  wr_plain : list (Z * Z);
}.

Record thread_state := mk_thread_state {
  ts_tid : Z;
  ts_active : bool;
  ts_counter_fds : list Z;
  ts_writers : list writer;
  ts_samplers : list sampler_slot;
}.
#[export] Instance eta_thread_state : Eta thread_state := fun r =>
  mk_thread_state (ts_tid r) (ts_active r) (ts_counter_fds r) (ts_writers r) (ts_samplers r).
Definition empty_thread_state : thread_state := mk_thread_state 0 false [] [] [].

Record counter_data := mk_counter { cd_value : Z; cd_active_time : spec_float }.

Record kinfo := mk_kinfo {
  ki_tag : text;
  ki_counts : window_counts;
  ki_duration : spec_float;
  ki_counters : option (list counter_data);
  ki_clock_start : Z;
  ki_clock_stop : Z;
  ki_offloaded : bool;
}.
#[export] Instance eta_kinfo : Eta kinfo := fun r =>
  mk_kinfo (ki_tag r) (ki_counts r) (ki_duration r) (ki_counters r) (ki_clock_start r) (ki_clock_stop r)
    (ki_offloaded r).
Definition zero_kinfo : kinfo := mk_kinfo [] (mk_window 0 0) (S754_zero false) None 0 0 false.

(** What a drain updates besides its slot: bytes written, hotspots, packet counts. *)
Record spe_totals := mk_totals {
  sp_written_sample_bytes : Z;
  sp_hot : hot_state;
  sp_time_packet_flush_count : Z;
  sp_end_packet_flush_count : Z;
  sp_empty_flush_count : Z;
  sp_unknown_packet_count : Z;
}.

Record monitor := mk_monitor {
  mo_num_cpus : Z;
  mo_sample_period : Z;
  mo_ringbufsize : Z;
  mo_auxbufsize : Z;
  mo_counter_spec : event_spec;
  mo_sampler_spec : event_spec;
  mo_nonstop_mode : bool;
  mo_events_enabled : bool;
  mo_prev_counters : list Z;
  mo_retired_values : list Z;
  mo_retired_time_enabled : list Z;
  mo_retired_time_running : list Z;
  mo_tids : list Z;
  mo_threads : gmap Z thread_state;
  mo_sampler_slots : gmap Z (Z * nat);
  mo_next_slot_id : Z;
  mo_nameprefix : text;
  mo_is_pin : bool;
  mo_event_fd : Z;
  mo_epoll_fd : Z;
  mo_kinfos : list kinfo;
  mo_start_time : Z * Z;
  mo_clock_res : Z;
  mo_addr_tags : list (text * Z * Z);
  mo_phases : list (text * Z);
  mo_module_maps : list module_map_entry;
  mo_main_binary_path : text;
  mo_hotspot_top_k : Z;
  mo_hotspot_min_samples : Z;
  mo_hotspot_min_latency_samples : Z;
  mo_spe : spe_totals;
}.
#[export] Instance eta_monitor : Eta monitor := fun r =>
  mk_monitor (mo_num_cpus r) (mo_sample_period r) (mo_ringbufsize r) (mo_auxbufsize r) (mo_counter_spec r)
    (mo_sampler_spec r) (mo_nonstop_mode r) (mo_events_enabled r) (mo_prev_counters r) (mo_retired_values r)
    (mo_retired_time_enabled r) (mo_retired_time_running r) (mo_tids r) (mo_threads r) (mo_sampler_slots r)
    (mo_next_slot_id r) (mo_nameprefix r) (mo_is_pin r) (mo_event_fd r) (mo_epoll_fd r) (mo_kinfos r)
    (mo_start_time r) (mo_clock_res r) (mo_addr_tags r) (mo_phases r) (mo_module_maps r) (mo_main_binary_path r)
    (mo_hotspot_top_k r) (mo_hotspot_min_samples r) (mo_hotspot_min_latency_samples r) (mo_spe r).

Module Monitor.

(** An operation of the monitor. *)
Abbreviation mon := (prog monitor perf_os).

Definition num_counters (p : monitor) : Z := zlen (mo_counter_spec p).
Definition num_samplers (p : monitor) : Z := zlen (mo_sampler_spec p).

Definition has_arm_spe_samples (p : monitor) : bool := negb (has_arm_spe_event (mo_sampler_spec p).*1 =? 0).
Definition sample_record_bytes (p : monitor) : Z := if has_arm_spe_samples p then SAMPLE_BYTES else 16.
Definition sample_pc_present (p : monitor) : bool := has_arm_spe_samples p.

(** [snprintf] into 128 bytes. *)
Definition sample_path (prefix : text) (tid sampler : Z) : text :=
  take 127 (prefix ++ txt ".t" ++ dec_s tid ++ txt ".sample" ++ dec_s sampler).

(** An [int] product that must not overflow. *)
Definition int_mul (a b : Z) : option Z := if s32 (a * b) =? a * b then Some (a * b) else None.

Section operations.
Context `{Pf : PerfApi}.

(** The system call results that the source ignores. *)
Definition act (f : perf_os -> perf_os) : mon unit := call (fun o => (tt, f o)).
Definition ask {A} (f : perf_os -> A) : mon A := call (fun o => (f o, o)).

Definition set_thread (tid : Z) (f : thread_state -> thread_state) : mon unit :=
  modify (fun p => p ⟦ mo_threads ::= partial_alter (fun t => Some (f (default empty_thread_state t))) tid ⟧).
Definition thread_of (p : monitor) (tid : Z) : thread_state := default empty_thread_state (mo_threads p !! tid).

(** ** Descriptors of a thread *)

Definition on_fds (request : Z) (fds : list Z) : mon unit :=
  forM fds (fun fd => if 0 <=? fd then act (perf_ioctl fd request) else ret tt).
(** [ioctl] on every descriptor of a thread: [enable_thread_locked],
    [disable_thread_locked] and the loop body of [fds_ioctl]. *)
Definition ioctl_thread (request : Z) (state : thread_state) : mon unit :=
  on_fds request (ts_counter_fds state);;
  on_fds request (ss_fd <$> ts_samplers state).
Definition enable_thread_locked (state : thread_state) : mon unit := ioctl_thread PERF_EVENT_IOC_ENABLE state.
Definition disable_thread_locked (state : thread_state) : mon unit := ioctl_thread PERF_EVENT_IOC_DISABLE state.

Definition active_threads (p : monitor) : list thread_state :=
  filter (fun t => ts_active t = true) (map_to_list (mo_threads p)).*2.

Definition fds_ioctl (request : Z) : mon unit :=
  p <-- get; forM (active_threads p) (ioctl_thread request).

Definition close_fds (fds : list Z) : mon unit :=
  forM fds (fun fd => if 0 <=? fd then act (perf_close fd) else ret tt).

(** [if (buf && bytes) munmap(buf, bytes)]. *)
Definition unmap_buffer (buf : option Z) (bytes : Z) : mon unit :=
  match buf with
  | Some base => if bytes =? 0 then ret tt else act (perf_munmap base bytes)
  | None => ret tt
  end.

Definition close_slot (slot : sampler_slot) : mon unit :=
  modify (fun p => p ⟦ mo_sampler_slots ::= delete (ss_slot_id slot) ⟧);;
  p <-- get;
  (if negb (mo_epoll_fd p =? -1) && (0 <=? ss_fd slot) then act (epoll_del (mo_epoll_fd p) (ss_fd slot)) else ret tt);;
  unmap_buffer (ss_auxbuf slot) (ss_auxbuf_bytes slot);;
  unmap_buffer (ss_ringbuf slot) (ss_ringbuf_bytes slot);;
  if 0 <=? ss_fd slot then act (perf_close (ss_fd slot)) else ret tt.

Definition close_thread_locked (tid : Z) : mon unit :=
  p <-- get;
  let state := thread_of p tid in
  forM (ts_samplers state) close_slot;;
  close_fds (ts_counter_fds state);;
  set_thread tid (fun t => t ⟦ ts_samplers := [] ⟧ ⟦ ts_counter_fds := [] ⟧ ⟦ ts_active := false ⟧).

(** ** Opening a thread *)

Definition pin_thread (tid : Z) : mon unit :=
  p <-- get;
  if negb (mo_is_pin p) then ret tt else
  stat <-- ask (perf_stat tid);
  let cpu := read_thread_last_cpu_stat stat in
  if (0 <=? cpu) && (cpu <? mo_num_cpus p) then act (perf_setaffinity tid cpu) else ret tt.

Definition open_counters (tid : Z) : mon unit :=
  p <-- get;
  if num_counters p <=? 0 then set_thread tid (fun t => t ⟦ ts_counter_fds := [] ⟧) else
  r <-- call (open_fds tid true (-1) (mo_counter_spec p) 0 (replicate (length (mo_counter_spec p)) (-1)));
  set_thread tid (fun t => t ⟦ ts_counter_fds := r.1 ⟧);;
  lift r.2.

Definition open_writers (tid : Z) : mon unit :=
  p <-- get;
  match ts_writers (thread_of p tid) with
  | [] => set_thread tid (fun t => t ⟦ ts_writers :=
            (fun k => mk_writer (sample_path (mo_nameprefix p) tid k) [] []) <$> seqZ 0 (num_samplers p) ⟧)
  | ws => if zlen ws =? num_samplers p then ret tt else throw (txt "writer vector size mismatch")
  end.

(** The AUX mapping of an SPE sampler, and the offset that is stored in the
    control page afterwards. *)
Definition map_aux (name : text) (fd ring ring_bytes aux_bytes : Z) : mon (option Z * Z) :=
  if parse_arm_spe_event name =? 0 then ret (None, 0) else
  act (set_aux_area ring ring_bytes aux_bytes);;
  aux <-- call (perf_mmap aux_bytes fd ring_bytes);
  match aux with
  | None => throw (txt "mapping sampler aux ring buffer failed")
  | Some base => act (set_aux_area ring (u64 (base - ring)) aux_bytes);; ret (Some base, aux_bytes)
  end.

(** One iteration of the sampler loop of [open_thread_locked]. *)
Definition open_slot (tid ring_bytes aux_bytes sampler fd : Z) (name : text) : mon unit :=
  p <-- get;
  let slot_id := mo_next_slot_id p in
  modify (fun p => p ⟦ mo_next_slot_id := slot_id + 1 ⟧);;
  ring <-- call (perf_mmap ring_bytes fd 0);
  match ring with
  | None => throw (txt "mapping sampler ring buffer failed")
  | Some base =>
      aux <-- map_aux name fd base ring_bytes aux_bytes;
      let slot := mk_sampler slot_id tid sampler fd (Some base) ring_bytes aux.1 aux.2
                    (mk_pending 0 0 0 0 0 0 0) in
      p <-- get;
      let index := length (ts_samplers (thread_of p tid)) in
      set_thread tid (fun t => t ⟦ ts_samplers ::= fun l => l ++ [slot] ⟧);;
      modify (fun p => p ⟦ mo_sampler_slots ::= <[slot_id := (tid, index)]> ⟧);;
      if mo_epoll_fd p =? -1 then ret tt else
      ok <-- call (epoll_add (mo_epoll_fd p) fd (make_sampler_token slot_id));
      if ok then ret tt else throw (txt "epoll_ctl")
  end.

(** The loop with its [catch]: descriptors that no slot has taken are closed. *)
Fixpoint open_slots (tid ring_bytes aux_bytes sampler : Z) (fds : list (Z * text)) : mon unit :=
  match fds with
  | [] => ret tt
  | (fd, name) :: more =>
      on_throw (open_slot tid ring_bytes aux_bytes sampler fd name) (close_fds more.*1);;
      open_slots tid ring_bytes aux_bytes (sampler + 1) more
  end.

(** The trial mapping before an SPE event is opened. *)
Definition trial_mapping (bytes : Z) : mon unit :=
  scratch <-- call (perf_mmap bytes (-1) 0);
  match scratch with
  | Some base => act (perf_munmap base bytes)
  | None => ret tt
  end.

Definition open_thread_locked (tid : Z) : mon unit :=
  pin_thread tid;;
  open_counters tid;;
  p <-- get;
  if num_samplers p =? 0 then ret tt else
  open_writers tid;;
  ring <-- crash_if_none (int_mul (mo_ringbufsize p) MB);
  aux <-- crash_if_none (int_mul (mo_auxbufsize p) MB);
  let ring_bytes := (1 + Z.quot ring perf_page_size) * perf_page_size in
  let aux_bytes := Z.quot aux perf_page_size * perf_page_size in
  (if has_arm_spe_samples p then trial_mapping ring_bytes else ret tt);;
  r <-- call (open_fds tid true (-1) (mo_sampler_spec p) (mo_sample_period p)
                (replicate (length (mo_sampler_spec p)) (-1)));
  lift r.2;;
  set_thread tid (fun t => t ⟦ ts_samplers := [] ⟧);;
  open_slots tid ring_bytes aux_bytes 0 (zip r.1 (mo_sampler_spec p).*1).

Definition register_thread_locked (tid : Z) : mon unit :=
  set_thread tid (fun t => t ⟦ ts_tid := tid ⟧);;
  modify (fun p => if bool_decide (tid ∈ mo_tids p) then p else p ⟦ mo_tids ::= fun l => l ++ [tid] ⟧);;
  p <-- get;
  if ts_active (thread_of p tid) then ret tt else
  on_throw (open_thread_locked tid;; set_thread tid (fun t => t ⟦ ts_active := true ⟧))
    (close_thread_locked tid).

(** ** Draining *)

(** [process_samples_locked] on slot [index] of thread [tid]: the drain of
    [RingDrain.v] on the slot's mapping, with its writer and the windows. *)
Definition process_samples_locked (tid : Z) (index : nat) : mon Z := fun s =>
  let '(p, o) := s in
  slot ← ts_samplers (thread_of p tid) !! index;
  ring ← ss_ringbuf slot;
  let w := match mo_threads p !! ss_tid slot with
           | Some t => ts_writers t !!z ss_sampler_index slot
           | None => None
           end in
  let w0 := default (mk_writer [] [] []) w in
  let sp := mo_spe p in
  let st := mk_slot (ring_at ring o)
              (mk_drain (ss_pending slot) (wr_samples w0) 0 (sp_written_sample_bytes sp) (sp_hot sp)
                 (sp_time_packet_flush_count sp) (sp_end_packet_flush_count sp) (sp_empty_flush_count sp)
                 (sp_unknown_packet_count sp))
              (wr_plain w0) (ki_counts <$> mo_kinfos p) in
  '(st, r) ← RingDrain.process_samples_locked (sample_pc_present p) (mo_module_maps p) (mo_main_binary_path p)
               (ss_tid slot) (bool_decide (is_Some w)) st;
  let d := sl_drain st in
  let store_writer t := t ⟦ ts_writers ::= <[Z.to_nat (ss_sampler_index slot) :=
                              mk_writer (wr_path w0) (ds_file d) (sl_plain st)]> ⟧ in
  let store_slot t := t ⟦ ts_samplers ::= <[index := slot ⟦ ss_pending := ds_pending d ⟧]> ⟧ in
  let p := p ⟦ mo_threads ::= alter store_writer (ss_tid slot) ∘ alter store_slot tid ⟧
             ⟦ mo_spe := mk_totals (ds_written_sample_bytes d) (ds_hot d) (ds_time_packet_flush_count d)
                  (ds_end_packet_flush_count d) (ds_empty_flush_count d) (ds_unknown_packet_count d) ⟧
             ⟦ mo_kinfos ::= fun l => zip_with (fun k c => k ⟦ ki_counts := c ⟧) l (sl_kinfos st) ⟧ in
  Some (r, (p, set_ring ring (sl_ring st) o)).

(** [process_samples]: from a slot id. *)
Definition process_samples (slot_id : Z) : mon Z :=
  p <-- get;
  match mo_sampler_slots p !! slot_id with
  | None => ret 0
  | Some (tid, index) => process_samples_locked tid index
  end.

(** A descriptor the sampler thread was woken for. *)
Definition sampler_event (token : Z) : mon unit :=
  if token_kind token =? SAMPLER_TOKEN_KIND then process_samples (s32 (token_value token));; ret tt else ret tt.

Definition drain_thread (tid : Z) : mon Z :=
  p <-- get;
  sumM (seq 0 (length (ts_samplers (thread_of p tid)))) (process_samples_locked tid).

(** The full drain after a command on the event descriptor: the samples found. *)
Definition drain_all : mon Z :=
  p <-- get;
  sumM (map_to_list (mo_threads p)).*1 (fun tid =>
    p <-- get; if ts_active (thread_of p tid) then drain_thread tid else ret 0).

(** A command on the event descriptor: whether the sampler thread ends. *)
Definition sampler_command (efd_cmd : Z) : mon bool :=
  extra_samples <-- drain_all;
  (if negb (efd_cmd =? SAMPLER_STOP) || negb (extra_samples =? 0) then act sem_post else ret tt);;
  ret (efd_cmd =? SAMPLER_STOP).

(** ** Counters *)

Definition add_at (l : list Z) (i : Z) (v : Z) : list Z := alter (fun x => u64 (x + v)) (Z.to_nat i) l.

(** The sums of a retired event. *)
Definition retire (index fd : Z) : mon unit :=
  r <-- ask (read_fd fd);
  count <-- lift r;
  modify (fun p => p ⟦ mo_retired_values ::= fun l => add_at l index (rf_value count) ⟧
                     ⟦ mo_retired_time_enabled ::= fun l => add_at l index (rf_time_enabled count) ⟧
                     ⟦ mo_retired_time_running ::= fun l => add_at l index (rf_time_running count) ⟧).

Definition accumulate_retired_counts_locked (state : thread_state) : mon unit :=
  p <-- get;
  forM (seqZ 0 (num_counters p)) (fun counter =>
    match ts_counter_fds state !!z counter with
    | Some fd => if fd <? 0 then ret tt else retire counter fd
    | None => ret tt
    end);;
  forM (ts_samplers state) (fun slot =>
    if ss_fd slot <? 0 then ret tt else retire (num_counters p + ss_sampler_index slot) (ss_fd slot)).

(** The sums of one event over the active threads, from the retired ones. *)
Fixpoint sum_counts (fds : list Z) (acc : read_format) (o : perf_os) : result read_format :=
  match fds with
  | [] => Ok acc
  | fd :: more =>
      count <-! read_fd fd o;
      sum_counts more (mk_read (u64 (rf_value acc + rf_value count))
                         (u64 (rf_time_enabled acc + rf_time_enabled count))
                         (u64 (rf_time_running acc + rf_time_running count))) o
  end.

(** The descriptor of event [index], counters first, and those of all active threads. *)
Definition event_fd (p : monitor) (index : Z) (t : thread_state) : option Z :=
  if index <? num_counters p then ts_counter_fds t !!z index
  else ss_fd <$> ts_samplers t !!z (index - num_counters p).
Definition event_fds (p : monitor) (index : Z) : list Z := omap (event_fd p index) (active_threads p).

Definition active_time (running enabled : Z) : spec_float :=
  if enabled =? 0 then S754_zero false else ddiv (to_double running) (to_double enabled).

(** One event of [read_counters]. *)
Definition read_counter (index : Z) : mon counter_data :=
  p <-- get;
  value <-- crash_if_none (mo_retired_values p !!z index);
  enabled <-- crash_if_none (mo_retired_time_enabled p !!z index);
  running <-- crash_if_none (mo_retired_time_running p !!z index);
  prev <-- crash_if_none (mo_prev_counters p !!z index);
  r <-- ask (sum_counts (event_fds p index) (mk_read value enabled running));
  sum <-- lift r;
  modify (fun p => p ⟦ mo_prev_counters ::= <[Z.to_nat index := rf_value sum]> ⟧);;
  ret (mk_counter (u64 (rf_value sum - prev)) (active_time (rf_time_running sum) (rf_time_enabled sum))).

Fixpoint read_counters_from (indices : list Z) : mon (list counter_data) :=
  match indices with
  | [] => ret []
  | i :: more => c <-- read_counter i; cs <-- read_counters_from more; ret (c :: cs)
  end.

Definition read_counters (include_samplers : bool) : mon (list counter_data) :=
  p <-- get;
  read_counters_from (seqZ 0 (num_counters p + (if include_samplers then num_samplers p else 0))).

(** ** Registration *)

Definition unregister_thread_locked (tid : Z) : mon unit :=
  p <-- get;
  match mo_threads p !! tid with
  | Some state =>
      if negb (ts_active state) then ret tt else
      (if mo_events_enabled p then disable_thread_locked state else ret tt);;
      drain_thread tid;;
      p <-- get;
      accumulate_retired_counts_locked (thread_of p tid);;
      close_thread_locked tid
  | None => ret tt
  end.

Definition no_events (p : monitor) : bool := (num_counters p =? 0) && (num_samplers p =? 0).

Definition register_current_thread (tid : Z) : mon unit :=
  p <-- get;
  if no_events p then ret tt else
  register_thread_locked tid;;
  p <-- get;
  if mo_events_enabled p then enable_thread_locked (thread_of p tid) else ret tt.

Definition unregister_current_thread (tid : Z) : mon unit :=
  p <-- get;
  if no_events p then ret tt else unregister_thread_locked tid.

(** ** Windows *)

Definition back_kinfo (f : kinfo -> kinfo) : mon unit := fun s =>
  k ← last (mo_kinfos s.1);
  Some (Ok tt, (s.1 ⟦ mo_kinfos ::= fun l => take (length l - 1) l ++ [f k] ⟧, s.2)).

Definition forbidden_in_tag (c : ascii) : bool := ceqb c "=" || ceqb c NEWLINE.
Definition set_tag (tag : option text) : mon unit :=
  match tag with
  | Some t =>
      if existsb forbidden_in_tag t then throw (take 127 (txt "Invalid tag '" ++ t ++ txt "'"))
      else back_kinfo (fun k => k ⟦ ki_tag := t ⟧)
  | None => back_kinfo (fun k => k ⟦ ki_tag := txt "?" ⟧)
  end.

Definition snapshot_main_binary_path : mon unit :=
  p <-- get;
  if bool_decide (mo_main_binary_path p = []) then
    path <-- ask (fun o => TargetedCtl.read_self_exe_path (fun path => perf_realpath path o) (perf_exe o));
    modify (fun p => p ⟦ mo_main_binary_path := path ⟧)
  else ret tt.

Definition snapshot_maps : mon unit :=
  p <-- get;
  if negb (sample_pc_present p) then ret tt else
  maps <-- ask (fun o => snapshot_module_maps (fun path => perf_realpath path o) true (perf_maps o) (mo_module_maps p));
  maps <-- lift maps;
  modify (fun p => p ⟦ mo_module_maps := maps ⟧).

Definition now : mon (Z * Z) :=
  t <-- call clock_gettime;
  match t with
  | Some t => ret t
  | None => throw (txt "failed clock_gettime")
  end.

Definition start (tag : option text) (offloaded : bool) : mon unit :=
  modify (fun p => p ⟦ mo_kinfos ::= fun l => l ++ [zero_kinfo] ⟧);;
  set_tag tag;;
  back_kinfo (fun k => k ⟦ ki_offloaded := offloaded ⟧);;
  p <-- get;
  (if negb (mo_nonstop_mode p) && negb (mo_epoll_fd p =? -1) then act sem_wait else ret tt);;
  snapshot_main_binary_path;;
  snapshot_maps;;
  t <-- now;
  modify (fun p => p ⟦ mo_start_time := t ⟧);;
  p <-- get;
  if mo_events_enabled p then ret tt else
  forM (active_threads p) enable_thread_locked;;
  modify (fun p => p ⟦ mo_events_enabled := true ⟧).

Definition dadd (a b : spec_float) : spec_float := SFadd 53 1024 a b.
Definition dmul (a b : spec_float) : spec_float := SFmul 53 1024 a b.
(** The constant 1e-9. *)
Definition nano : spec_float := ddiv (to_double 1) (to_double 1000000000).

Definition clock_ticks (clock_res : Z) (t : Z * Z) : Z :=
  u64 (u64 (t.1 * clock_res) + u64 (t.2 * clock_res) / 1000000000).

Definition stop : mon unit :=
  p <-- get;
  (if negb (mo_nonstop_mode p) && mo_events_enabled p then
     forM (active_threads p) disable_thread_locked;;
     modify (fun p => p ⟦ mo_events_enabled := false ⟧)
   else ret tt);;
  t <-- now;
  (if negb (mo_nonstop_mode p) && negb (mo_event_fd p =? -1) then
     ok <-- call (eventfd_write (mo_event_fd p) SAMPLER_DRAIN);
     if ok then ret tt else throw (txt "eventfd write failed")
   else ret tt);;
  p <-- get;
  let t0 := mo_start_time p in
  back_kinfo (fun k => k
    ⟦ ki_duration := dadd (to_double (t.1 - t0.1)) (dmul nano (to_double (t.2 - t0.2))) ⟧
    ⟦ ki_clock_start := clock_ticks (mo_clock_res p) t0 ⟧ ⟦ ki_clock_stop := clock_ticks (mo_clock_res p) t ⟧);;
  counters <-- read_counters true;
  (* the array is complete here; a throw in between leaves the window without counters *)
  back_kinfo (fun k => k ⟦ ki_counters := Some counters ⟧).

Definition reset : mon unit := fds_ioctl PERF_EVENT_IOC_RESET.
Definition set_nonstop : mon unit := modify (fun p => p ⟦ mo_nonstop_mode := true ⟧).

Definition read_samples : mon unit :=
  p <-- get;
  if mo_event_fd p =? -1 then ret tt else
  ok <-- call (eventfd_write (mo_event_fd p) SAMPLER_DRAIN);
  if ok then ret tt else throw (txt "eventfd write failed").

Definition tag_addr (tag : text) (start_ end_ : Z) : mon unit :=
  modify (fun p => p ⟦ mo_addr_tags ::= fun l => l ++ [(tag, start_, end_)] ⟧).

Definition mark_phase (tag : text) : mon unit :=
  t <-- call nano_clock;
  t <-- crash_if_none t;
  t <-- lift t;
  modify (fun p => p ⟦ mo_phases ::= fun l => l ++ [(tag, t)] ⟧).

(** ** Construction *)

(** A positive number, all of the text. *)
Definition env_count (getenv : text -> option text) (name : text) (dflt : Z) : result Z :=
  match TargetedCtl.env_set getenv name with
  | None => Ok dflt
  | Some s =>
      if negb (at_nul (strto_end 10 s)) || (strtoull 10 s =? 0)
      then Throw (name ++ txt " must be a positive integer") else Ok (strtoull 10 s)
  end.

(** The members as the initialiser list sets them. *)
Definition initial_monitor (counter_spec sampler_spec : event_spec) (sample_period ringbufsize auxbufsize num_cpus : Z)
    (is_pin : bool) : monitor :=
  mk_monitor num_cpus sample_period ringbufsize auxbufsize counter_spec sampler_spec false false [] [] [] [] [] ∅ ∅ 0
    [] is_pin (-1) (-1) [] (0, 0) 0 [] [] [] [] DEFAULT_HOTSPOT_TOP_K 1 1 (mk_totals 0 (mk_hot_state ∅ 0) 0 0 0 0).

(** The event descriptor, the epoll set and the sampler thread, whose first
    action is to send its thread id. *)
Definition start_sampler_thread : mon Z :=
  epoll_fd <-- call epoll_create;
  modify (fun p => p ⟦ mo_epoll_fd := epoll_fd ⟧);;
  if epoll_fd <? 0 then throw (txt "epoll_create failed") else
  event_fd <-- call eventfd_create;
  modify (fun p => p ⟦ mo_event_fd := event_fd ⟧);;
  if event_fd <? 0 then throw (txt "eventfd failed") else
  sem_ok <-- call sem_init;
  if negb sem_ok then throw (txt "sem_init") else
  tid <-- call (eventfd_read event_fd);
  match tid with
  | None => throw (txt "eventfd read failed")
  | Some tid =>
      ok <-- call (epoll_add epoll_fd event_fd EVENTFD_TOKEN);
      if ok then ret tid else throw (txt "epoll_ctl")
  end.

(** The constructor up to the registration of the existing threads; the value is
    the id of the sampler thread. *)
Definition prepare (getenv : text -> option text) (name : text) : mon Z :=
  top_k <-- lift (env_count getenv (txt "RD_HOTSPOT_TOP_K") DEFAULT_HOTSPOT_TOP_K);
  min_samples <-- lift (env_count getenv (txt "RD_HOTPC_MIN_SAMPLES") 1);
  min_latency <-- lift (env_count getenv (txt "RD_HOTPC_MIN_LATENCY_SAMPLES") 1);
  modify (fun p => p ⟦ mo_hotspot_top_k := top_k ⟧ ⟦ mo_hotspot_min_samples := min_samples ⟧
                     ⟦ mo_hotspot_min_latency_samples := min_latency ⟧ ⟦ mo_nameprefix := name ⟧);;
  if negb pfm_initialize then throw (txt "PFM init fail!") else
  match clock_getres with
  | Some (0, res_nsec) =>
      modify (fun p => p ⟦ mo_clock_res := u64 (res_nsec * 1000000000) ⟧);;
      p <-- get;
      sampler_tid <-- (if 0 <? num_samplers p then start_sampler_thread else ret (-1));
      let zeros := replicate (Z.to_nat (num_counters p + num_samplers p)) 0 in
      modify (fun p => p ⟦ mo_prev_counters := zeros ⟧ ⟦ mo_retired_values := zeros ⟧
                         ⟦ mo_retired_time_enabled := zeros ⟧ ⟦ mo_retired_time_running := zeros ⟧);;
      ret sampler_tid
  | _ => throw (txt "clock_getres failure (CLOCK_MONOTONIC_RAW)")
  end.

Definition attach_threads (sampler_tid : Z) : mon unit :=
  tasks <-- ask perf_tasks;
  tids <-- lift (TargetedCtl.get_threads (s32 sampler_tid) tasks);
  forM tids (fun tid => try_catch (register_thread_locked tid);; ret tt).

Definition construct (getenv : text -> option text) (name : text) : mon unit :=
  sampler_tid <-- prepare getenv name; attach_threads sampler_tid.

(** ** Destruction *)

(** The destructor up to the writing of the files: the stop command, the last
    drain of the sampler thread before it is joined, and the descriptors. *)
Definition shut_down : mon unit :=
  p <-- get;
  (if mo_event_fd p =? -1 then ret tt else
     ok <-- call (eventfd_write (mo_event_fd p) SAMPLER_STOP);
     if ok then terminate_on_throw (sampler_command SAMPLER_STOP) else crash_if_none None);;
  p <-- get;
  (if mo_events_enabled p then
     forM (active_threads p) disable_thread_locked;;
     modify (fun p => p ⟦ mo_events_enabled := false ⟧)
   else ret tt);;
  forM (map_to_list (mo_threads p)).*1 close_thread_locked.

(** The end of the destructor. *)
Definition close_monitor : mon unit :=
  p <-- get;
  (if mo_event_fd p =? -1 then ret tt else act (perf_close (mo_event_fd p)));;
  if mo_epoll_fd p =? -1 then ret tt else act (perf_close (mo_epoll_fd p));; act sem_destroy.

End operations.

End Monitor.
