(* ===== verification/MonitorInv.v ===== *)
(** What the monitor keeps true about its descriptors, mappings, slots and
    counters, whatever threads come and go.

    [PerfLaws] states what the documentation of perf, [mmap] and epoll promises:
    which resources exist, which call creates or releases one, and that a count
    changes only by running, by a reset or by a new event; besides, [pl_fits]
    assumes that the PMU has room for the pinned sampler events.  The invariant
    partitions the resources of the process into those that the thread states
    own and a foreign rest, so that a leak is a growth of the rest. *)
From S2P Require Import Prelude Uapi CText ProcMaps Hotspots SpePacket RingDrain Effects TargetedCtl PerfEvents Monitor.
From Stdlib Require Import SpecFloat.
Import PerfEvents Monitor.

(** * The operating system *)

Inductive resource := RFd (fd : Z) | RMap (base bytes : Z).

Class PerfLaws (Pf : PerfApi) := {
  (** The resources the process holds. *)
  po_has : perf_os -> resource -> Prop;
  (** The count of an event, not wrapped. *)
  po_value : Z -> perf_os -> Z;
  (** The token of a descriptor in an epoll set. *)
  po_watch : Z -> Z -> perf_os -> option Z;
  (** A call changed neither resources, counts nor the epoll set. *)
  po_same (o o' : perf_os) : Prop :=
    (forall r, po_has o' r <-> po_has o r) /\ (forall f, po_value f o' = po_value f o) /\
    forall e f, po_watch e f o' = po_watch e f o;
  pl_open attr pid cpu group o :
    let '(fd, o') := perf_event_open attr pid cpu group o in
    if fd <? 0 then po_same o o' else
    ~ po_has o (RFd fd) /\ (forall r, po_has o' r <-> r = RFd fd \/ po_has o r) /\
    (forall f, f <> fd -> po_value f o' = po_value f o /\ forall e, po_watch e f o' = po_watch e f o);
  pl_ioctl fd req o :
    let o' := perf_ioctl fd req o in
    (forall r, po_has o' r <-> po_has o r) /\ (forall e f, po_watch e f o' = po_watch e f o) /\
    (forall f, f <> fd -> po_value f o' = po_value f o) /\
    po_value fd o' = (if req =? PERF_EVENT_IOC_RESET then 0 else po_value fd o);
  (** A pinned event that does not fit on the PMU goes into an error state, and
      reading it then returns end-of-file; every other event reads its count. *)
  po_error : Z -> perf_os -> Prop;
  pl_read fd o : po_has o (RFd fd) -> ~ po_error fd o ->
    exists c, perf_read fd o = Some c /\ rf_value c = u64 (po_value fd o);
  pl_read_error fd o : po_has o (RFd fd) -> po_error fd o -> perf_read fd o = None;
  (** An assumption on the machine and not on the interface: the pinned sampler
      events fit.  Counting events are not pinned and never go into error. *)
  pl_fits fd o : po_has o (RFd fd) -> ~ po_error fd o;
  pl_close fd o :
    let o' := perf_close fd o in
    (forall r, po_has o' r <-> po_has o r /\ r <> RFd fd) /\
    (forall f, f <> fd -> po_value f o' = po_value f o /\ forall e, po_watch e f o' = po_watch e f o);
  pl_mmap bytes fd off o :
    let '(m, o') := perf_mmap bytes fd off o in
    (forall f, po_value f o' = po_value f o /\ forall e, po_watch e f o' = po_watch e f o) /\
    match m with
    | Some base => bytes <> 0 /\ ~ po_has o (RMap base bytes) /\ forall r, po_has o' r <-> r = RMap base bytes \/ po_has o r
    | None => forall r, po_has o' r <-> po_has o r
    end;
  pl_munmap base bytes o :
    let o' := perf_munmap base bytes o in
    (forall r, po_has o' r <-> po_has o r /\ r <> RMap base bytes) /\
    (forall f, po_value f o' = po_value f o /\ forall e, po_watch e f o' = po_watch e f o);
  pl_epoll_add e fd token o :
    let '(ok, o') := epoll_add e fd token o in
    (forall r, po_has o' r <-> po_has o r) /\ (forall f, po_value f o' = po_value f o) /\
    (forall f, f <> fd -> forall e', po_watch e' f o' = po_watch e' f o) /\
    (ok = true -> po_watch e fd o' = Some token);
  pl_epoll_del e fd o :
    let o' := epoll_del e fd o in
    (forall r, po_has o' r <-> po_has o r) /\ (forall f, po_value f o' = po_value f o) /\
    (forall f, f <> fd -> forall e', po_watch e' f o' = po_watch e' f o);
  pl_quiet o :
    (forall a r, po_same o (set_ring a r o)) /\ (forall a x y, po_same o (set_aux_area a x y o)) /\
    po_same o (sem_wait o) /\ (forall fd v, po_same o (eventfd_write fd v o).2) /\
    (forall tid cpu, po_same o (perf_setaffinity tid cpu o)) /\ po_same o (clock_gettime o).2;
  pl_sem_post o : po_same o (sem_post o);
}.

Module MonitorInv.

Section laws.
Context {Pf : PerfApi} {PL : PerfLaws Pf}.

(** * Partitions *)

(** The process holds the foreign resources [F] and, once each, those of [l]. *)
Record part (F : resource -> Prop) (l : list resource) (o : perf_os) : Prop := {
  pt_nodup : NoDup l;
  pt_foreign r : r ∈ l -> ~ F r;
  pt_has r : po_has o r <-> F r \/ r ∈ l;
}.

(** Counts and epoll entries of the foreign descriptors are untouched. *)
Definition kept (F : resource -> Prop) (o o' : perf_os) : Prop :=
  forall f, F (RFd f) -> po_value f o' = po_value f o /\ forall e, po_watch e f o' = po_watch e f o.

#[global] Instance kept_po F : PreOrder (kept F).
Proof.
  split; [by intros o f Hf|]; intros o1 o2 o3 H1 H2 f Hf.
  destruct (H1 f Hf) as [E1 W1], (H2 f Hf) as [E2 W2]; split; [congruence|]; intros e; by rewrite W2.
Qed.

#[global] Instance part_perm F : Proper ((≡ₚ) ==> eq ==> iff) (part F).
Proof.
  intros l l' Hl o ? <-; split; intros [H1 H2 H3]; split.
  - by rewrite <- Hl.
  - intros r; rewrite <- Hl; auto.
  - intros r; rewrite <- Hl; auto.
  - by rewrite Hl.
  - intros r; rewrite Hl; auto.
  - intros r; rewrite Hl; auto.
Qed.

Lemma part_split F l1 l2 o : part F (l1 ++ l2) o -> part (fun r => F r \/ r ∈ l2) l1 o.
Proof.
  intros [H1 H2 H3]; apply NoDup_app in H1 as (N1 & N2 & N3); split; [done| |].
  - intros r Hr [Hf|Hl]; [by apply (H2 r); [apply elem_of_app; left|]|by apply (N2 r)].
  - intros r; rewrite H3, elem_of_app; tauto.
Qed.

Lemma part_join F l1 l2 o :
  NoDup l2 -> (forall r, r ∈ l2 -> ~ F r) -> part (fun r => F r \/ r ∈ l2) l1 o -> part F (l1 ++ l2) o.
Proof.
  intros N2 D2 [H1 H2 H3]; split.
  - apply NoDup_app; split_and!; [done| |done]; intros r Hr Hr2; apply (H2 r Hr); by right.
  - intros r [Hr|Hr]%elem_of_app Hf; [apply (H2 r Hr); by left|by apply (D2 r)].
  - intros r; rewrite H3, elem_of_app; tauto.
Qed.

Lemma part_equiv F F' l o : (forall r, F r <-> F' r) -> part F l o -> part F' l o.
Proof. intros E [H1 H2 H3]; split; [done| |]; intros r; rewrite <- E; auto. Qed.

Lemma part_same F l o o' : (forall r, po_has o' r <-> po_has o r) -> part F l o -> part F l o'.
Proof. intros E [H1 H2 H3]; split; [done|done|]; intros r; by rewrite E. Qed.

Lemma part_new F l r o o' :
  ~ po_has o r -> (forall r', po_has o' r' <-> r' = r \/ po_has o r') -> part F l o -> part F (r :: l) o'.
Proof.
  intros Hn E [H1 H2 H3]; split.
  - apply NoDup_cons; split; [|done]; intros Hr; apply Hn, H3; by right.
  - intros r' [->|Hr]%elem_of_cons Hf; [apply Hn, H3; by left|by apply (H2 r')].
  - intros r'; rewrite E, H3, elem_of_cons; tauto.
Qed.

Lemma part_drop F l r o o' :
  (forall r', po_has o' r' <-> po_has o r' /\ r' <> r) -> part F (r :: l) o -> part F l o'.
Proof.
  intros E [H1 H2 H3]; apply NoDup_cons in H1 as [N1 N2]; split; [done| |].
  - intros r' Hr; apply H2; by right.
  - intros r'; rewrite E, H3, elem_of_cons; split.
    + intros [[Hf|[->|Hl]] Hne]; [by left|done|by right].
    + intros [Hf|Hl]; (split; [tauto|]); intros ->; [apply (H2 r); [by left|done]|done].
Qed.

(** A resource that nothing accounts for any more. *)
Lemma part_leak F l r o : part F (r :: l) o -> part (fun r' => F r' \/ r' = r) l o.
Proof.
  intros H; apply (part_equiv (fun r' => F r' \/ r' ∈ [r])); [intros; rewrite list_elem_of_singleton; tauto|].
  apply part_split; by rewrite Permutation_app_comm.
Qed.

Lemma kept_same F o o' : po_same o o' -> kept F o o'.
Proof. intros (_ & H2 & H3) f _; auto. Qed.

Lemma kept_weaken F F' o o' : (forall r, F r -> F' r) -> kept F' o o' -> kept F o o'.
Proof. intros H H' f Hf; apply H'; auto. Qed.

(** ** Calls *)

Definition fd_res (fd : Z) : list resource := if 0 <=? fd then [RFd fd] else [].
Definition buf_res (buf : option Z) (bytes : Z) : list resource :=
  match buf with
  | Some base => if bytes =? 0 then [] else [RMap base bytes]
  | None => []
  end.

Lemma kept_fd F l fd o o' :
  part F (fd_res fd ++ l) o -> 0 <= fd ->
  (forall f, f <> fd -> po_value f o' = po_value f o /\ forall e, po_watch e f o' = po_watch e f o) -> kept F o o'.
Proof.
  intros Hp Hfd H f Hf; apply H; intros ->; unfold fd_res in Hp; rewrite (proj2 (Z.leb_le 0 fd)) in Hp by lia.
  apply (pt_foreign _ _ _ Hp (RFd fd)); [by left|done].
Qed.

Lemma close_fd_spec {C} F l fd p o :
  part F (fd_res fd ++ l) o ->
  wpc C (if 0 <=? fd then act (perf_close fd) else ret tt)
    (fun r s' => r = Ok tt /\ s'.1 = p /\ part F l s'.2 /\ kept F o s'.2) (p, o).
Proof.
  intros Hp; destruct (0 <=? fd) eqn:E.
  - apply wp_call; destruct (pl_close fd o) as [H1 H2]; cbn [fst snd]; split_and!; [done|done| |].
    + unfold fd_res in Hp; rewrite E in Hp; by eapply part_drop.
    + eapply kept_fd; [done|lia|done].
  - apply wp_ret; unfold fd_res in Hp; rewrite E in Hp; split_and!; done.
Qed.

Lemma close_fds_spec {C} F l fds p o :
  part F (concat (fd_res <$> fds) ++ l) o ->
  wpc C (close_fds fds) (fun r s' => r = Ok tt /\ s'.1 = p /\ part F l s'.2 /\ kept F o s'.2) (p, o).
Proof.
  revert o; induction fds as [|fd fds IH]; intros o Hp; [by apply wp_ret|].
  cbn [fmap list_fmap concat] in Hp; rewrite <- app_assoc in Hp.
  apply wp_bind; eapply wp_mono; [by eapply close_fd_spec|]; intros r [p1 o1] (-> & E & H1 & K1); cbn [fst snd] in *; subst p1.
  eapply wp_mono; [by apply IH|]; intros r [p2 o2] (-> & E & H2 & K2); split_and!; [done|done|done|by etrans].
Qed.

Lemma unmap_spec {C} F l buf bytes p o :
  part F (buf_res buf bytes ++ l) o ->
  wpc C (unmap_buffer buf bytes) (fun r s' => r = Ok tt /\ s'.1 = p /\ part F l s'.2 /\ kept F o s'.2) (p, o).
Proof.
  intros Hp; destruct buf as [base|]; [|by apply wp_ret]; cbn [buf_res unmap_buffer] in *.
  destruct (bytes =? 0); [by apply wp_ret|].
  apply wp_call; destruct (pl_munmap base bytes o) as [H1 H2]; cbn [fst snd]; split_and!; [done|done| |].
  - by eapply part_drop.
  - intros f _; apply H2.
Qed.

(** ** Slots and threads *)

Definition slot_res (s : sampler_slot) : list resource :=
  buf_res (ss_auxbuf s) (ss_auxbuf_bytes s) ++ buf_res (ss_ringbuf s) (ss_ringbuf_bytes s) ++ fd_res (ss_fd s).
Definition thread_res (t : thread_state) : list resource :=
  concat (slot_res <$> ts_samplers t) ++ concat (fd_res <$> ts_counter_fds t).

Lemma slot_res_perm s l :
  slot_res s ++ l ≡ₚ fd_res (ss_fd s) ++ buf_res (ss_auxbuf s) (ss_auxbuf_bytes s) ++ buf_res (ss_ringbuf s) (ss_ringbuf_bytes s) ++ l.
Proof. unfold slot_res; solve_Permutation. Qed.

Lemma close_slot_spec {C} F l slot p o :
  part F (slot_res slot ++ l) o ->
  wpc C (close_slot slot)
    (fun r s' => r = Ok tt /\ s'.1 = p ⟦ mo_sampler_slots ::= delete (ss_slot_id slot) ⟧ /\ part F l s'.2 /\ kept F o s'.2) (p, o).
Proof.
  intros Hp; set (p' := p ⟦ mo_sampler_slots ::= delete (ss_slot_id slot) ⟧).
  apply wp_bind, wp_modify, wp_bind, wp_get, wp_bind; cbn [fst snd]; fold p'.
  assert (Hdel : wpc C (if negb (mo_epoll_fd p' =? -1) && (0 <=? ss_fd slot) then act (epoll_del (mo_epoll_fd p') (ss_fd slot)) else ret tt)
    (fun r s' => r = Ok tt /\ s'.1 = p' /\ part F (slot_res slot ++ l) s'.2 /\ kept F o s'.2) (p', o)).
  { apply wp_if; intros E; [|by apply wp_ret].
    apply wp_call; destruct (pl_epoll_del (mo_epoll_fd p') (ss_fd slot) o) as (H1 & H2 & H3); cbn [fst snd].
    split_and!; [done|done|by eapply part_same|].
    rewrite slot_res_perm in Hp; eapply kept_fd; [done|lia|]; auto. }
  eapply wp_mono; [exact Hdel|]; intros r [p1 o1] (-> & E1 & P1 & K1); cbn [fst snd] in *; subst p1.
  unfold slot_res in P1; rewrite <- !app_assoc in P1.
  apply wp_bind; eapply wp_mono; [by eapply unmap_spec|]; intros r [p2 o2] (-> & E2 & P2 & K2); cbn [fst snd] in *; subst p2.
  apply wp_bind; eapply wp_mono; [by eapply unmap_spec|]; intros r [p3 o3] (-> & E3 & P3 & K3); cbn [fst snd] in *; subst p3.
  eapply wp_mono; [by eapply close_fd_spec|]; intros r [p4 o4] (-> & E4 & P4 & K4); cbn [fst snd] in *; subst p4.
  split_and!; [done|done|done|]; by do 3 (etrans; [eassumption|]).
Qed.

(** The slot table without the slots of a list. *)
Definition forget_slots (ss : list sampler_slot) (m : gmap Z (Z * nat)) : gmap Z (Z * nat) :=
  foldl (fun m s => delete (ss_slot_id s) m) m ss.

Lemma close_slots_spec {C} F l ss p o :
  part F (concat (slot_res <$> ss) ++ l) o ->
  wpc C (forM ss close_slot)
    (fun r s' => r = Ok tt /\ s'.1 = p ⟦ mo_sampler_slots ::= forget_slots ss ⟧ /\ part F l s'.2 /\ kept F o s'.2) (p, o).
Proof.
  revert p o; induction ss as [|s ss IH]; intros p o Hp; [by destruct p; apply wp_ret|].
  cbn [fmap list_fmap concat] in Hp; rewrite <- app_assoc in Hp.
  apply wp_bind; eapply wp_mono; [by eapply close_slot_spec|]; intros r [p1 o1] (-> & E & H1 & K1); cbn [fst snd] in *; subst p1.
  eapply wp_mono; [by apply IH|]; intros r [p2 o2] (-> & E & H2 & K2); split_and!; [done| |done|by etrans].
  cbn [fst] in *; rewrite E; by destruct p.
Qed.

(** ** The state of one thread being opened or closed *)

(** The monitor [p] with thread [tid] in state [t], slot table [m] and next slot id [n]. *)
Definition at_thread (p : monitor) (tid : Z) (t : thread_state) (m : gmap Z (Z * nat)) (n : Z) : monitor :=
  p ⟦ mo_threads ::= <[tid := t]> ⟧ ⟦ mo_sampler_slots := m ⟧ ⟦ mo_next_slot_id := n ⟧.

Lemma thread_of_at p tid t m n : thread_of (at_thread p tid t m n) tid = t.
Proof. unfold thread_of, at_thread; cbn; by rewrite lookup_insert_eq. Qed.

Lemma alter_at (f : thread_state -> thread_state) tid t (th : gmap Z thread_state) :
  partial_alter (fun x => Some (f (default empty_thread_state x))) tid (<[tid := t]> th) = <[tid := f t]> th.
Proof.
  apply map_eq; intros k; destruct (decide (k = tid)) as [->|Hk].
  - by rewrite lookup_partial_alter_eq, !lookup_insert_eq.
  - by rewrite lookup_partial_alter_ne, !lookup_insert_ne by done.
Qed.

Lemma wp_set_thread {C} p tid t m n f Q o :
  Q (Ok tt) (at_thread p tid (f t) m n, o) -> wpc C (set_thread tid f) Q (at_thread p tid t m n, o).
Proof.
  intros HQ; apply wp_modify; cbn [fst snd].
  replace (at_thread p tid t m n ⟦ mo_threads ::= _ ⟧) with (at_thread p tid (f t) m n); [done|].
  symmetry; unfold at_thread, upd; cbn; by rewrite alter_at.
Qed.

(** The slot table with the slots [ss] of thread [tid] entered from index [k] on. *)
Fixpoint link_slots (tid : Z) (k : nat) (ss : list sampler_slot) (m : gmap Z (Z * nat)) : gmap Z (Z * nat) :=
  match ss with
  | [] => m
  | s :: more => link_slots tid (S k) more (<[ss_slot_id s := (tid, k)]> m)
  end.

Lemma link_snoc tid k ss s m :
  link_slots tid k (ss ++ [s]) m = <[ss_slot_id s := (tid, (k + length ss)%nat)]> (link_slots tid k ss m).
Proof.
  revert k m; induction ss as [|x ss IH]; intros k m; cbn [link_slots app length].
  - by rewrite Nat.add_0_r.
  - rewrite IH; by replace (S k + length ss)%nat with (k + S (length ss))%nat by lia.
Qed.

Lemma lookup_link tid k ss m id :
  NoDup (ss_slot_id <$> ss) ->
  link_slots tid k ss m !! id =
    match list_find (fun s => ss_slot_id s = id) ss with
    | Some (i, _) => Some (tid, (k + i)%nat)
    | None => m !! id
    end.
Proof.
  revert k m; induction ss as [|s ss IH]; intros k m Hn; [done|].
  cbn [fmap list_fmap] in Hn; apply NoDup_cons in Hn as [Hs Hn]; cbn [link_slots list_find].
  rewrite IH by done; case_decide as Hid.
  - subst id; rewrite lookup_insert_eq, Nat.add_0_r.
    destruct (list_find _ ss) as [[i s']|] eqn:E; [|done].
    apply list_find_Some in E as (E1 & E2 & _); destruct Hs; apply list_elem_of_fmap; exists s'.
    split; [done|by eapply list_elem_of_lookup_2].
  - rewrite lookup_insert_ne by done; destruct (list_find _ ss) as [[i s']|]; [|done]; cbn.
    by rewrite Nat.add_succ_r.
Qed.

Lemma lookup_forget ss m id :
  forget_slots ss m !! id = if decide (id ∈ ss_slot_id <$> ss) then None else m !! id.
Proof.
  revert m; induction ss as [|s ss IH]; intros m; [by rewrite decide_False by apply not_elem_of_nil|].
  change (forget_slots (s :: ss) m) with (forget_slots ss (delete (ss_slot_id s) m)); rewrite IH.
  cbn [fmap list_fmap]; destruct (decide (id ∈ ss_slot_id <$> ss)) as [H|H].
  - rewrite decide_True; [done|by right].
  - destruct (decide (id = ss_slot_id s)) as [->|Hne].
    + by rewrite lookup_delete_eq, decide_True by (by left).
    + rewrite lookup_delete_ne, decide_False; [done| |done]; by intros [?|?]%elem_of_cons.
Qed.

(** Slots as [open_slot] makes them: the [i]-th has id [n0 + i]. *)
Record slot_made (tid n0 : Z) (i : nat) (s : sampler_slot) : Prop := {
  sm_id : ss_slot_id s = n0 + Z.of_nat i;
  sm_tid : ss_tid s = tid;
  sm_index : ss_sampler_index s = Z.of_nat i;
  sm_fd : 0 <= ss_fd s;
  sm_ring : is_Some (ss_ringbuf s);
}.
Definition slots_made (tid n0 : Z) (ss : list sampler_slot) : Prop :=
  forall i s, ss !! i = Some s -> slot_made tid n0 i s.

Lemma slots_made_ids tid n0 ss : slots_made tid n0 ss -> ss_slot_id <$> ss = seqZ n0 (zlen ss).
Proof.
  intros H; apply list_eq; intros i; rewrite list_lookup_fmap.
  destruct (ss !! i) as [s|] eqn:E; cbn.
  - symmetry; apply lookup_seqZ; rewrite (sm_id _ _ _ _ (H i s E)); apply lookup_lt_Some in E; lia.
  - symmetry; apply lookup_seqZ_ge; apply lookup_ge_None in E; lia.
Qed.

Lemma slots_made_nodup tid n0 ss : slots_made tid n0 ss -> NoDup (ss_slot_id <$> ss).
Proof. intros H; rewrite (slots_made_ids _ _ _ H); apply NoDup_seqZ. Qed.

Lemma slots_made_snoc tid n0 ss s :
  slots_made tid n0 ss -> slot_made tid n0 (length ss) s -> slots_made tid n0 (ss ++ [s]).
Proof.
  intros H Hs i x Hx; apply lookup_snoc_Some in Hx as [[_ Hx]|[-> <-]]; [by apply H|done].
Qed.

Lemma forget_link tid n0 ss m :
  slots_made tid n0 ss -> (forall id, n0 <= id -> m !! id = None) -> forget_slots ss (link_slots tid 0 ss m) = m.
Proof.
  intros H Hm; apply map_eq; intros id; rewrite lookup_forget, lookup_link by (by eapply slots_made_nodup).
  case_decide as Hid.
  - symmetry; apply Hm; rewrite (slots_made_ids _ _ _ H), elem_of_seqZ in Hid; lia.
  - destruct (list_find _ ss) as [[i s]|] eqn:E; [|done].
    apply list_find_Some in E as (E1 & E2 & _); destruct Hid; apply list_elem_of_fmap; exists s.
    split; [done|by eapply list_elem_of_lookup_2].
Qed.

Lemma close_thread_spec {C} F L p tid t m n o :
  part F (thread_res t ++ L) o ->
  wpc C (close_thread_locked tid) (fun r s' => r = Ok tt /\
    s'.1 = at_thread p tid (mk_thread_state (ts_tid t) false [] (ts_writers t) []) (forget_slots (ts_samplers t) m) n /\
    part F L s'.2 /\ kept F o s'.2) (at_thread p tid t m n, o).
Proof.
  intros Hp; apply wp_bind, wp_get; cbn [fst]; rewrite thread_of_at.
  unfold thread_res in Hp; rewrite <- app_assoc in Hp.
  apply wp_bind; eapply wp_mono; [by eapply close_slots_spec|]; intros r [p1 o1] (-> & E & H1 & K1); cbn [fst snd] in *; subst p1.
  apply wp_bind; eapply wp_mono; [by eapply close_fds_spec|]; intros r [p2 o2] (-> & E & H2 & K2); cbn [fst snd] in *; subst p2.
  replace (at_thread p tid t m n ⟦ mo_sampler_slots ::= forget_slots (ts_samplers t) ⟧)
    with (at_thread p tid t (forget_slots (ts_samplers t) m) n) by done.
  apply wp_set_thread; split_and!; [done| |done|by etrans]; by destruct t.
Qed.

(** ** Opening descriptors *)

Lemma open_fds_loop_spec pid pt cpu per F spec : forall group i pre o,
  part F [] o -> zlen pre = i ->
  let '(fds', r, o') := open_fds_loop pid pt cpu per group i spec (pre ++ replicate (length spec) (-1)) o in
  exists new, part F (RFd <$> new) o' /\ kept F o o' /\ (forall fd, fd ∈ new -> 0 <= fd /\ po_value fd o' = 0) /\
    fds' = pre ++ new ++ replicate (length spec - length new) (-1) /\ (r = Ok tt -> length new = length spec).
Proof.
  revert F; induction spec as [|[name leader] spec IH]; intros F group i pre o Hp Hi; cbn [open_fds_loop].
  - exists []; split_and!; try done; intros fd Hfd; by apply not_elem_of_nil in Hfd.
  - assert (Hfail : forall (e : text) o', (forall r, po_has o' r <-> po_has o r) -> kept F o o' ->
      exists new, part F (RFd <$> new) o' /\ kept F o o' /\ (forall fd, fd ∈ new -> 0 <= fd /\ po_value fd o' = 0) /\
        pre ++ replicate (length ((name, leader) :: spec)) (-1) =
          pre ++ new ++ replicate (length ((name, leader) :: spec) - length new) (-1) /\
        (Throw e = Ok tt -> length new = length ((name, leader) :: spec))).
    { intros e o' Hs Hk; exists []; split_and!; [by eapply part_same|done| |done|done].
      intros fd Hfd; by apply not_elem_of_nil in Hfd. }
    destruct (init_perf_attr _ _ _) as [attr|e]; [|by apply Hfail].
    set (g := if leader then -1 else group).
    pose proof (pl_open attr pid cpu g o) as Ho; destruct (perf_event_open attr pid cpu g o) as [fd o1] eqn:E.
    destruct (fd <? 0) eqn:Efd; [apply Hfail; [apply Ho|by apply kept_same]|].
    destruct Ho as (Hn & Hh & Hv); set (o2 := perf_ioctl fd PERF_EVENT_IOC_RESET o1).
    destruct (pl_ioctl fd PERF_EVENT_IOC_RESET o1) as (Hh2 & Hw2 & Hv2 & Hz2); fold o2 in Hh2, Hw2, Hv2, Hz2.
    assert (Hf0 : ~ F (RFd fd)) by (intros Hf; apply Hn, Hp; by left).
    assert (P2 : part F [RFd fd] o2) by (eapply part_same, part_new; eauto).
    assert (K2 : kept F o o2).
    { intros f Hf; assert (f <> fd) by (by intros ->); destruct (Hv f) as [V W]; [done|].
      split; [by rewrite Hv2|]; intros e; by rewrite Hw2. }
    assert (P2' : part (fun r => F r \/ r ∈ [RFd fd]) [] o2) by (by apply part_split).
    specialize (IH _ (if g =? -1 then fd else g) (i + 1) (pre ++ [fd]) o2 P2' ltac:(rewrite length_app; cbn; lia)).
    replace (<[Z.to_nat i := fd]> (pre ++ replicate (length ((name, leader) :: spec)) (-1)))
      with ((pre ++ [fd]) ++ replicate (length spec) (-1)).
    2: { rewrite <- app_assoc; cbn [length replicate app].
         replace (Z.to_nat i) with (length pre + 0)%nat by lia; by rewrite insert_app_r. }
    destruct (open_fds_loop _ _ _ _ _ _ _ _ o2) as [[fds' r] o'].
    destruct IH as (new & H1 & H2 & H3 & H4 & H5); exists (fd :: new); split_and!.
    + cbn [fmap list_fmap]; rewrite Permutation_cons_append; apply part_join; [apply NoDup_singleton| |done].
      by intros r' ->%list_elem_of_singleton.
    + etrans; [exact K2|]; eapply kept_weaken; [|exact H2]; by left.
    + intros f [->|Hf]%elem_of_cons; [|by apply H3].
      split; [lia|]; destruct (H2 fd) as [-> _]; [right; by left|done].
    + rewrite H4, <- app_assoc; done.
    + intros Hr; cbn [length]; by rewrite H5.
Qed.

Lemma open_fds_spec pid pt cpu spec per F o :
  part F [] o ->
  let '(fds', r, o') := open_fds pid pt cpu spec per (replicate (length spec) (-1)) o in
  exists new, part F (RFd <$> new) o' /\ kept F o o' /\ (forall fd, fd ∈ new -> 0 <= fd /\ po_value fd o' = 0) /\
    fds' = new ++ replicate (length spec - length new) (-1) /\ (r = Ok tt -> length new = length spec).
Proof. intros Hp; exact (open_fds_loop_spec pid pt cpu per F spec (-1) 0 [] o Hp eq_refl). Qed.

Definition everywhere (r : resource) : Prop := True.

Lemma map_aux_spec {C} F l name fd ring rb ab p o :
  part F l o ->
  wpc C (map_aux name fd ring rb ab) (fun r s' => s'.1 = p /\ kept everywhere o s'.2 /\
    match r with
    | Ok a => part F (buf_res a.1 a.2 ++ l) s'.2
    | Throw _ => part F l s'.2
    end) (p, o).
Proof.
  intros Hp; apply wp_if; intros _; [by apply wp_ret|].
  apply wp_bind, wp_call; cbn [fst snd]; set (o1 := set_aux_area ring rb ab o).
  destruct (pl_quiet o) as (_ & Hq & _); specialize (Hq ring rb ab); fold o1 in Hq.
  assert (P1 : part F l o1) by (eapply part_same, Hp; apply Hq).
  apply wp_bind, wp_call; cbn [fst snd].
  pose proof (pl_mmap ab fd rb o1) as Hm; destruct (perf_mmap ab fd rb o1) as [[base|] o2]; cbn [fst snd]; destruct Hm as [Hv Hm].
  - destruct Hm as (Hb & Hn & Hh); apply wp_bind, wp_call; cbn [fst snd].
    destruct (pl_quiet o2) as (_ & Hq2 & _); specialize (Hq2 ring (u64 (base - ring)) ab).
    apply wp_ret; split_and!; [done| |].
    + etrans; [by apply kept_same, Hq|]; etrans; [|by apply kept_same, Hq2]; by intros f _.
    + cbn [fst snd buf_res]; rewrite (proj2 (Z.eqb_neq ab 0)) by done.
      eapply part_same; [apply Hq2|]; by eapply part_new.
  - apply wp_throw; split_and!; [done| |by eapply part_same].
    etrans; [by apply kept_same, Hq|]; by intros f _.
Qed.

Definition push_slot (slot : sampler_slot) (t : thread_state) : thread_state :=
  t ⟦ ts_samplers ::= fun l => l ++ [slot] ⟧.

Lemma open_slot_spec {C} F tid rb ab k fd name p t m n o :
  part F [RFd fd] o -> 0 <= fd ->
  wpc C (open_slot tid rb ab k fd name) (fun r s' => kept F o s'.2 /\
    ((exists slot, s'.1 = at_thread p tid (push_slot slot t) (<[n := (tid, length (ts_samplers t))]> m) (n + 1) /\
        ss_slot_id slot = n /\ ss_tid slot = tid /\ ss_sampler_index slot = k /\ ss_fd slot = fd /\
        is_Some (ss_ringbuf slot) /\ part F (slot_res slot) s'.2 /\ po_value fd s'.2 = po_value fd o /\
        (r = Ok tt -> mo_epoll_fd p <> -1 -> po_watch (mo_epoll_fd p) fd s'.2 = Some (make_sampler_token n))) \/
     (exists e lost, r = Throw e /\ s'.1 = at_thread p tid t m (n + 1) /\ part F lost s'.2)))
    (at_thread p tid t m n, o).
Proof.
  intros Hp Hfd; apply wp_bind, wp_get, wp_bind, wp_modify; cbn [fst snd].
  change (at_thread p tid t m n ⟦ mo_next_slot_id := mo_next_slot_id (at_thread p tid t m n) + 1 ⟧)
    with (at_thread p tid t m (n + 1)); change (mo_next_slot_id (at_thread p tid t m n)) with n.
  apply wp_bind, wp_call; cbn [fst snd].
  pose proof (pl_mmap rb fd 0 o) as Hm; destruct (perf_mmap rb fd 0 o) as [[base|] o1]; cbn [fst snd]; destruct Hm as [Hv Hm].
  2: { apply wp_throw; split; [by intros f _|]; right; eexists _, [RFd fd]; split_and!; [done|done|by eapply part_same]. }
  destruct Hm as (Hrb & Hn & Hh).
  assert (P1 : part F [RMap base rb; RFd fd] o1) by (by eapply part_new).
  assert (K1 : kept everywhere o o1) by (by intros f _).
  apply wp_bind; eapply wp_mono; [by apply map_aux_spec|]; intros [aux|e] [p2 o2] (E & K2 & P2); cbn [fst snd] in *; subst p2.
  2: { split; [by eapply kept_weaken; [|etrans; [exact K1|exact K2]]|]; right; eauto 10. }
  apply wp_bind, wp_get; cbn [fst snd]; rewrite thread_of_at.
  apply wp_bind, wp_set_thread, wp_bind, wp_modify; cbn [fst snd].
  set (slot := mk_sampler n tid k fd (Some base) rb aux.1 aux.2 (mk_pending 0 0 0 0 0 0 0)).
  change (at_thread p tid (t ⟦ ts_samplers ::= fun l => l ++ [slot] ⟧) m (n + 1)
            ⟦ mo_sampler_slots ::= <[n := (tid, length (ts_samplers t))]> ⟧)
    with (at_thread p tid (push_slot slot t) (<[n := (tid, length (ts_samplers t))]> m) (n + 1)).
  change (mo_epoll_fd (at_thread p tid t m (n + 1))) with (mo_epoll_fd p).
  assert (K12 : kept everywhere o o2) by (by etrans).
  assert (P2' : part F (slot_res slot) o2).
  { unfold slot_res, fd_res; cbn [ss_auxbuf ss_auxbuf_bytes ss_ringbuf ss_ringbuf_bytes ss_fd slot buf_res].
    by rewrite (proj2 (Z.leb_le 0 fd)), (proj2 (Z.eqb_neq rb 0)) by done. }
  apply wp_if; intros Hep.
  - apply wp_ret; split; [by eapply kept_weaken, K12|]; left; exists slot; split_and!; try done.
    + by destruct (K12 fd).
    + intros _ Hne; apply Z.eqb_eq in Hep; done.
  - apply wp_bind, wp_call; cbn [fst snd].
    pose proof (pl_epoll_add (mo_epoll_fd p) fd (make_sampler_token n) o2) as He.
    destruct (epoll_add _ _ _ o2) as [ok o3]; destruct He as (H1 & H2 & H3 & H4); cbn [fst snd].
    assert (K3 : kept F o o3).
    { intros f Hf; destruct (K12 f) as [V W]; [done|]; split; [by rewrite H2|]; intros e; rewrite H3; [done|].
      intros ->; apply (pt_foreign _ _ _ Hp (RFd fd)); [by left|done]. }
    assert (HQ : forall r, (r = Ok tt -> ok = true) -> exists slot0,
        at_thread p tid (push_slot slot t) (<[n := (tid, length (ts_samplers t))]> m) (n + 1) =
          at_thread p tid (push_slot slot0 t) (<[n := (tid, length (ts_samplers t))]> m) (n + 1) /\
        ss_slot_id slot0 = n /\ ss_tid slot0 = tid /\ ss_sampler_index slot0 = k /\ ss_fd slot0 = fd /\
        is_Some (ss_ringbuf slot0) /\ part F (slot_res slot0) o3 /\ po_value fd o3 = po_value fd o /\
        (r = Ok tt -> mo_epoll_fd p <> -1 -> po_watch (mo_epoll_fd p) fd o3 = Some (make_sampler_token n))).
    { intros r Hr; exists slot; split_and!; try done.
      - by eapply part_same.
      - rewrite H2; by destruct (K12 fd).
      - intros Hr' _; by apply H4, Hr. }
    destruct ok; [apply wp_ret|apply wp_throw]; (split; [done|]); left; by apply HQ.
Qed.

(** The slots are in the epoll set under their tokens. *)
Definition watched (p : monitor) (ss : list sampler_slot) (o : perf_os) : Prop :=
  mo_epoll_fd p <> -1 -> forall s, s ∈ ss -> po_watch (mo_epoll_fd p) (ss_fd s) o = Some (make_sampler_token (ss_slot_id s)).
(** The descriptors among [l] have not counted yet. *)
Definition zeroed (l : list resource) (o : perf_os) : Prop := forall fd, RFd fd ∈ l -> po_value fd o = 0.

Lemma zeroed_kept F l o o' : (forall r, r ∈ l -> F r) -> kept F o o' -> zeroed l o -> zeroed l o'.
Proof. intros Hl Hk Hz fd Hfd; destruct (Hk fd) as [-> _]; auto. Qed.

Lemma slot_fd_res s : 0 <= ss_fd s -> RFd (ss_fd s) ∈ slot_res s.
Proof.
  intros H; unfold slot_res, fd_res; rewrite (proj2 (Z.leb_le 0 _)) by done.
  rewrite !elem_of_app; do 2 right; by left.
Qed.
Lemma slot_res_fd s fd : RFd fd ∈ slot_res s -> fd = ss_fd s.
Proof.
  unfold slot_res, fd_res, buf_res; rewrite !elem_of_app; intros [H|[H|H]].
  - destruct (ss_auxbuf s); [destruct (_ =? 0)|]; rewrite ?list_elem_of_singleton in H; by try apply not_elem_of_nil in H.
  - destruct (ss_ringbuf s); [destruct (_ =? 0)|]; rewrite ?list_elem_of_singleton in H; by try apply not_elem_of_nil in H.
  - destruct (0 <=? ss_fd s); [apply list_elem_of_singleton in H; congruence|by apply not_elem_of_nil in H].
Qed.
Lemma slot_res_thread s t r : s ∈ ts_samplers t -> r ∈ slot_res s -> r ∈ thread_res t.
Proof.
  intros Hs Hr; apply elem_of_app; left; apply list_elem_of_In, in_concat.
  exists (slot_res s); rewrite <- !list_elem_of_In; split; [|done]; apply list_elem_of_fmap; eauto.
Qed.

Lemma watched_kept F p t o o' tid n0 :
  slots_made tid n0 (ts_samplers t) -> (forall r, r ∈ thread_res t -> F r) -> kept F o o' ->
  watched p (ts_samplers t) o -> watched p (ts_samplers t) o'.
Proof.
  intros Hm HF Hk Hw He s Hs; destruct (Hk (ss_fd s)) as [_ ->]; [|by apply Hw].
  apply HF; eapply slot_res_thread; [done|]; apply slot_fd_res.
  apply list_elem_of_lookup in Hs as [i Hi]; by eapply Hm.
Qed.

Lemma thread_res_push slot t : thread_res (push_slot slot t) ≡ₚ slot_res slot ++ thread_res t.
Proof.
  unfold thread_res, push_slot; cbn; rewrite fmap_app, concat_app; cbn [fmap list_fmap concat].
  rewrite app_nil_r; solve_Permutation.
Qed.

Lemma fd_res_nonneg fds : Forall (fun fd => 0 <= fd) fds -> concat (fd_res <$> fds) = RFd <$> fds.
Proof.
  induction 1 as [|fd fds H _ IH]; [done|]; cbn [fmap list_fmap concat]; rewrite IH; unfold fd_res.
  by rewrite (proj2 (Z.leb_le 0 fd)).
Qed.

Lemma open_slots_spec {C} F tid rb ab p n0 base : forall fds t o,
  part F ((RFd <$> fds.*1) ++ thread_res t) o -> Forall (fun fd => 0 <= fd) fds.*1 ->
  slots_made tid n0 (ts_samplers t) -> watched p (ts_samplers t) o ->
  zeroed ((RFd <$> fds.*1) ++ thread_res t) o ->
  wpc C (open_slots tid rb ab (zlen (ts_samplers t)) fds) (fun r s' => kept F o s'.2 /\
    exists ss' n', let t' := t ⟦ ts_samplers := ss' ⟧ in
      s'.1 = at_thread p tid t' (link_slots tid 0 ss' base) n' /\
      slots_made tid n0 ss' /\ n0 + zlen ss' <= n' /\
      match r with
      | Ok _ => part F (thread_res t') s'.2 /\ watched p ss' s'.2 /\ zeroed (thread_res t') s'.2 /\
                length ss' = (length (ts_samplers t) + length fds)%nat
      | Throw _ => exists lost, part F (thread_res t' ++ lost) s'.2
      end) (at_thread p tid t (link_slots tid 0 (ts_samplers t) base) (n0 + zlen (ts_samplers t)), o).
Proof.
  induction fds as [|[fd name] fds IH]; intros t o Hp Hge Hm Hw Hz; cbn [open_slots].
  - apply wp_ret; split; [done|]; exists (ts_samplers t), (n0 + zlen (ts_samplers t)); destruct t; split_and!; try done; cbn; lia.
  - cbn [fmap list_fmap fst] in Hp, Hge, Hz; rewrite !Forall_cons in Hge; destruct Hge as [Hfd Hge].
    set (rest := (RFd <$> fds.*1) ++ thread_res t) in *.
    pose proof (part_split F [RFd fd] rest o Hp) as P1.
    destruct (NoDup_cons (RFd fd) rest) as [Hnd _]; destruct (Hnd (pt_nodup _ _ _ Hp)) as [Hnin Hnodup]; clear Hnd.
    assert (Hdisj : forall r, r ∈ rest -> ~ F r) by (intros r Hr; apply (pt_foreign _ _ _ Hp); by right).
    apply wp_bind, wp_on_throw; eapply wp_mono; [by eapply open_slot_spec|].
    intros r [p1 o1] [K1 [(slot & E & Hid & Htid & Hidx & Hsfd & Hring & P2 & V2 & W2)|(e & lost & -> & E & P2)]]; cbn [fst snd] in *; subst p1.
    + assert (Hm' : slots_made tid n0 (ts_samplers (push_slot slot t))).
      { apply slots_made_snoc; [done|]; split; congruence || done. }
      assert (P3 : part F (slot_res slot ++ rest) o1) by (by apply part_join).
      assert (Hl : link_slots tid 0 (ts_samplers (push_slot slot t)) base =
                   <[n0 + zlen (ts_samplers t) := (tid, length (ts_samplers t))]> (link_slots tid 0 (ts_samplers t) base)).
      { unfold push_slot; cbn; by rewrite link_snoc, Hid. }
      assert (Hlen : zlen (ts_samplers (push_slot slot t)) = zlen (ts_samplers t) + 1)
        by (unfold push_slot; cbn; rewrite length_app; cbn; lia).
      rewrite <- Hl; replace (n0 + zlen (ts_samplers t) + 1) with (n0 + zlen (ts_samplers (push_slot slot t))) by lia.
      destruct r as [[]|e].
      * rewrite <- Hlen; eapply wp_mono; [apply IH; try done|].
        -- eapply part_perm; [|reflexivity|exact P3]; rewrite thread_res_push; unfold rest; solve_Permutation.
        -- intros He s Hs; unfold push_slot in Hs; cbn in Hs; apply elem_of_app in Hs as [Hs| ->%list_elem_of_singleton].
           ++ eapply watched_kept; [exact Hm| |exact K1|exact Hw|done|done]; intros r Hr; right; unfold rest.
              apply elem_of_app; by right.
           ++ by rewrite Hsfd, Hid, W2.
        -- intros f; rewrite thread_res_push; rewrite !elem_of_app; intros Hf.
           destruct (decide (f = fd)) as [->|Hne]; [rewrite V2; apply Hz; by left|].
           assert (Hf' : RFd f ∈ rest).
           { unfold rest; rewrite elem_of_app; destruct Hf as [Hf|[Hf|Hf]]; [by left| |by right].
             apply slot_res_fd in Hf; congruence. }
           destruct (K1 f) as [-> _]; [by right|]; apply Hz; by right.
        -- intros r s' [K2 (ss' & n' & E' & H')]; split; [by etrans; [eapply kept_weaken, K1; by left|]|].
           exists ss', n'; split; [by rewrite E'|]; destruct H' as (H1 & H2 & H3); split_and!; [done|done|].
           destruct r as [[]|e]; [|done]; destruct H3 as (H3 & H4 & H5 & H6); split_and!; try done.
           cbn [length]; lia.
      * eapply wp_mono; [apply close_fds_spec with (F := F) (l := slot_res slot ++ thread_res t)|].
        -- rewrite fd_res_nonneg by done; eapply part_perm; [|reflexivity|exact P3]; unfold rest; solve_Permutation.
        -- intros r [p2 o2] (-> & E & P4 & K4); cbn [fst snd] in *; subst p2; split; [by etrans; [eapply kept_weaken, K1; by left|]|].
           exists (ts_samplers (push_slot slot t)), (n0 + zlen (ts_samplers (push_slot slot t))); split_and!; try done.
           exists []; rewrite app_nil_r; eapply part_perm; [|reflexivity|exact P4]; apply thread_res_push.
    + eapply wp_mono; [apply close_fds_spec with (F := F) (l := lost ++ thread_res t)|].
      * rewrite fd_res_nonneg by done; eapply part_perm; [|reflexivity|apply (part_join F lost rest); done].
        unfold rest; solve_Permutation.
      * intros r [p2 o2] (-> & E & P4 & K4); cbn [fst snd] in *; subst p2; split; [by etrans; [eapply kept_weaken, K1; by left|]|].
        exists (ts_samplers t), (n0 + zlen (ts_samplers t) + 1); split_and!; try done; [by destruct t|lia|].
        exists lost; eapply part_perm; [|reflexivity|exact P4]; destruct t; solve_Permutation.
Qed.

(** ** Opening a thread *)

Lemma fd_res_padded new k : Forall (fun fd => 0 <= fd) new -> concat (fd_res <$> (new ++ replicate k (-1))) = RFd <$> new.
Proof.
  intros H; rewrite fmap_app, concat_app, fd_res_nonneg by done.
  induction k as [|k IH]; [by rewrite app_nil_r|]; done.
Qed.

Lemma quiet_spec {C} F l p o o' (Q : result unit -> monitor * perf_os -> Prop) :
  po_same o o' -> part F l o -> (part F l o' -> kept F o o' -> Q (Ok tt) (p, o')) ->
  wpc C (act (fun _ => o')) Q (p, o).
Proof. intros Hs Hp HQ; apply wp_call, HQ; [eapply part_same, Hp; apply Hs|by apply kept_same]. Qed.

Lemma pin_spec {C} F l tid p o :
  part F l o -> wpc C (pin_thread tid) (fun r s' => r = Ok tt /\ s'.1 = p /\ part F l s'.2 /\ kept F o s'.2) (p, o).
Proof.
  intros Hp; apply wp_bind, wp_get, wp_if; intros _; [by apply wp_ret|].
  apply wp_bind, wp_call; cbn zeta; cbn [fst snd]; apply wp_if; intros _; [|by apply wp_ret].
  apply wp_call; cbn [fst snd]; destruct (pl_quiet o) as (_ & _ & _ & _ & Hq & _).
  set (cpu := ProcMaps.read_thread_last_cpu_stat _); specialize (Hq tid cpu).
  split_and!; [done|done|eapply part_same, Hp; apply Hq|by apply kept_same].
Qed.

Lemma trial_spec {C} F l bytes p o :
  part F l o -> wpc C (trial_mapping bytes) (fun r s' => r = Ok tt /\ s'.1 = p /\ part F l s'.2 /\ kept F o s'.2) (p, o).
Proof.
  intros Hp; apply wp_bind, wp_call; cbn [fst snd].
  pose proof (pl_mmap bytes (-1) 0 o) as Hm; destruct (perf_mmap bytes (-1) 0 o) as [[base|] o1]; cbn [fst snd]; destruct Hm as [Hv Hm].
  - destruct Hm as (Hb & Hn & Hh); apply wp_call; destruct (pl_munmap base bytes o1) as [H1 H2]; cbn [fst snd].
    split_and!; [done|done| |].
    + eapply part_drop; [exact H1|]; by eapply part_new.
    + etrans; [|by intros f _; apply H2]; by intros f _.
  - apply wp_ret; split_and!; [done|done|by eapply part_same|by intros f _].
Qed.

Lemma open_counters_spec {C} F tid p t m n o :
  part F [] o ->
  wpc C (open_counters tid) (fun r s' => kept F o s'.2 /\ exists fds, 
    s'.1 = at_thread p tid (t ⟦ ts_counter_fds := fds ⟧) m n /\ part F (concat (fd_res <$> fds)) s'.2 /\
    zeroed (concat (fd_res <$> fds)) s'.2 /\
    (r = Ok tt -> length fds = length (mo_counter_spec p) /\ Forall (fun fd => 0 <= fd) fds)) (at_thread p tid t m n, o).
Proof.
  intros Hp; apply wp_bind, wp_get, wp_if; intros E; cbn [fst snd] in *.
  - change (num_counters (at_thread p tid t m n)) with (num_counters p) in E; apply Z.leb_le in E.
    apply wp_set_thread; split; [done|]; exists []; split_and!; try done; [by intros fd ?%not_elem_of_nil|].
    intros _; split; [unfold num_counters in E; cbn; lia|done].
  - change (mo_counter_spec (at_thread p tid t m n)) with (mo_counter_spec p).
    apply wp_bind, wp_call; cbn [fst snd].
    pose proof (open_fds_spec tid true (-1) (mo_counter_spec p) 0 F o Hp) as H.
    destruct (open_fds _ _ _ _ _ _ o) as [[fds r] o1]; destruct H as (new & P1 & K1 & Hnew & -> & Hr); cbn [fst snd].
    assert (Hge : Forall (fun fd => 0 <= fd) new) by (apply Forall_forall; intros fd Hfd; by apply Hnew).
    apply wp_bind, wp_set_thread, wp_lift; split; [done|]; eexists; split_and!; [done|by rewrite fd_res_padded| |].
    + rewrite fd_res_padded by done; intros fd (f & [= ->] & Hf)%list_elem_of_fmap; by apply Hnew.
    + intros ->; rewrite Hr, Nat.sub_diag, app_nil_r by done; auto.
Qed.

Definition bufs_ok (p : monitor) : Prop := is_Some (int_mul (mo_ringbufsize p) MB) /\ is_Some (int_mul (mo_auxbufsize p) MB).

(** A thread all of whose events are open. *)
Record opened (p : monitor) (t : thread_state) : Prop := {
  op_counters : length (ts_counter_fds t) = length (mo_counter_spec p);
  op_counter_fds : Forall (fun fd => 0 <= fd) (ts_counter_fds t);
  op_samplers : length (ts_samplers t) = length (mo_sampler_spec p);
  op_writers : mo_sampler_spec p <> [] -> length (ts_writers t) = length (mo_sampler_spec p);
}.

Lemma wp_crash_if_none {C} {A} (r : option A) (Q : result A -> monitor * perf_os -> Prop) s :
  is_Some r -> (forall a, r = Some a -> Q (Ok a) s) -> wpc C (crash_if_none r) Q s.
Proof. intros [a E] H; unfold wpc, crash_if_none; rewrite E; by apply H. Qed.

Lemma open_writers_spec {C} tid p t m n o :
  wpc C (open_writers tid) (fun r s' => s'.2 = o /\ exists ws, s'.1 = at_thread p tid (t ⟦ ts_writers := ws ⟧) m n /\
    (r = Ok tt -> length ws = length (mo_sampler_spec p))) (at_thread p tid t m n, o).
Proof.
  apply wp_bind, wp_get; cbn [fst]; rewrite thread_of_at; change (num_samplers (at_thread p tid t m n)) with (num_samplers p).
  destruct (ts_writers t) as [|w ws] eqn:E.
  - apply wp_set_thread; split; [done|]; eexists; split; [done|]; intros _.
    rewrite length_fmap, length_seqZ; unfold num_samplers; lia.
  - apply wp_if; intros El; [apply wp_ret|apply wp_throw]; (split; [done|]); exists (w :: ws);
      (split; [by destruct t; cbn in E; rewrite E|]); [|done]; intros _; unfold num_samplers in El; lia.
Qed.

Section opening_thread.
Context {C : Prop} (F : resource -> Prop) (tid : Z) (p : monitor) (n0 : Z) (base : gmap Z (Z * nat)).
Hypothesis Hbuf : bufs_ok p.

Definition opening_post (t : thread_state) (o : perf_os) (r : result unit) (s' : monitor * perf_os) : Prop :=
  kept F o s'.2 /\ exists t' n', s'.1 = at_thread p tid t' (link_slots tid 0 (ts_samplers t') base) n' /\
    ts_tid t' = ts_tid t /\ slots_made tid n0 (ts_samplers t') /\ n0 + zlen (ts_samplers t') <= n' /\
    match r with
    | Ok _ => part F (thread_res t') s'.2 /\ watched p (ts_samplers t') s'.2 /\ zeroed (thread_res t') s'.2 /\ opened p t'
    | Throw _ => exists lost, part F (thread_res t' ++ lost) s'.2 /\ (mo_sampler_spec p = [] -> lost = [])
    end.

Lemma thread_res_counters t fds : ts_samplers t = [] -> thread_res (t ⟦ ts_counter_fds := fds ⟧) = concat (fd_res <$> fds).
Proof. intros E; unfold thread_res; cbn; by rewrite E. Qed.

(** The samplers of a thread whose counters are open. *)
Lemma open_samplers_spec ring_bytes aux_bytes t o :
  ts_samplers t = [] -> part F (thread_res t) o -> zeroed (thread_res t) o ->
  length (ts_counter_fds t) = length (mo_counter_spec p) -> Forall (fun fd => 0 <= fd) (ts_counter_fds t) ->
  length (ts_writers t) = length (mo_sampler_spec p) -> mo_sampler_spec p <> [] ->
  wpc C (r <-- call (open_fds tid true (-1) (mo_sampler_spec p) (mo_sample_period p)
                (replicate (length (mo_sampler_spec p)) (-1)));
         lift r.2;;
         set_thread tid (fun t => t ⟦ ts_samplers := [] ⟧);;
         open_slots tid ring_bytes aux_bytes 0 (zip r.1 (mo_sampler_spec p).*1))
    (opening_post t o) (at_thread p tid t base n0, o).
Proof.
  intros Hs Hp Hz Hc Hcn Hw Hspec; apply wp_bind, wp_call; cbn [fst snd].
  pose proof (part_split F [] (thread_res t) o Hp) as P0.
  pose proof (open_fds_spec tid true (-1) (mo_sampler_spec p) (mo_sample_period p) _ o P0) as H.
  destruct (open_fds _ _ _ _ _ _ o) as [[fds r] o1]; destruct H as (new & P1 & K1 & Hnew & -> & Hr); cbn [fst snd].
  apply part_join in P1; [|by destruct Hp|by destruct Hp].
  assert (K0 : kept F o o1) by (eapply kept_weaken, K1; by left).
  apply wp_bind, wp_lift; cbn [fst snd]; destruct r as [[]|e].
  - rewrite Hr, Nat.sub_diag, app_nil_r by done.
    apply wp_bind, wp_set_thread.
    replace (t ⟦ ts_samplers := [] ⟧) with t by (destruct t; cbn in Hs; by subst).
    assert (E1 : (zip new (mo_sampler_spec p).*1).*1 = new)
      by (apply fst_zip; rewrite length_fmap, Hr by done; done).
    pose proof (open_slots_spec (C := C) F tid ring_bytes aux_bytes p n0 base (zip new (mo_sampler_spec p).*1) t o1) as H.
    rewrite Hs in H; cbn [length link_slots] in H; rewrite Z.add_0_r, E1 in H.
    eapply wp_mono; [apply H; try done|].
    + apply Forall_forall; intros fd Hfd; by apply Hnew.
    + by intros _ s Hx%not_elem_of_nil.
    + intros fd; rewrite elem_of_app; intros [(f & [= ->] & Hf)%list_elem_of_fmap|Hf]; [by apply Hnew|].
      destruct (K1 fd) as [-> _]; [by right|by apply Hz].
    + intros r [p' o'] [K2 (ss & n' & Ep & Hm & Hn & Hres)]; split; [by etrans|]; exists (t ⟦ ts_samplers := ss ⟧), n'.
      split_and!; [done|done|done|done|]; destruct r as [[]|e].
      * destruct Hres as (H1 & H2 & H3 & H4); split_and!; try done; split; cbn; try done.
        rewrite H4, length_zip, length_fmap, Hr by done; lia.
      * destruct Hres as [lost Hl]; by exists lost.
  - split; [done|]; exists t, n0; rewrite Hs; split_and!; try done; [cbn; lia|].
    exists (RFd <$> new); split; [|done]; eapply part_perm; [|reflexivity|exact P1]; apply Permutation_app_comm.
Qed.

Lemma open_thread_spec t o :
  ts_samplers t = [] -> part F [] o -> wpc C (open_thread_locked tid) (opening_post t o) (at_thread p tid t base n0, o).
Proof.
  intros Hs Hp; apply wp_bind; eapply wp_mono; [by apply pin_spec|].
  intros r [p1 o1] (-> & E & P1 & K1); cbn [fst snd] in *; subst p1.
  apply wp_bind; eapply wp_mono; [by apply open_counters_spec|].
  intros r [p2 o2] (K2 & fds & E & P2 & Z2 & H2); cbn [fst snd] in *; subst p2.
  set (t2 := t ⟦ ts_counter_fds := fds ⟧) in *.
  assert (K12 : kept F o o2) by (by etrans).
  assert (Hs2 : ts_samplers t2 = []) by done.
  assert (Hres : thread_res t2 = concat (fd_res <$> fds)) by (by apply thread_res_counters).
  destruct r as [[]|e].
  2: { split; [done|]; exists t2, n0; rewrite Hs2; split_and!; try done; [cbn; lia|].
       exists []; rewrite app_nil_r, Hres; done. }
  destruct H2 as [Hl Hge]; [done|]; rewrite <- Hres in P2, Z2.
  apply wp_bind, wp_get; cbn [fst]; change (num_samplers (at_thread p tid t2 base n0)) with (num_samplers p).
  apply wp_if; intros En; unfold num_samplers in En.
  { assert (Hspec : mo_sampler_spec p = []) by (apply nil_length_inv; lia).
    apply wp_ret; split; [done|]; exists t2, n0; rewrite Hs2; split_and!; try done; [cbn; lia|by intros _ s Hx%not_elem_of_nil|].
    split; rewrite ?Hspec, ?Hs2; done. }
  apply wp_bind; eapply wp_mono; [apply open_writers_spec|].
  intros r [p3 o3] [Eo (ws & E & Hws)]; cbn [fst snd] in *; subst p3 o3.
  set (t3 := t2 ⟦ ts_writers := ws ⟧) in *.
  assert (Hres3 : thread_res t3 = thread_res t2) by done.
  destruct r as [[]|e].
  2: { split; [done|]; exists t3, n0; change (ts_samplers t3) with (ts_samplers t2); rewrite Hs2; split_and!; try done; [cbn; lia|].
       exists []; by rewrite app_nil_r, Hres3. }
  destruct Hbuf as [Hb1 Hb2].
  apply wp_bind, wp_crash_if_none; [done|]; intros ring _; apply wp_bind, wp_crash_if_none; [done|]; intros aux _.
  cbn zeta; set (rb := (1 + _) * _); set (ab := _ * perf_page_size).
  apply wp_bind; change (has_arm_spe_samples (at_thread p tid t2 base n0)) with (has_arm_spe_samples p).
  assert (Htrial : wpc C (if has_arm_spe_samples p then trial_mapping rb else ret tt)
    (fun r s' => r = Ok tt /\ s'.1 = at_thread p tid t3 base n0 /\ part F (thread_res t3) s'.2 /\ kept (fun r => F r \/ r ∈ thread_res t3) o2 s'.2)
    (at_thread p tid t3 base n0, o2)).
  { apply wp_if; intros _; [|by apply wp_ret].
    eapply wp_mono; [apply trial_spec, (part_split F []), P2|]; intros r [p4 o4] (-> & E & P4 & K4); cbn [fst snd] in *.
    split_and!; [done|done| |done]; apply (part_join F [] (thread_res t3)) in P4; [done|by destruct P2..]. }
  eapply wp_mono; [exact Htrial|]; intros r [p4 o4] (-> & E & P4 & K4); cbn [fst snd] in *; subst p4.
  eapply wp_mono; [apply (open_samplers_spec rb ab t3 o4); try done|].
  - eapply zeroed_kept, Z2; [|exact K4]; by right.
  - apply Hws; done.
  - intros E; rewrite E in En; cbn in En; done.
  - intros r [p5 o5] [K5 H5]; split; [|done].
    etrans; [exact K12|]; etrans; [eapply kept_weaken, K4; by left|exact K5].
Qed.

End opening_thread.

End laws.

End MonitorInv.
