(* ===== verification/MonitorState.v ===== *)
(** The invariant of the whole monitor and its preservation by registration,
    draining and the windows. *)
From S2P Require Import Prelude Uapi CText ProcMaps Hotspots SpePacket RingDrain Effects TargetedCtl PerfEvents Monitor.
From S2P Require Import MonitorInv.
From Stdlib Require Import SpecFloat.
Import PerfEvents Monitor MonitorInv.

Module MonitorState.

(** * Sums and concatenations over a thread table *)

Section tables.
Context {A : Type} (f : thread_state -> list A).
Implicit Types (m : gmap Z thread_state).

Definition gather m : list A := concat (f <$> (map_to_list m).*2).

Lemma gather_insert m tid t : gather (<[tid := t]> m) ≡ₚ f t ++ gather (delete tid m).
Proof.
  unfold gather; rewrite <- insert_delete_eq, map_to_list_insert by apply lookup_delete_eq; done.
Qed.

Lemma gather_lookup m tid t : m !! tid = Some t -> gather m ≡ₚ f t ++ gather (delete tid m).
Proof. intros H; rewrite <- (insert_id m tid t H) at 1; apply gather_insert. Qed.

Lemma elem_of_gather m x : x ∈ gather m <-> exists tid t, m !! tid = Some t /\ x ∈ f t.
Proof.
  unfold gather; rewrite list_elem_of_In, in_concat; split.
  - intros (l & H1 & H2); apply list_elem_of_In in H1, H2; apply list_elem_of_fmap in H1 as (t & -> & H1).
    apply list_elem_of_fmap in H1 as ([tid t'] & -> & H1); apply elem_of_map_to_list in H1; eauto.
  - intros (tid & t & H1 & H2); exists (f t); rewrite <- !list_elem_of_In; split; [|done].
    apply list_elem_of_fmap; exists t; split; [done|]; apply list_elem_of_fmap; exists (tid, t).
    split; [done|by apply elem_of_map_to_list].
Qed.

Lemma gather_fmap (g : thread_state -> thread_state) m : (forall t, f (g t) = f t) -> gather (g <$> m) = gather m.
Proof.
  intros H; unfold gather; rewrite map_to_list_fmap, <- list_fmap_compose.
  rewrite <- !list_fmap_compose; f_equal; apply list_fmap_ext; intros i [tid t] _; apply H.
Qed.

End tables.

Lemma sumZ_perm l l' : l ≡ₚ l' -> sumZ l = sumZ l'.
Proof. induction 1; rewrite ?sumZ_cons; lia. Qed.

Section state.
Context {Pf : PerfApi} {PL : PerfLaws Pf}.

(** * The invariant *)

Definition owned (p : monitor) : list resource := gather thread_res (mo_threads p).

(** Without the records written and the partly decoded sample, which do not
    matter here. *)
Definition blank (s : sampler_slot) : sampler_slot := s ⟦ ss_pending := mk_pending 0 0 0 0 0 0 0 ⟧.
Definition skel (t : thread_state) : thread_state :=
  t ⟦ ts_writers ::= fmap (fun _ => mk_writer [] [] []) ⟧
    ⟦ ts_samplers ::= fmap blank ⟧.

Definition num_events (p : monitor) : Z := num_counters p + num_samplers p.

Record active_ok (p : monitor) (o : perf_os) (tid : Z) (t : thread_state) : Prop := {
  ak_opened : opened p t;
  ak_watched : watched p (ts_samplers t) o;
  ak_made : exists n0, 0 <= n0 /\ slots_made tid n0 (ts_samplers t) /\ n0 + zlen (ts_samplers t) <= mo_next_slot_id p;
}.

Record thread_ok (p : monitor) (o : perf_os) (tid : Z) (t : thread_state) : Prop := {
  tk_tid : ts_tid t = tid;
  tk_active : ts_active t = true -> active_ok p o tid t;
  tk_inactive : ts_active t = false -> ts_counter_fds t = [] /\ ts_samplers t = [];
}.

(** The slot [id] names. *)
Definition slot_at (p : monitor) (tid : Z) (i : nat) (s : sampler_slot) : Prop :=
  exists t, mo_threads p !! tid = Some t /\ ts_samplers t !! i = Some s.

Record mon_inv (F : resource -> Prop) (s : monitor * perf_os) : Prop := {
  gi_part : part F (owned s.1) s.2;
  gi_threads tid t : mo_threads s.1 !! tid = Some t -> thread_ok s.1 s.2 tid t;
  gi_slots id tid i : mo_sampler_slots s.1 !! id = Some (tid, i) <-> exists sl, slot_at s.1 tid i sl /\ ss_slot_id sl = id;
  gi_next id : mo_next_slot_id s.1 <= id -> mo_sampler_slots s.1 !! id = None;
  gi_next_pos : 0 <= mo_next_slot_id s.1;
  gi_bufs : bufs_ok s.1;
}.

(** ** Counts *)

Definition count_of (p : monitor) (o : perf_os) (c : Z) (t : thread_state) : list Z :=
  if ts_active t then match event_fd p c t with Some fd => [po_value fd o] | None => [] end else [].
(** What event [c] has counted in the threads that are open, and together with
    the threads that have left. *)
Definition running_count (c : Z) (s : monitor * perf_os) : Z := sumZ (gather (count_of s.1 s.2 c) (mo_threads s.1)).
Definition counted (c : Z) (s : monitor * perf_os) : Z :=
  default 0 (mo_retired_values s.1 !!z c) + running_count c s.

(** ** Changes that do not matter *)

(** The members the invariant reads. *)
Definition core (p : monitor) :=
  (mo_counter_spec p, mo_sampler_spec p, mo_epoll_fd p, (mo_ringbufsize p, mo_auxbufsize p),
   skel <$> mo_threads p, mo_sampler_slots p, mo_next_slot_id p).

Lemma skel_res t : thread_res (skel t) = thread_res t.
Proof.
  unfold thread_res, skel; cbn; f_equal; f_equal; rewrite <- list_fmap_compose; by apply list_fmap_ext.
Qed.

Lemma skel_samplers t i s :
  ts_samplers t !! i = Some s -> ts_samplers (skel t) !! i = Some (blank s).
Proof. intros H; unfold skel; cbn; by rewrite list_lookup_fmap, H. Qed.

Lemma skel_samplers_inv t i s' :
  ts_samplers (skel t) !! i = Some s' -> exists s, ts_samplers t !! i = Some s /\ s' = blank s.
Proof. unfold skel; cbn; rewrite list_lookup_fmap; destruct (ts_samplers t !! i) as [s|]; [|done]; intros [= <-]; eauto. Qed.

Lemma skel_made tid n0 t : slots_made tid n0 (ts_samplers (skel t)) <-> slots_made tid n0 (ts_samplers t).
Proof.
  split; intros H i s Hs.
  - destruct (H i _ (skel_samplers t i s Hs)) as [H1 H2 H3 H4 H5]; by split.
  - apply skel_samplers_inv in Hs as (s' & Hs' & ->); destruct (H i _ Hs') as [H1 H2 H3 H4 H5]; by split.
Qed.

Lemma skel_watched p t o : watched p (ts_samplers (skel t)) o <-> watched p (ts_samplers t) o.
Proof.
  split; intros H He s [i Hs]%list_elem_of_lookup.
  - refine (H He (blank s) _); apply list_elem_of_lookup; exists i; by apply skel_samplers.
  - apply skel_samplers_inv in Hs as (s' & Hs' & ->); refine (H He s' _); apply list_elem_of_lookup; eauto.
Qed.

Lemma skel_opened p t : opened p (skel t) <-> opened p t.
Proof.
  split; intros [H1 H2 H3 H4]; split; unfold skel in *; cbn in *; rewrite ?length_fmap in *; done.
Qed.

Lemma skel_thread_ok p o tid t : thread_ok p o tid (skel t) <-> thread_ok p o tid t.
Proof.
  assert (Hl : length (ts_samplers (skel t)) = length (ts_samplers t)) by apply length_fmap.
  split; intros [Htid H2 H3]; (split; [exact Htid| |]).
  - intros Ha; destruct (H2 Ha) as [A1 A2 (n0 & A3 & A4 & A5)]; split; [by apply skel_opened|by apply skel_watched|].
    exists n0; rewrite <- Hl; split_and!; [done|by apply skel_made|done].
  - intros Ha; destruct (H3 Ha) as [E1 E2]; split; [done|]; apply nil_length_inv; by rewrite <- Hl, E2.
  - intros Ha; destruct (H2 Ha) as [A1 A2 (n0 & A3 & A4 & A5)]; split; [by apply skel_opened|by apply skel_watched|].
    exists n0; rewrite Hl; split_and!; [done|by apply skel_made|done].
  - intros Ha; destruct (H3 Ha) as [E1 E2]; split; [done|]; apply nil_length_inv; by rewrite Hl, E2.
Qed.

(** [thread_ok] reads only the specifications, the epoll set and the next id. *)
Lemma thread_ok_frame p p' o o' tid t :
  mo_counter_spec p' = mo_counter_spec p -> mo_sampler_spec p' = mo_sampler_spec p -> mo_epoll_fd p' = mo_epoll_fd p ->
  mo_next_slot_id p <= mo_next_slot_id p' ->
  (forall s, s ∈ ts_samplers t -> po_watch (mo_epoll_fd p) (ss_fd s) o' = po_watch (mo_epoll_fd p) (ss_fd s) o) ->
  thread_ok p o tid t -> thread_ok p' o' tid t.
Proof.
  intros E1 E2 E3 Hn Hw [H1 H2 H3]; split; [done| |done]; intros Ha.
  destruct (H2 Ha) as [[A1 A2 A3 A4] A5 (n0 & A6 & A7 & A8)]; split.
  - split; rewrite ?E1, ?E2; done.
  - intros He s Hs; rewrite E3 in He |- *; rewrite Hw by done; by apply A5.
  - exists n0; split_and!; [done|done|lia].
Qed.

Lemma slot_at_skel p p' tid i sl :
  skel <$> mo_threads p' = skel <$> mo_threads p -> slot_at p tid i sl ->
  exists sl', slot_at p' tid i sl' /\ ss_slot_id sl' = ss_slot_id sl.
Proof.
  intros E (t & H1 & H2).
  assert (Hk : (skel <$> mo_threads p') !! tid = Some (skel t)) by (rewrite E, lookup_fmap, H1; done).
  rewrite lookup_fmap in Hk; destruct (mo_threads p' !! tid) as [t'|] eqn:Et; [|done]; apply (inj Some) in Hk.
  apply skel_samplers in H2; rewrite <- Hk in H2; apply skel_samplers_inv in H2 as (sl' & Hs' & Eq).
  exists sl'; split; [by exists t'|]; by apply (f_equal ss_slot_id) in Eq.
Qed.

Lemma mon_inv_frame F p p' o o' :
  core p' = core p -> (forall r, po_has o' r <-> po_has o r) -> (forall e f, po_watch e f o' = po_watch e f o) ->
  mon_inv F (p, o) -> mon_inv F (p', o').
Proof.
  unfold core; intros [= E1 E2 E3 E4 E5 E6 E7 E8] S1 S3 [H1 H2 H3 H4 H5 H6]; cbn [fst snd] in *; split; cbn [fst snd].
  - unfold owned in *; rewrite <- (gather_fmap _ skel) in H1 |- * by apply skel_res; rewrite E6; by eapply part_same.
  - intros tid t Ht.
    assert (Hk : (skel <$> mo_threads p) !! tid = Some (skel t)) by (rewrite <- E6, lookup_fmap, Ht; done).
    rewrite lookup_fmap in Hk; destruct (mo_threads p !! tid) as [t0|] eqn:Et; [|done]; apply (inj Some) in Hk.
    apply skel_thread_ok; rewrite <- Hk; apply skel_thread_ok.
    apply (thread_ok_frame p p' o o'); [done..|lia|by intros; apply S3|by apply H2].
  - intros id tid i; rewrite E7, H3; split; intros (sl & Hs & Hid).
    + apply (slot_at_skel p p') in Hs as (sl' & ? & ?); [|done]; exists sl'; split; [done|congruence].
    + apply (slot_at_skel p' p) in Hs as (sl' & ? & ?); [|done]; exists sl'; split; [done|congruence].
  - intros id; rewrite E7, E8; apply H4.
  - by rewrite E8.
  - unfold bufs_ok in *; by rewrite E4, E5.
Qed.

Lemma mon_inv_core F p p' o o' : core p' = core p -> po_same o o' -> mon_inv F (p, o) -> mon_inv F (p', o').
Proof. intros E (S1 & _ & S3); by apply mon_inv_frame. Qed.

Lemma running_count_core c p p' o o' :
  core p' = core p -> (forall f, po_value f o' = po_value f o) -> running_count c (p', o') = running_count c (p, o).
Proof.
  unfold core; intros [= E1 E2 E3 E4 E5 E6 E7 E8] Hv; unfold running_count; cbn [fst snd].
  assert (Hs : forall p o t, count_of p o c (skel t) = count_of p o c t).
  { intros p0 o0 t; unfold count_of, event_fd, skel; cbn; destruct (ts_active t); [|done].
    destruct (c <? num_counters p0); [done|]; unfold zlookup; rewrite length_fmap, list_lookup_fmap.
    destruct (_ && _); [|done]; by destruct (ts_samplers t !! _). }
  rewrite <- (gather_fmap (count_of p' o' c) skel), <- (gather_fmap (count_of p o c) skel), E6 by auto.
  unfold gather; do 2 f_equal; apply list_fmap_ext; intros i t _; unfold count_of, event_fd, num_counters.
  rewrite E1; destruct (ts_active t); [|done]; destruct (if _ <? _ then _ else _); [by rewrite Hv|done].
Qed.

(** * One thread and the rest *)

Definition rest (p : monitor) (tid : Z) : list resource := gather thread_res (delete tid (mo_threads p)).
Definition rest_count (c : Z) (s : monitor * perf_os) (tid : Z) : Z :=
  sumZ (gather (count_of s.1 s.2 c) (delete tid (mo_threads s.1))).

Lemma gather_thread_of {A} (f : thread_state -> list A) p tid :
  f empty_thread_state = [] -> gather f (mo_threads p) ≡ₚ f (thread_of p tid) ++ gather f (delete tid (mo_threads p)).
Proof.
  intros Hf; unfold thread_of; destruct (mo_threads p !! tid) as [t|] eqn:E; cbn; [by apply gather_lookup|].
  by rewrite Hf, delete_id.
Qed.

Lemma owned_thread p tid : owned p ≡ₚ thread_res (thread_of p tid) ++ rest p tid.
Proof. by apply gather_thread_of. Qed.
Lemma owned_at p tid t m n : owned (at_thread p tid t m n) ≡ₚ thread_res t ++ rest p tid.
Proof. apply gather_insert. Qed.

Lemma running_count_thread c p o tid :
  running_count c (p, o) = sumZ (count_of p o c (thread_of p tid)) + rest_count c (p, o) tid.
Proof.
  unfold running_count, rest_count; cbn [fst snd].
  by rewrite (sumZ_perm _ _ (gather_thread_of (count_of p o c) p tid eq_refl)), sumZ_app.
Qed.
Lemma running_at c p o tid t m n :
  running_count c (at_thread p tid t m n, o) = sumZ (count_of p o c t) + rest_count c (p, o) tid.
Proof.
  change (running_count c (at_thread p tid t m n, o)) with (sumZ (gather (count_of p o c) (<[tid := t]> (mo_threads p)))).
  by rewrite (sumZ_perm _ _ (gather_insert _ _ _ _)), sumZ_app.
Qed.

Lemma rest_lookup p tid tid' t : mo_threads p !! tid' = Some t -> tid' <> tid -> forall r, r ∈ thread_res t -> r ∈ rest p tid.
Proof. intros H Hne r Hr; apply elem_of_gather; exists tid', t; by rewrite lookup_delete_ne. Qed.

Lemma event_fd_res p c t fd : opened p t -> event_fd p c t = Some fd -> Forall (fun s => 0 <= ss_fd s) (ts_samplers t) -> RFd fd ∈ thread_res t.
Proof.
  intros Ho E Hs; unfold event_fd in E; destruct (c <? num_counters p).
  - apply zlookup_Some in E as [_ E]; pose proof (op_counter_fds _ _ Ho) as Hc; unfold thread_res; apply elem_of_app; right.
    rewrite fd_res_nonneg by done; apply list_elem_of_fmap; exists fd; split; [done|by eapply list_elem_of_lookup_2].
  - destruct (ts_samplers t !!z (c - num_counters p)) as [sl|] eqn:E'; [|done]; injection E as <-.
    apply zlookup_Some in E' as [_ E']; apply list_elem_of_lookup_2 in E' as Hin; eapply slot_res_thread; [done|].
    apply slot_fd_res; by eapply Forall_lookup_1 in Hs.
Qed.

Lemma active_event_res p o tid t c fd :
  thread_ok p o tid t -> ts_active t = true -> event_fd p c t = Some fd -> RFd fd ∈ thread_res t.
Proof.
  intros Hk Ha E; destruct (tk_active _ _ _ _ Hk Ha) as [H1 _ (n0 & _ & Hm & _)]; eapply event_fd_res; [done..|].
  apply Forall_lookup; intros i s Hs; by eapply Hm.
Qed.

Lemma rest_count_kept F c p o o' tid :
  (forall tid t, mo_threads p !! tid = Some t -> thread_ok p o tid t) ->
  (forall r, r ∈ rest p tid -> F r) -> kept F o o' -> rest_count c (p, o') tid = rest_count c (p, o) tid.
Proof.
  intros Hk HF Hkept; unfold rest_count, gather; cbn [fst snd]; do 2 f_equal; apply list_fmap_ext; intros i t Hi.
  apply list_elem_of_lookup_2, list_elem_of_fmap in Hi as ([tid' t'] & -> & Hi); cbn [snd].
  apply elem_of_map_to_list in Hi; apply lookup_delete_Some in Hi as [Hne Hi].
  unfold count_of; destruct (ts_active t') eqn:Ha; [|done]; destruct (event_fd p c t') as [fd|] eqn:E; [|done].
  destruct (Hkept fd) as [-> _]; [|done]; apply HF; eapply rest_lookup; [done|done|by eapply active_event_res; eauto].
Qed.

(** Replacing the state of a thread that had no slots. *)
Lemma mon_inv_at F F' p o tid t' n' o' :
  mon_inv F (p, o) -> ts_samplers (thread_of p tid) = [] ->
  part F' (thread_res t' ++ rest p tid) o' -> kept (fun r => F r \/ r ∈ rest p tid) o o' ->
  slots_made tid (mo_next_slot_id p) (ts_samplers t') -> mo_next_slot_id p + zlen (ts_samplers t') <= n' ->
  ts_tid t' = tid -> (ts_active t' = true -> opened p t' /\ watched p (ts_samplers t') o') ->
  (ts_active t' = false -> ts_counter_fds t' = [] /\ ts_samplers t' = []) ->
  mon_inv F' (at_thread p tid t' (link_slots tid 0 (ts_samplers t') (mo_sampler_slots p)) n', o').
Proof.
  intros [H1 H2 H3 H4 H5 H6] Hs Hp Hk Hm Hn Htid Ha Hi; cbn [fst snd] in *; split; cbn [fst snd].
  - by rewrite owned_at.
  - intros tid1 t1 Ht1; unfold at_thread in Ht1; cbn in Ht1; apply lookup_insert_Some in Ht1 as [[<- <-]|[Hne Ht1]].
    + split; [done| |done]; intros E; destruct (Ha E) as [[A1 A2 A3 A4] A5]; split; [by split|exact A5|]; eauto.
    + apply (thread_ok_frame p _ o o'); [done..|cbn; lia| |by apply H2].
      intros s Hs'; destruct (ts_active t1) eqn:E1.
      * destruct (Hk (ss_fd s)) as [_ ->]; [|done]; right; eapply rest_lookup; [done|done|].
        eapply slot_res_thread; [done|]; apply slot_fd_res; destruct (tk_active _ _ _ _ (H2 _ _ Ht1) E1) as [_ _ (n0 & _ & Hm1 & _)].
        apply list_elem_of_lookup in Hs' as [i Hs']; by eapply Hm1.
      * destruct (tk_inactive _ _ _ _ (H2 _ _ Ht1) E1) as [_ E]; rewrite E in Hs'; by apply not_elem_of_nil in Hs'.
  - intros id tid1 i; change (mo_sampler_slots (at_thread p tid t' (link_slots tid 0 (ts_samplers t') (mo_sampler_slots p)) n'))
      with (link_slots tid 0 (ts_samplers t') (mo_sampler_slots p)).
    rewrite lookup_link by (by eapply slots_made_nodup); split.
    + destruct (list_find _ (ts_samplers t')) as [[j sl]|] eqn:E.
      * apply list_find_Some in E as (E1 & E2 & _); intros [= <- <-]; exists sl; split; [|done].
        exists t'; split; [unfold at_thread; cbn; apply lookup_insert_eq|done].
      * intros Hid; apply H3 in Hid as (sl & (t1 & Ht1 & Hs1) & Hid); exists sl; split; [|done].
        exists t1; split; [|done]; unfold at_thread; cbn; rewrite lookup_insert_ne; [done|]; intros <-.
        unfold thread_of in Hs; rewrite Ht1 in Hs; cbn in Hs; by rewrite Hs in Hs1.
    + intros (sl & (t1 & Ht1 & Hs1) & <-); unfold at_thread in Ht1; cbn in Ht1; apply lookup_insert_Some in Ht1 as [[<- <-]|[Hne Ht1]].
      * destruct (list_find _ (ts_samplers t')) as [[j sl']|] eqn:E.
        -- apply list_find_Some in E as (E1 & E2 & _); cbn.
           pose proof (NoDup_lookup _ j i (ss_slot_id sl) (slots_made_nodup _ _ _ Hm)) as Hj.
           rewrite Hj; [done|by rewrite list_lookup_fmap, E1; cbn; rewrite E2|by rewrite list_lookup_fmap, Hs1].
        -- apply list_find_None in E; eapply Forall_lookup_1 in E; [|exact Hs1]; done.
      * assert (Hold : mo_sampler_slots p !! ss_slot_id sl = Some (tid1, i)) by (apply H3; exists sl; split; [by exists t1|done]).
        destruct (list_find _ (ts_samplers t')) as [[j sl']|] eqn:E; [|done].
        apply list_find_Some in E as (E1 & E2 & _); rewrite H4 in Hold; [done|].
        rewrite <- E2, (sm_id _ _ _ _ (Hm j sl' E1)); lia.
  - intros id; change (n' <= id -> link_slots tid 0 (ts_samplers t') (mo_sampler_slots p) !! id = None).
    intros Hid; rewrite lookup_link by (by eapply slots_made_nodup).
    destruct (list_find _ (ts_samplers t')) as [[j sl]|] eqn:E; [|apply H4; lia].
    apply list_find_Some in E as (E1 & <- & _); rewrite (sm_id _ _ _ _ (Hm j sl E1)) in Hid.
    apply lookup_lt_Some in E1; lia.
  - change (0 <= n'); lia.
  - done.
Qed.

(** * Registration *)

(** The members that registering threads and draining slots leave alone. *)
Definition outer (p : monitor) :=
  (mo_counter_spec p, mo_sampler_spec p, mo_prev_counters p, (mo_retired_values p, mo_retired_time_enabled p, mo_retired_time_running p),
   ki_counters <$> mo_kinfos p).

Lemma inactive_count p o c t : ts_active t = false -> count_of p o c t = [].
Proof. unfold count_of; by intros ->. Qed.

Lemma zeroed_count p o c t :
  opened p t -> Forall (fun s => 0 <= ss_fd s) (ts_samplers t) -> zeroed (thread_res t) o -> sumZ (count_of p o c t) = 0.
Proof.
  intros H1 H2 Hz; unfold count_of; destruct (ts_active t); [|done]; destruct (event_fd p c t) as [fd|] eqn:E; [|done].
  rewrite sumZ_cons, Hz; [done|by eapply event_fd_res].
Qed.

Definition register_post (F : resource -> Prop) (p : monitor) (o : perf_os) (r : result unit) (s' : monitor * perf_os) : Prop :=
  outer s'.1 = outer p /\ (forall c, running_count c s' = running_count c (p, o)) /\
  exists F', mon_inv F' s' /\ (forall x, F x -> F' x) /\ (r = Ok tt \/ mo_sampler_spec p = [] -> forall x, F' x -> F x).

Lemma thread_of_ok F p o tid : mon_inv F (p, o) -> ts_active (thread_of p tid) = false ->
  ts_counter_fds (thread_of p tid) = [] /\ ts_samplers (thread_of p tid) = [].
Proof.
  intros Hi; unfold thread_of; destruct (mo_threads p !! tid) as [t|] eqn:E; cbn; [|done].
  apply (tk_inactive _ _ _ _ (gi_threads _ _ Hi tid t E)).
Qed.

(** Opening a thread that was not open. *)
Lemma open_registered {C} F p o tid t :
  mon_inv F (p, o) -> ts_active t = false -> ts_counter_fds t = [] -> ts_samplers t = [] -> ts_tid t = tid ->
  ts_active (thread_of p tid) = false ->
  wpc C (on_throw (open_thread_locked tid;; set_thread tid (fun t => t ⟦ ts_active := true ⟧)) (close_thread_locked tid))
    (register_post F p o) (at_thread p tid t (mo_sampler_slots p) (mo_next_slot_id p), o).
Proof.
  intros Hi Hact Hc Hs Htid Hold; destruct (thread_of_ok F p o tid Hi Hold) as [Hc0 Hs0].
  set (F1 := fun r => F r \/ r ∈ rest p tid).
  pose proof (gi_part _ _ Hi) as Hp; cbn [fst snd] in Hp; rewrite (owned_thread p tid) in Hp.
  unfold thread_res in Hp; rewrite Hc0, Hs0 in Hp; cbn [fmap list_fmap concat app] in Hp.
  assert (P1 : part F1 [] o) by (by apply part_split).
  assert (Nrest : NoDup (rest p tid) /\ forall r, r ∈ rest p tid -> ~ F r) by (destruct Hp; auto).
  assert (Hrun : forall c, running_count c (p, o) = rest_count c (p, o) tid).
  { intros c; rewrite (running_count_thread c p o tid), inactive_count by done; done. }
  assert (Hrest : forall c o', kept F1 o o' -> rest_count c (p, o') tid = rest_count c (p, o) tid).
  { intros c o' K; eapply rest_count_kept; [apply (gi_threads _ _ Hi)| |exact K]; by right. }
  apply wp_on_throw, wp_bind; eapply wp_mono; [apply (open_thread_spec F1 tid p (mo_next_slot_id p) (mo_sampler_slots p) (gi_bufs _ _ Hi) t o Hs P1)|].
  intros r [p2 o2] (K & t' & n' & E & Et & Hm & Hn & Hr); cbn [fst snd] in *; subst p2; destruct r as [[]|e].
  - destruct Hr as (P2 & W2 & Z2 & O2); apply wp_set_thread; split_and!; [done| |exists F; split_and!; [|done|done]].
    + intros c; rewrite Hrun, running_at, Hrest by done.
      rewrite zeroed_count; [lia|by destruct O2; split| |done]; apply Forall_lookup; intros i sl Hsl; by eapply Hm.
    + refine (mon_inv_at F F p o tid (t' ⟦ ts_active := true ⟧) n' o2 Hi Hs0 _ _ _ _ _ _ _); try done.
      * apply (part_join F _ (rest p tid)); [apply Nrest..|exact P2].
      * cbn; congruence.
      * intros _; split; [by destruct O2; split|done].
  - destruct Hr as (lost & P2 & Hlost); eapply wp_mono; [by apply close_thread_spec|].
    intros r [p3 o3] (_ & E & P3 & K3); cbn [fst snd] in *; subst p3.
    rewrite (forget_link tid (mo_next_slot_id p)) by (try done; apply (gi_next _ _ Hi)).
    split_and!; [done| |].
    + intros c; rewrite Hrun, running_at, inactive_count by done.
      rewrite Hrest by (by etrans); done.
    + exists (fun r => F r \/ r ∈ lost); split_and!; [|by left|].
      * refine (mon_inv_at F _ p o tid (mk_thread_state (ts_tid t') false [] (ts_writers t') []) n' o3 Hi Hs0 _ _ _ _ _ _ _); try done.
        -- apply (part_join F lost (rest p tid)) in P3; [|apply Nrest..].
           apply (part_split F (rest p tid) lost); by rewrite Permutation_app_comm.
        -- by etrans.
        -- cbn; lia.
        -- cbn; congruence.
      * intros [?|El]; [done|]; rewrite (Hlost El); intros x [?|Hx%not_elem_of_nil]; done.
Qed.

Lemma register_thread_spec {C} F p o tid :
  mon_inv F (p, o) -> wpc C (register_thread_locked tid) (register_post F p o) (p, o).
Proof.
  intros Hi; set (t := thread_of p tid ⟦ ts_tid := tid ⟧).
  set (p' := if bool_decide (tid ∈ mo_tids p) then p else p ⟦ mo_tids ::= fun l => l ++ [tid] ⟧).
  assert (Hcore : core p' = core p) by (unfold p'; by destruct (bool_decide _)).
  assert (Hi' : mon_inv F (p', o)) by (eapply mon_inv_core; [done| |exact Hi]; done).
  apply wp_bind, wp_modify, wp_bind, wp_modify, wp_bind, wp_get; cbn [fst snd].
  set (q := if bool_decide _ then _ else _).
  assert (Hq : q = at_thread p' tid t (mo_sampler_slots p') (mo_next_slot_id p')).
  { assert (E : partial_alter (fun x => Some (default empty_thread_state x ⟦ ts_tid := tid ⟧)) tid (mo_threads p) = <[tid := t]> (mo_threads p))
      by (apply partial_alter_ext; unfold t, thread_of; by intros ? <-).
    unfold q, p', at_thread; change (mo_tids (p ⟦ mo_threads ::= _ ⟧)) with (mo_tids p).
    destruct (bool_decide _); unfold upd; cbn; f_equal; exact E. }
  rewrite Hq, thread_of_at.
  assert (Hth : mo_threads p' = mo_threads p) by (unfold p'; by destruct (bool_decide _)).
  assert (Hto : thread_of p' tid = thread_of p tid) by (unfold thread_of; by rewrite Hth).
  assert (Hpost : forall r s', register_post F p' o r s' -> register_post F p o r s').
  { intros r s' (A & B & F' & G); split_and!; [rewrite A; unfold p'; by destruct (bool_decide _)| |].
    - intros c; rewrite B; apply running_count_core; done.
    - exists F'; revert G; unfold p'; by destruct (bool_decide _). }
  change (ts_active t) with (ts_active (thread_of p tid)); apply wp_if; intros Ha.
  - apply wp_ret, Hpost.
    assert (Hsame : at_thread p' tid t (mo_sampler_slots p') (mo_next_slot_id p') = p').
    { unfold at_thread; assert (E : <[tid := t]> (mo_threads p') = mo_threads p').
      { apply insert_id; rewrite Hth; unfold t, thread_of in *; destruct (mo_threads p !! tid) as [t0|] eqn:Et; [|done].
        pose proof (tk_tid _ _ _ _ (gi_threads _ _ Hi tid t0 Et)) as Hid; destruct t0; cbn in *; by subst. }
      unfold upd; cbn; rewrite E; by destruct p'. }
    rewrite Hsame; split_and!; [done|done|exists F; split_and!; done].
  - destruct (thread_of_ok F p o tid Hi Ha) as [Hc Hs].
    eapply wp_mono; [apply open_registered; try done; by rewrite Hto|done].
Qed.

(** * Operations that leave the books alone *)

#[global] Instance po_same_po : PreOrder po_same.
Proof.
  split; [by intros o; repeat split|]; intros o1 o2 o3 (A1 & A2 & A3) (B1 & B2 & B3); split_and!.
  - intros r; by rewrite B1.
  - intros f; by rewrite B2.
  - intros e f; by rewrite B3.
Qed.

Definition calm (s s' : monitor * perf_os) : Prop :=
  core s'.1 = core s.1 /\ outer s'.1 = outer s.1 /\ po_same s.2 s'.2.

#[global] Instance calm_po : PreOrder calm.
Proof.
  split; [by intros s; split_and!|]; intros s1 s2 s3 (A1 & A2 & A3) (B1 & B2 & B3).
  split_and!; [congruence|congruence|by etrans].
Qed.

Lemma calm_inv F s s' : calm s s' -> mon_inv F s -> mon_inv F s'.
Proof. destruct s, s'; intros (H1 & _ & H3); by apply mon_inv_core. Qed.

Lemma calm_counted c s s' : calm s s' -> counted c s' = counted c s.
Proof.
  destruct s as [p o], s' as [p' o']; intros (H1 & H2 & H3); cbn [fst snd] in *; unfold counted; cbn [fst].
  rewrite (running_count_core c p p' o o') by (done || apply H3); unfold outer in H2; by injection H2 as _ _ _ -> _ _ _.
Qed.

Lemma on_fds_calm {C} req fds p o : req <> PERF_EVENT_IOC_RESET ->
  wpc C (on_fds req fds) (fun r s' => r = Ok tt /\ s'.1 = p /\ po_same o s'.2) (p, o).
Proof.
  intros Hreq; revert o; induction fds as [|fd fds IH]; intros o; [by apply wp_ret|]; cbn [on_fds forM].
  assert (H1 : wpc C (if 0 <=? fd then act (perf_ioctl fd req) else ret tt) (fun r s' => r = Ok tt /\ s'.1 = p /\ po_same o s'.2) (p, o)).
  { apply wp_if; intros _; [|by apply wp_ret]; apply wp_call; cbn [fst snd].
    destruct (pl_ioctl fd req o) as (A1 & A2 & A3 & A4); split_and!; [done|done|]; split_and!; [done| |done].
    intros f; destruct (decide (f = fd)) as [->|]; [|by apply A3]; by rewrite A4, (proj2 (Z.eqb_neq req _)). }
  apply wp_bind; eapply wp_mono; [exact H1|]; intros r [p1 o1] (-> & E & S1); cbn [fst snd] in *; subst p1.
  eapply wp_mono; [apply IH|]; intros r [p2 o2] (-> & E & S2); split_and!; [done|done|by etrans].
Qed.

Lemma ioctl_thread_calm {C} req t p o : req <> PERF_EVENT_IOC_RESET ->
  wpc C (ioctl_thread req t) (fun r s' => r = Ok tt /\ calm (p, o) s') (p, o).
Proof.
  intros Hreq; apply wp_bind; eapply wp_mono; [by apply on_fds_calm|]; intros r [p1 o1] (-> & E & S1); cbn [fst snd] in *; subst p1.
  eapply wp_mono; [by apply on_fds_calm|]; intros r [p2 o2] (-> & E & S2); cbn [fst snd] in *; subst p2.
  split; [done|]; split_and!; [done|done|by etrans].
Qed.

Lemma ioctl_threads_calm {C} req ts p o : req <> PERF_EVENT_IOC_RESET ->
  wpc C (forM ts (ioctl_thread req)) (fun r s' => r = Ok tt /\ calm (p, o) s') (p, o).
Proof.
  intros Hreq; apply wp_forM_ok; [done|]; intros t [p1 o1] _ H1.
  eapply wp_mono; [by apply ioctl_thread_calm|]; intros r s' [-> H2]; split; [done|by etrans].
Qed.

(** ** Draining *)

Lemma skel_alter (f : thread_state -> thread_state) tid (m : gmap Z thread_state) :
  (forall t, m !! tid = Some t -> skel (f t) = skel t) -> skel <$> alter f tid m = skel <$> m.
Proof.
  intros H; apply map_eq; intros k; rewrite !lookup_fmap, lookup_alter.
  case_decide as Hk; [subst k|done]; destruct (m !! tid) as [t|] eqn:E; [|done]; cbn; by rewrite H.
Qed.

Lemma skel_writer t i w : skel (t ⟦ ts_writers ::= <[i := w]> ⟧) = skel t.
Proof.
  unfold skel, upd; cbn; f_equal; rewrite list_fmap_insert; apply list_eq; intros k.
  rewrite list_lookup_insert; case_decide as Hk; [|done]; destruct Hk as [<- Hk]; rewrite list_lookup_fmap.
  rewrite length_fmap in Hk; by destruct (lookup_lt_is_Some_2 _ _ Hk) as [w' ->].
Qed.

Lemma skel_slot t i s d : ts_samplers t !! i = Some s ->
  skel (t ⟦ ts_samplers ::= <[i := s ⟦ ss_pending := d ⟧]> ⟧) = skel t.
Proof.
  intros H; unfold skel, upd; cbn; f_equal; rewrite list_fmap_insert; apply list_insert_id; by rewrite list_lookup_fmap, H.
Qed.

Lemma kinfo_counters_kept (l : list kinfo) (cs : list window_counts) :
  length cs = length l -> ki_counters <$> zip_with (fun k c => k ⟦ ki_counts := c ⟧) l cs = ki_counters <$> l.
Proof.
  revert cs; induction l as [|k l IH]; intros [|c cs] H; try done; cbn [zip_with fmap list_fmap].
  rewrite IH by (cbn in H; lia); done.
Qed.

Lemma process_calm tid i : forall p o, wlp (process_samples_locked tid i) (fun _ s' => calm (p, o) s') (p, o).
Proof.
  intros p o; unfold wpc, process_samples_locked.
  destruct (ts_samplers (thread_of p tid) !! i) as [slot|] eqn:Es; [|done]; rewrite some_bind.
  destruct (ss_ringbuf slot) as [ring|]; [|done]; rewrite some_bind; cbn zeta.
  set (w := match mo_threads p !! ss_tid slot with Some t => _ | None => _ end).
  destruct (RingDrain.process_samples_locked _ _ _ _ _ _) as [[st r]|] eqn:E; [|done]; rewrite some_bind.
  apply RingDrain.process_samples_windows in E; cbn [sl_kinfos] in E; rewrite length_fmap in E.
  split_and!; cbn [fst snd].
  - unfold core; cbn; do 3 f_equal.
    rewrite skel_alter by (intros t _; apply skel_writer); apply skel_alter; intros t Ht.
    apply skel_slot; unfold thread_of in Es; by rewrite Ht in Es.
  - unfold outer; cbn; f_equal; by apply kinfo_counters_kept.
  - destruct (pl_quiet o) as (Hq & _); apply Hq.
Qed.

Lemma drain_thread_calm tid p o : wlp (drain_thread tid) (fun _ s' => calm (p, o) s') (p, o).
Proof.
  apply wp_bind, wp_get; apply wp_sumM; [done|]; intros i [p1 o1] H1.
  eapply wp_mono; [apply process_calm|]; intros r s' H2; by etrans.
Qed.

Lemma drain_all_calm p o : wlp drain_all (fun _ s' => calm (p, o) s') (p, o).
Proof.
  apply wp_bind, wp_get; apply wp_sumM; [done|]; intros tid [p1 o1] H1; apply wp_bind, wp_get, wp_if; intros _; [|by apply wp_ret].
  eapply wp_mono; [apply drain_thread_calm|]; intros r s' H2; by etrans.
Qed.

Lemma sampler_command_calm cmd p o : wlp (sampler_command cmd) (fun _ s' => calm (p, o) s') (p, o).
Proof.
  apply wp_bind; eapply wp_mono; [apply drain_all_calm|]; intros [n|e] s1 C1; [|done].
  apply wp_bind, wp_if; intros _; [apply wp_call|]; apply wp_ret; [|done].
  etrans; [exact C1|]; split_and!; [done|done|apply pl_sem_post].
Qed.

(** A command whose drain returns is completed. *)
Lemma sampler_command_returns cmd s n s1 : drain_all s = Some (Ok n, s1) ->
  exists s', sampler_command cmd s = Some (Ok (cmd =? SAMPLER_STOP), s').
Proof.
  intros E; unfold sampler_command, bind at 1; rewrite E; unfold bind, act, call.
  destruct (negb _ || negb _); eauto.
Qed.

Lemma sampler_event_calm token p o : wlp (sampler_event token) (fun _ s' => calm (p, o) s') (p, o).
Proof.
  apply wp_if; intros _; [|by apply wp_ret]; apply wp_bind, wp_bind, wp_get; cbn [fst].
  destruct (mo_sampler_slots p !! _) as [[tid i]|]; [|by apply wp_ret, wp_ret].
  eapply wp_mono; [apply process_calm|]; intros [r|e] s' H2; [by apply wp_ret|done].
Qed.

End state.

End MonitorState.
