(* ===== verification/MonitorSpec.v ===== *)
(** What the monitor promises: the windows account for every count of every
    thread, closing it returns every descriptor and mapping, and a wake-up of the
    sampler thread drains the slot whose buffer filled. *)
From S2P Require Import Prelude Uapi CText ProcMaps Hotspots SpePacket RingDrain Effects TargetedCtl PerfEvents Monitor.
From S2P Require Import MonitorInv MonitorState.
From Stdlib Require Import SpecFloat.
Import PerfEvents Monitor MonitorInv MonitorState.

Module MonitorSpec.

Section spec.
Context {Pf : PerfApi} {PL : PerfLaws Pf}.

(** * Retiring a thread *)

Definition arrays_ok (p : monitor) : Prop :=
  zlen (mo_prev_counters p) = num_events p /\ zlen (mo_retired_values p) = num_events p /\
  zlen (mo_retired_time_enabled p) = num_events p /\ zlen (mo_retired_time_running p) = num_events p.

(** The part of the books that only the windows change. *)
Definition ledger (p : monitor) := (mo_prev_counters p, ki_counters <$> mo_kinfos p).

Definition retired (c : Z) (p : monitor) : Z := default 0 (mo_retired_values p !!z c).

Lemma zlookup_add_at l i v c :
  0 <= i < zlen l -> 0 <= c ->
  default 0 (add_at l i v !!z c) ≡₆₄ default 0 (l !!z c) + (if c =? i then v else 0).
Proof.
  intros Hi Hc; unfold add_at, zlookup; rewrite length_alter.
  destruct ((0 <=? c) && (c <? zlen l)) eqn:E; [|rewrite (proj2 (Z.eqb_neq c i)) by lia; cbn; eqm64_lia].
  rewrite list_lookup_alter; case_decide as Hk.
  - replace (c =? i) with true by lia; destruct (l !! Z.to_nat c) as [x|] eqn:Ex.
    + rewrite Hk, Ex; cbn; apply u64_eqm.
    + apply lookup_ge_None in Ex; lia.
  - replace (c =? i) with false by lia; eqm64_lia.
Qed.

Lemma retire_spec {C} index fd p o :
  po_has o (RFd fd) -> 0 <= index < num_events p -> arrays_ok p ->
  wpc C (retire index fd) (fun r s' => r = Ok tt /\ s'.2 = o /\ core s'.1 = core p /\ ledger s'.1 = ledger p /\
    mo_threads s'.1 = mo_threads p /\ arrays_ok s'.1 /\ forall c, 0 <= c -> retired c s'.1 ≡₆₄ retired c p + (if c =? index then po_value fd o else 0)) (p, o).
Proof.
  intros Hfd Hi (A1 & A2 & A3 & A4); apply wp_bind, wp_call; cbn [fst snd]; unfold read_fd.
  destruct (pl_read fd o Hfd (pl_fits fd o Hfd)) as (cnt & -> & Hv); apply wp_bind, wp_lift; cbn [fst snd].
  apply wp_modify; cbn [fst snd]; split_and!; try done.
  - unfold arrays_ok, num_events, add_at in *; cbn; rewrite !length_alter; done.
  - intros c Hc; unfold retired; cbn; rewrite zlookup_add_at by (rewrite ?A2; done).
    rewrite Hv; destruct (c =? index); [by rewrite u64_eqm|done].
Qed.

Definition share (p : monitor) (o : perf_os) (t : thread_state) (c : Z) : Z := sumZ (count_of p o c t).

Lemma core_num_events p q : core q = core p -> num_events q = num_events p /\ num_counters q = num_counters p.
Proof. unfold core; intros [= E1 E2 _ _ _ _ _ _]; unfold num_events, num_counters, num_samplers; by rewrite E1, E2. Qed.

(** What the loops of [accumulate_retired_counts_locked] have done after the first [b] events. *)
Definition retired_upto (p : monitor) (o : perf_os) (t : thread_state) (b : Z) (s' : monitor * perf_os) : Prop :=
  s'.2 = o /\ core s'.1 = core p /\ ledger s'.1 = ledger p /\ mo_threads s'.1 = mo_threads p /\ arrays_ok s'.1 /\
  forall c, 0 <= c -> retired c s'.1 ≡₆₄ retired c p + (if c <? b then share p o t c else 0).

Lemma retire_next {C} p o t b fd s :
  ts_active t = true -> event_fd p b t = Some fd -> po_has o (RFd fd) -> 0 <= b < num_events p ->
  retired_upto p o t b s ->
  wpc C (retire b fd) (fun r s' => r = Ok tt /\ retired_upto p o t (b + 1) s') s.
Proof.
  destruct s as [q o']; intros Ha E Hfd Hb (Eo & H2 & H3 & Ht & H4 & H5); cbn [fst snd] in *; subst o'.
  destruct (core_num_events p q H2) as [En _]; rewrite <- En in Hb.
  eapply wp_mono; [by apply retire_spec|]; intros r [q' o2] (-> & Eo & G2 & G3 & Gt & G4 & G5); cbn [fst snd] in *; subst o2.
  split; [done|]; split_and!; [done|by rewrite <- H2|by rewrite <- H3|by rewrite <- Ht|done|]; intros c Hc; cbn [fst]; rewrite G5, H5 by done.
  assert (Hs : c = b -> share p o t c = po_value fd o).
  { intros ->; unfold share, count_of; rewrite Ha, E, sumZ_cons; change (sumZ []) with 0; lia. }
  destruct (c =? b) eqn:E1; destruct (c <? b) eqn:E2; destruct (c <? b + 1) eqn:E3; try lia; rewrite ?Hs by lia; eqm64_lia.
Qed.

Lemma accumulate_spec {C} F p o tid t :
  mon_inv F (p, o) -> mo_threads p !! tid = Some t -> ts_active t = true -> arrays_ok p ->
  wpc C (accumulate_retired_counts_locked t)
    (fun r s' => r = Ok tt /\ retired_upto p o t (num_events p) s') (p, o).
Proof.
  intros Hi Ht Ha Harr; pose proof (gi_threads _ _ Hi tid t Ht) as Hk; cbn [fst snd] in Hk.
  destruct (tk_active _ _ _ _ Hk Ha) as [Ho _ (n0 & _ & Hm & _)].
  assert (Hhas : forall c fd, event_fd p c t = Some fd -> po_has o (RFd fd)).
  { intros c fd E; apply (gi_part _ _ Hi); right; apply elem_of_gather; exists tid, t; split; [done|by eapply active_event_res]. }
  assert (Hnn : 0 <= num_counters p /\ 0 <= num_samplers p) by (unfold num_counters, num_samplers; lia).
  apply wp_bind, wp_get, wp_bind; cbn [fst].
  eapply wp_mono; [apply (wp_forM_count _ _ (fun k s' => retired_upto p o t (Z.of_nat k) s'))|].
  - split_and!; [done|done|done|done|done|]; intros c Hc.
    destruct (Z.ltb_spec c (Z.of_nat 0)); [lia|cbn [fst]; eqm64_lia].
  - intros k c s Hc Hs; apply lookup_seqZ in Hc as [-> Hc]; rewrite Z.add_0_l in *.
    destruct (lookup_lt_is_Some_2 (ts_counter_fds t) k) as [fd Hfd]; [pose proof (op_counters _ _ Ho); unfold num_counters in Hc; lia|].
    rewrite zlookup_of_nat, Hfd; pose proof (op_counter_fds _ _ Ho) as Hge; eapply Forall_lookup_1 in Hge; [|exact Hfd].
    rewrite (proj2 (Z.ltb_ge fd 0)) by done; rewrite Nat2Z.inj_succ.
    assert (E : event_fd p (Z.of_nat k) t = Some fd)
      by (unfold event_fd; rewrite (proj2 (Z.ltb_lt _ _)) by lia; by rewrite zlookup_of_nat).
    apply retire_next; [done|done|by eapply Hhas|unfold num_events; lia|done].
  - intros r s [-> H1]; rewrite length_seqZ, Z2Nat.id in H1 by lia.
    eapply wp_mono; [apply (wp_forM_count _ _ (fun k s' => retired_upto p o t (num_counters p + Z.of_nat k) s'))|].
    + by rewrite Z.add_0_r.
    + intros k sl s2 Hsl Hs2; destruct (Hm k sl Hsl) as [_ _ Hidx Hfd _].
      rewrite (proj2 (Z.ltb_ge (ss_fd sl) 0)), Hidx by done.
      replace (num_counters p + Z.of_nat (S k)) with (num_counters p + Z.of_nat k + 1) by lia.
      assert (E : event_fd p (num_counters p + Z.of_nat k) t = Some (ss_fd sl)).
      { unfold event_fd; rewrite (proj2 (Z.ltb_ge _ _)) by lia.
        replace (num_counters p + Z.of_nat k - num_counters p) with (Z.of_nat k) by lia; by rewrite zlookup_of_nat, Hsl. }
      apply retire_next; [done|done|by eapply Hhas| |done].
      apply lookup_lt_Some in Hsl; pose proof (op_samplers _ _ Ho); unfold num_events, num_samplers; lia.
    + intros r s3 [-> H3]; split; [done|]; by rewrite (op_samplers _ _ Ho) in H3.
Qed.

(** * Closing a registered thread *)

Lemma mon_inv_closed F p o tid t o' :
  mon_inv F (p, o) -> mo_threads p !! tid = Some t -> part F (rest p tid) o' ->
  kept (fun r => F r \/ r ∈ rest p tid) o o' ->
  mon_inv F (at_thread p tid (mk_thread_state (ts_tid t) false [] (ts_writers t) [])
               (forget_slots (ts_samplers t) (mo_sampler_slots p)) (mo_next_slot_id p), o').
Proof.
  intros [H1 H2 H3 H4 H5 H6] Ht Hp Hk; cbn [fst snd] in *; split; cbn [fst snd].
  - by rewrite owned_at.
  - intros tid1 t1 Ht1; unfold at_thread in Ht1; cbn in Ht1; apply lookup_insert_Some in Ht1 as [[<- <-]|[Hne Ht1]].
    + split; [apply (tk_tid _ _ _ _ (H2 _ _ Ht))|done|done].
    + apply (thread_ok_frame p _ o o'); [done..|cbn; lia| |by apply H2].
      intros s Hs'; destruct (ts_active t1) eqn:E1.
      * destruct (Hk (ss_fd s)) as [_ ->]; [|done]; right; eapply rest_lookup; [done|done|].
        eapply slot_res_thread; [done|]; apply slot_fd_res; destruct (tk_active _ _ _ _ (H2 _ _ Ht1) E1) as [_ _ (n0 & _ & Hm1 & _)].
        apply list_elem_of_lookup in Hs' as [i Hs']; by eapply Hm1.
      * destruct (tk_inactive _ _ _ _ (H2 _ _ Ht1) E1) as [_ E]; rewrite E in Hs'; by apply not_elem_of_nil in Hs'.
  - intros id tid1 i; change (mo_sampler_slots (at_thread p tid _ (forget_slots (ts_samplers t) (mo_sampler_slots p)) _))
      with (forget_slots (ts_samplers t) (mo_sampler_slots p)); rewrite lookup_forget.
    assert (Hid : forall sl, sl ∈ ts_samplers t -> exists j, mo_sampler_slots p !! ss_slot_id sl = Some (tid, j) /\ ts_samplers t !! j = Some sl).
    { intros sl [j Hj]%list_elem_of_lookup; exists j; split; [|done]; apply H3; exists sl; split; [by exists t|done]. }
    split.
    + case_decide as Hin; [done|]; intros (sl & (t1 & Ht1 & Hs1) & Hi1)%H3; exists sl; split; [|done]; exists t1; split; [|done].
      unfold at_thread; cbn; rewrite lookup_insert_ne; [done|]; intros <-; rewrite Ht in Ht1; injection Ht1 as <-.
      apply Hin, list_elem_of_fmap; exists sl; split; [done|by eapply list_elem_of_lookup_2].
    + intros (sl & (t1 & Ht1 & Hs1) & <-); unfold at_thread in Ht1; cbn in Ht1; apply lookup_insert_Some in Ht1 as [[<- <-]|[Hne Ht1]]; [done|].
      assert (Hold : mo_sampler_slots p !! ss_slot_id sl = Some (tid1, i)) by (apply H3; exists sl; split; [by exists t1|done]).
      case_decide as Hin; [|done]; apply list_elem_of_fmap in Hin as (sl' & E & Hin).
      destruct (Hid sl' Hin) as (j & Hj & _); rewrite <- E in Hj; congruence.
  - intros id Hid; change (forget_slots (ts_samplers t) (mo_sampler_slots p) !! id = None).
    rewrite lookup_forget; case_decide; [done|by apply H4].
  - done.
  - done.
Qed.

(** ** Closing, in terms of the invariant *)

Lemma at_thread_id p tid t :
  mo_threads p !! tid = Some t -> at_thread p tid t (mo_sampler_slots p) (mo_next_slot_id p) = p.
Proof. intros H; unfold at_thread, upd; cbn; rewrite insert_id by done; by destruct p. Qed.

Lemma close_registered {C} F p o tid t :
  mon_inv F (p, o) -> mo_threads p !! tid = Some t ->
  wpc C (close_thread_locked tid) (fun r s' => r = Ok tt /\ mon_inv F s' /\ outer s'.1 = outer p /\
    mo_event_fd s'.1 = mo_event_fd p /\ mo_epoll_fd s'.1 = mo_epoll_fd p /\
    (exists t', ts_counter_fds t' = [] /\ ts_samplers t' = [] /\ mo_threads s'.1 = <[tid := t']> (mo_threads p)) /\
    forall c, running_count c s' = running_count c (p, o) - share p o t c) (p, o).
Proof.
  intros Hi Ht; pose proof (gi_part _ _ Hi) as Hp; cbn [fst snd] in Hp.
  assert (Hto : thread_of p tid = t) by (unfold thread_of; by rewrite Ht).
  rewrite (owned_thread p tid), Hto in Hp.
  pose proof (part_split F (thread_res t) (rest p tid) o Hp) as P1.
  assert (Nrest : NoDup (rest p tid) /\ forall r, r ∈ rest p tid -> ~ F r).
  { destruct Hp as [N D _]; apply NoDup_app in N as (_ & _ & N); split; [done|]; intros r Hr; apply D, elem_of_app; by right. }
  rewrite <- (at_thread_id p tid t Ht) at 1; rewrite <- (app_nil_r (thread_res t)) in P1.
  eapply wp_mono; [by eapply close_thread_spec|]; intros r [p1 o1] (-> & E & P2 & K2); cbn [fst snd] in *; subst p1.
  split_and!; [done| |done|done|done|by exists (mk_thread_state (ts_tid t) false [] (ts_writers t) [])|].
  - eapply mon_inv_closed; [done|done| |done]; apply (part_join F [] (rest p tid)); [apply Nrest..|done].
  - intros c; rewrite running_at, (running_count_thread c p o tid), Hto, inactive_count by done.
    rewrite (rest_count_kept _ c p o o1 tid (gi_threads _ _ Hi) (fun r Hr => or_intror Hr) K2); unfold share.
    change (sumZ []) with 0; lia.
Qed.

(** * Unregistering *)

Definition specs (p : monitor) := (mo_counter_spec p, mo_sampler_spec p).

(** The books balance as before: nothing was counted twice or lost. *)
Definition settled (F : resource -> Prop) (p : monitor) (o : perf_os) (s' : monitor * perf_os) : Prop :=
  mon_inv F s' /\ arrays_ok s'.1 /\ ledger s'.1 = ledger p /\ specs s'.1 = specs p /\
  forall c, 0 <= c < num_events p -> counted c s' ≡₆₄ counted c (p, o).

Lemma specs_num_events p q : specs q = specs p -> num_events q = num_events p /\ num_counters q = num_counters p.
Proof. unfold specs; intros [= E1 E2]; unfold num_events, num_counters, num_samplers; by rewrite E1, E2. Qed.

Lemma outer_parts p q : outer q = outer p ->
  specs q = specs p /\ ledger q = ledger p /\ (arrays_ok p -> arrays_ok q) /\ mo_retired_values q = mo_retired_values p.
Proof.
  unfold outer; intros [= E1 E2 E3 E4 E5 E6 E7]; split_and!; [unfold specs; congruence|unfold ledger; congruence| |done].
  unfold arrays_ok, num_events, num_counters, num_samplers; by rewrite E1, E2, E3, E4, E5, E6.
Qed.

Lemma settled_calm F p o s' : mon_inv F (p, o) -> arrays_ok p -> calm (p, o) s' -> settled F p o s'.
Proof.
  intros Hi Ha Hc; pose proof Hc as (_ & Ho & _); cbn [fst] in Ho; destruct (outer_parts _ _ Ho) as (E1 & E2 & E3 & _).
  split_and!; [by eapply calm_inv|auto|done|done|]; intros c _; by rewrite (calm_counted c _ _ Hc).
Qed.

Lemma settled_trans F p o s s' : settled F p o s -> settled F s.1 s.2 s' -> settled F p o s'.
Proof.
  intros (A1 & A2 & A3 & A4 & A5) (B1 & B2 & B3 & B4 & B5); destruct (specs_num_events _ _ A4) as [En _].
  split_and!; [done|done|by rewrite <- A3|by rewrite <- A4|].
  intros c Hc; rewrite B5 by (by rewrite En); destruct s; by apply A5.
Qed.

Lemma calm_thread s s' tid t : calm s s' -> mo_threads s.1 !! tid = Some t ->
  exists t', mo_threads s'.1 !! tid = Some t' /\ ts_active t' = ts_active t.
Proof.
  intros (Hc & _) Ht; unfold core in Hc; injection Hc as _ _ _ _ _ Hc _ _.
  assert (E : (skel <$> mo_threads s'.1) !! tid = Some (skel t)) by (rewrite Hc, lookup_fmap, Ht; done).
  rewrite lookup_fmap in E; destruct (mo_threads s'.1 !! tid) as [t'|]; [|done]; apply (inj Some) in E.
  exists t'; split; [done|]; by apply (f_equal ts_active) in E.
Qed.

Lemma retire_and_close {C} F p o tid t :
  mon_inv F (p, o) -> arrays_ok p -> mo_threads p !! tid = Some t -> ts_active t = true ->
  wpc C (accumulate_retired_counts_locked t;; close_thread_locked tid) (fun r s' => r = Ok tt /\ settled F p o s') (p, o).
Proof.
  intros Hi Ha Ht Hact; apply wp_bind; eapply wp_mono; [by eapply accumulate_spec|].
  intros r [p1 o1] (-> & Eo & C1 & L1 & T1 & A1 & R1); cbn [fst snd] in *; subst o1.
  assert (Hi1 : mon_inv F (p1, o)) by (eapply mon_inv_core; [exact C1| |exact Hi]; done).
  destruct (core_num_events p p1 C1) as [En Enc].
  eapply wp_mono; [eapply (close_registered F p1 o tid t); [done|by rewrite T1]|].
  intros r [p2 o2] (-> & Hi2 & O2 & _ & _ & _ & R2); cbn [fst snd] in *; split; [done|].
  destruct (outer_parts _ _ O2) as (E1 & E2 & E3 & E4).
  split_and!; [done|by apply E3|by cbn [fst]; rewrite E2| |].
  - cbn [fst]; rewrite E1; unfold specs; unfold core in C1; by injection C1 as -> -> _ _ _ _ _ _.
  - intros c Hc; unfold counted at 1; cbn [fst]; rewrite R2, E4; fold (retired c p1); rewrite R1 by lia.
    replace (c <? num_events p) with true by (symmetry; apply Z.ltb_lt; lia).
    rewrite (running_count_core c p p1 o o) by done; unfold counted; cbn [fst]; fold (retired c p).
    assert (Es : share p1 o t c = share p o t c) by (unfold share, count_of, event_fd; by rewrite Enc).
    rewrite Es; eqm64_lia.
Qed.

Lemma unregister_thread_spec F p o tid :
  mon_inv F (p, o) -> arrays_ok p -> wlp (unregister_thread_locked tid) (fun _ s' => settled F p o s') (p, o).
Proof.
  intros Hi Ha; assert (H0 : settled F p o (p, o)) by (by apply settled_calm).
  apply wp_bind, wp_get; cbn [fst]; destruct (mo_threads p !! tid) as [t|] eqn:Ht; [|by apply wp_ret].
  apply wp_if; intros Hact; [by apply wp_ret|]; rewrite negb_false_iff in Hact.
  apply wp_bind.
  assert (Hd : wlp (if mo_events_enabled p then disable_thread_locked t else ret tt) (fun r s' => r = Ok tt /\ calm (p, o) s') (p, o)).
  { apply wp_if; intros _; [by apply ioctl_thread_calm|by apply wp_ret]. }
  eapply wp_mono; [exact Hd|]; intros r [p1 o1] [-> C1]; apply wp_bind.
  eapply wp_mono; [apply drain_thread_calm|]; intros r [p2 o2] C2.
  assert (C12 : calm (p, o) (p2, o2)) by (by etrans); pose proof (settled_calm F p o _ Hi Ha C12) as S2.
  destruct r as [k|e]; [|done]; apply wp_bind, wp_get; cbn [fst].
  destruct (calm_thread _ _ tid t C12 Ht) as (t2 & Ht2 & Ea); cbn [fst] in Ht2.
  replace (thread_of p2 tid) with t2 by (unfold thread_of; by rewrite Ht2).
  pose proof S2 as (Hi2 & Ha2 & _).
  eapply wp_mono; [apply (retire_and_close F); [done|done|done|congruence]|]; intros r s' [-> S3].
  by eapply (settled_trans F p o (p2, o2)).
Qed.

(** * Reading the counters *)

Lemma running_count_fds c p o : running_count c (p, o) = sumZ ((fun fd => po_value fd o) <$> event_fds p c).
Proof.
  unfold running_count, gather, event_fds, active_threads; cbn [fst snd]; f_equal.
  induction (map_to_list (mo_threads p)).*2 as [|t ts IH]; [done|]; cbn [fmap list_fmap concat]; rewrite IH.
  unfold count_of at 1; rewrite filter_cons; destruct (ts_active t) eqn:E.
  - rewrite decide_True by done; cbn [omap list_omap]; by destruct (event_fd p c t).
  - by rewrite decide_False.
Qed.

Lemma event_fds_open F c p o : mon_inv F (p, o) -> Forall (fun fd => po_has o (RFd fd)) (event_fds p c).
Proof.
  intros Hi; apply Forall_forall; intros fd Hfd; unfold event_fds in Hfd; apply list_elem_of_omap in Hfd as (t & Ht & E).
  unfold active_threads in Ht; apply list_elem_of_filter in Ht as [Ha Ht].
  apply list_elem_of_fmap in Ht as ([tid t'] & -> & Ht); apply elem_of_map_to_list in Ht; cbn [snd] in *.
  apply (gi_part _ _ Hi); right; apply elem_of_gather; exists tid, t'; split; [done|].
  eapply active_event_res; [by apply (gi_threads _ _ Hi)|done|done].
Qed.

Lemma sum_counts_spec fds : forall acc o, Forall (fun fd => po_has o (RFd fd)) fds ->
  exists r, sum_counts fds acc o = Ok r /\ rf_value r ≡₆₄ rf_value acc + sumZ ((fun fd => po_value fd o) <$> fds) /\
    (fds <> [] \/ is_u64 (rf_value acc) -> is_u64 (rf_value r)).
Proof.
  induction fds as [|fd fds IH]; intros acc o H; cbn [sum_counts].
  - exists acc; split_and!; [done| |by intros [?|?]]; change (sumZ _) with 0; eqm64_lia.
  - apply Forall_cons in H as [Hfd H]; destruct (pl_read fd o Hfd (pl_fits fd o Hfd)) as (cnt & E & Hv); unfold read_fd; rewrite E; cbn [rbind].
    destruct (IH (mk_read (u64 (rf_value acc + rf_value cnt)) (u64 (rf_time_enabled acc + rf_time_enabled cnt))
      (u64 (rf_time_running acc + rf_time_running cnt))) o H) as (r & E1 & E2 & E3); exists r; split_and!; [done| |].
    + rewrite E2; cbn [rf_value fmap list_fmap]; rewrite sumZ_cons, Hv, !u64_eqm; eqm64_lia.
    + intros _; apply E3; right; apply u64_range.
Qed.

Definition prev (c : Z) (p : monitor) : Z := default 0 (mo_prev_counters p !!z c).

Lemma wp_zlookup {C} {A} (l : list A) i (Q : result A -> monitor * perf_os -> Prop) s :
  0 <= i < zlen l -> (forall x, l !!z i = Some x -> Q (Ok x) s) -> wpc C (crash_if_none (l !!z i)) Q s.
Proof. intros Hi HQ; apply wp_crash_if_none; [by apply zlookup_is_Some|done]. Qed.

Lemma read_counter_spec {C} F p o c :
  mon_inv F (p, o) -> arrays_ok p -> 0 <= c < num_events p ->
  wpc C (read_counter c) (fun r s' => exists v cd, r = Ok cd /\ s' = (p ⟦ mo_prev_counters ::= <[Z.to_nat c := v]> ⟧, o) /\
    v ≡₆₄ counted c (p, o) /\ cd_value cd ≡₆₄ v - prev c p /\ is_u64 (cd_value cd)) (p, o).
Proof.
  intros Hi (A1 & A2 & A3 & A4) Hc; apply wp_bind, wp_get; cbn [fst].
  apply wp_bind, wp_zlookup; [lia|]; intros value Ev; apply wp_bind, wp_zlookup; [lia|]; intros enabled _.
  apply wp_bind, wp_zlookup; [lia|]; intros running _; apply wp_bind, wp_zlookup; [lia|]; intros pv Ep.
  apply wp_bind, wp_call; cbn [fst snd].
  destruct (sum_counts_spec (event_fds p c) (mk_read value enabled running) o (event_fds_open F c p o Hi)) as (r & -> & Er & _).
  apply wp_bind, wp_lift, wp_bind, wp_modify, wp_ret; cbn [fst snd]; eexists _, _; split; [done|]; split; [done|]; split; [|split; [|apply u64_range]].
  - rewrite Er; unfold counted; rewrite running_count_fds; cbn [fst rf_value]; rewrite Ev; cbn; eqm64_lia.
  - cbn [cd_value]; rewrite u64_eqm; unfold prev; rewrite Ep; cbn; eqm64_lia.
Qed.

Lemma zlookup_insert_eq l i (x : Z) : 0 <= i < zlen l -> <[Z.to_nat i := x]> l !!z i = Some x.
Proof. intros H; apply zlookup_Some; rewrite length_insert; split; [lia|]; apply list_lookup_insert_eq; lia. Qed.
Lemma zlookup_insert_ne l i j (x : Z) : 0 <= i -> 0 <= j -> i <> j -> <[Z.to_nat i := x]> l !!z j = l !!z j.
Proof. intros Hi Hj H; unfold zlookup; rewrite length_insert; destruct (_ && _); [|done]; apply list_lookup_insert_ne; lia. Qed.

(** The counters of a window: what was counted since the last one. *)
Lemma read_counters_spec {C} F o indices : forall p,
  mon_inv F (p, o) -> arrays_ok p -> NoDup indices -> Forall (fun c => 0 <= c < num_events p) indices ->
  wpc C (read_counters_from indices) (fun r s' => exists vs cs, r = Ok cs /\ s' = (p ⟦ mo_prev_counters := vs ⟧, o) /\
    zlen vs = num_events p /\ length cs = length indices /\ Forall (fun cd => is_u64 (cd_value cd)) cs /\
    (forall c, 0 <= c -> c ∉ indices -> vs !!z c = mo_prev_counters p !!z c) /\
    (forall k c, indices !! k = Some c -> exists cd, cs !! k = Some cd /\
       default 0 (vs !!z c) ≡₆₄ counted c (p, o) /\ cd_value cd ≡₆₄ default 0 (vs !!z c) - prev c p)) (p, o).
Proof.
  induction indices as [|c l IH]; intros p Hi Ha Hnd Hr; cbn [read_counters_from].
  - apply wp_ret; exists (mo_prev_counters p), []; split_and!; try done; [by destruct p|by destruct Ha].
  - apply NoDup_cons in Hnd as [Hc Hnd]; apply Forall_cons in Hr as [Hcr Hr].
    apply wp_bind; eapply wp_mono; [by eapply read_counter_spec|]; intros r [p1 o1] (v & cd & -> & [= -> ->] & Hv & Hcd & Hcu).
    set (p1 := p ⟦ mo_prev_counters ::= <[Z.to_nat c := v]> ⟧).
    assert (Hi1 : mon_inv F (p1, o)) by (by eapply mon_inv_core; [| |exact Hi]).
    assert (Ha1 : arrays_ok p1) by (unfold arrays_ok, p1, num_events in *; cbn; by rewrite length_insert).
    assert (Ecount : forall x, counted x (p1, o) = counted x (p, o))
      by (intros x; unfold counted; by rewrite (running_count_core x p p1 o o)).
    apply wp_bind; eapply wp_mono; [by apply IH|]; intros r [p2 o2] (vs & cs & -> & [= -> ->] & L1 & L2 & L3 & H1 & H2).
    apply wp_ret; exists vs, (cd :: cs); split; [done|]; split; [done|]; split; [done|]; split; [cbn; lia|]; split; [by constructor|]; split.
    + intros x Hx [Hne Hl]%not_elem_of_cons; rewrite H1 by done; unfold p1; cbn; by rewrite zlookup_insert_ne by lia.
    + intros [|k] x Hx; cbn in Hx.
      * injection Hx as ->; exists cd; rewrite H1 by (done || lia); unfold p1; cbn.
        rewrite zlookup_insert_eq by (destruct Ha as [-> _]; done); cbn; done.
      * destruct (H2 k x Hx) as (cd' & E1 & E2 & E3); exists cd'; split_and!; [done|by rewrite E2, Ecount|].
        rewrite E3; unfold prev, p1; cbn; rewrite zlookup_insert_ne; [done|lia| |].
        -- apply list_elem_of_lookup_2 in Hx; rewrite Forall_forall in Hr; apply Hr in Hx; lia.
        -- intros ->; apply Hc; by eapply list_elem_of_lookup_2.
Qed.

(** * Windows *)

Definition window_counters (p : monitor) : list (option (list counter_data)) := ki_counters <$> mo_kinfos p.
(** What the windows report of event [c] in all. *)
Definition reported_in (c : Z) (w : option (list counter_data)) : Z :=
  match w with Some l => default 0 (cd_value <$> l !!z c) | None => 0 end.
Definition reported (c : Z) (p : monitor) : Z := sumZ (reported_in c <$> window_counters p).

(** The window has a 64-bit count of each of [n] events. *)
Definition full_window (n : Z) (w : option (list counter_data)) : Prop :=
  match w with Some cs => zlen cs = n /\ Forall (fun cd => is_u64 (cd_value cd)) cs | None => True end.

Lemma snoc_inv {A} (l : list A) : l <> [] -> exists l' x, l = l' ++ [x].
Proof. destruct l as [|x l _] using rev_ind; [done|eauto]. Qed.

Lemma calm_modify {C} f p o s :
  (forall q, core (f q) = core q /\ outer (f q) = outer q) -> calm (p, o) s ->
  wpc C (modify f) (fun r s' => r = Ok tt /\ calm (p, o) s') s.
Proof.
  intros Hf Hc; apply wp_modify; split; [done|]; etrans; [exact Hc|]; destruct (Hf s.1); split_and!; done.
Qed.

Lemma calm_back {C} f p o s :
  (forall k, ki_counters (f k) = ki_counters k) -> mo_kinfos p <> [] -> calm (p, o) s ->
  wpc C (back_kinfo f) (fun r s' => r = Ok tt /\ calm (p, o) s') s.
Proof.
  intros Hf Hne Hc; destruct s as [q o']; unfold wpc, back_kinfo; cbn [fst snd].
  assert (Hk : ki_counters <$> mo_kinfos q = ki_counters <$> mo_kinfos p) by (destruct Hc as (_ & Ho & _); unfold outer in Ho; by injection Ho).
  destruct (snoc_inv (mo_kinfos q)) as (ks & k0 & Eq).
  { intros Eq; rewrite Eq in Hk; by destruct (mo_kinfos p). }
  rewrite Eq, last_snoc, some_bind; split; [done|]; etrans; [exact Hc|]; split_and!; [done| |done].
  unfold outer; cbn; f_equal; rewrite Eq, length_app, Nat.add_sub, take_app_length, !fmap_app; cbn; by rewrite Hf.
Qed.

Lemma now_calm {C} p o s : calm (p, o) s -> wpc C now (fun _ s' => calm (p, o) s') s.
Proof.
  intros Hc; destruct s as [q o']; apply wp_bind, wp_call; cbn [fst snd].
  destruct (pl_quiet o') as (_ & _ & _ & _ & _ & Hq); destruct (clock_gettime o') as [[t|] o2]; cbn [fst snd] in *.
  - apply wp_ret; etrans; [exact Hc|]; by split_and!.
  - apply wp_throw; etrans; [exact Hc|]; by split_and!.
Qed.

Lemma snapshots_calm {C} p o s : calm (p, o) s ->
  wpc C (snapshot_main_binary_path;; snapshot_maps) (fun _ s' => calm (p, o) s') s.
Proof.
  intros Hc; apply wp_bind.
  assert (H1 : wpc C snapshot_main_binary_path (fun r s' => r = Ok tt /\ calm (p, o) s') s).
  { apply wp_bind, wp_get, wp_if; intros _; [|by apply wp_ret]; apply wp_bind, wp_call; cbn [fst snd].
    apply calm_modify; [done|by destruct s]. }
  eapply wp_mono; [exact H1|]; intros r s1 [-> C1].
  apply wp_bind, wp_get, wp_if; intros _; [by apply wp_ret|]; apply wp_bind, wp_call; cbn [fst snd].
  apply wp_bind, wp_lift; destruct (ProcMaps.ProcMaps.snapshot_module_maps _ _ _ _) as [maps|e]; [|by destruct s1].
  eapply wp_mono; [apply calm_modify; [done|by destruct s1]|]; by intros r s' [_ ?].
Qed.

Definition opened_window (p : monitor) : monitor := p ⟦ mo_kinfos ::= fun l => l ++ [zero_kinfo] ⟧.

Lemma start_spec {C} tag offloaded p o :
  wpc C (start tag offloaded) (fun _ s' => calm (opened_window p, o) s') (p, o).
Proof.
  assert (Hne : mo_kinfos (opened_window p) <> []) by (unfold opened_window; cbn; by destruct (mo_kinfos p)).
  apply wp_bind, wp_modify; cbn [fst snd]; fold (opened_window p).
  assert (Htag : wpc C (set_tag tag) (fun _ s' => calm (opened_window p, o) s') (opened_window p, o)).
  { unfold set_tag; destruct tag as [t|]; [destruct (existsb _ t); [by apply wp_throw|]|];
      (eapply wp_mono; [by apply calm_back|]; by intros r s' [_ ?]). }
  apply wp_bind; eapply wp_mono; [exact Htag|]; intros [[]|e] s1 C1; [|done].
  apply wp_bind; eapply wp_mono; [by apply calm_back|]; intros r s2 [-> C2].
  apply wp_bind, wp_get, wp_bind.
  assert (Hsem : wpc C (if negb (mo_nonstop_mode s2.1) && negb (mo_epoll_fd s2.1 =? -1) then act sem_wait else ret tt)
    (fun r s' => r = Ok tt /\ calm (opened_window p, o) s') s2).
  { apply wp_if; intros _; [|by apply wp_ret]; apply wp_call; cbn [fst snd]; split; [done|]; etrans; [exact C2|].
    destruct (pl_quiet s2.2) as (_ & _ & Hq & _); by split_and!. }
  eapply wp_mono; [exact Hsem|]; intros r s3 [-> C3].
  pose proof (snapshots_calm (C := C) _ _ _ C3) as Hsnap; unfold bind, wpc in Hsnap.
  apply wp_bind; unfold wpc at 1.
  destruct (snapshot_main_binary_path s3) as [[[[]|e] s4]|]; [|done|done].
  apply wp_bind; unfold wpc at 1; destruct (snapshot_maps s4) as [[[[]|e] s5]|]; [|done|done].
  apply wp_bind; eapply wp_mono; [by apply now_calm|]; intros [t|e] s6 C6; [|done].
  apply wp_bind; eapply wp_mono; [apply calm_modify; [|exact C6]; done|]; intros r s7 [-> C7].
  apply wp_bind, wp_get, wp_if; intros _; [by apply wp_ret|].
  destruct s7 as [p7 o7]; apply wp_bind; eapply wp_mono; [by apply ioctl_threads_calm|]; intros r s8 [-> C8].
  eapply wp_mono; [apply calm_modify; [|etrans; [exact C7|exact C8]]; done|]; by intros r s' [_ ?].
Qed.

(** A window that was stopped: the counters and the totals they bring the books to. *)
Definition closed_window (p : monitor) (o : perf_os) (s' : monitor * perf_os) : Prop :=
  core s'.1 = core p /\ po_same o s'.2 /\ arrays_ok s'.1 /\ mo_retired_values s'.1 = mo_retired_values p /\
  exists ws cs, window_counters p = ws ++ [None] /\ window_counters s'.1 = ws ++ [Some cs] /\ full_window (num_events p) (Some cs) /\
    forall c, 0 <= c < num_events p -> prev c s'.1 ≡₆₄ counted c (p, o) /\
      default 0 (cd_value <$> cs !!z c) ≡₆₄ prev c s'.1 - prev c p.

(** Switching the events off and asking the sampler to drain leave the books alone. *)
Lemma disable_calm {C} (b : bool) p o :
  wpc C (if b then forM (active_threads p) disable_thread_locked;; modify (fun p => p ⟦ mo_events_enabled := false ⟧) else ret tt)
     (fun r s' => r = Ok tt /\ calm (p, o) s') (p, o).
Proof.
  apply wp_if; intros _; [|by apply wp_ret]; apply wp_bind; eapply wp_mono; [by apply ioctl_threads_calm|].
  intros r s1 [-> C1]; by apply calm_modify.
Qed.

Lemma drain_request_calm {C} (b : bool) fd s s2 : calm s s2 ->
  wpc C (if b then ok <-- call (eventfd_write fd SAMPLER_DRAIN);
     if ok then ret tt else throw (txt "eventfd write failed") else ret tt) (fun _ s' => calm s s') s2.
Proof.
  intros C2; apply wp_if; intros _; [|by apply wp_ret]; apply wp_bind, wp_call; destruct s2 as [p2 o2]; cbn [fst snd].
  destruct (pl_quiet o2) as (_ & _ & _ & Hq & _); specialize (Hq fd SAMPLER_DRAIN).
  assert (Hc : calm s (p2, (eventfd_write fd SAMPLER_DRAIN o2).2)) by (etrans; [exact C2|]; by split_and!).
  destruct (eventfd_write _ _ o2) as [[] o3]; [by apply wp_ret|by apply wp_throw].
Qed.

Lemma stop_spec {C} F p o :
  mon_inv F (p, o) -> arrays_ok p -> (exists ws, window_counters p = ws ++ [None]) ->
  wpc C stop (fun r s' => match r with Ok _ => closed_window p o s' | Throw _ => calm (p, o) s' end) (p, o).
Proof.
  intros Hi Ha (ws & Hws).
  assert (Hne : mo_kinfos p <> []) by (intros E; unfold window_counters in Hws; rewrite E in Hws; by destruct ws).
  apply wp_bind, wp_get, wp_bind; cbn [fst].
  eapply wp_mono; [by apply disable_calm|]; intros r s1 [-> C1].
  apply wp_bind; eapply wp_mono; [by apply now_calm|]; intros [t|e] s2 C2; [|done].
  apply wp_bind; eapply wp_mono; [by apply drain_request_calm|]; intros [[]|e] s3 C3; [|done].
  apply wp_bind, wp_get, wp_bind; eapply wp_mono; [apply calm_back; [|exact Hne|exact C3]; done|]; intros r [p4 o4] [-> C4].
  destruct C4 as (Hc4 & Ho4 & Hs4); cbn [fst snd] in *; destruct (outer_parts _ _ Ho4) as (E1 & E2 & E3 & E4).
  assert (Hi4 : mon_inv F (p4, o4)) by (by eapply mon_inv_core; [| |exact Hi]).
  destruct (specs_num_events _ _ E1) as [En _].
  apply wp_bind, wp_bind, wp_get; cbn [fst].
  change (num_counters p4 + num_samplers p4) with (num_events p4).
  assert (Hnn : 0 <= num_events p4) by (unfold num_events, num_counters, num_samplers; lia).
  eapply wp_mono; [apply (read_counters_spec F o4 (seqZ 0 (num_events p4)) p4); [done|auto|apply NoDup_seqZ|]|].
  { apply Forall_forall; intros c; rewrite elem_of_seqZ; lia. }
  intros r [p5 o5] (vs & cs & -> & [= -> ->] & L1 & L2 & L3 & _ & H2).
  unfold ledger in E2; injection E2 as Eprev Ewin.
  assert (Hwin : ki_counters <$> mo_kinfos p4 = ws ++ [None]) by (rewrite Ewin; exact Hws).
  unfold wpc, back_kinfo; cbn [fst snd].
  change (mo_kinfos (p4 ⟦ mo_prev_counters := vs ⟧)) with (mo_kinfos p4).
  destruct (snoc_inv (mo_kinfos p4)) as (ks & k & Ek); [by intros E; rewrite E in Hwin; destruct ws|].
  rewrite Ek, last_snoc, some_bind; rewrite Ek, fmap_app in Hwin; cbn in Hwin; apply app_inj_tail in Hwin as [Hws4 _].
  destruct (E3 Ha) as (B1 & B2 & B3 & B4); split_and!; cbn [fst snd]; [exact Hc4|done|by split_and!|done|].
  exists ws, cs; split; [done|]; split.
  { unfold window_counters; cbn; rewrite Ek, length_app, Nat.add_sub, take_app_length, fmap_app, Hws4; done. }
  split; [split; [rewrite L2, length_seqZ; lia|done]|].
  intros c Hc; rewrite <- En in Hc; destruct (H2 (Z.to_nat c) c) as (cd & G1 & G2 & G3).
  { apply lookup_seqZ; lia. }
  unfold prev; cbn; split.
  - rewrite G2; unfold counted; cbn [fst]; rewrite E4, (running_count_core c p p4 o o4); [done|done|apply Hs4].
  - rewrite (zlookup_in_range cs c), G1 by (rewrite L2, length_seqZ; lia); cbn [fmap option_fmap option_map default].
    rewrite G3; unfold prev; by rewrite Eprev.
Qed.

(** * Runs *)

Inductive mon_call :=
| Attach (tid : Z)
| Register (tid : Z)
| Unregister (tid : Z)
| Start (tag : option text) (offloaded : bool)
| Stop
| WakeUp (token : Z)
| Command (efd_cmd : Z)
| TagAddr (tag : text) (start_ end_ : Z)
| MarkPhase (tag : text)
| SetNonstop
| ReadSamples.

Definition run_call (c : mon_call) : mon unit :=
  match c with
  | Attach tid => register_thread_locked tid
  | Register tid => register_current_thread tid
  | Unregister tid => unregister_current_thread tid
  | Start tag offloaded => start tag offloaded
  | Stop => stop
  | WakeUp token => sampler_event token
  | Command efd_cmd => sampler_command efd_cmd;; ret tt
  | TagAddr tag start_ end_ => tag_addr tag start_ end_
  | MarkPhase tag => mark_phase tag
  | SetNonstop => set_nonstop
  | ReadSamples => read_samples
  end.

(** The current window has not been stopped. *)
Definition window_running (p : monitor) : Prop := exists ws, window_counters p = ws ++ [None].

(** A registration with samplers that failed. *)
Definition leaks (c : mon_call) (r : result unit) (p : monitor) : bool :=
  match c, r with
  | Attach _, Throw _ | Register _, Throw _ => negb (bool_decide (mo_sampler_spec p = []))
  | _, _ => false
  end.

(** Calls of the monitor, by any thread and in any order, between which the
    program runs and events count.  The tally is what the events of the registered
    threads have counted; the flag tells whether a registration with samplers
    failed. *)
Inductive mon_run (s0 : monitor * perf_os) : monitor * perf_os -> (Z -> Z) -> bool -> Prop :=
| run_ready : mon_run s0 s0 (fun _ => 0) false
| run_step s n l c r s' :
    mon_run s0 s n l -> (c = Stop -> window_running s.1) -> run_call c s = Some (r, s') ->
    mon_run s0 s' n (l || leaks c r s.1)
| run_count s n l o' :
    mon_run s0 s n l -> (forall r, po_has o' r <-> po_has s.2 r) -> (forall e f, po_watch e f o' = po_watch e f s.2) ->
    mon_run s0 (s.1, o') (fun c => n c + sumZ ((fun fd => po_value fd o' - po_value fd s.2) <$> event_fds s.1 c)) l.

(** The monitor after [prepare]. *)
Definition ready (s : monitor * perf_os) : Prop :=
  mo_threads s.1 = ∅ /\ mo_sampler_slots s.1 = ∅ /\ mo_next_slot_id s.1 = 0 /\ mo_kinfos s.1 = [] /\ bufs_ok s.1 /\
  let zeros := replicate (Z.to_nat (num_events s.1)) 0 in
  mo_prev_counters s.1 = zeros /\ mo_retired_values s.1 = zeros /\
  mo_retired_time_enabled s.1 = zeros /\ mo_retired_time_running s.1 = zeros.

Record run_inv (s0 s : monitor * perf_os) (n : Z -> Z) (leaky : bool) : Prop := {
  ri_inv : exists F, mon_inv F s /\ (forall r, po_has s0.2 r -> F r) /\ (leaky = false -> forall r, F r -> po_has s0.2 r);
  ri_arrays : arrays_ok s.1;
  ri_counted c : 0 <= c < num_events s.1 -> counted c s ≡₆₄ n c;
  ri_reported c : 0 <= c < num_events s.1 -> reported c s.1 ≡₆₄ prev c s.1;
  ri_full : Forall (full_window (num_events s.1)) (window_counters s.1);
  ri_specs : specs s.1 = specs s0.1;
}.

Lemma ready_inv s : ready s -> run_inv s s (fun _ => 0) false.
Proof.
  destruct s as [p o]; intros (E1 & E2 & E3 & E4 & E5 & Z1 & Z2 & Z3 & Z4); cbn [fst snd] in *.
  assert (Hnn : 0 <= num_events p) by (unfold num_events, num_counters, num_samplers; lia).
  assert (Hz : forall c l, l = replicate (Z.to_nat (num_events p)) 0 -> default 0 (l !!z c) = 0).
  { intros c l ->; unfold zlookup; destruct (_ && _); [|done]; destruct (replicate _ 0 !! _) as [x|] eqn:E; [|done].
    by apply lookup_replicate in E as [-> _]. }
  split; cbn [fst snd].
  - exists (po_has o); split_and!; [|done|done]; split; cbn [fst snd].
    + unfold owned; rewrite E1; split; [apply NoDup_nil_2|by intros r ?%not_elem_of_nil|]; intros r; split; [by left|].
      by intros [?|?%not_elem_of_nil].
    + intros tid t; by rewrite E1, lookup_empty.
    + intros id tid i; rewrite E2, lookup_empty; split; [done|]; intros (sl & (t & Ht & _) & _); by rewrite E1, lookup_empty in Ht.
    + intros id _; by rewrite E2, lookup_empty.
    + lia.
    + done.
  - unfold arrays_ok; rewrite Z1, Z2, Z3, Z4, length_replicate; lia.
  - intros c Hc; unfold counted, running_count; cbn [fst snd]; rewrite E1, Hz by done; change (sumZ _) with 0; eqm64_lia.
  - intros c Hc; unfold reported, window_counters, prev; rewrite E4, Hz by done; change (sumZ _) with 0; eqm64_lia.
  - unfold window_counters; rewrite E4; constructor.
  - done.
Qed.

Lemma reported_ledger c p q : ledger q = ledger p -> reported c q = reported c p /\ prev c q = prev c p.
Proof. unfold ledger, reported, window_counters, prev; by intros [= -> ->]. Qed.

(** Counts, resources and reports after a step that opened or closed no window. *)
Lemma run_inv_keep s0 s n l l' s' F :
  run_inv s0 s n l -> mon_inv F s' -> (forall r, po_has s0.2 r -> F r) -> (l' = false -> forall r, F r -> po_has s0.2 r) ->
  arrays_ok s'.1 -> ledger s'.1 = ledger s.1 -> specs s'.1 = specs s.1 ->
  (forall c, 0 <= c < num_events s.1 -> counted c s' ≡₆₄ counted c s) -> run_inv s0 s' n l'.
Proof.
  intros [_ _ Hc Hr Hf Hsp] Hi H1 H2 Ha Hl Hs Hk; destruct (specs_num_events _ _ Hs) as [En _]; split; [by exists F|done| | | |].
  - intros c Hc'; rewrite En in Hc'; rewrite Hk by done; by apply Hc.
  - intros c Hc'; rewrite En in Hc'; destruct (reported_ledger c _ _ Hl) as [-> ->]; by apply Hr.
  - rewrite En; unfold ledger in Hl; injection Hl as _ Hw; unfold window_counters; by rewrite Hw.
  - by rewrite Hs.
Qed.

Lemma run_inv_settled s0 s n l s' :
  run_inv s0 s n l -> (forall F, mon_inv F s -> settled F s.1 s.2 s') -> run_inv s0 s' n l.
Proof.
  intros H Hs; destruct (ri_inv _ _ _ _ H) as (F & Hi & H1 & H2); destruct (Hs F Hi) as (A1 & A2 & A3 & A4 & A5).
  eapply run_inv_keep; eauto; destruct s; done.
Qed.

Lemma run_inv_calm s0 s n l s' : run_inv s0 s n l -> calm s s' -> run_inv s0 s' n l.
Proof.
  intros H Hc; eapply run_inv_settled; [exact H|]; intros F Hi; destruct s; apply settled_calm; [done|apply (ri_arrays _ _ _ _ H)|done].
Qed.

Lemma run_inv_registered s0 s n l l' s' r :
  run_inv s0 s n l -> (forall F, mon_inv F s -> register_post F s.1 s.2 r s') ->
  (l' = false -> l = false /\ (r = Ok tt \/ mo_sampler_spec s.1 = [])) -> run_inv s0 s' n l'.
Proof.
  intros H Hs Hl; destruct (ri_inv _ _ _ _ H) as (F & Hi & H1 & H2).
  destruct (Hs F Hi) as (A1 & A2 & F' & B1 & B2 & B3); destruct (outer_parts _ _ A1) as (E1 & E2 & E3 & E4).
  eapply (run_inv_keep _ _ _ _ _ _ F'); eauto.
  - intros El x Hx; destruct (Hl El); auto.
  - apply E3, (ri_arrays _ _ _ _ H).
  - intros c _; unfold counted; rewrite E4; destruct s; rewrite A2; done.
Qed.

Lemma run_inv_start s0 s n l s' : run_inv s0 s n l -> calm (opened_window s.1, s.2) s' -> run_inv s0 s' n l.
Proof.
  intros H Hc; refine (run_inv_calm s0 (opened_window s.1, s.2) n l s' _ Hc).
  destruct H as [(F & Hi & H1 & H2) Ha Hn Hr Hf Hsp]; split.
  - exists F; split_and!; [|done|done]; destruct s; eapply mon_inv_core; [| |exact Hi]; done.
  - exact Ha.
  - intros c Hc'; refine (_ : counted c (opened_window s.1, s.2) ≡₆₄ n c).
    rewrite <- (Hn c Hc'); destruct s as [p o]; unfold counted; by rewrite (running_count_core c p (opened_window p) o o).
  - intros c Hc'; change (prev c (opened_window s.1, s.2).1) with (prev c s.1); rewrite <- (Hr c Hc').
    unfold reported, window_counters, opened_window; cbn; rewrite !fmap_app, sumZ_app; cbn; change (sumZ [0]) with 0; eqm64_lia.
  - unfold window_counters, opened_window in *; cbn; rewrite fmap_app; apply Forall_app; split; [exact Hf|by repeat constructor].
  - exact Hsp.
Qed.

Lemma run_inv_stop s0 s n l s' : run_inv s0 s n l -> closed_window s.1 s.2 s' ->
  run_inv s0 s' n l /\ forall c, 0 <= c < num_events s'.1 -> reported c s'.1 ≡₆₄ n c.
Proof.
  intros [(F & Hi & H1 & H2) Ha Hn Hr Hf Hsp] (C1 & C2 & C3 & C4 & ws & cs & W1 & W2 & Wf & W3).
  destruct (core_num_events _ _ C1) as [En _]; destruct s as [p o], s' as [p' o']; cbn [fst snd] in *.
  assert (Hn' : forall c, 0 <= c < num_events p' -> counted c (p', o') ≡₆₄ n c).
  { intros c Hc; rewrite En in Hc; rewrite <- (Hn c Hc); unfold counted; cbn [fst].
    rewrite C4, (running_count_core c p p' o o'); [done|done|apply C2]. }
  assert (Hr' : forall c, 0 <= c < num_events p' -> reported c p' ≡₆₄ prev c p').
  { intros c Hc; rewrite En in Hc; destruct (W3 c Hc) as [_ V]; unfold reported; rewrite W2, fmap_app, sumZ_app.
    specialize (Hr c Hc); unfold reported in Hr; rewrite W1, fmap_app, sumZ_app in Hr; cbn [fmap list_fmap reported_in] in *.
    change (sumZ [0]) with 0 in Hr; rewrite Z.add_0_r in Hr; rewrite sumZ_cons; change (sumZ []) with 0.
    rewrite Hr, V; eqm64_lia. }
  split.
  - split; [|done|done|done| |]; cbn [fst].
    3: { rewrite <- Hsp; unfold core in C1; injection C1 as E1 E2 _ _ _ _ _ _; cbn; unfold specs; by rewrite E1, E2. }
    2: { rewrite En, W2; rewrite W1 in Hf; apply Forall_app in Hf as [Hf _]; apply Forall_app; split; [done|by constructor]. }
    exists F; split_and!; [|done|done]; by eapply mon_inv_core; [| |exact Hi].
  - intros c Hc; cbn [fst]; rewrite Hr', <- (Hn' c Hc) by done; rewrite En in Hc; destruct (W3 c Hc) as [-> _].
    unfold counted; cbn [fst]; rewrite C4, (running_count_core c p p' o o'); [done|done|apply C2].
Qed.

Lemma run_inv_count s0 s n l o' :
  run_inv s0 s n l -> (forall r, po_has o' r <-> po_has s.2 r) -> (forall e f, po_watch e f o' = po_watch e f s.2) ->
  run_inv s0 (s.1, o') (fun c => n c + sumZ ((fun fd => po_value fd o' - po_value fd s.2) <$> event_fds s.1 c)) l.
Proof.
  destruct s as [p o]; intros [(F & Hi & H1 & H2) Ha Hn Hr Hf Hsp] S1 S2; cbn [fst snd] in *; split; [|done| |done|done|done].
  - exists F; split_and!; [|done|done]; by eapply mon_inv_frame; [| | |exact Hi].
  - intros c Hc; rewrite <- (Hn c Hc); unfold counted; cbn [fst]; rewrite !running_count_fds.
    assert (E : forall fds, sumZ ((fun fd => po_value fd o') <$> fds) =
      sumZ ((fun fd => po_value fd o) <$> fds) + sumZ ((fun fd => po_value fd o' - po_value fd o) <$> fds)).
    { induction fds as [|fd fds IH]; [done|]; cbn [fmap list_fmap]; rewrite !sumZ_cons, IH; lia. }
    rewrite E; eqm64_lia.
Qed.

Lemma register_current_post {C} F p o tid :
  mon_inv F (p, o) -> wpc C (register_current_thread tid) (register_post F p o) (p, o).
Proof.
  intros Hi; apply wp_bind, wp_get, wp_if; intros _; [apply wp_ret; split_and!; [done|done|by exists F]|].
  apply wp_bind; eapply wp_mono; [by apply register_thread_spec|]; intros [[]|e] [p1 o1] H1; [|done].
  apply wp_bind, wp_get, wp_if; intros _; [|by apply wp_ret].
  eapply wp_mono; [by apply ioctl_thread_calm|]; intros r [p2 o2] [-> C2].
  destruct H1 as (A1 & A2 & F' & B1 & B2 & B3); split_and!.
  - destruct C2 as (_ & -> & _); done.
  - intros c; rewrite <- A2; destruct C2 as (E1 & _ & (_ & E3 & _)); by apply running_count_core.
  - exists F'; split_and!; [by eapply calm_inv|done|done].
Qed.

Lemma wlp_run {A} (m : mon A) Q s r s' : wlp m Q s -> m s = Some (r, s') -> Q r s'.
Proof. unfold wpc; by intros H E; rewrite E in H. Qed.

Lemma mark_phase_calm tag p o : wlp (mark_phase tag) (fun _ s' => calm (p, o) s') (p, o).
Proof.
  apply wp_bind, wp_call; cbn [fst snd]; destruct (pl_quiet o) as (_ & _ & _ & _ & _ & Hq).
  assert (E : (nano_clock o).2 = (clock_gettime o).2).
  { unfold nano_clock; destruct (clock_gettime o) as [[[sec nsec]|] o1]; [|done]; cbn; by destruct clock_getres as [[[] ?]|]. }
  rewrite E; assert (Hc : calm (p, o) (p, (clock_gettime o).2)) by (by split_and!).
  apply wp_bind; unfold wpc at 1, crash_if_none; destruct (nano_clock o).1 as [[t|e]|]; cbn; [exact Hc|done|done].
Qed.

Lemma read_samples_calm p o : wlp read_samples (fun _ s' => calm (p, o) s') (p, o).
Proof.
  apply wp_bind, wp_get, wp_if; intros _; [by apply wp_ret|]; apply wp_bind, wp_call; cbn [fst snd].
  destruct (pl_quiet o) as (_ & _ & _ & Hq & _); specialize (Hq (mo_event_fd p) SAMPLER_DRAIN).
  destruct (eventfd_write _ _ o) as [[] o1]; [apply wp_ret|apply wp_throw]; by split_and!.
Qed.

Lemma run_step_inv s0 s n l c r s' :
  run_inv s0 s n l -> (c = Stop -> window_running s.1) -> run_call c s = Some (r, s') ->
  run_inv s0 s' n (l || leaks c r s.1).
Proof.
  destruct s as [p o]; intros H Hw E; pose proof (ri_arrays _ _ _ _ H) as Ha; cbn [fst] in Ha.
  assert (Hcalm : wlp (run_call c) (fun _ s' => calm (p, o) s') (p, o) -> run_inv s0 s' n l).
  { intros Hc; eapply run_inv_calm; [exact H|]; by eapply wlp_run in Hc. }
  assert (Hreg : (forall F, mon_inv F (p, o) -> wlp (run_call c) (register_post F p o) (p, o)) ->
    (exists tid, c = Attach tid \/ c = Register tid) -> run_inv s0 s' n (l || leaks c r p)).
  { intros Hr [tid Hc]; eapply (run_inv_registered s0 (p, o)); [exact H| |].
    - intros F Hi; specialize (Hr F Hi); by eapply wlp_run in Hr.
    - intros [-> Hl]%orb_false_iff; split; [done|]; destruct r as [[]|e]; [by left|right].
      destruct Hc as [-> | ->]; cbn in Hl; rewrite negb_false_iff, bool_decide_eq_true in Hl; done. }
  destruct c; cbn [leaks fst]; rewrite ?orb_false_r; cbn [run_call] in *.
  - apply Hreg; [intros F Hi; by apply register_thread_spec|eauto].
  - apply Hreg; [intros F Hi; by apply register_current_post|eauto].
  - eapply run_inv_settled; [exact H|]; intros F Hi.
    assert (Hu : wlp (unregister_current_thread tid) (fun _ s' => settled F p o s') (p, o)).
    { apply wp_bind, wp_get, wp_if; intros _; [apply wp_ret; by apply settled_calm|by apply unregister_thread_spec]. }
    by eapply wlp_run in Hu.
  - pose proof (start_spec (C := True) tag offloaded p o) as Hs; eapply wlp_run in Hs; [|exact E].
    by apply (run_inv_start s0 (p, o)).
  - destruct (ri_inv _ _ _ _ H) as (F & Hi & _).
    pose proof (stop_spec (C := True) F p o Hi Ha (Hw eq_refl)) as Hs; eapply wlp_run in Hs; [|exact E].
    destruct r as [u|e]; [by apply (run_inv_stop s0 (p, o))|by apply (run_inv_calm s0 (p, o))].
  - apply Hcalm, sampler_event_calm.
  - apply Hcalm, wp_bind; eapply wp_mono; [apply sampler_command_calm|]; intros [b|e] s1 C1; [by apply wp_ret|done].
  - apply Hcalm; eapply wp_mono; [apply (calm_modify (C := True)); [|reflexivity]; done|]; by intros ? ? [_ ?].
  - apply Hcalm, mark_phase_calm.
  - apply Hcalm; eapply wp_mono; [apply (calm_modify (C := True)); [|reflexivity]; done|]; by intros ? ? [_ ?].
  - apply Hcalm, read_samples_calm.
Qed.

Lemma mon_run_inv s0 s n l : ready s0 -> mon_run s0 s n l -> run_inv s0 s n l.
Proof.
  intros Hr; induction 1; [by apply ready_inv|by eapply run_step_inv|by apply run_inv_count].
Qed.

(** * The constructor *)

Definition unused (p : monitor) : Prop :=
  mo_threads p = ∅ /\ mo_sampler_slots p = ∅ /\ mo_next_slot_id p = 0 /\ mo_kinfos p = [] /\ bufs_ok p.

Lemma int_mul_small a : 0 <= a < 2048 -> is_Some (int_mul a MB).
Proof.
  intros H; unfold int_mul; assert (E : s32 (a * MB) = a * MB).
  { unfold s32, MB; rewrite u32_id by lia; destruct (Z.ltb_spec (a * 1048576) 2147483648); lia. }
  rewrite E, Z.eqb_refl; eauto.
Qed.

Lemma start_sampler_unused p o : unused p ->
  wlp start_sampler_thread (fun _ s' => unused s'.1 /\ specs s'.1 = specs p) (p, o).
Proof.
  intros Hu; repeat (first
    [ apply wp_bind | apply wp_call; cbn [fst snd] | apply wp_modify; cbn [fst snd]
    | apply wp_if; intros _ | apply wp_throw; cbn [fst] | apply wp_ret; cbn [fst]
    | match goal with |- context [match ?x with None => _ | Some _ => _ end] => destruct x end ]); done.
Qed.

Lemma prepare_ready getenv name counter_spec sampler_spec period ring aux cpus pin o tid s :
  0 <= ring < 2048 -> 0 <= aux < 2048 ->
  prepare getenv name (initial_monitor counter_spec sampler_spec period ring aux cpus pin, o) = Some (Ok tid, s) -> ready s.
Proof.
  intros Hr Ha E; set (p := initial_monitor _ _ _ _ _ _ _) in E.
  assert (Hu : unused p) by (split_and!; [done..|split; by apply int_mul_small]).
  assert (H : wlp (prepare getenv name) (fun r s' => match r with Ok _ => ready s' | Throw _ => True end) (p, o)).
  { apply wp_bind, wp_lift; destruct (env_count _ _ _) as [k|]; [|done].
    apply wp_bind, wp_lift; destruct (env_count _ _ _) as [m|]; [|done].
    apply wp_bind, wp_lift; destruct (env_count _ _ _) as [q|]; [|done].
    apply wp_bind, wp_modify, wp_if; intros _; [by apply wp_throw|]; cbn [fst snd].
    set (p1 := p ⟦ _ := k ⟧ ⟦ _ := m ⟧ ⟦ _ := q ⟧ ⟦ _ := name ⟧).
    destruct clock_getres as [[[|?|?] res]|]; [|by apply wp_throw..].
    apply wp_bind, wp_modify, wp_bind, wp_get, wp_bind; cbn [fst snd]; set (p2 := p1 ⟦ mo_clock_res := _ ⟧).
    assert (Hs : wlp (if 0 <? num_samplers p2 then start_sampler_thread else ret (-1))
      (fun _ s' => unused s'.1 /\ specs s'.1 = specs p2) (p2, o)).
    { apply wp_if; intros _; [by apply start_sampler_unused|by apply wp_ret]. }
    eapply wp_mono; [exact Hs|]; intros [t|e] [p3 o3] [(U1 & U2 & U3 & U4 & U5) Es]; [|done]; cbn [fst snd] in *.
    apply wp_bind, wp_modify, wp_ret; destruct (specs_num_events _ _ Es) as [En _]; unfold ready; cbn [fst snd].
    change (num_counters p2 + num_samplers p2) with (num_events p2); rewrite <- En; by split_and!. }
  exact (wlp_run _ _ _ _ _ H E).
Qed.

Lemma prepare_specs getenv name s r s' : prepare getenv name s = Some (r, s') -> specs s'.1 = specs s.1.
Proof.
  intros E; assert (Hk : keeps specs (prepare getenv name)).
  { unfold prepare, start_sampler_thread; destruct clock_getres as [[[|?|?] ?]|]; keeps. }
  specialize (Hk s _ eq_refl); by eapply wlp_run in Hk.
Qed.

(** * Closing *)

Lemma thread_of_lookup p tid t : mo_threads p !! tid = Some t -> thread_of p tid = t.
Proof. unfold thread_of; by intros ->. Qed.

(** The stop command is accepted and the drain it causes returns. *)
Definition last_drain_returns (s : monitor * perf_os) : Prop :=
  mo_event_fd s.1 <> -1 -> exists o1 n s1,
    eventfd_write (mo_event_fd s.1) SAMPLER_STOP s.2 = (true, o1) /\ drain_all (s.1, o1) = Some (Ok n, s1).

(** Stopping the sampler thread: it drains the rings once more and ends. *)
Lemma sampler_stop_spec {C} F p o : mon_inv F (p, o) -> last_drain_returns (p, o) ->
  wpc C (if mo_event_fd p =? -1 then ret tt else
     ok <-- call (eventfd_write (mo_event_fd p) SAMPLER_STOP);
     if ok then terminate_on_throw (sampler_command SAMPLER_STOP) else crash_if_none None)
    (fun r s' => r = Ok tt /\ outer s'.1 = outer p /\ mon_inv F s') (p, o).
Proof.
  intros Hi Hlast; apply wp_if; intros Hfd; [by apply wp_ret|]; apply wp_bind, wp_call; cbn [fst snd].
  destruct Hlast as (o1 & n & s1 & Hw & Hn); [cbn; lia|]; cbn [fst snd] in *.
  destruct (pl_quiet o) as (_ & _ & _ & Hq & _); specialize (Hq (mo_event_fd p) SAMPLER_STOP); rewrite Hw in *; cbn [fst snd] in *.
  assert (Hi1 : mon_inv F (p, o1)) by (by eapply mon_inv_core).
  destruct (sampler_command_returns SAMPLER_STOP _ _ _ Hn) as [s2 E2].
  pose proof (sampler_command_calm SAMPLER_STOP p o1) as Hd; unfold wpc, terminate_on_throw in *; rewrite E2 in *; cbn.
  split; [done|]; split; [apply Hd|by eapply calm_inv].
Qed.

Lemma calm_dom s s' : calm s s' -> forall tid, is_Some (mo_threads s'.1 !! tid) <-> is_Some (mo_threads s.1 !! tid).
Proof.
  intros (Hc & _) tid; unfold core in Hc; injection Hc as _ _ _ _ _ Hc _ _.
  rewrite <- (fmap_is_Some skel (mo_threads s'.1 !! tid)), <- (fmap_is_Some skel (mo_threads s.1 !! tid)), <- !lookup_fmap.
  by rewrite Hc.
Qed.

Lemma shut_down_spec {C} F p o : mon_inv F (p, o) -> last_drain_returns (p, o) ->
  wpc C shut_down (fun r s' => r = Ok tt /\ outer s'.1 = outer p /\ forall x, po_has s'.2 x <-> F x) (p, o).
Proof.
  intros Hi Hlast; apply wp_bind, wp_get, wp_bind; cbn [fst].
  eapply wp_mono; [by apply sampler_stop_spec|]; intros r [p1 o1] (-> & Eo1 & Hi1); cbn [fst] in Eo1; rewrite <- Eo1; apply wp_bind, wp_get, wp_bind; cbn [fst].
  eapply wp_mono; [by apply disable_calm|]; intros r [p2 o2] [-> C2]; pose proof (calm_inv F _ _ C2 Hi1) as Hi2.
  pose proof (calm_dom _ _ C2) as Hdom; destruct C2 as (_ & Eo2 & _); cbn [fst] in *; rewrite <- Eo2.
  set (keys := (map_to_list (mo_threads p1)).*1).
  assert (Hkeys : forall tid, is_Some (mo_threads p2 !! tid) <-> tid ∈ keys).
  { intros tid; rewrite Hdom; unfold keys; rewrite list_elem_of_fmap; split.
    - intros [t Ht]; exists (tid, t); split; [done|by apply elem_of_map_to_list].
    - intros ([tid' t] & -> & Ht); apply elem_of_map_to_list in Ht; eauto. }
  eapply wp_mono; [apply (wp_forM_count keys close_thread_locked (fun k s' => outer s'.1 = outer p2 /\ mon_inv F s' /\
     (forall tid, is_Some (mo_threads s'.1 !! tid) <-> tid ∈ keys) /\
     forall tid t, tid ∈ take k keys -> mo_threads s'.1 !! tid = Some t -> thread_res t = []))|].
  - split_and!; [done|done|done|]; by intros tid t ?%not_elem_of_nil.
  - intros k tid [p3 o3] Hk (Eo3 & Hi3 & Hd3 & Hz3); cbn [fst] in *.
    destruct (proj2 (Hd3 tid)) as [t Ht]; [by eapply list_elem_of_lookup_2|].
    eapply wp_mono; [by eapply close_registered|]; intros r [p4 o4] (-> & Hi4 & Eo4 & _ & _ & (t' & T1 & T2 & Em) & _); cbn [fst] in *.
    split_and!; [done|by rewrite <- Eo3|done| |].
    + intros tid'; rewrite Em, <- Hd3; destruct (decide (tid' = tid)) as [->|Hne].
      * rewrite lookup_insert_eq, Ht; by split.
      * by rewrite lookup_insert_ne.
    + intros tid' t2 Hin Ht2; rewrite Em in Ht2; apply lookup_insert_Some in Ht2 as [[<- <-]|[Hne Ht2]].
      * unfold thread_res; by rewrite T1, T2.
      * rewrite (take_S_r _ _ _ Hk), elem_of_app, list_elem_of_singleton in Hin; destruct Hin as [Hin| ->]; [by eapply Hz3|done].
  - intros r [p5 o5] (-> & Eo5 & Hi5 & Hd5 & Hz5); split; [done|]; split; [done|]; cbn [fst snd] in *.
    rewrite firstn_all in Hz5; assert (Eo : owned p5 = []).
    { destruct (owned p5) as [|x l] eqn:E; [done|]; exfalso.
      assert (Hx : x ∈ owned p5) by (rewrite E; by left); apply elem_of_gather in Hx as (tid & t & Ht & Hx).
      rewrite (Hz5 tid t) in Hx; [by apply not_elem_of_nil in Hx|apply Hd5; eauto|done]. }
    intros x; pose proof (pt_has _ _ _ (gi_part _ _ Hi5) x) as Hx; cbn [fst snd] in Hx; rewrite Eo in Hx.
    rewrite Hx; split; [by intros [?|?%not_elem_of_nil]|by left].
Qed.

(** * Tokens *)

Lemma token_roundtrip id : 0 <= id < 2147483648 ->
  token_kind (make_sampler_token id) = SAMPLER_TOKEN_KIND /\ s32 (token_value (make_sampler_token id)) = id.
Proof.
  intros H; unfold token_kind, token_value, make_sampler_token, SAMPLER_TOKEN_KIND; rewrite (u32_id id) by lia.
  rewrite Z.shiftr_lor, Z.land_lor_distr_l; change 0xffffffff with (Z.ones 32); rewrite !Z.land_ones by lia.
  rewrite (Z.shiftr_div_pow2 id 32) by lia; change (2 ^ 32) with 4294967296.
  rewrite (Z.div_small id), (Z.mod_small id) by lia; change (Z.shiftl 1 32 mod 4294967296) with 0; rewrite Z.lor_0_l.
  split; [done|]; unfold s32; rewrite !(u32_id id) by lia.
  by rewrite (proj2 (Z.ltb_lt id 2147483648)) by lia.
Qed.

Lemma slot_watched F p o tid i sl :
  mon_inv F (p, o) -> slot_at p tid i sl -> mo_epoll_fd p <> -1 ->
  po_watch (mo_epoll_fd p) (ss_fd sl) o = Some (make_sampler_token (ss_slot_id sl)) /\
  0 <= ss_slot_id sl < mo_next_slot_id p.
Proof.
  intros Hi (t & Ht & Hs) He; pose proof (gi_threads _ _ Hi tid t Ht) as Hk; cbn [fst snd] in Hk.
  destruct (ts_active t) eqn:Ha.
  - destruct (tk_active _ _ _ _ Hk Ha) as [_ Hw (n0 & H0 & Hm & Hn)]; split; [apply Hw; [done|by eapply list_elem_of_lookup_2]|].
    rewrite (sm_id _ _ _ _ (Hm i sl Hs)); apply lookup_lt_Some in Hs; lia.
  - destruct (tk_inactive _ _ _ _ Hk Ha) as [_ E]; by rewrite E in Hs.
Qed.

(** * Theorems *)

(** What the windows report of an event, summed over the windows, is what the
    event counted in every thread from its registration on, in threads that have
    left included, modulo [2^64]: nothing is lost between windows or when a thread
    leaves, and nothing is reported twice.  After any run of the monitor's
    operations in which a window is stopped only once, [stop] does not crash, and
    unless the clock or the event descriptor fails it leaves the books balanced. *)
Theorem windows_account_for_all_counts
    (getenv : text -> option text) (name : text) (counter_spec sampler_spec : event_spec)
    (period ring aux cpus : Z) (pin : bool) (o : perf_os) (sampler_tid : Z) (s0 s : monitor * perf_os)
    (n : Z -> Z) (leaky : bool)
    (Hring : 0 <= ring < 2048) (Haux : 0 <= aux < 2048)
    (Hprep : prepare getenv name (initial_monitor counter_spec sampler_spec period ring aux cpus pin, o) =
               Some (Ok sampler_tid, s0))
    (Hrun : mon_run s0 s n leaky) (Hwin : window_running s.1) :
  exists r s', stop s = Some (r, s') /\
    (r = Ok tt -> forall c, 0 <= c < num_events s'.1 -> reported c s'.1 ≡₆₄ n c).
Proof.
  pose proof (mon_run_inv s0 s n leaky (prepare_ready _ _ _ _ _ _ _ _ _ _ _ _ Hring Haux Hprep) Hrun) as H.
  destruct (ri_inv _ _ _ _ H) as (F & Hi & _); destruct s as [p o1].
  pose proof (stop_spec (C := False) F p o1 Hi (ri_arrays _ _ _ _ H) Hwin) as Hs; unfold wpc in Hs.
  destruct (stop (p, o1)) as [[r s']|]; [|done]; exists r, s'; split; [done|]; intros ->.
  exact (proj2 (run_inv_stop s0 (p, o1) n leaky s' H Hs)).
Qed.

(** C10. The destructor returns, and gives back every descriptor and every mapping that
    was acquired after the constructor prepared the monitor, for any run in which
    no registration of samplers failed; the drain that the stop command causes has
    to return, which [RingDrain.v] shows for rings that hold whole records. *)
Theorem shut_down_returns_everything
    (getenv : text -> option text) (name : text) (counter_spec sampler_spec : event_spec)
    (period ring aux cpus : Z) (pin : bool) (o : perf_os) (sampler_tid : Z) (s0 s : monitor * perf_os)
    (n : Z -> Z)
    (Hring : 0 <= ring < 2048) (Haux : 0 <= aux < 2048)
    (Hprep : prepare getenv name (initial_monitor counter_spec sampler_spec period ring aux cpus pin, o) =
               Some (Ok sampler_tid, s0))
    (Hrun : mon_run s0 s n false) (Hlast : last_drain_returns s) :
  exists s', shut_down s = Some (Ok tt, s') /\ forall x, po_has s'.2 x <-> po_has s0.2 x.
Proof.
  pose proof (mon_run_inv s0 s n false (prepare_ready _ _ _ _ _ _ _ _ _ _ _ _ Hring Haux Hprep) Hrun) as H.
  destruct (ri_inv _ _ _ _ H) as (F & Hi & H1 & H2); destruct s as [p o1].
  pose proof (shut_down_spec (C := False) F p o1 Hi Hlast) as Hs; unfold wpc in Hs.
  destruct (shut_down (p, o1)) as [[r s']|]; [|done]; destruct Hs as (-> & _ & Hx).
  exists s'; split; [done|]; intros x; rewrite Hx; split; [by apply H2|by apply H1].
Qed.

(** C11. A slot's descriptor is in the epoll set with a token that leads the sampler
    thread back to exactly this slot, as long as slot ids fit an [int]; in every
    reachable state the slot table has no dangling entry. *)
Theorem wake_up_drains_its_slot
    (getenv : text -> option text) (name : text) (counter_spec sampler_spec : event_spec)
    (period ring aux cpus : Z) (pin : bool) (o : perf_os) (sampler_tid : Z) (s0 s : monitor * perf_os)
    (n : Z -> Z) (leaky : bool) (tid : Z) (i : nat) (sl : sampler_slot)
    (Hring : 0 <= ring < 2048) (Haux : 0 <= aux < 2048)
    (Hprep : prepare getenv name (initial_monitor counter_spec sampler_spec period ring aux cpus pin, o) =
               Some (Ok sampler_tid, s0))
    (Hrun : mon_run s0 s n leaky) (Hslot : slot_at s.1 tid i sl)
    (Hepoll : mo_epoll_fd s.1 <> -1) (Hids : mo_next_slot_id s.1 <= 2147483648) :
  (exists token, po_watch (mo_epoll_fd s.1) (ss_fd sl) s.2 = Some token /\ token <> EVENTFD_TOKEN /\
     sampler_event token s = (process_samples_locked tid i;; ret tt) s) /\
  forall id tid' i', mo_sampler_slots s.1 !! id = Some (tid', i') -> exists sl', slot_at s.1 tid' i' sl' /\ ss_slot_id sl' = id.
Proof.
  pose proof (mon_run_inv s0 s n leaky (prepare_ready _ _ _ _ _ _ _ _ _ _ _ _ Hring Haux Hprep) Hrun) as H.
  destruct (ri_inv _ _ _ _ H) as (F & Hi & _); destruct s as [p o1]; cbn [fst snd] in *.
  destruct (slot_watched F p o1 tid i sl Hi Hslot Hepoll) as [Hw Hid].
  destruct (token_roundtrip (ss_slot_id sl)) as [T1 T2]; [lia|]; split.
  - exists (make_sampler_token (ss_slot_id sl)); split_and!; [done|by intros E; rewrite E in T1|].
    unfold sampler_event; rewrite T1, Z.eqb_refl; unfold process_samples; rewrite T2.
    unfold bind at 1 2, get; cbn [fst].
    assert (E : mo_sampler_slots p !! ss_slot_id sl = Some (tid, i)) by (apply (gi_slots _ _ Hi); eauto).
    by rewrite E.
  - intros id tid' i'; apply (gi_slots _ _ Hi).
Qed.

End spec.

End MonitorSpec.
