(* ===== verification/MonitorInfo.v ===== *)
(** The [.info] file of a run: [Monitor::write_info] and the end of the destructor
    of [src/monitor.cc].  The theorem follows the counts of an event from the
    threads to the numbers that a reader of the file adds up. *)
From S2P Require Import Prelude Uapi CText ProcMaps Hotspots SpePacket RingDrain LoadTargets Effects TargetedCtl PerfEvents.
From S2P Require Import Manifest Monitor MonitorInv MonitorState MonitorSpec.
From Stdlib Require Import SpecFloat.
Import ProcMaps Hotspots LoadTargets Manifest PerfEvents Monitor MonitorInv MonitorState MonitorSpec.

Module MonitorInfo.

(** * [write_info] *)

(** The command line: at most 255 bytes of the first line of [/proc/self/cmdline],
    printed up to the first of two zero bytes; a single one separates arguments. *)
Fixpoint join_args (s : text) : text :=
  match s with
  | [] => []
  | c :: r =>
      if ceqb c NUL then match r with d :: _ => if ceqb d NUL then [] else SPACE :: join_args r | [] => [] end
      else c :: join_args r
  end.
Definition cmdline_text (file : option text) : text := join_args (take 255 (take_until (ceqb NEWLINE) (default [] file))).

Definition sample_record_fields (p : monitor) : text :=
  if has_arm_spe_samples p then txt "pc,data_va,lat_total,lat_issue,lat_xlat,event_bits,flags" else txt "time,addr".

(** [info << key << "=" << value]. *)
Definition kv (key : string) (value : text) : text := txt key ++ "="%char :: value.
Definition bit (b : bool) : text := if b then txt "1" else txt "0".
(** [operator<<] on a pointer. *)
Definition pointer (z : Z) : text := if z =? 0 then txt "0" else hex0x z.
(** The values of all windows. *)
Definition columns : list text -> text := join ","%char.

Definition run_lines (p : monitor) (cmdline : option text) (line_size : Z) : list text :=
  [kv "cmdline" (cmdline_text cmdline); kv "sample_period" (dec_u64 (mo_sample_period p));
   kv "bufsize_ring" (dec_s (mo_ringbufsize p)); kv "bufsize_aux" (dec_s (mo_auxbufsize p));
   kv "clock_res" (print_double (ddiv (to_double 1) (to_double (mo_clock_res p))));
   kv "l1_cache_line_size" (dec_s line_size); kv "main_binary" (mo_main_binary_path p)].

Definition record_lines (p : monitor) : list text :=
  if negb (0 <? num_samplers p) then [] else
  [kv "sample_record_bytes" (dec_u64 (sample_record_bytes p)); kv "sample_record_fields" (sample_record_fields p);
   kv "sample_pc_present" (bit (sample_pc_present p))] ++
  (if negb (has_arm_spe_samples p) then [] else
   [kv "sample_data_va_present" (txt "1"); kv "sample_time_present" (txt "0");
    kv "spe_time_packet_used_as_record_end" (txt "1"); kv "spe_end_packet_used_as_record_end" (txt "1");
    kv "spe_sample_flags" (txt "pc_valid,lat_total_valid,lat_issue_valid,lat_xlat_valid,events_valid,lat_exec_valid,data_va_valid")]).

Definition module_map_line (e : module_map_entry) : text :=
  kv "module_map" (join TAB [dec_u64 (mm_module_id e); mm_path e; hex0x (mm_vm_start e); hex0x (mm_vm_end e);
                             hex0x (mm_file_offset e)]).

Definition hotspot_lines (p : monitor) : list text :=
  let h := sp_hot (mo_spe p) in
  let collect := collect_hotspots_for_thread (mo_module_maps p) (mo_hotspot_top_k p) (mo_hotspot_min_samples p)
                   (mo_hotspot_min_latency_samples p) h in
  let tables := (map_to_list (thread_hotspots h)).*2 in
  let hotspot_thread_count := zcount (fun table => negb (bool_decide (table = ∅))) tables in
  let hotspot_total_samples := u64 (sumZ (hst_sample_count <$> (tables ≫= fun table => (map_to_list table).*2))) in
  let hotspot_count := sumZ ((fun tid => zlen (collect tid)) <$> mo_tids p) in
  [kv "hotspot_top_k" (dec_u64 (mo_hotspot_top_k p)); kv "hotspot_min_samples" (dec_u64 (mo_hotspot_min_samples p));
   kv "hotspot_min_latency_samples" (dec_u64 (mo_hotspot_min_latency_samples p));
   kv "hotspot_identity" (txt "module_offset"); kv "hotspot_scope" (txt "main_binary_only");
   kv "hotspot_main_binary" (mo_main_binary_path p); kv "hotspot_kind_hint" (txt "arm_spe_loadstore");
   kv "hotspot_selection_policy" (txt "pareto_sample_count_avg_mem_latency");
   kv "hotspot_score_policy" (txt "lat_exec_sum_with_lat_total_sum_fallback");
   kv "hotspot_thread_count" (dec_u64 hotspot_thread_count); kv "hotspot_total_samples" (dec_u64 hotspot_total_samples);
   kv "hotspot_unmapped_pc_samples" (dec_u64 (hotspot_unmapped_samples h));
   kv "hotspot_manifest" (mo_nameprefix p ++ txt ".hotpc"); hotspot_fields_line;
   kv "hotspot_count" (dec_u64 hotspot_count)] ++
  (mo_tids p ≫= fun tid => imap (fun rank s => hotspot_line (Z.of_nat rank) s) (collect tid)).

Definition spe_lines (p : monitor) : list text :=
  if negb (sample_pc_present p) then [] else
  let spe := mo_spe p in
  [kv "pc_identity" (txt "raw_va"); kv "spe_latency_present" (txt "1"); kv "spe_event_packet_present" (txt "1");
   kv "spe_time_packet_flush_count" (dec_u64 (sp_time_packet_flush_count spe));
   kv "spe_end_packet_flush_count" (dec_u64 (sp_end_packet_flush_count spe));
   kv "spe_empty_flush_count" (dec_u64 (sp_empty_flush_count spe));
   kv "spe_unknown_packet_count" (dec_u64 (sp_unknown_packet_count spe));
   kv "module_map_fields" (txt "module_id,path,vm_start,vm_end,file_offset");
   kv "module_map_count" (dec_u64 (zlen (mo_module_maps p)))] ++
  (module_map_line <$> mo_module_maps p) ++ hotspot_lines p.

Definition kinfo_lines (ks : list kinfo) : list text :=
  [kv "tag" (columns (ki_tag <$> ks)); kv "offloaded" (columns ((fun k => bit (ki_offloaded k)) <$> ks));
   kv "num_samples" (columns ((fun k => dec_u64 (wc_num_samples (ki_counts k))) <$> ks));
   kv "sample_throttles" (columns ((fun k => dec_u64 (wc_sample_throttles (ki_counts k))) <$> ks));
   kv "duration" (columns ((fun k => print_double (ki_duration k)) <$> ks));
   kv "clock_start" (columns ((fun k => dec_u64 (ki_clock_start k)) <$> ks));
   kv "clock_stop" (columns ((fun k => dec_u64 (ki_clock_stop k)) <$> ks));
   kv "counters_are_not_cumulative" (txt "1")].

(** The line of one event; [None] is a read through a window without counters. *)
Definition event_values (ks : list kinfo) (index : Z) : option (list counter_data) :=
  mapM (fun k => cs ← ki_counters k; cs !!z index) ks.
Definition event_line (ks : list kinfo) (index : Z) (key : text) (f : counter_data -> text) : option text :=
  ds ← event_values ks index;
  Some (key ++ "="%char :: columns (f <$> ds)).

Definition counter_lines (ks : list kinfo) (index : Z) (name : text) : option (list text) :=
  a ← event_line ks index name (fun d => dec_u64 (cd_value d));
  b ← event_line ks index (txt "active_" ++ name) (fun d => print_double (cd_active_time d));
  Some [a; b].
Definition sampler_lines (ks : list kinfo) (index : Z) (name : text) : option (list text) :=
  if negb (parse_arm_spe_event name =? 0) then Some [] else
  a ← event_line ks index name (fun d => dec_u64 (cd_value d));
  Some [a].

(** The lines of the events from number [index] on. *)
Fixpoint lines_from (f : Z -> text -> option (list text)) (index : Z) (names : list text) : option (list text) :=
  match names with
  | [] => Some []
  | name :: names => l ← f index name; ls ← lines_from f (index + 1) names; Some (l ++ ls)
  end.

Definition window_lines (p : monitor) : option (list text) :=
  let ks := mo_kinfos p in
  if bool_decide (ks = []) then Some [] else
  cs ← lines_from (counter_lines ks) 0 (mo_counter_spec p).*1;
  ss ← lines_from (sampler_lines ks) (num_counters p) (mo_sampler_spec p).*1;
  Some (kinfo_lines ks ++ cs ++ ss).

Definition tag_lines (p : monitor) : list text :=
  (if bool_decide (mo_addr_tags p = []) then [] else
   [kv "addr_tags" (columns ((fun '(tag, start_, end_) => join ":"%char [tag; pointer start_; pointer end_]) <$> mo_addr_tags p))]) ++
  (if bool_decide (mo_phases p = []) then [] else
   [kv "phases" (columns ((fun '(tag, time) => join ":"%char [tag; dec_u64 time]) <$> mo_phases p))]).

Definition write_info (cmdline : option text) (line_size : Z) (p : monitor) : option (list text) :=
  ws ← window_lines p;
  Some (run_lines p cmdline line_size ++ record_lines p ++ spe_lines p ++ ws ++ tag_lines p).

(** * The end of the destructor *)

(** The warning that bytes were lost between the windows and the sample files. *)
Definition bytes_match (p : monitor) : bool :=
  let total_samples := u64 (sumZ ((fun k => wc_num_samples (ki_counts k)) <$> mo_kinfos p)) in
  negb ((0 <? num_samplers p) && negb (sp_written_sample_bytes (mo_spe p) =? u64 (total_samples * sample_record_bytes p))).

(** What the destructor leaves on disk, and whether it warns. *)
Record outcome := mk_outcome { oc_info : list text; oc_hotpc : option (list text); oc_warned : bool }.

Section destructor.
Context `{Pf : PerfApi}.

Definition destroy_monitor (cmdline : option text) (line_size : Z) : mon outcome :=
  shut_down;;
  p <-- get;
  info <-- crash_if_none (write_info cmdline line_size p);
  opened <-- ask (perf_writable (mo_nameprefix p ++ txt ".hotpc"));
  let hotpc := write_hotspot_manifest (mo_module_maps p) (mo_hotspot_top_k p) (mo_hotspot_min_samples p)
                 (mo_hotspot_min_latency_samples p) (mo_main_binary_path p) (sample_pc_present p) opened (mo_tids p)
                 (sp_hot (mo_spe p)) in
  let warned := negb (bytes_match p) in
  modify (fun p => p ⟦ mo_kinfos ::= fmap (fun k => k ⟦ ki_counters := None ⟧) ⟧);;
  close_monitor;;
  ret (mk_outcome info hotpc warned).

End destructor.

(** * Reading the file *)

(** A reader of [key=value] lines, for which the last line of a key counts. *)
Definition field (key l : text) : option text :=
  i ← find "=" l; if bool_decide (take i l = key) then Some (drop (S i) l) else None.
Definition read_field (key file : text) : option text := last (omap (field key) (getlines NEWLINE file)).

Lemma field_key key k v : free_of "=" k ->
  field key (k ++ "="%char :: v) = if bool_decide (k = key) then Some v else None.
Proof.
  intros H; unfold field; rewrite find_app by done; cbn [mbind option_bind]; rewrite take_app_length.
  replace (drop (S (length k)) (k ++ "="%char :: v)) with v; [done|].
  by rewrite cons_middle, app_assoc, drop_app_length' by (rewrite length_app; cbn; lia).
Qed.

Lemma getlines_split d p r : getlines d (p ++ d :: r) = getlines d (p ++ [d]) ++ getlines d r.
Proof.
  induction p as [|c p IH]; cbn; [by rewrite ceqb_refl|]; rewrite IH; destruct (ceqb c d); [done|].
   destruct (getlines d (p ++ [d])) as [|x l] eqn:E; [|done]; exfalso; destruct p as [|b p]; cbn in E.
  - by rewrite ceqb_refl in E.
  - destruct (ceqb b d); [done|]; by destruct (getlines d (p ++ [d])).
Qed.

Lemma file_of_app l1 l2 : file_of (l1 ++ l2) = file_of l1 ++ file_of l2.
Proof. unfold file_of; by rewrite fmap_app, concat_app. Qed.

Lemma getlines_file_app pre post : getlines NEWLINE (file_of pre ++ post) = getlines NEWLINE (file_of pre) ++ getlines NEWLINE post.
Proof.
  destruct pre as [|l pre _] using rev_ind; [done|]; rewrite file_of_app; unfold file_of at 2 4; cbn; rewrite app_nil_r, app_assoc.
  rewrite <- app_assoc; cbn; apply getlines_split.
Qed.

Lemma read_field_last key pre l post v :
  Forall (free_of NEWLINE) (l :: post) -> field key l = Some v -> Forall (fun l => field key l = None) post ->
  read_field key (file_of (pre ++ l :: post)) = Some v.
Proof.
  intros Hf Hl Hp; unfold read_field; rewrite file_of_app, getlines_file_app; unfold file_of at 2.
  rewrite getlines_concat, omap_app by done; cbn; rewrite Hl.
  assert (E : omap (field key) post = []) by (clear -Hp; induction Hp as [|x p Hx _ IH]; cbn; [done|by rewrite Hx]).
  rewrite E; apply last_snoc.
Qed.

(** * The event lines *)

Definition name_ok (name : text) : Prop :=
  free_of "=" name /\ free_of NEWLINE name /\ has_prefix (txt "active_") name = false /\
  name <> txt "addr_tags" /\ name <> txt "phases".
Definition names_ok (p : monitor) : Prop :=
  NoDup ((mo_counter_spec p).*1 ++ (mo_sampler_spec p).*1) /\
  Forall name_ok ((mo_counter_spec p).*1 ++ (mo_sampler_spec p).*1).
(** The user's texts at the end of the file. *)
Definition tags_ok (p : monitor) : Prop :=
  Forall (fun '(tag, _, _) => free_of NEWLINE tag) (mo_addr_tags p) /\
  Forall (fun '(tag, _) => free_of NEWLINE tag) (mo_phases p) /\
  Forall (fun '(_, s, e) => 0 <= s /\ 0 <= e) (mo_addr_tags p) /\ Forall (fun '(_, time) => 0 <= time) (mo_phases p).

Lemma free_of_join c d fs : ceqb d c = false -> Forall (free_of c) fs -> free_of c (join d fs).
Proof.
  intros Hd; induction 1 as [|f fs Hf Hfs IH]; [apply free_of_nil|]; destruct fs as [|g fs]; [done|].
  change (join d (f :: g :: fs)) with (f ++ d :: join d (g :: fs)); apply free_of_app; split; [done|by constructor].
Qed.

(** A line of the file with one of the keys of an event. *)
Definition keyed (keys : list text) (l : text) : Prop :=
  exists k v, k ∈ keys /\ l = k ++ "="%char :: v /\ free_of "=" k /\ free_of NEWLINE l.

Lemma keyed_other keys key l : keyed keys l -> key ∉ keys -> field key l = None.
Proof.
  intros (k & v & Hk & -> & Hf & _) Hn; rewrite field_key by done; rewrite bool_decide_eq_false_2; [done|]; by intros ->.
Qed.
Lemma keyed_line keys l : keyed keys l -> free_of NEWLINE l.
Proof. by intros (? & ? & _ & _ & _ & ?). Qed.
Lemma keyed_mono keys keys' l : keyed keys l -> keys ⊆ keys' -> keyed keys' l.
Proof. intros (k & v & Hk & H) Hs; exists k, v; split; [by apply Hs|done]. Qed.

Lemma keyed_columns k vs : free_of "=" k -> free_of NEWLINE k -> Forall (free_of NEWLINE) vs ->
  keyed [k] (k ++ "="%char :: columns vs).
Proof.
  intros Hk Hn Hv; exists k, (columns vs); split_and!; [by left|done|done|]; apply free_of_app; split; [done|].
  constructor; [done|]; by apply free_of_join.
Qed.

Section windows.
Context (ks : list kinfo) (n : Z).
Hypothesis Hfull : Forall (fun k => exists cs, ki_counters k = Some cs /\ full_window n (Some cs)) ks.

(** Every window has the event, with a 64-bit count. *)
Lemma event_values_full c : 0 <= c < n -> exists ds, event_values ks c = Some ds /\
  cd_value <$> ds = reported_in c <$> (ki_counters <$> ks) /\ Forall (fun d => is_u64 (cd_value d)) ds.
Proof using Hfull.
  intros Hc; pose proof Hfull as H; revert H; unfold event_values; generalize ks as l.
  induction 1 as [|k l (cs & E & Hn & Hu) _ IH]; [by exists []|].
  destruct IH as (ds & Ed & Ev & Ef); cbn [mapM]; rewrite E, some_bind.
  assert (Hs : is_Some (cs !!z c)) by (apply zlookup_is_Some; lia); destruct Hs as [d Hd]; rewrite Hd, some_bind, Ed, some_bind; exists (d :: ds); split_and!; [done| |].
  - rewrite !fmap_cons, Ev, E; cbn [reported_in]; by rewrite Hd.
  - constructor; [|done]; apply zlookup_Some in Hd as [_ Hd]; by eapply Forall_lookup_1 in Hu.
Qed.

Lemma event_line_keyed c key f : 0 <= c < n -> free_of "=" key -> free_of NEWLINE key ->
  (forall d, is_u64 (cd_value d) -> free_of NEWLINE (f d)) ->
  exists ds, event_line ks c key f = Some (key ++ "="%char :: columns (f <$> ds)) /\
    keyed [key] (key ++ "="%char :: columns (f <$> ds)) /\ cd_value <$> ds = reported_in c <$> (ki_counters <$> ks) /\
    Forall (fun d => is_u64 (cd_value d)) ds.
Proof using Hfull.
  intros Hc H1 H2 H3; destruct (event_values_full c Hc) as (ds & E & Ev & Ef); exists ds; unfold event_line; rewrite E.
  split_and!; [done| |done|done]; apply keyed_columns; [done|done|]; apply Forall_fmap; eapply Forall_impl; [exact Ef|exact H3].
Qed.

Lemma dec_line d : is_u64 (cd_value d) -> free_of NEWLINE (dec_u64 (cd_value d)).
Proof. intros H; apply plain_free, dec_plain; lia. Qed.

Lemma counter_lines_keyed c name : 0 <= c < n -> name_ok name -> exists ds b,
  counter_lines ks c name = Some [name ++ "="%char :: columns ((fun d => dec_u64 (cd_value d)) <$> ds); b] /\
  keyed [name] (name ++ "="%char :: columns ((fun d => dec_u64 (cd_value d)) <$> ds)) /\
  keyed [txt "active_" ++ name] b /\ cd_value <$> ds = reported_in c <$> (ki_counters <$> ks) /\
  Forall (fun d => is_u64 (cd_value d)) ds.
Proof using Hfull.
  intros Hc (H1 & H2 & _); unfold counter_lines.
  destruct (event_line_keyed c name (fun d => dec_u64 (cd_value d))) as (ds & -> & K1 & Ev & Eu); [done|done|done|apply dec_line|].
  destruct (event_line_keyed c (txt "active_" ++ name) (fun d => print_double (cd_active_time d))) as (es & -> & K2 & _);
    [done|apply free_of_app; split; [by repeat constructor|done]|apply free_of_app; split; [by repeat constructor|done]| |].
  - intros d _; apply plain_free, print_double_plain.
  - eexists ds, _; split_and!; [reflexivity|done|exact K2|done|done].
Qed.

Lemma sampler_lines_keyed c name : 0 <= c < n -> name_ok name -> exists ls,
  sampler_lines ks c name = Some ls /\ Forall (keyed [name]) ls.
Proof using Hfull.
  intros Hc (H1 & H2 & _); unfold sampler_lines; destruct (negb _); [by exists []|].
  destruct (event_line_keyed c name (fun d => dec_u64 (cd_value d))) as (ds & -> & K1 & _); [done|done|done|apply dec_line|].
  eexists; split; [done|by repeat constructor].
Qed.

End windows.

Lemma lines_from_app f i n1 n2 :
  lines_from f i (n1 ++ n2) = (a ← lines_from f i n1; b ← lines_from f (i + zlen n1) n2; Some (a ++ b)).
Proof.
  revert i; induction n1 as [|x n1 IH]; intros i; cbn [lines_from app length].
  - rewrite Z.add_0_r; cbn; by destruct (lines_from f i n2).
  - rewrite IH; destruct (f i x) as [l|]; [|done]; cbn [mbind option_bind]; replace (i + 1 + zlen n1) with (i + Z.of_nat (S (length n1))) by lia.
    destruct (lines_from f (i + 1) n1) as [a|]; [|done]; cbn [mbind option_bind].
    destruct (lines_from f _ n2) as [b|]; [|done]; cbn; by rewrite app_assoc.
Qed.

Lemma lines_from_keyed f i names lo hi (keys : text -> list text) :
  (forall c name, lo <= c < hi -> name_ok name -> exists ls, f c name = Some ls /\ Forall (keyed (keys name)) ls) ->
  Forall name_ok names -> lo <= i -> i + zlen names <= hi ->
  exists ls, lines_from f i names = Some ls /\ Forall (keyed (names ≫= keys)) ls.
Proof.
  intros Hf Hn; revert i; induction Hn as [|x names Hx _ IH]; intros i H1 H2; cbn [lines_from length] in *; [by exists []|].
  destruct (Hf i x) as (l & -> & Hl); [lia|done|]; destruct (IH (i + 1)) as (ls & -> & Hls); [lia|lia|].
  exists (l ++ ls); split; [done|]; apply Forall_app; split; eapply Forall_impl; eauto; intros y Hy; (eapply keyed_mono; [exact Hy|]);
    cbn; set_solver.
Qed.

Lemma pointer_line z : 0 <= z -> free_of NEWLINE (pointer z).
Proof.
  intros Hz; unfold pointer; destruct (z =? 0); [by repeat constructor|]; apply free_of_app; split; [by repeat constructor|].
  by apply plain_free, hex_plain.
Qed.

Lemma kv_keyed key vs : free_of "=" (txt key) -> free_of NEWLINE (txt key) -> Forall (free_of NEWLINE) vs ->
  keyed [txt key] (kv key (columns vs)).
Proof. apply keyed_columns. Qed.

Lemma tag_lines_keyed p : tags_ok p -> Forall (keyed [txt "addr_tags"; txt "phases"]) (tag_lines p).
Proof.
  intros (H1 & H2 & H3 & H4); apply Forall_app; split; case_bool_decide; constructor; try by constructor.
  - apply (keyed_mono [txt "addr_tags"]); [|set_solver]; apply kv_keyed; [by repeat constructor..|].
    apply Forall_fmap; rewrite Forall_forall in *; intros [[tag a] b] Hin; apply free_of_join; [done|].
    pose proof (H1 _ Hin); destruct (H3 _ Hin); repeat constructor; [done|by apply pointer_line..].
  - apply (keyed_mono [txt "phases"]); [|set_solver]; apply kv_keyed; [by repeat constructor..|].
    apply Forall_fmap; rewrite Forall_forall in *; intros [tag time] Hin; apply free_of_join; [done|].
    pose proof (H2 _ Hin); pose proof (H4 _ Hin); repeat constructor; [done|by apply plain_free, dec_plain].
Qed.

(** The numbers of a line. *)
Definition numbers (v : text) : list Z := strtoull 10 <$> getlines ","%char v.

Lemma numbers_columns vs : vs <> [] -> Forall u64_ok vs -> numbers (columns (dec_u64 <$> vs)) = vs.
Proof.
  intros Hne Hv; unfold numbers, columns; rewrite getlines_join.
  - rewrite <- list_fmap_compose; rewrite <- (list_fmap_id vs) at 2; apply Forall_fmap_ext; eapply Forall_impl; [exact Hv|].
    intros z Hz; by apply strtoull_dec.
  - apply Forall_fmap; eapply Forall_impl; [exact Hv|]; intros z Hz; unfold u64_ok in Hz.
    apply print_u_forall; [lia|lia|]; intros d Hd; apply (digit_char_plain d Hd).
  - destruct (snoc_inv vs Hne) as (l & z & ->); apply Forall_app in Hv as [_ Hz]; apply Forall_inv in Hz; unfold u64_ok in Hz.
    rewrite fmap_app; cbn [fmap list_fmap]; rewrite last_snoc; apply print_u_nonempty; lia.
Qed.

(** An event's key is on no later line. *)
Lemma name_not_active name name' : name_ok name -> name <> txt "active_" ++ name'.
Proof. by intros (_ & _ & H & _) ->. Qed.

Lemma keyed_others keys name ls : Forall (keyed keys) ls -> name ∉ keys ->
  Forall (free_of NEWLINE) ls /\ Forall (fun l => field name l = None) ls.
Proof.
  intros H Hn; split; eapply Forall_impl; eauto using keyed_line; intros l Hl; by eapply keyed_other.
Qed.

Lemma later_lines name n2 sn b l2 l3 ts :
  name_ok name -> name ∉ n2 ++ sn -> keyed [txt "active_" ++ name] b ->
  Forall (keyed (n2 ≫= fun nm => [nm; txt "active_" ++ nm])) l2 -> Forall (keyed (sn ≫= fun nm => [nm])) l3 ->
  Forall (keyed [txt "addr_tags"; txt "phases"]) ts ->
  Forall (free_of NEWLINE) (b :: l2 ++ l3 ++ ts) /\ Forall (fun l => field name l = None) (b :: l2 ++ l3 ++ ts).
Proof.
  intros Hok [Hn2 Hsn]%not_elem_of_app Kb K2 K3 Kt; pose proof (fun nm => name_not_active name nm Hok) as Ha.
  apply (keyed_others ((txt "active_" ++ name) :: (n2 ≫= fun nm => [nm; txt "active_" ++ nm]) ++ (sn ≫= fun nm => [nm]) ++
    [txt "addr_tags"; txt "phases"])).
  - constructor; [eapply keyed_mono; [exact Kb|set_solver]|]; repeat (apply Forall_app; split);
      (eapply Forall_impl; [eassumption|]; intros l Hl; eapply keyed_mono; [exact Hl|set_solver]).
  - destruct Hok as (_ & _ & _ & H1 & H2); rewrite elem_of_cons, !elem_of_app, !list_elem_of_bind.
    intros [H|[(nm & Hnm & Hin)|[(nm & Hnm & Hin)|H]]]; [by eapply Ha|..].
    + apply elem_of_cons in Hnm as [->|[->|[]%not_elem_of_nil]%elem_of_cons]; [done|by eapply Ha].
    + apply list_elem_of_singleton in Hnm as ->; done.
    + apply elem_of_cons in H as [->|[->|[]%not_elem_of_nil]%elem_of_cons]; done.
Qed.

(** The line of counter [c] has its count in every window. *)
Lemma counter_read_back cmdline line_size p c name :
  names_ok p -> tags_ok p -> mo_kinfos p <> [] ->
  Forall (fun k => exists cs, ki_counters k = Some cs /\ full_window (num_events p) (Some cs)) (mo_kinfos p) ->
  (mo_counter_spec p).*1 !! c = Some name ->
  exists lines v, write_info cmdline line_size p = Some lines /\ read_field name (file_of lines) = Some v /\
    numbers v = reported_in (Z.of_nat c) <$> window_counters p.
Proof.
  intros [Hnd Hok] Ht Hne Hfull Hc; set (ks := mo_kinfos p) in *; set (cn := (mo_counter_spec p).*1) in *.
  set (sn := (mo_sampler_spec p).*1) in *.
  assert (Elen : zlen cn = num_counters p /\ zlen sn = num_samplers p)
    by (unfold cn, sn, num_counters, num_samplers; by rewrite !length_fmap).
  assert (En : num_events p = zlen cn + zlen sn) by (unfold num_events; lia).
  apply Forall_app in Hok as [Hokc Hoks]; pose proof (lookup_lt_Some _ _ _ Hc) as Hlt.
  pose proof (take_drop_middle _ _ _ Hc) as Esplit; set (n1 := take c cn) in *; set (n2 := drop (S c) cn) in *.
  assert (Hn1 : zlen n1 = Z.of_nat c) by (unfold n1; rewrite length_take; lia).
  rewrite <- Esplit in Hokc, Hnd; apply Forall_app in Hokc as [Hok1 [Hname Hok2]%Forall_cons].
  assert (El : zlen cn = zlen n1 + 1 + zlen n2) by (rewrite <- Esplit, length_app; cbn; lia).
  assert (Hclines : forall i nm, 0 <= i < num_events p -> name_ok nm ->
    exists ls, counter_lines ks i nm = Some ls /\ Forall (keyed [nm; txt "active_" ++ nm]) ls).
  { intros i nm Hi Hnm; destruct (counter_lines_keyed ks (num_events p) Hfull i nm Hi Hnm) as (ds & b & E & K1 & K2 & _).
    eexists; split; [exact E|]; repeat constructor; (eapply keyed_mono; [eassumption|]); set_solver. }
  destruct (lines_from_keyed _ 0 n1 0 (num_events p) _ Hclines Hok1) as (l1 & E1 & _); [lia|lia|].
  destruct (lines_from_keyed _ (Z.of_nat c + 1) n2 0 (num_events p) _ Hclines Hok2) as (l2 & E2 & K2); [lia|lia|].
  destruct (lines_from_keyed (sampler_lines ks) (num_counters p) sn 0 (num_events p) (fun nm => [nm])
    (sampler_lines_keyed ks (num_events p) Hfull) Hoks) as (l3 & E3 & K3); [lia|lia|].
  destruct (counter_lines_keyed ks (num_events p) Hfull (Z.of_nat c) name) as (ds & b & E4 & K4 & K5 & Ev & Eu); [lia|done|].
  pose proof (tag_lines_keyed p Ht) as K6.
  unfold write_info, window_lines; fold ks cn sn; rewrite bool_decide_eq_false_2 by done.
  rewrite <- Esplit, lines_from_app, E1, some_bind; cbn [lines_from]; rewrite Z.add_0_l, Hn1, E4, some_bind, E2, !some_bind, E3, !some_bind.
  assert (Hnot : name ∉ n2 ++ sn).
  { rewrite <- app_assoc in Hnd; apply NoDup_app in Hnd as (_ & _ & Hnd); by apply NoDup_cons in Hnd as [Hnd _]. }
  destruct (later_lines name n2 sn b l2 l3 (tag_lines p) Hname Hnot K5 K2 K3 K6) as [F1 F2].
  eexists _, _; split; [reflexivity|]; split.
  - rewrite <- !app_assoc; cbn [app]; rewrite !(app_assoc (run_lines _ _ _)), !(app_assoc (_ ++ _)).
    apply read_field_last; [constructor; [by eapply keyed_line|done]| |done].
    rewrite field_key by apply Hname; by rewrite bool_decide_eq_true_2.
  - unfold window_counters; fold ks; rewrite <- Ev; change ((fun d => dec_u64 (cd_value d)) <$> ds) with ((dec_u64 ∘ cd_value) <$> ds); rewrite list_fmap_compose; apply numbers_columns.
    + intros E; apply fmap_nil_inv in E as ->; cbn in Ev; symmetry in Ev; by apply fmap_nil_inv, fmap_nil_inv in Ev.
    + by apply Forall_fmap.
Qed.

(** * The destructor *)

Section spec.
Context {Pf : PerfApi} {PL : PerfLaws Pf}.

(** What the user noted: no step of the destructor changes it. *)
Definition notes (p : monitor) := (mo_addr_tags p, mo_phases p).

Lemma keeps_process tid i : keeps notes (process_samples_locked tid i).
Proof.
  intros [p o] n E; unfold wpc, process_samples_locked.
  destruct (ts_samplers _ !! i) as [slot|]; [|done]; rewrite some_bind; destruct (ss_ringbuf slot) as [ring|]; [|done]; rewrite some_bind.
  cbn zeta; by destruct (RingDrain.process_samples_locked _ _ _ _ _ _) as [[st r]|].
Qed.
#[local] Hint Resolve keeps_process : keeps.

Lemma keeps_shut_down : keeps notes shut_down.
Proof.
  unfold shut_down, sampler_command, drain_all, drain_thread, disable_thread_locked, ioctl_thread, on_fds, close_thread_locked,
    close_fds, close_slot, unmap_buffer, set_thread, act; keeps.
  all: by intros s n E.
Qed.

Lemma destroy_returns cmdline line_size s s' lines :
  shut_down s = Some (Ok tt, s') -> write_info cmdline line_size s'.1 = Some lines ->
  exists out s2, destroy_monitor cmdline line_size s = Some (Ok out, s2) /\ oc_info out = lines.
Proof.
  intros Es Ew; unfold destroy_monitor, bind at 1; rewrite Es; destruct s' as [p' o']; cbn [fst] in Ew.
  unfold bind at 1, get; cbn [fst]; unfold bind at 1, crash_if_none; rewrite Ew; cbn.
  unfold bind, modify, close_monitor, bind, get, act, call; cbn [fst snd].
  destruct (mo_event_fd _ =? -1), (mo_epoll_fd _ =? -1); eexists _, _; (split; [reflexivity|done]).
Qed.

Lemma full_kinfos n (ks : list kinfo) : Forall (full_window n) (ki_counters <$> ks) -> Forall is_Some (ki_counters <$> ks) ->
  Forall (fun k => exists cs, ki_counters k = Some cs /\ full_window n (Some cs)) ks.
Proof.
  rewrite !Forall_fmap, !Forall_forall; intros H1 H2 k Hk; destruct (H2 k Hk) as [cs E]; cbn in E.
  exists cs; split; [done|]; specialize (H1 k Hk); cbn in H1; by rewrite E in H1.
Qed.

Lemma outer_names p q : outer q = outer p ->
  mo_counter_spec q = mo_counter_spec p /\ mo_sampler_spec q = mo_sampler_spec p /\ window_counters q = window_counters p.
Proof. unfold outer, window_counters; by intros [= -> -> _ _ _ _ ->]. Qed.

(** The destructor after the last window was closed. *)
Lemma destroy_accounts s0 s1 n leaky cmdline line_size c event :
  run_inv s0 s1 n leaky -> Forall is_Some (window_counters s1.1) -> mo_kinfos s1.1 <> [] ->
  reported (Z.of_nat c) s1.1 ≡₆₄ n (Z.of_nat c) -> last_drain_returns s1 -> names_ok s1.1 -> tags_ok s1.1 ->
  (mo_counter_spec s1.1).*1 !! c = Some event ->
  exists out s2 v, destroy_monitor cmdline line_size s1 = Some (Ok out, s2) /\
    read_field event (file_of (oc_info out)) = Some v /\ length (numbers v) = length (mo_kinfos s1.1) /\
    sumZ (numbers v) ≡₆₄ n (Z.of_nat c).
Proof.
  intros H1 Hsome Hne Hrep Hlast Hnames Htags Hc; destruct (ri_inv _ _ _ _ H1) as (F1 & Hi1 & _).
  destruct s1 as [p1 o2]; pose proof (shut_down_spec (C := False) F1 p1 o2 Hi1 Hlast) as Hd; unfold wpc in Hd.
  pose proof (keeps_shut_down (p1, o2) _ eq_refl) as Hk; unfold wpc in Hk.
  destruct (shut_down (p1, o2)) as [[r [p2 o3]]|] eqn:Esd; [|done]; destruct Hd as (-> & Eo & _); cbn [fst] in *.
  destruct (outer_names _ _ Eo) as (E1 & E2 & E3); unfold notes in Hk; injection Hk as Ka Kp.
  assert (En : num_events p2 = num_events p1) by (unfold num_events, num_counters, num_samplers; by rewrite E1, E2).
  destruct (counter_read_back cmdline line_size p2 c event) as (lines & v & Ew & Er & Ev).
  - unfold names_ok; by rewrite E1, E2.
  - unfold tags_ok; by rewrite Ka, Kp.
  - intros E; apply Hne, (fmap_nil_inv ki_counters); fold (window_counters p1); rewrite <- E3; unfold window_counters; by rewrite E.
  - apply full_kinfos; fold (window_counters p2); rewrite E3; [rewrite En; apply (ri_full _ _ _ _ H1)|done].
  - by rewrite E1.
  - destruct (destroy_returns cmdline line_size (p1, o2) (p2, o3) lines Esd Ew) as (out & s2 & Ed & <-); exists out, s2, v.
    split; [done|]; split; [done|]; rewrite Ev, E3; split; [unfold window_counters; by rewrite !length_fmap|done].
Qed.

(** C12. The counts in the [.info] file are complete.  After any run of the monitor
    in which every window was stopped, the destructor returns and writes a file in
    which the line of each counter holds one number per window, and the numbers add
    up to what the event counted in all threads, modulo [2^64].  The names of the
    events are distinct and are no other keys, and the tags that the program
    attached to addresses and phases have no line break. *)
Theorem info_file_accounts_for_all_counts
    (getenv : text -> option text) (name : text) (counter_spec sampler_spec : event_spec)
    (period ring aux cpus : Z) (pin : bool) (o : perf_os) (sampler_tid : Z) (s0 s s1 : monitor * perf_os)
    (n : Z -> Z) (leaky : bool) (ws : list (option (list counter_data)))
    (cmdline : option text) (line_size : Z) (c : nat) (event : text)
    (Hring : 0 <= ring < 2048) (Haux : 0 <= aux < 2048)
    (Hprep : prepare getenv name (initial_monitor counter_spec sampler_spec period ring aux cpus pin, o) =
               Some (Ok sampler_tid, s0))
    (Hrun : mon_run s0 s n leaky) (Hwin : window_counters s.1 = ws ++ [None]) (Hclosed : Forall is_Some ws)
    (Hstop : stop s = Some (Ok tt, s1)) (Hlast : last_drain_returns s1)
    (Hnames : names_ok s1.1) (Htags : tags_ok s1.1) (Hc : (mo_counter_spec s1.1).*1 !! c = Some event) :
  exists out s2 v, destroy_monitor cmdline line_size s1 = Some (Ok out, s2) /\
    read_field event (file_of (oc_info out)) = Some v /\ length (numbers v) = length (mo_kinfos s1.1) /\
    sumZ (numbers v) ≡₆₄ n (Z.of_nat c).
Proof.
  pose proof (mon_run_inv s0 s n leaky (prepare_ready _ _ _ _ _ _ _ _ _ _ _ _ Hring Haux Hprep) Hrun) as H.
  destruct (ri_inv _ _ _ _ H) as (F & Hi & _); destruct s as [p o1].
  pose proof (stop_spec (C := False) F p o1 Hi (ri_arrays _ _ _ _ H) (ex_intro _ ws Hwin)) as Hs; unfold wpc in Hs; rewrite Hstop in Hs.
  destruct (run_inv_stop s0 (p, o1) n leaky s1 H Hs) as [H1 Hrep].
  destruct Hs as (_ & _ & _ & _ & ws' & cs & W1 & W2 & _); cbn [fst] in *; rewrite Hwin in W1; apply app_inj_tail in W1 as [<- _].
  eapply destroy_accounts; eauto.
  - rewrite W2; apply Forall_app; split; [done|by repeat constructor].
  - intros E; unfold window_counters in W2; rewrite E in W2; by destruct ws.
  - apply Hrep; apply lookup_lt_Some in Hc; rewrite length_fmap in Hc; unfold num_events, num_counters, num_samplers; lia.
Qed.

End spec.

End MonitorInfo.
