(* ===== verification/SampleBooks.v ===== *)
(** The books of the samples: every record in the sample files is counted in one
    window, and the bytes the monitor says it has written are those of the files.

    The first part follows a drain over whatever bytes the ring holds; the second
    follows the monitor over any run in which no drain reported a corrupted ring. *)
From S2P Require Import Prelude Uapi CText ProcMaps Hotspots SpePacket RingDrain Effects TargetedCtl PerfEvents Manifest.
From S2P Require Import Monitor MonitorInv MonitorState MonitorSpec MonitorInfo.
From Stdlib Require Import SpecFloat.
Import PerfEvents Monitor MonitorInv MonitorState MonitorSpec MonitorInfo.

Module SampleBooks.

(** * One drain *)

(** The samples of all windows. *)
Definition in_windows (l : list window_counts) : Z := sumZ (wc_num_samples <$> l).

(** Between two states of the packet decoder, [n] records were written. *)
Definition decoded (n : Z) (d d' : drain_state) : Prop :=
  zlen (ds_file d') = zlen (ds_file d) + n /\ ds_num_samples d' ≡₆₄ ds_num_samples d + n /\
  ds_written_sample_bytes d' ≡₆₄ ds_written_sample_bytes d + SpePacket.SAMPLE_BYTES * n /\
  (is_u64 (ds_written_sample_bytes d) -> is_u64 (ds_written_sample_bytes d')).

Lemma decoded_none d d' : ds_file d' = ds_file d -> ds_num_samples d' = ds_num_samples d ->
  ds_written_sample_bytes d' = ds_written_sample_bytes d -> decoded 0 d d'.
Proof. intros E1 E2 E3; unfold decoded; rewrite E1, E2, E3; split_and!; [lia|eqm64_lia|eqm64_lia|done]. Qed.

Lemma decoded_trans n m d1 d2 d3 : decoded n d1 d2 -> decoded m d2 d3 -> decoded (n + m) d1 d3.
Proof.
  intros (A1 & A2 & A3 & A4) (B1 & B2 & B3 & B4); split; [lia|]; split; [rewrite B2, A2; eqm64_lia|].
  split; [rewrite B3, A3; eqm64_lia|]; auto.
Qed.

Section drain.
Context (pc_present : bool) (module_maps : list module_map_entry) (main_binary_path : text) (tid : Z).

Lemma flush_decoded b d : exists n,
  decoded n d (SpePacket.flush_pending_spe_sample_locked pc_present module_maps main_binary_path tid b d).
Proof.
  unfold SpePacket.flush_pending_spe_sample_locked; destruct (negb _); [exists 0; by apply decoded_none|]; exists 1.
  assert (Hw : forall d', ds_file d' = ds_file d ++ [SpePacket.pending_record (ds_pending d)] ->
    ds_num_samples d' = inc64 (ds_num_samples d) -> ds_written_sample_bytes d' = u64 (ds_written_sample_bytes d + SpePacket.SAMPLE_BYTES) ->
    decoded 1 d d').
  { intros d' E1 E2 E3; unfold decoded; rewrite E1, E2, E3; split_and!; [rewrite length_app; cbn; lia|apply inc64_eqm|rewrite u64_eqm; eqm64_lia|intros _; apply u64_range]. }
  by destruct b; apply Hw.
Qed.

Lemma packet_decoded mem packet d d' size :
  SpePacket.packet_step pc_present module_maps main_binary_path tid mem packet d = Some (d', size) -> exists n, decoded n d d'.
Proof.
  unfold SpePacket.packet_step; intros (h & _ & H)%bind_Some.
  repeat (case_match; [try (apply bind_Some in H as (? & _ & H)); injection H as <- _;
    first [apply flush_decoded | exists 0; by apply decoded_none]|]).
  injection H as <- _; exists 0; by apply decoded_none.
Qed.

Lemma packet_loop_decoded fuel mem off size : forall it d d',
  SpePacket.packet_loop pc_present module_maps main_binary_path tid fuel mem off size it d = Some d' -> exists n, decoded n d d'.
Proof.
  induction fuel as [|fuel IH]; intros it d d'; cbn [SpePacket.packet_loop]; (destruct (it <? size); [|intros [= <-]; exists 0; by apply decoded_none]); [done|].
  intros ([d1 k] & Hp & H)%bind_Some; destruct (packet_decoded _ _ _ _ _ Hp) as [n Hn]; destruct (IH _ _ _ H) as [m Hm].
  exists (n + m); by eapply decoded_trans.
Qed.

(** Between two states of a slot, [plain] and [spe] records were written; the
    windows have not changed their samples. *)
Definition drained_by (plain spe : Z) (st st' : slot_state) : Prop :=
  zlen (sl_plain st') = zlen (sl_plain st) + plain /\ zlen (ds_file (sl_drain st')) = zlen (ds_file (sl_drain st)) + spe /\
  ds_num_samples (sl_drain st') ≡₆₄ ds_num_samples (sl_drain st) + plain + spe /\
  ds_written_sample_bytes (sl_drain st') ≡₆₄
    ds_written_sample_bytes (sl_drain st) + 16 * plain + SpePacket.SAMPLE_BYTES * spe /\
  (is_u64 (ds_written_sample_bytes (sl_drain st)) -> is_u64 (ds_written_sample_bytes (sl_drain st'))) /\
  in_windows (sl_kinfos st') = in_windows (sl_kinfos st).

Lemma drained_by_trans a b c d st1 st2 st3 :
  drained_by a b st1 st2 -> drained_by c d st2 st3 -> drained_by (a + c) (b + d) st1 st3.
Proof.
  intros (A1 & A2 & A3 & A4 & A5 & A6) (B1 & B2 & B3 & B4 & B5 & B6); split; [lia|]; split; [lia|].
  split; [rewrite B3, A3; eqm64_lia|]; split; [rewrite B4, A4; eqm64_lia|]; split; [auto|congruence].
Qed.

Lemma in_windows_back f l : (forall w, wc_num_samples (f w) = wc_num_samples w) -> in_windows (RingDrain.on_back f l) = in_windows l.
Proof.
  intros Hf; destruct l as [|w l _] using rev_ind; [done|]; unfold RingDrain.on_back, in_windows.
  rewrite last_snoc, length_app, Nat.add_sub, take_app_length, !fmap_app; cbn; by rewrite Hf.
Qed.

Lemma drained_none st st' : sl_plain st' = sl_plain st -> sl_drain st' = sl_drain st ->
  in_windows (sl_kinfos st') = in_windows (sl_kinfos st) -> drained_by 0 0 st st'.
Proof. intros E1 E2 E3; unfold drained_by; rewrite E1, E2; split_and!; [lia|lia|eqm64_lia|eqm64_lia|done|done]. Qed.

Lemma record_drained st tail type st' :
  RingDrain.record_step pc_present module_maps main_binary_path tid st tail type = Some st' ->
  exists plain spe, drained_by plain spe st st'.
Proof.
  assert (Hthr : forall f, (forall w, wc_num_samples (f w) = wc_num_samples w) -> drained_by 0 0 st (st ⟦ sl_kinfos ::= RingDrain.on_back f ⟧)).
  { intros f Hf; apply drained_none; [done|done|by apply in_windows_back]. }
  unfold RingDrain.record_step; destruct (type =? PERF_RECORD_SAMPLE).
  { intros (time & _ & (addr & _ & H)%bind_Some)%bind_Some; injection H as <-; exists 1, 0; split_and!; cbn.
    - rewrite length_app; cbn; lia.
    - lia.
    - rewrite inc64_eqm; eqm64_lia.
    - rewrite u64_eqm; eqm64_lia.
    - intros _; apply u64_range.
    - done. }
  destruct (type =? PERF_RECORD_THROTTLE); [intros [= <-]; exists 0, 0; by apply Hthr|].
  destruct (type =? PERF_RECORD_UNTHROTTLE); [intros [= <-]; exists 0, 0; by apply drained_none|].
  destruct (type =? PERF_RECORD_ITRACE_START); [intros [= <-]; exists 0, 0; by apply drained_none|].
  destruct (type =? PERF_RECORD_AUX); [|intros [= <-]; exists 0, 0; by apply drained_none].
  intros (off & _ & (size & _ & (flags & _ & (sid & _ & H)%bind_Some)%bind_Some)%bind_Some)%bind_Some.
  set (st1 := if has_flag flags PERF_AUX_FLAG_COLLISION then _ else st) in H.
  assert (H1 : drained_by 0 0 st st1) by (unfold st1; destruct (has_flag _ _); [by apply Hthr|by apply drained_none]).
  clearbody st1; destruct (negb _); [|injection H as <-; eauto]; apply bind_Some in H as (d & Hd & H); injection H as <-.
  destruct (packet_loop_decoded _ _ _ _ _ _ _ Hd) as [n (N1 & N2 & N3 & N4)]; exists (0 + 0), (0 + n); eapply drained_by_trans; [exact H1|].
  split_and!; cbn; [lia|done|rewrite N2; eqm64_lia|rewrite N3; eqm64_lia|exact N4|done].
Qed.

Lemma record_loop_drained fuel head : forall tail st st' tail',
  RingDrain.record_loop pc_present module_maps main_binary_path tid fuel head tail st = Some (st', tail') ->
  exists plain spe, drained_by plain spe st st'.
Proof.
  induction fuel as [|fuel IH]; intros tail st st' tail'; cbn [RingDrain.record_loop];
    (destruct (tail <? head); [|intros [= <- _]; exists 0, 0; by apply drained_none]); [done|].
  intros (type & _ & (size & _ & (st1 & H1 & H)%bind_Some)%bind_Some)%bind_Some.
  destruct (record_drained _ _ _ _ H1) as (a & b & Hab); destruct (IH _ _ _ _ H) as (c & d & Hcd).
  exists (a + c), (b + d); by eapply drained_by_trans.
Qed.

(** The drain has counted in the windows what it has written. *)
Record drain_counts (has_writer : bool) (st st' : slot_state) (plain spe : Z) : Prop := {
  dc_plain : zlen (sl_plain st') = zlen (sl_plain st) + plain;
  dc_spe : zlen (ds_file (sl_drain st')) = zlen (ds_file (sl_drain st)) + spe;
  dc_bytes : ds_written_sample_bytes (sl_drain st') ≡₆₄
               ds_written_sample_bytes (sl_drain st) + 16 * plain + SpePacket.SAMPLE_BYTES * spe;
  dc_u64 : is_u64 (ds_written_sample_bytes (sl_drain st)) -> is_u64 (ds_written_sample_bytes (sl_drain st'));
  dc_windows : in_windows (sl_kinfos st') ≡₆₄ in_windows (sl_kinfos st) + plain + spe;
  dc_writer : has_writer = false -> plain = 0 /\ spe = 0;
}.

Lemma process_drained has_writer st st' n :
  RingDrain.process_samples_locked pc_present module_maps main_binary_path tid has_writer st = Some (st', Ok n) ->
  exists plain spe, drain_counts has_writer st st' plain spe.
Proof.
  assert (Hnone : forall st', sl_plain st' = sl_plain st -> sl_drain st' = sl_drain st -> sl_kinfos st' = sl_kinfos st ->
    exists plain spe, drain_counts has_writer st st' plain spe).
  { intros st1 E1 E2 E3; exists 0, 0; split; rewrite ?E1, ?E2, ?E3; first [done | lia | eqm64_lia]. }
  unfold RingDrain.process_samples_locked; destruct (sl_kinfos st) as [|w0 ws] eqn:Ek; [intros [= <- _]; by apply Hnone|].
  destruct (_ =? _); [intros [= <- _]; by apply Hnone|]; destruct has_writer; [|done]; cbn [negb].
  intros ([st1 tail] & Hl & H)%bind_Some; destruct (negb _); [done|]; injection H as <- _.
  destruct (record_loop_drained _ _ _ _ _ _ Hl) as (a & b & A1 & A2 & A3 & A4 & A5 & A6); exists a, b; cbn in *.
  split; cbn; try done; rewrite <- A6; destruct (sl_kinfos st1) as [|w l _] eqn:E1 using rev_ind.
  - apply RingDrain.record_loop_windows in Hl; cbn in Hl; rewrite Ek, E1 in Hl; done.
  - unfold RingDrain.on_back, in_windows; rewrite last_snoc, length_app, Nat.add_sub, take_app_length, !fmap_app, !sumZ_app.
    cbn [fmap list_fmap]; rewrite !sumZ_cons; cbn [wc_num_samples upd eta eta_window]; change (sumZ []) with 0.
    rewrite u64_eqm, A3; eqm64_lia.
Qed.

End drain.

(** * The monitor's books *)

(** A sum over the threads. *)
Definition over (f : thread_state -> Z) (m : gmap Z thread_state) : Z := sumZ (gather (fun t => [f t]) m).

Lemma over_insert f m k t : over f (<[k := t]> m) = f t + over f (delete k m).
Proof. unfold over; by rewrite (sumZ_perm _ _ (gather_insert _ m k t)), sumZ_app, sumZ_cons, Z.add_0_r. Qed.
Lemma over_lookup f m k t : m !! k = Some t -> over f m = f t + over f (delete k m).
Proof. intros H; rewrite <- (insert_id m k t H) at 1; apply over_insert. Qed.

Lemma over_alter f g m k :
  over f (alter g k m) = over f m + match m !! k with Some t => f (g t) - f t | None => 0 end.
Proof.
  destruct (m !! k) as [t|] eqn:E.
  - replace (alter g k m) with (<[k := g t]> m); [rewrite over_insert, (over_lookup f m k t E); lia|].
    apply map_eq; intros j; destruct (decide (j = k)) as [->|Hj].
    + by rewrite lookup_insert_eq, lookup_alter_eq, E.
    + by rewrite lookup_insert_ne, lookup_alter_ne.
  - rewrite alter_id; [lia|]; intros x Hx; congruence.
Qed.

Lemma over_set f g m k : f empty_thread_state = 0 ->
  over f (partial_alter (fun t => Some (g (default empty_thread_state t))) k m)
  = over f m + f (g (default empty_thread_state (m !! k))) - f (default empty_thread_state (m !! k)).
Proof.
  intros H0; replace (partial_alter _ k m) with (<[k := g (default empty_thread_state (m !! k))]> m).
  - rewrite over_insert; destruct (m !! k) as [t|] eqn:E; cbn [default].
    + rewrite (over_lookup f m k t E); cbn; lia.
    + rewrite (delete_id m k E); cbn; lia.
  - apply map_eq; intros j; destruct (decide (j = k)) as [->|Hj].
    + by rewrite lookup_insert_eq, lookup_partial_alter_eq.
    + by rewrite lookup_insert_ne, lookup_partial_alter_ne.
Qed.

(** What the files of a thread hold. *)
Definition vol (g : writer -> Z) (t : thread_state) : Z := sumZ (g <$> ts_writers t).

Lemma vol_store g m (stid tid : Z) (i : nat) slot idx w' : 0 <= idx ->
  over (vol g) ((alter (fun t => t ⟦ ts_writers ::= <[Z.to_nat idx := w']> ⟧) stid ∘
                 alter (fun t => t ⟦ ts_samplers ::= <[i := slot]> ⟧) tid) m)
  = over (vol g) m + match (t ← m !! stid; ts_writers t !!z idx) with Some w => g w' - g w | None => 0 end.
Proof.
  intros Hi; cbn [compose]; rewrite over_alter.
  set (m' := alter (fun t => t ⟦ ts_samplers ::= <[i := slot]> ⟧) tid m).
  assert (E : over (vol g) m' = over (vol g) m).
  { unfold m'; rewrite over_alter; destruct (m !! tid) as [t|]; [|lia]; unfold vol; cbn; lia. }
  assert (Ew : ts_writers <$> m' !! stid = ts_writers <$> m !! stid).
  { unfold m'; destruct (decide (stid = tid)) as [->|Hne]; [|by rewrite lookup_alter_ne].
    rewrite lookup_alter_eq; by destruct (m !! tid). }
  rewrite E; destruct (m !! stid) as [t|], (m' !! stid) as [t'|]; cbn in Ew; try done; cbn [mbind option_bind].
  injection Ew as Ew; unfold vol; cbn; rewrite Ew; destruct (ts_writers t !!z idx) as [w|] eqn:Ez.
  - apply zlookup_Some in Ez as [_ Ez]; rewrite list_fmap_insert; erewrite sumZ_insert by (by rewrite list_lookup_fmap, Ez); lia.
  - rewrite list_insert_ge; [lia|]; unfold zlookup in Ez.
    destruct ((0 <=? idx) && (idx <? zlen (ts_writers t))) eqn:Eb; [|lia].
    by apply lookup_ge_None in Ez.
Qed.

Definition plain_of : thread_state -> Z := vol (fun w => zlen (wr_plain w)).
Definition spe_of : thread_state -> Z := vol (fun w => zlen (wr_samples w)).
Definition plain_records (p : monitor) : Z := over plain_of (mo_threads p).
Definition spe_records (p : monitor) : Z := over spe_of (mo_threads p).
Definition windows_total (p : monitor) : Z := in_windows (ki_counts <$> mo_kinfos p).
Definition account (p : monitor) := (plain_records p, spe_records p, windows_total p, sp_written_sample_bytes (mo_spe p)).

Record books (p : monitor) : Prop := {
  bk_windows : windows_total p ≡₆₄ plain_records p + spe_records p;
  bk_bytes : sp_written_sample_bytes (mo_spe p) ≡₆₄ 16 * plain_records p + SpePacket.SAMPLE_BYTES * spe_records p;
  bk_u64 : is_u64 (sp_written_sample_bytes (mo_spe p));
}.

Lemma books_account p q : account q = account p -> books p -> books q.
Proof. unfold account; intros [= E1 E2 E3 E4] [H1 H2 H3]; split; by rewrite ?E1, ?E2, ?E3, ?E4. Qed.

Lemma stored_counts ks cs : length cs = length ks ->
  ki_counts <$> zip_with (fun k c => k ⟦ ki_counts := c ⟧) ks cs = cs.
Proof.
  revert cs; induction ks as [|k ks IH]; intros [|c cs] H; try done; cbn; f_equal; apply IH; by injection H.
Qed.

Section spec.
Context {Pf : PerfApi} {PL : PerfLaws Pf}.

(** A drain that returns keeps the books. *)
Lemma process_books tid i p o :
  (forall slot, ts_samplers (thread_of p tid) !! i = Some slot -> 0 <= ss_sampler_index slot) -> books p ->
  wlp (process_samples_locked tid i) (fun r s' => match r with Ok _ => books s'.1 | Throw _ => True end) (p, o).
Proof.
  intros Hidx [B1 B2 B3]; unfold wpc, process_samples_locked.
  destruct (ts_samplers (thread_of p tid) !! i) as [slot|] eqn:Es; [|done]; rewrite some_bind; specialize (Hidx slot eq_refl).
  destruct (ss_ringbuf slot) as [ring|]; [|done]; rewrite some_bind; cbn zeta.
  set (w := match mo_threads p !! ss_tid slot with Some t => _ | None => _ end).
  destruct (RingDrain.process_samples_locked _ _ _ _ _ _) as [[st [n|e]]|] eqn:E; [|done|done]; rewrite some_bind; cbn [fst].
  pose proof E as Hl; apply RingDrain.process_samples_windows in Hl; cbn [sl_kinfos] in Hl.
  apply process_drained in E as (plain & spe & [D1 D2 D3 D4 D5 D6]); cbn [sl_plain sl_drain sl_kinfos ds_file ds_written_sample_bytes] in *.
  match goal with |- books ?q => set (p' := q) end.
  assert (Ew : w = (t ← mo_threads p !! ss_tid slot; ts_writers t !!z ss_sampler_index slot))
    by (unfold w; by destruct (mo_threads p !! ss_tid slot)).
  assert (Ep : plain_records p' = plain_records p + plain).
  { unfold plain_records, p'; cbn [mo_threads upd eta eta_monitor]; unfold plain_of; rewrite vol_store, <- Ew by done.
    destruct w; cbn in *; [lia|destruct D6 as [-> _]; [done|lia]]. }
  assert (Eq : spe_records p' = spe_records p + spe).
  { unfold spe_records, p'; cbn [mo_threads upd eta eta_monitor]; unfold spe_of; rewrite vol_store, <- Ew by done.
    destruct w; cbn in *; [lia|destruct D6 as [_ ->]; [done|lia]]. }
  assert (Ek : windows_total p' = in_windows (sl_kinfos st)).
  { unfold windows_total, p'; cbn; f_equal; rewrite length_fmap in Hl; by apply stored_counts. }
  split; rewrite ?Ep, ?Eq, ?Ek.
  - rewrite D5; fold (windows_total p); rewrite B1; eqm64_lia.
  - change (sp_written_sample_bytes (mo_spe p')) with (ds_written_sample_bytes (sl_drain st)); rewrite D3, B2; eqm64_lia.
  - by apply D4.
Qed.

(** ** Operations that write no sample *)

Lemma account_threads p m :
  (forall g, (forall path, g (mk_writer path [] []) = 0) -> over (vol g) m = over (vol g) (mo_threads p)) -> account (p ⟦ mo_threads := m ⟧) = account p.
Proof. intros H; unfold account, plain_records, spe_records, plain_of, spe_of; cbn [mo_threads upd eta eta_monitor]; by rewrite !H by done. Qed.

Lemma keeps_set_thread tid f : (forall t, ts_writers (f t) = ts_writers t) -> keeps account (set_thread tid f).
Proof.
  intros Hf; apply keeps_modify; intros p; apply (account_threads p); intros g _; rewrite over_set by done.
  unfold vol at 2; rewrite Hf; fold (vol g (default empty_thread_state (mo_threads p !! tid))); lia.
Qed.

Lemma keeps_open_writers tid : keeps account (open_writers tid).
Proof.
  intros s v E; apply wp_bind, wp_get; destruct (ts_writers (thread_of s.1 tid)) as [|w ws] eqn:Ew.
  - apply wp_modify; cbn [fst]; rewrite <- E; apply (account_threads s.1); intros g Hg; rewrite over_set by done.
    fold (thread_of s.1 tid); unfold vol at 2 3; rewrite Ew; cbn [ts_writers upd eta eta_thread_state].
    assert (Z0 : forall l, sumZ (g <$> ((fun k => mk_writer (sample_path (mo_nameprefix s.1) tid k) [] []) <$> l)) = 0)
      by (induction l as [|k l IH]; [done|]; rewrite !fmap_cons, sumZ_cons, Hg; exact IH).
    rewrite Z0; change (sumZ (g <$> [])) with 0; lia.
  - destruct (_ =? _); [by apply wp_ret|by apply wp_throw].
Qed.

Lemma in_windows_kinfos f l k : last l = Some k -> (forall k, wc_num_samples (ki_counts (f k)) = wc_num_samples (ki_counts k)) ->
  in_windows (ki_counts <$> take (length l - 1) l ++ [f k]) = in_windows (ki_counts <$> l).
Proof.
  intros Hl Hf; destruct (snoc_inv l) as (l' & k' & ->); [by intros ->|]; rewrite last_snoc in Hl; injection Hl as ->.
  unfold in_windows; rewrite length_app, Nat.add_sub, take_app_length, !fmap_app, !sumZ_app; cbn; by rewrite Hf.
Qed.

Lemma keeps_back f : (forall k, wc_num_samples (ki_counts (f k)) = wc_num_samples (ki_counts k)) -> keeps account (back_kinfo f).
Proof.
  intros Hf s v E; unfold wpc, back_kinfo; destruct (last (mo_kinfos s.1)) as [k|] eqn:Hl; [|done]; cbn.
  rewrite <- E; unfold account; f_equal; f_equal; apply (in_windows_kinfos f (mo_kinfos s.1) k Hl Hf).
Qed.

#[local] Hint Resolve keeps_open_writers : keeps.
#[local] Hint Extern 1 (keeps account (set_thread _ _)) => by apply keeps_set_thread : keeps.
#[local] Hint Extern 1 (keeps account (back_kinfo _)) => by apply keeps_back : keeps.

Lemma keeps_ioctl request t : keeps account (ioctl_thread request t).
Proof. unfold ioctl_thread, on_fds, act; keeps. Qed.
Lemma keeps_close tid : keeps account (close_thread_locked tid).
Proof. unfold close_thread_locked, close_fds, close_slot, unmap_buffer, act; keeps. Qed.
#[local] Hint Resolve keeps_ioctl keeps_close : keeps.

Lemma keeps_open_slots tid ring_bytes aux_bytes fds : forall sampler, keeps account (open_slots tid ring_bytes aux_bytes sampler fds).
Proof.
  induction fds as [|[fd name] fds IH]; intros sampler; cbn [open_slots]; [by apply keeps_ret|].
  unfold open_slot, map_aux, close_fds, act; keeps.
Qed.
#[local] Hint Resolve keeps_open_slots : keeps.

Lemma keeps_register tid : keeps account (register_thread_locked tid).
Proof.
  unfold register_thread_locked, open_thread_locked, pin_thread, open_counters, trial_mapping, ask, act; keeps.
  all: apply keeps_modify; intros p; by destruct (bool_decide _).
Qed.
Lemma keeps_register_current tid : keeps account (register_current_thread tid).
Proof. pose proof (keeps_register tid); unfold register_current_thread, enable_thread_locked; keeps. Qed.

Lemma keeps_accumulate t : keeps account (accumulate_retired_counts_locked t).
Proof. unfold accumulate_retired_counts_locked, retire, ask; keeps. Qed.

Lemma keeps_start tag offloaded : keeps account (start tag offloaded).
Proof.
  unfold start, set_tag, snapshot_main_binary_path, snapshot_maps, now, enable_thread_locked, ask, act; keeps.
  all: apply keeps_modify; intros p; unfold account; do 2 f_equal; unfold windows_total, in_windows; cbn [mo_kinfos upd eta eta_monitor].
  all: rewrite !fmap_app, sumZ_app; apply Z.add_0_r.
Qed.

Lemma keeps_read_counters l : keeps account (read_counters_from l).
Proof. induction l as [|i l IH]; cbn [read_counters_from]; [by apply keeps_ret|]; unfold read_counter, ask; keeps. Qed.
#[local] Hint Resolve keeps_read_counters : keeps.

Lemma keeps_stop : keeps account stop.
Proof. unfold stop, read_counters, now, disable_thread_locked; keeps. Qed.

Lemma keeps_notes_calls :
  keeps account set_nonstop /\ keeps account read_samples /\ (forall tag a b, keeps account (tag_addr tag a b)) /\
  forall tag, keeps account (mark_phase tag).
Proof. unfold set_nonstop, read_samples, tag_addr, mark_phase, ask; split_and!; intros; keeps. Qed.

(** ** Drains *)

Definition settled_books (s : monitor * perf_os) : Prop := (exists F, mon_inv F s) /\ books s.1.

Lemma slot_index_nonneg F p o tid i slot : mon_inv F (p, o) -> ts_samplers (thread_of p tid) !! i = Some slot -> 0 <= ss_sampler_index slot.
Proof.
  intros Hi Hs; unfold thread_of in Hs; destruct (mo_threads p !! tid) as [t|] eqn:Et; [|done]; cbn in Hs.
  pose proof (gi_threads _ _ Hi tid t Et) as Hk; destruct (ts_active t) eqn:Ea.
  - destruct (tk_active _ _ _ _ Hk Ea) as [_ _ (n0 & _ & Hm & _)]; rewrite (sm_index _ _ _ _ (Hm i slot Hs)); lia.
  - destruct (tk_inactive _ _ _ _ Hk Ea) as [_ E]; by rewrite E in Hs.
Qed.

Abbreviation returns I := (fun r s' => match r with Ok _ => I s' | Throw _ => True end).

Lemma process_settled tid i s : settled_books s -> wlp (process_samples_locked tid i) (returns settled_books) s.
Proof.
  destruct s as [p o]; intros [[F Hi] Hb]; eapply wp_mono; [apply wp_and; [apply (process_calm tid i p o)|apply process_books; [|exact Hb]]|].
  - intros slot; by eapply slot_index_nonneg.
  - intros [n|e] s' [Hc Hb']; [|done]; split; [|done]; exists F; by eapply calm_inv.
Qed.

Lemma drain_thread_settled tid s : settled_books s -> wlp (drain_thread tid) (returns settled_books) s.
Proof. intros Hs; apply wp_bind, wp_get, wp_sumM_returns; [done|]; intros i s'; apply process_settled. Qed.

Lemma drain_all_settled s : settled_books s -> wlp drain_all (returns settled_books) s.
Proof.
  intros Hs; apply wp_bind, wp_get, wp_sumM_returns; [done|]; intros tid s' H'; apply wp_bind, wp_get, wp_if; intros _;
    [by apply drain_thread_settled|by apply wp_ret].
Qed.

(** Operations after the drain that write no sample. *)
Lemma keeps_books {A} (m : mon A) s : keeps account m -> books s.1 -> wlp m (fun _ s' => books s'.1) s.
Proof. intros Hm Hb; eapply wp_mono; [by apply Hm|]; intros r s' E; exact (books_account _ _ E Hb). Qed.

Lemma command_books cmd s : settled_books s -> wlp (sampler_command cmd) (returns (fun s' => books s'.1)) s.
Proof.
  intros Hs; apply wp_bind; eapply wp_mono; [by apply drain_all_settled|]; intros [n|e] s1 H1; [|done].
  eapply wp_mono; [apply keeps_books; [|apply H1]; unfold act; keeps|]; by intros [] s2 H2.
Qed.

Lemma wake_up_books token s : settled_books s -> wlp (sampler_event token) (returns (fun s' => books s'.1)) s.
Proof.
  intros Hs; apply wp_if; intros _; [|apply wp_ret, Hs]; apply wp_bind.
  assert (H : wlp (process_samples (s32 (token_value token))) (returns settled_books) s).
  { apply wp_bind, wp_get; destruct (mo_sampler_slots s.1 !! _) as [[tid i]|]; [by apply process_settled|by apply wp_ret]. }
  eapply wp_mono; [exact H|]; intros [n|e] s1 H1; [apply wp_ret, H1|done].
Qed.

Lemma unregister_books tid s : settled_books s -> wlp (unregister_current_thread tid) (returns (fun s' => books s'.1)) s.
Proof.
  intros Hs; assert (H0 : forall m : mon unit, keeps account m -> wlp m (returns (fun s' => books s'.1)) s).
  { intros m Hm; eapply wp_mono; [apply keeps_books; [exact Hm|apply Hs]|]; by intros [] s2 H2. }
  apply wp_bind, wp_get, wp_if; intros _; [apply H0; keeps|]; apply wp_bind, wp_get.
  destruct (mo_threads s.1 !! tid) as [t|]; [|apply H0; keeps]; apply wp_if; intros _; [apply H0; keeps|].
  assert (H1 : wlp (if mo_events_enabled s.1 then disable_thread_locked t else ret tt) (fun _ s' => settled_books s') s).
  { apply wp_if; intros _; [|by apply wp_ret]; destruct s as [p o]; destruct Hs as [[F Hi] Hb].
    eapply wp_mono; [apply wp_and; [by apply (ioctl_thread_calm (C := True) PERF_EVENT_IOC_DISABLE t p o)|
      apply (keeps_books (ioctl_thread PERF_EVENT_IOC_DISABLE t)); [apply keeps_ioctl|exact Hb]]|].
    intros r s' [[_ Hc] Hb']; split; [|done]; exists F; by eapply calm_inv. }
  apply wp_bind; eapply wp_mono; [exact H1|]; intros [[]|e] s1 Hs1; [|done].
  apply wp_bind; eapply wp_mono; [by apply drain_thread_settled|]; intros [n|e] s2 Hs2; [|done].
  eapply wp_mono; [apply keeps_books; [|apply Hs2]; pose proof keeps_accumulate; keeps|]; by intros [] s3 H3.
Qed.

(** * Runs *)

(** The calls that drain a ring. *)
Definition drains (c : mon_call) : bool := match c with Unregister _ | WakeUp _ | Command _ => true | _ => false end.

(** Calls of the monitor in any order, between which the kernel fills the rings; no
    drain found a ring corrupted. *)
Inductive sample_run (s0 : monitor * perf_os) : monitor * perf_os -> Prop :=
| sample_ready : sample_run s0 s0
| sample_call s c r s' :
    sample_run s0 s -> (c = Stop -> window_running s.1) -> (drains c = true -> r = Ok tt) ->
    run_call c s = Some (r, s') -> sample_run s0 s'
| sample_arrives s o' :
    sample_run s0 s -> (forall r, po_has o' r <-> po_has s.2 r) -> (forall e f, po_watch e f o' = po_watch e f s.2) ->
    sample_run s0 (s.1, o').

Lemma sample_mon_run s0 s : sample_run s0 s -> exists n l, mon_run s0 s n l.
Proof.
  induction 1 as [|s c r s' _ (n & l & IH) Hw _ E|s o' _ (n & l & IH) H1 H2]; [by eexists _, _; constructor| |].
  - eexists _, _; by eapply run_step.
  - eexists _, _; by apply run_count.
Qed.

Lemma call_books s c r s' : settled_books s -> run_call c s = Some (r, s') -> (drains c = true -> r = Ok tt) -> books s'.1.
Proof.
  intros Hs E Hd.
  assert (Hk : keeps account (run_call c) -> books s'.1).
  { intros Hk; pose proof (keeps_books _ s Hk (proj2 Hs)) as H; by eapply wlp_run in H. }
  assert (Hr : wlp (run_call c) (returns (fun s' => books s'.1)) s -> drains c = true -> books s'.1).
  { intros H Hc; eapply wlp_run in H; [|exact E]; by rewrite (Hd Hc) in H. }
  destruct keeps_notes_calls as (K1 & K2 & K3 & K4).
  destruct c; cbn [run_call] in *; auto using keeps_register, keeps_register_current, keeps_start, keeps_stop.
  - by apply Hr; [apply unregister_books|].
  - by apply Hr; [apply wake_up_books|].
  - apply Hr; [|done]; apply wp_bind; eapply wp_mono; [by apply command_books|]; by intros [] s1 H1.
Qed.

Lemma ready_books s : ready s -> sp_written_sample_bytes (mo_spe s.1) = 0 -> books s.1.
Proof.
  intros (E1 & _ & _ & E4 & _) Ez; split; unfold plain_records, spe_records, windows_total; rewrite ?E1, ?E4, ?Ez; cbn; first [done|lia].
Qed.

Lemma sample_run_books s0 s : ready s0 -> books s0.1 -> sample_run s0 s -> books s.1.
Proof.
  intros Hr H0 Hs; induction Hs as [|s c r s' Hs IH Hw Hd E|s o' Hs IH H1 H2]; [done| |done].
  destruct (sample_mon_run s0 s Hs) as (n & l & Hm); destruct (ri_inv _ _ _ _ (mon_run_inv s0 s n l Hr Hm)) as (F & Hi & _).
  eapply (call_books s c r s'); [|done|done]; split; [by exists F|done].
Qed.

Lemma prepared_books getenv name counter_spec sampler_spec period ring aux cpus pin o tid s :
  0 <= ring < 2048 -> 0 <= aux < 2048 ->
  prepare getenv name (initial_monitor counter_spec sampler_spec period ring aux cpus pin, o) = Some (Ok tid, s) ->
  ready s /\ books s.1.
Proof.
  intros Hr Ha E; assert (Hs : ready s) by exact (prepare_ready _ _ _ _ _ _ _ _ _ _ _ _ Hr Ha E); split; [done|]; apply ready_books; [done|].
  assert (Hk : keeps mo_spe (prepare getenv name)).
  { unfold prepare, start_sampler_thread; destruct clock_getres as [[[|?|?] ?]|]; keeps. }
  specialize (Hk (initial_monitor counter_spec sampler_spec period ring aux cpus pin, o) _ eq_refl).
  eapply wlp_run in Hk; [|exact E]; by rewrite Hk.
Qed.

(** Shutting down drains once more and writes nothing else. *)
Lemma shut_down_books s s' : settled_books s -> shut_down s = Some (Ok tt, s') -> books s'.1.
Proof.
  intros Hs E; assert (H : wlp shut_down (returns (fun s' => books s'.1)) s).
  { apply wp_bind, wp_get, wp_bind.
    assert (H1 : wlp (if mo_event_fd s.1 =? -1 then ret tt else
       ok <-- call (eventfd_write (mo_event_fd s.1) SAMPLER_STOP);
       if ok then terminate_on_throw (sampler_command SAMPLER_STOP) else crash_if_none None) (returns (fun s' => books s'.1)) s).
    { apply wp_if; intros _; [apply wp_ret, Hs|]; apply wp_bind, wp_call; destruct s as [p o]; cbn [fst snd].
      destruct (pl_quiet o) as (_ & _ & _ & Hq & _); specialize (Hq (mo_event_fd p) SAMPLER_STOP); destruct Hs as [[F Hi] Hb].
      destruct (eventfd_write _ _ o) as [[] o1]; [|done]; cbn [fst snd] in *.
      assert (H1 : settled_books (p, o1)) by (split; [exists F; by eapply mon_inv_core|done]).
      pose proof (command_books SAMPLER_STOP _ H1) as Hc; unfold wpc, terminate_on_throw in *.
      by destruct (sampler_command _ _) as [[[] ?]|]. }
    eapply wp_mono; [exact H1|]; intros [[]|e] s1 Hb; [|done].
    eapply wp_mono; [apply keeps_books; [|exact Hb]; unfold disable_thread_locked; keeps|]; by intros [] s2 H2. }
  by eapply wlp_run in H; [|exact E].
Qed.

(** C13. The sample files and the windows agree.  After any run of the monitor in
    which every drain returned, the last one of the shut-down included, whatever
    the kernel wrote into the rings, the destructor's shut-down returns, and then every record of every
    sample file is counted in exactly one window, modulo [2^64].  When all records
    are of the kind the samplers announce, the destructor's check of the bytes is
    silent. *)
Theorem sample_files_match_windows
    (getenv : text -> option text) (name : text) (counter_spec sampler_spec : event_spec)
    (period ring aux cpus : Z) (pin : bool) (o : perf_os) (sampler_tid : Z) (s0 s : monitor * perf_os)
    (Hring : 0 <= ring < 2048) (Haux : 0 <= aux < 2048)
    (Hprep : prepare getenv name (initial_monitor counter_spec sampler_spec period ring aux cpus pin, o) =
               Some (Ok sampler_tid, s0))
    (Hrun : sample_run s0 s) (Hlast : last_drain_returns s) :
  exists s', shut_down s = Some (Ok tt, s') /\
    windows_total s'.1 ≡₆₄ plain_records s'.1 + spe_records s'.1 /\
    ((if has_arm_spe_samples s'.1 then plain_records s'.1 else spe_records s'.1) = 0 -> bytes_match s'.1 = true).
Proof.
  destruct (prepared_books _ _ _ _ _ _ _ _ _ _ _ _ Hring Haux Hprep) as [Hr H0].
  pose proof (sample_run_books s0 s Hr H0 Hrun) as Hb; destruct (sample_mon_run s0 s Hrun) as (n & l & Hm).
  destruct (ri_inv _ _ _ _ (mon_run_inv s0 s n l Hr Hm)) as (F & Hi & _).
  destruct s as [p o1]; pose proof (shut_down_spec (C := False) F p o1 Hi Hlast) as Hd; unfold wpc in Hd.
  destruct (shut_down (p, o1)) as [[r s']|] eqn:Es; [|done]; destruct Hd as [-> _]; exists s'; split; [done|].
  destruct (shut_down_books (p, o1) s') as [B1 B2 B3]; [split; [by exists F|done]|done|]; split; [done|].
  intros Hz; unfold bytes_match; destruct (0 <? _); [|done]; cbn [andb]; rewrite negb_involutive; apply Z.eqb_eq.
  change (sumZ _) with (sumZ ((wc_num_samples ∘ ki_counts) <$> mo_kinfos s'.1)); rewrite list_fmap_compose.
  change (sumZ _) with (windows_total s'.1); apply eqm64_small; [done|apply u64_range|].
  rewrite B2, !u64_eqm, B1; unfold sample_record_bytes; destruct (has_arm_spe_samples _); rewrite Hz; eqm64_lia.
Qed.

End spec.

End SampleBooks.
