(* ===== verification/MonitorDemo.v ===== *)
(** The monitor on a small concrete system: a machine that obeys [PerfLaws], a run
    with two threads on it, and a registration that fails half-way and keeps a
    descriptor open. *)
From S2P Require Import Prelude Uapi CText ProcMaps Hotspots SpePacket RingDrain Effects TargetedCtl PerfEvents Monitor.
From S2P Require Import MonitorInv MonitorState MonitorSpec MonitorInfo SampleBooks Manifest.
Import PerfEvents Monitor MonitorInv MonitorState MonitorSpec MonitorInfo SampleBooks Manifest.

Module MonitorDemo.

(** Descriptors from 3 up to [ty_next] are open unless closed; mappings below
    [ty_brk] are recorded with their size; [ty_maps_left] mappings can be made; a
    ring holds what was put into it. *)
Record toy := mk_toy {
  ty_next : Z;
  ty_closed : gset Z;
  ty_brk : Z;
  ty_mapped : gmap Z Z;
  ty_maps_left : nat;
  ty_values : gmap Z Z;
  ty_watch : gmap (Z * Z) Z;
  ty_rings : gmap Z ring_buffer;
}.
#[local] Instance eta_toy : Eta toy := fun r =>
  mk_toy (ty_next r) (ty_closed r) (ty_brk r) (ty_mapped r) (ty_maps_left r) (ty_values r) (ty_watch r) (ty_rings r).

Definition toy_mmap (bytes : Z) (o : toy) : option Z * toy :=
  match ty_maps_left o with
  | S k =>
      if bytes =? 0 then (None, o) else
      (Some (ty_brk o), o ⟦ ty_brk ::= Z.succ ⟧ ⟦ ty_mapped ::= <[ty_brk o := bytes]> ⟧ ⟦ ty_maps_left := k ⟧)
  | O => (None, o)
  end.
Definition toy_munmap (base bytes : Z) (o : toy) : toy :=
  if bool_decide (ty_mapped o !! base = Some bytes) then o ⟦ ty_mapped ::= delete base ⟧ else o.

#[local] Instance toy_perf : PerfApi := {|
  perf_os := toy;
  perf_event_open _ _ _ _ o := (Z.max 3 (ty_next o), o ⟦ ty_next := Z.max 3 (ty_next o) + 1 ⟧ ⟦ ty_closed ::= fun s => s ∖ {[Z.max 3 (ty_next o)]} ⟧);
  perf_ioctl fd req o := if req =? PERF_EVENT_IOC_RESET then o ⟦ ty_values ::= <[fd := 0]> ⟧ else o;
  perf_read fd o := Some (mk_read (u64 (default 0 (ty_values o !! fd))) 1 1);
  perf_close fd o := o ⟦ ty_closed ::= fun s => {[fd]} ∪ s ⟧;
  perf_mmap bytes _ _ o := toy_mmap bytes o;
  perf_munmap := toy_munmap;
  ring_at base o := default (mk_ring [] [] 0 0 0) (ty_rings o !! base);
  set_ring base r o := o ⟦ ty_rings ::= <[base := r]> ⟧;
  set_aux_area _ _ _ o := o;
  epoll_add e fd token o := (true, o ⟦ ty_watch ::= <[(e, fd) := token]> ⟧);
  epoll_del e fd o := o ⟦ ty_watch ::= delete (e, fd) ⟧;
  epoll_create o := (1, o);
  eventfd_create o := (2, o);
  eventfd_write _ _ o := (true, o);
  eventfd_read _ o := (Some 999, o);
  sem_init o := (true, o);
  sem_destroy o := o;
  sem_wait o := o;
  sem_post o := o;
  perf_setaffinity _ _ o := o;
  perf_stat _ _ := None;
  perf_page_size := 4096;
  clock_gettime o := (Some (1, 0), o);
  clock_getres := Some (0, 1);
  perf_exe _ := Some (txt "/bin/app");
  perf_realpath path _ := Some path;
  perf_maps _ := Some [];
  perf_writable _ _ := true;
  perf_tasks _ := Some [txt "100"];
  pfm_initialize := true;
  pfm_encode _ a := (true, a);
  spe_type_file := Some (txt "8");
  perf_strerror _ := [];
|}.

Definition toy_has (o : toy) (r : resource) : Prop :=
  match r with
  | RFd fd => 3 <= fd < ty_next o /\ fd ∉ ty_closed o
  | RMap base bytes => base < ty_brk o /\ ty_mapped o !! base = Some bytes
  end.

#[local] Instance toy_laws : PerfLaws toy_perf.
Proof.
  refine {| po_has := toy_has; po_value := (fun f (o : toy) => default 0 (ty_values o !! f));
            po_watch := (fun e f (o : toy) => ty_watch o !! (e, f));
            po_error := (fun _ _ => False) |}.
  - intros attr pid cpu group o; cbn [perf_event_open toy_perf].
    destruct (Z.ltb_spec (Z.max 3 (ty_next o)) 0); [lia|]; split_and!.
    + cbn; intros [? _]; lia.
    + intros [fd|base bytes]; cbn; [|split; [by right|by intros [?|?]]].
      split.
      * intros [H1 H2]; destruct (decide (fd = Z.max 3 (ty_next o))) as [->|Hne]; [by left|right].
        split; [lia|]; set_solver.
      * intros [[= ->]|[H1 H2]]; [split; [lia|set_solver]|]; split; [lia|set_solver].
    + done.
  - intros fd req o; cbn [perf_ioctl toy_perf]; destruct (req =? PERF_EVENT_IOC_RESET); cbn; split_and!; try done.
    + intros f Hf; by rewrite lookup_insert_ne.
    + by rewrite lookup_insert_eq.
  - intros fd o _ _; eexists; split; done.
  - by intros fd o _ [].
  - by intros fd o _ [].
  - intros fd o; cbn; split; [|done]; intros [f|base bytes]; cbn; [|naive_solver]; split.
    + intros [H1 H2]; split; [split; [done|set_solver]|]; intros [= ->]; set_solver.
    + intros [[H1 H2] H3]; split; [done|]; assert (f <> fd) by (by intros ->); set_solver.
  - intros bytes fd off o; cbn [perf_mmap toy_perf]; unfold toy_mmap; destruct (ty_maps_left o) as [|k]; [done|].
    destruct (Z.eqb_spec bytes 0); [done|]; split; [done|]; cbn; split_and!; [done|intros [? _]; lia|].
    intros [f|b n']; cbn; [split; [by right|by intros [?|?]]|]; destruct (decide (b = ty_brk o)) as [->|Hne].
    + rewrite lookup_insert_eq; split; [intros [_ [= ->]]; by left|].
      intros [[= <-]|[H _]]; [split; [lia|done]|lia].
    + rewrite lookup_insert_ne by done; split; [intros [H1 H2]; right; split; [lia|done]|].
      intros [[= -> ->]|[H1 H2]]; [done|split; [lia|done]].
  - intros base bytes o; cbn [perf_munmap toy_perf]; unfold toy_munmap; case_bool_decide as H; cbn; (split; [|done]).
    + intros [f|b n']; cbn; [naive_solver|]; destruct (decide (b = base)) as [->|Hne].
      * rewrite lookup_delete_eq; split; [by intros []|]; intros [[H1 H2] H3]; rewrite H in H2; naive_solver.
      * rewrite lookup_delete_ne by done; split; [intros [H1 H2]; split; [done|by intros [= ->]]|by intros [? _]].
    + intros [f|b n']; cbn; [naive_solver|]; split; [|by intros [? _]]; intros [H1 H2]; split; [done|]; by intros [= -> ->].
  - intros e fd token o; cbn; split_and!; [done|done| |].
    + intros f Hf e'; rewrite lookup_insert_ne; [done|]; by intros [= _ ->].
    + intros _; by rewrite lookup_insert_eq.
  - intros e fd o; cbn; split_and!; [done|done|]; intros f Hf e'; rewrite lookup_delete_ne; [done|]; by intros [= _ ->].
  - intros o; split_and!; done.
  - done.
Defined.

(** ** A run *)

#[local] Abbreviation toy_os := (@perf_os toy_perf).
Definition start_os (maps : nat) : toy_os := mk_toy 3 ∅ 100 ∅ maps ∅ ∅ ∅.
Definition demo_counters : event_spec := [(txt "INST_RETIRED", true)].
Definition demo_samplers : event_spec := [(txt "ARM_SPE:LOADSTORE", true)].
Definition no_env (name : text) : option text := None.
Abbreviation demo_initial := (initial_monitor demo_counters demo_samplers 1000 1 1 8 false).

(** The program runs: every event counts 5 more. *)
Definition tick (o : toy_os) : toy_os := (o : toy) ⟦ ty_values ::= fmap (fun v => v + 5) ⟧.

Inductive demo_step := Do (c : mon_call) | Tick.
Definition not_stop (c : mon_call) : bool := match c with Stop => false | _ => true end.
Fixpoint play (steps : list demo_step) (s : monitor * toy_os) : option (monitor * toy_os) :=
  match steps with
  | [] => Some s
  | Tick :: more => play more (s.1, tick s.2)
  | Do c :: more =>
      if negb (not_stop c) then None else
      match run_call c s with
      | Some (Ok _, s') => play more s'
      | _ => None
      end
  end.

Lemma play_run steps : forall s0 s n s', mon_run s0 s n false -> play steps s = Some s' -> exists n', mon_run s0 s' n' false.
Proof.
  induction steps as [|[c|] steps IH]; intros s0 s n s' Hr E; cbn [play] in E.
  - injection E as <-; eauto.
  - destruct (not_stop c) eqn:Hn; [|done]; cbn [negb] in E; destruct (run_call c s) as [[[u|e] s1]|] eqn:Ec; [|done|done].
    assert (H1 : mon_run s0 s1 n (false || leaks c (Ok u) s.1)) by (eapply run_step; [exact Hr|by intros ->|exact Ec]).
    assert (El : leaks c (Ok u) s.1 = false) by (by destruct c); rewrite El in H1; by eapply IH.
  - pose proof (run_count s0 s n false (tick s.2) Hr) as Ht; refine (IH s0 (s.1, tick s.2) _ s' (Ht _ _) E); [|done].
    by intros [].
Qed.

Definition demo_steps : list demo_step :=
  [Do (Attach 100); Do (Start (Some (txt "init")) false); Tick; Do (Register 200); Tick; Do (Unregister 100); Tick].

(** What the constructor returned. *)
Definition prepared : Type := option (result Z * (monitor * toy_os)).

Definition ends_well (init : prepared) (steps : list demo_step) : bool :=
  match init with
  | Some (Ok _, s0) =>
      match play steps s0 with
      | Some s => match stop s with
                  | Some (Ok _, s') => (reported 0 s'.1 =? 20) && (0 <? num_events s'.1) &&
                                       match window_counters s.1 with [None] => true | _ => false end &&
                                       match drain_all (s.1, s.2) with Some (Ok _, _) => true | _ => false end
                  | _ => false
                  end
      | None => false
      end
  | _ => false
  end.

Lemma ends_well_run init steps : ends_well init steps = true -> exists tid s0 s n s',
  init = Some (Ok tid, s0) /\ mon_run s0 s n false /\
  window_running s.1 /\ stop s = Some (Ok tt, s') /\ reported 0 s'.1 = 20 /\ 0 < num_events s'.1 /\
  last_drain_returns s.
Proof.
  unfold ends_well; intros H; destruct init as [[[tid|e] s0]|]; [|done|done].
  destruct (play steps s0) as [s|] eqn:Ep; [|done].
  destruct (stop s) as [[[[]|e] s']|] eqn:Es; [|done|done].
  apply andb_true_iff in H as [[[H1 H0]%andb_true_iff H2]%andb_true_iff H3].
  destruct (drain_all (s.1, s.2)) as [[[k|e] s'']|] eqn:Ed; [|done|done].
  destruct (play_run steps s0 s0 _ s (run_ready s0) Ep) as [n Hn].
  exists tid, s0, s, n, s'; split_and!; try done.
  - exists []; destruct (window_counters s.1) as [|[] [|]]; done.
  - by apply Z.eqb_eq.
  - by apply Z.ltb_lt.
  - intros _; exists s.2, k, s''; by split.
Qed.

Abbreviation demo_prepared := (prepare no_env (txt "rd") (demo_initial, start_os 100)).

(** Thread 100 counts from the start and leaves, thread 200 joins later: 20 counts
    in all. *)
Lemma demo_ends_well : ends_well demo_prepared demo_steps = true.
Proof. vm_compute; reflexivity. Qed.

Lemma windows_account_for_all_counts_witness : exists n : Z -> Z, 20 ≡₆₄ n 0.
Proof.
  destruct (ends_well_run _ _ demo_ends_well) as (tid & s0 & s & n & s' & Hp & Hr & Hw & Hs & Hv & Hn & _); exists n; rewrite <- Hv.
  destruct (windows_account_for_all_counts no_env (txt "rd") demo_counters demo_samplers 1000 1 1 8 false (start_os 100)
    tid s0 s n false) as (r & s2 & E & H); [lia|lia|exact Hp|exact Hr|exact Hw|].
  rewrite Hs in E; apply (inj Some), pair_eq in E as [<- <-]; apply H; [done|lia].
Defined.

Lemma shut_down_returns_everything_witness :
  exists s0 s s' : monitor * toy_os, shut_down s = Some (Ok tt, s') /\ forall x, toy_has s'.2 x <-> toy_has s0.2 x.
Proof.
  destruct (ends_well_run _ _ demo_ends_well) as (tid & s0 & s & n & s' & Hp & Hr & _ & _ & _ & _ & Hd); exists s0, s.
  refine (shut_down_returns_everything no_env (txt "rd") demo_counters demo_samplers 1000 1 1 8 false (start_os 100)
    tid s0 s n _ _ Hp Hr Hd); lia.
Defined.

(** Thread 100 has one slot, the first. *)
Definition slot_check (init : prepared) (steps : list demo_step) : bool :=
  match init with
  | Some (Ok _, s0) =>
      match play steps s0 with
      | Some s => match mo_threads s.1 !! 100 with
                  | Some t => match ts_samplers t with
                              | [sl] => negb (mo_epoll_fd s.1 =? -1) && (mo_next_slot_id s.1 =? 1)
                              | _ => false
                              end
                  | None => false
                  end
      | None => false
      end
  | _ => false
  end.

Lemma slot_check_run init steps : slot_check init steps = true -> exists tid s0 s n sl,
  init = Some (Ok tid, s0) /\ mon_run s0 s n false /\ slot_at s.1 100 0 sl /\
  mo_epoll_fd s.1 <> -1 /\ mo_next_slot_id s.1 <= 2147483648.
Proof.
  unfold slot_check; intros H; destruct init as [[[tid|e] s0]|]; [|done|done].
  destruct (play steps s0) as [s|] eqn:Ep; [|done].
  destruct (play_run steps s0 s0 _ s (run_ready s0) Ep) as [n Hn].
  destruct (mo_threads s.1 !! 100) as [t|] eqn:Et; [|done]; destruct (ts_samplers t) as [|sl [|]] eqn:Es; try done.
  apply andb_true_iff in H as [H2 H3]; rewrite negb_true_iff in H2.
  exists tid, s0, s, n, sl; split_and!; [done|done|exists t; by rewrite Es|lia|lia].
Qed.

Lemma wake_up_drains_its_slot_witness : exists (s : monitor * toy_os) (sl : sampler_slot) (token : Z),
  slot_at s.1 100 0 sl /\ ty_watch s.2 !! (mo_epoll_fd s.1, ss_fd sl) = Some token /\
  sampler_event token s = (process_samples_locked 100 0;; ret tt) s.
Proof.
  assert (H : slot_check demo_prepared [Do (Attach 100)] = true) by (vm_compute; reflexivity).
  destruct (slot_check_run _ _ H) as (tid & s0 & s & n & sl & Hp & Hn & Hsl & He & Hi); exists s, sl.
  destruct (wake_up_drains_its_slot no_env (txt "rd") demo_counters demo_samplers 1000 1 1 8 false (start_os 100)
    tid s0 s n false 100 0 sl) as [(token & T1 & _ & T2) _]; [lia|lia|exact Hp|exact Hn|exact Hsl|exact He|exact Hi|].
  exists token; exact (conj Hsl (conj T1 T2)).
Defined.

(** ** A registration that fails half-way *)

(** With room for the trial mapping and one more, the AUX buffer of the sampler
    cannot be mapped: the registration throws, and after the destructor the
    sampler's descriptor is still open and its ring buffer still mapped. *)
Definition leak_check : bool :=
  match prepare no_env (txt "rd") (demo_initial, start_os 2) with
  | Some (Ok _, s0) =>
      match run_call (Attach 100) s0 with
      | Some (Throw _, s) =>
          match shut_down s with
          | Some (Ok _, s') => (ty_next s0.2 <=? 4) && bool_decide (4 ∉ ty_closed s'.2) && (4 <? ty_next s'.2) &&
                               bool_decide (ty_mapped s'.2 !! 101 = Some 1052672)
          | _ => false
          end
      | _ => false
      end
  | _ => false
  end.

Example failed_mapping_leaks_descriptor : leak_check = true.
Proof. vm_compute; reflexivity. Qed.

(** ** The file of the run *)

Definition info_check (init : prepared) (steps : list demo_step) : bool :=
  match init with
  | Some (Ok _, s0) =>
      match play steps s0 with
      | Some s => match stop s with
                  | Some (Ok _, s1) =>
                      match window_counters s.1, mo_addr_tags s1.1, mo_phases s1.1, drain_all s1 with
                      | [None], [], [], Some (Ok _, _) =>
                          bool_decide (mo_counter_spec s1.1 = demo_counters) && bool_decide (mo_sampler_spec s1.1 = demo_samplers)
                      | _, _, _, _ => false
                      end
                  | _ => false
                  end
      | None => false
      end
  | _ => false
  end.

Lemma info_check_run init steps : info_check init steps = true -> exists tid s0 s n s1,
  init = Some (Ok tid, s0) /\ mon_run s0 s n false /\ window_counters s.1 = [] ++ [None] /\ stop s = Some (Ok tt, s1) /\
  last_drain_returns s1 /\ mo_counter_spec s1.1 = demo_counters /\ mo_sampler_spec s1.1 = demo_samplers /\ tags_ok s1.1.
Proof.
  unfold info_check; intros H; destruct init as [[[tid|e] s0]|]; [|done|done].
  destruct (play steps s0) as [s|] eqn:Ep; [|done]; destruct (stop s) as [[[[]|e] s1]|] eqn:Es; [|done|done].
  destruct (window_counters s.1) as [|[] [|]] eqn:Ew; try done; destruct (mo_addr_tags s1.1) eqn:Ea; [|done].
  destruct (mo_phases s1.1) eqn:Eh; [|done]; destruct (drain_all s1) as [[[k|e] s2]|] eqn:Ed; [|done|done].
  apply andb_true_iff in H as [H1%bool_decide_eq_true H2%bool_decide_eq_true].
  destruct (play_run steps s0 s0 _ s (run_ready s0) Ep) as [n Hn].
  exists tid, s0, s, n, s1; split_and!; try done.
  - intros _; exists s1.2, k, s2; split; [done|]; by destruct s1.
  - unfold tags_ok; rewrite Ea, Eh; by split_and!.
Qed.

Lemma demo_info_check : info_check demo_prepared demo_steps = true.
Proof. vm_compute; reflexivity. Qed.

(** The file of the demonstration run has the counts of its one window. *)
Lemma info_file_accounts_for_all_counts_witness : exists (n : Z -> Z) (out : outcome) (v : text),
  read_field (txt "INST_RETIRED") (file_of (oc_info out)) = Some v /\ sumZ (numbers v) ≡₆₄ n 0.
Proof.
  destruct (info_check_run _ _ demo_info_check) as (tid & s0 & s & n & s1 & Hp & Hr & Hw & Hs & Hd & E1 & E2 & Ht); exists n.
  destruct (info_file_accounts_for_all_counts no_env (txt "rd") demo_counters demo_samplers 1000 1 1 8 false (start_os 100)
    tid s0 s s1 n false [] None 64 0 (txt "INST_RETIRED")) as (out & s2 & v & _ & Er & _ & Hv);
    [lia|lia|exact Hp|exact Hr|exact Hw|constructor|exact Hs|exact Hd| |exact Ht|by rewrite E1|by exists out, v].
  unfold names_ok; rewrite E1, E2; split.
  - by apply (bool_decide_eq_true_1 (NoDup _)); vm_compute.
  - repeat constructor; done.
Defined.

(** A window that was never stopped has no counters; the destructor gives back the
    descriptors and then reads through the null pointer. *)
Definition open_window_check (init : prepared) (steps : list demo_step) : bool :=
  match init with
  | Some (Ok _, s0) =>
      match play steps s0 with
      | Some s => match shut_down s with
                  | Some (Ok _, s') => bool_decide (write_info None 64 s'.1 = None)
                  | _ => false
                  end
      | None => false
      end
  | _ => false
  end.

Example open_window_has_no_counters : open_window_check demo_prepared demo_steps = true.
Proof. vm_compute; reflexivity. Qed.

(** ** A sample *)

(** The kernel writes into the ring at [base]. *)
Definition arrive (base : Z) (r : ring_buffer) (o : toy_os) : toy_os := (o : toy) ⟦ ty_rings ::= <[base := r]> ⟧.

(** One AUX record with the packets of one sample behind it. *)
Definition one_sample : ring_buffer :=
  sl_ring (RingDrain.demo_slot [RingDrain.demo_aux_record]).

Inductive sample_step := SDo (c : mon_call) | SArrive (base : Z) (r : ring_buffer).
Fixpoint play_samples (steps : list sample_step) (s : monitor * toy_os) : option (monitor * toy_os) :=
  match steps with
  | [] => Some s
  | SArrive base r :: more => play_samples more (s.1, arrive base r s.2)
  | SDo c :: more =>
      if negb (not_stop c) then None else
      match run_call c s with
      | Some (Ok _, s') => play_samples more s'
      | _ => None
      end
  end.

Lemma play_samples_run steps : forall s0 s s', sample_run s0 s -> play_samples steps s = Some s' -> sample_run s0 s'.
Proof.
  induction steps as [|[c|base r] steps IH]; intros s0 s s' Hr E; cbn [play_samples] in E.
  - by injection E as <-.
  - destruct (not_stop c) eqn:Hn; [|done]; cbn [negb] in E; destruct (run_call c s) as [[[[]|e] s1]|] eqn:Ec; [|done|done].
    eapply IH; [|exact E]; apply (sample_call s0 s c (Ok tt) s1); [exact Hr|by intros ->|done|exact Ec].
  - pose proof (sample_arrives s0 s (arrive base r s.2) Hr) as Ht; refine (IH s0 (s.1, arrive base r s.2) s' (Ht _ _) E); [|done].
    by intros [].
Qed.

(** Thread 100 is sampled once; its ring is the second mapping. *)
Definition sampled_steps : list sample_step :=
  [SDo (Attach 100); SDo (Start None false); SArrive 101 one_sample; SDo (Command SAMPLER_DRAIN)].

Definition samples_check (init : prepared) (steps : list sample_step) : bool :=
  match init with
  | Some (Ok _, s0) =>
      match play_samples steps s0 with
      | Some s => match shut_down s, drain_all s with
                  | Some (Ok _, s'), Some (Ok _, _) =>
                      (plain_records s'.1 =? 0) && (spe_records s'.1 =? 1) && has_arm_spe_samples s'.1
                  | _, _ => false
                  end
      | None => false
      end
  | _ => false
  end.

Lemma samples_check_run init steps : samples_check init steps = true -> exists tid s0 s s',
  init = Some (Ok tid, s0) /\ sample_run s0 s /\ last_drain_returns s /\ shut_down s = Some (Ok tt, s') /\
  plain_records s'.1 = 0 /\ spe_records s'.1 = 1 /\ has_arm_spe_samples s'.1 = true.
Proof.
  unfold samples_check; intros H; destruct init as [[[tid|e] s0]|]; [|done|done].
  destruct (play_samples steps s0) as [s|] eqn:Ep; [|done]; destruct (shut_down s) as [[[[]|e] s']|] eqn:Es; [|done|done].
  destruct (drain_all s) as [[[k|e] s2]|] eqn:Ed; [|done|done].
  apply andb_true_iff in H as [[H1 H2]%andb_true_iff H3]; exists tid, s0, s, s'; split_and!; try done; try by apply Z.eqb_eq.
  - eapply play_samples_run; [apply sample_ready|exact Ep].
  - intros _; exists s.2, k, s2; split; [done|]; by destruct s.
Qed.

Lemma sampled_check : samples_check demo_prepared sampled_steps = true.
Proof. vm_compute; reflexivity. Qed.

(** The one record is counted in the one window, and the check of the bytes is
    silent. *)
Lemma sample_files_match_windows_witness : exists s s' : monitor * toy_os,
  shut_down s = Some (Ok tt, s') /\ windows_total s'.1 ≡₆₄ 1 /\ bytes_match s'.1 = true.
Proof.
  destruct (samples_check_run _ _ sampled_check) as (tid & s0 & s & s' & Hp & Hr & Hd & Hs & E1 & E2 & E3); exists s, s'.
  destruct (sample_files_match_windows no_env (txt "rd") demo_counters demo_samplers 1000 1 1 8 false (start_os 100)
    tid s0 s) as (s2 & E & Hw & Hb); [lia|lia|exact Hp|exact Hr|exact Hd|].
  rewrite Hs in E; apply (inj Some), pair_eq in E as [_ <-]; rewrite E1, E2 in Hw; rewrite E1, E3 in Hb.
  split; [exact Hs|]; split; [exact Hw|exact (Hb eq_refl)].
Defined.

End MonitorDemo.
