(* ===== verification/Periodic.v ===== *)
(** The phase-one profiler: [PeriodicProfiler] of [src/periodic_profiler.cc].

    It owns a [Monitor], opens its first window, and has a background thread that
    closes the window and opens the next one every second, labelled with the tag
    of the current phase.  The event arrays are those of the AArch64 build unless
    an architecture is a parameter. *)
From S2P Require Import Prelude CText Effects PerfEvents Monitor MonitorInfo.
Import PerfEvents Monitor MonitorInfo.

(** [enum perp_mode]. *)
Inductive perp_mode := PERP_OFF | PERP_ROOFLINE | PERP_NONE | PERP_PREFETCH.
#[export] Instance perp_mode_eq_dec : EqDecision perp_mode.
Proof. solve_decision. Defined.

Inductive architecture := X86_64 | AARCH64.

Record periodic := mk_periodic {
  pp_mon : monitor;
  pp_stop_thread : bool;
  pp_tag : text;
}.
#[export] Instance eta_periodic : Eta periodic := fun r => mk_periodic (pp_mon r) (pp_stop_thread r) (pp_tag r).

Module Periodic.

(** ** Event specifications *)

(** [event_spec] as the source builds it: a count and two arrays. *)
Record event_arrays := mk_arrays { ea_n : nat; ea_name : list text; ea_leader : list bool }.

(** The counters of the roofline mode, which no mode opens at present. *)
Definition EVENT_NAME_X86_64 : list text :=
  [txt "OFFCORE_RESPONSE_0:L3_MISS_LOCAL"; txt "OFFCORE_RESPONSE_1:L3_MISS_MISS_REMOTE_HOP1_DRAM";
   txt "FP_ARITH_INST_RETIRED.SCALAR_SINGLE"; txt "FP_ARITH_INST_RETIRED.SCALAR_DOUBLE";
   txt "FP_ARITH_INST_RETIRED.128B_PACKED_DOUBLE"; txt "FP_ARITH_INST_RETIRED.128B_PACKED_SINGLE";
   txt "FP_ARITH_INST_RETIRED.256B_PACKED_DOUBLE"; txt "FP_ARITH_INST_RETIRED.256B_PACKED_SINGLE";
   txt "FP_ARITH_INST_RETIRED.512B_PACKED_DOUBLE"; txt "FP_ARITH_INST_RETIRED.512B_PACKED_SINGLE"].
Definition EVENT_NAME_AARCH64 : list text := [txt "REMOTE_ACCESS"; txt "BUS_ACCESS_RD"; txt "INST_RETIRED"].
Definition EVENT_NAME (a : architecture) : list text :=
  match a with X86_64 => EVENT_NAME_X86_64 | AARCH64 => EVENT_NAME_AARCH64 end.
Definition NUM_EVENTS (a : architecture) : nat := match a with X86_64 => 10 | AARCH64 => 3 end.

(** [EVENT_LEADER]: ten entries on x86-64, three on AArch64. *)
Definition EVENT_LEADER (a : architecture) : list bool :=
  match a with X86_64 => replicate 10 true | AARCH64 => replicate 3 true end.

Definition SAMPLE_EVENTS (a : architecture) : list text :=
  match a with
  | X86_64 => [txt "MEM_LOAD_UOPS_L3_MISS_RETIRED:LOCAL_DRAM"; txt "MEM_LOAD_UOPS_L3_MISS_RETIRED:REMOTE_DRAM"]
  | AARCH64 => [txt "ARM_SPE:LOADSTORE"]
  end.

Definition PF_EVENTS : list text :=
  [txt "OFFCORE_RESPONSE_0:PF_L2_DATA_RD"; txt "OFFCORE_RESPONSE_0:PF_L2_RFO"; txt "L2_LINES_IN";
   txt "L2_LINES_OUT:USELESS_HWPF"].

Definition null_spec : event_arrays := mk_arrays 0 [] [].
Definition rl_counters (a : architecture) : event_arrays := mk_arrays (NUM_EVENTS a) (EVENT_NAME a) (EVENT_LEADER a).
Definition mem_samplers (a : architecture) : event_arrays :=
  mk_arrays (length (SAMPLE_EVENTS a)) (SAMPLE_EVENTS a) (EVENT_LEADER a).
Definition pf_counters (a : architecture) : event_arrays := mk_arrays 4 PF_EVENTS (EVENT_LEADER a).

Definition get_counters (a : architecture) (sample_period : Z) (mode : perp_mode) : event_arrays :=
  match mode with
  | PERP_ROOFLINE => null_spec
  | PERP_NONE => null_spec
  | PERP_PREFETCH => pf_counters a
  | PERP_OFF => null_spec
  end.

Definition get_samplers (a : architecture) (sample_period : Z) (mode : perp_mode) : event_arrays :=
  match mode with
  | PERP_ROOFLINE => if sample_period =? 0 then null_spec else mem_samplers a
  | _ => null_spec
  end.

(** Every entry that [open_fds] reads is inside its array. *)
Definition arrays_cover (e : event_arrays) : bool :=
  (ea_n e <=? length (ea_name e))%nat && (ea_n e <=? length (ea_leader e))%nat.

(** The two static assertions of the source. *)
Example event_arrays_agree a :
  length (EVENT_NAME a) = NUM_EVENTS a /\ length (EVENT_LEADER a) = NUM_EVENTS a.
Proof. by destruct a. Qed.

(** The events a monitor opens; [beyond] is what a read past the leaders finds. *)
Definition events_of (beyond : bool) (e : event_arrays) : event_spec :=
  imap (fun i name => (name, default beyond (ea_leader e !! i))) (take (ea_n e) (ea_name e)).

(** ** The profiler *)

Section operations.
Context `{Pf : PerfApi} (a : architecture) (beyond : bool).

Abbreviation pprog := (prog periodic perf_os).

(** A call of the monitor. *)
Definition on_mon {A} (m : prog monitor perf_os A) : pprog A := fun s =>
  '(r, (p, o)) ← m (pp_mon s.1, s.2); Some (r, (s.1 ⟦ pp_mon := p ⟧, o)).

Definition initial_periodic (sample_period : Z) (mode : perp_mode) (ringbufsize auxbufsize num_cpus : Z)
    (is_pin : bool) : periodic :=
  mk_periodic
    (initial_monitor (events_of beyond (get_counters a sample_period mode))
       (events_of beyond (get_samplers a sample_period mode)) (u64 sample_period) ringbufsize auxbufsize
       num_cpus is_pin)
    false (txt "init").

(** The constructor.  Once the background thread exists, an exception would
    destroy it while it can be joined, which ends the process. *)
Definition construct (getenv : text -> option text) (profile_name : text) : pprog unit :=
  on_mon (Monitor.construct getenv profile_name);;
  terminate_on_throw (
    p <-- get;
    on_mon (start (Some (pp_tag p)) false);;
    on_mon set_nonstop).

(** One round of [run_thread]. *)
Definition round : pprog unit :=
  on_mon stop;;
  p <-- get;
  on_mon (start (Some (pp_tag p)) false).

(** The background thread over [rounds] seconds; it leaves the loop when it finds
    the flag set. *)
Fixpoint rounds (n : nat) : pprog unit :=
  match n with O => ret tt | S n => round;; rounds n end.
Definition run_thread (n : nat) : pprog unit := terminate_on_throw (rounds n;; on_mon stop).

Definition kernel_start (tag : text) : pprog unit :=
  on_mon (mark_phase (txt "+" ++ tag));;
  modify (fun p => p ⟦ pp_tag := tag ⟧).

Definition kernel_stop : pprog unit :=
  p <-- get;
  on_mon (mark_phase (txt "-" ++ pp_tag p));;
  modify (fun p => p ⟦ pp_tag := txt "init" ⟧).

(** The destructor, with [last] rounds that the background thread completes
    before it sees the flag; then the monitor is destroyed: what it writes. *)
Definition destroy (cmdline : option text) (line_size : Z) (last : nat) : pprog outcome :=
  modify (fun p => p ⟦ pp_stop_thread := true ⟧);;
  run_thread last;;
  on_mon (destroy_monitor cmdline line_size).

End operations.

End Periodic.
