(* ===== verification/PeriodicSpec.v ===== *)
(** The windows of the phase-one profiler: every second of a run has one window,
    and together the windows report what the events counted. *)
From S2P Require Import Prelude CText Effects PerfEvents Manifest Monitor MonitorInv MonitorState MonitorSpec MonitorInfo.
From S2P Require Import Periodic.
Import PerfEvents Manifest Monitor MonitorInv MonitorState MonitorSpec MonitorInfo Periodic.

Module PeriodicSpec.

Section spec.
Context {Pf : PerfApi} {PL : PerfLaws Pf}.

(** ** Windows of the monitor *)

Definition opens_or_closes (c : mon_call) : bool := match c with Start _ _ | Stop => true | _ => false end.

Lemma ledger_windows p q : ledger q = ledger p -> window_counters q = window_counters p.
Proof. unfold ledger, window_counters; by intros [= _ ->]. Qed.
Lemma outer_windows p q : outer q = outer p -> window_counters q = window_counters p.
Proof. intros H; apply outer_parts in H as (_ & H & _); by apply ledger_windows. Qed.
Lemma calm_windows s s' : calm s s' -> window_counters s'.1 = window_counters s.1.
Proof. intros (_ & H & _); by apply outer_windows. Qed.

(** Only the background thread opens and closes windows. *)
Lemma call_keeps_windows s0 s n l c r s' :
  run_inv s0 s n l -> opens_or_closes c = false -> run_call c s = Some (r, s') ->
  window_counters s'.1 = window_counters s.1.
Proof.
  destruct s as [p o]; intros H Hc E; destruct (ri_inv _ _ _ _ H) as (F & Hi & _); pose proof (ri_arrays _ _ _ _ H) as Ha.
  assert (Hcalm : wlp (run_call c) (fun _ s' => calm (p, o) s') (p, o) -> window_counters s'.1 = window_counters p).
  { intros Hw; eapply wlp_run in Hw; [|exact E]; by apply calm_windows in Hw. }
  assert (Hreg : wlp (run_call c) (register_post F p o) (p, o) -> window_counters s'.1 = window_counters p).
  { intros Hw; eapply wlp_run in Hw; [|exact E]; by apply outer_windows, Hw. }
  destruct c; try done; cbn [run_call fst] in *.
  - apply Hreg; by apply register_thread_spec.
  - apply Hreg; by apply register_current_post.
  - assert (Hu : wlp (unregister_current_thread tid) (fun _ s' => settled F p o s') (p, o)).
    { apply wp_bind, wp_get, wp_if; intros _; [apply wp_ret; by apply settled_calm|by apply unregister_thread_spec]. }
    eapply wlp_run in Hu; [|exact E]; destruct Hu as (_ & _ & Hl & _); by apply ledger_windows.
  - apply Hcalm, sampler_event_calm.
  - apply Hcalm, wp_bind; eapply wp_mono; [apply sampler_command_calm|]; intros [b|e] s1 C1; [by apply wp_ret|done].
  - apply Hcalm; eapply wp_mono; [apply (calm_modify (C := True)); [|reflexivity]; done|]; by intros ? ? [_ ?].
  - apply Hcalm, mark_phase_calm.
  - apply Hcalm; eapply wp_mono; [apply (calm_modify (C := True)); [|reflexivity]; done|]; by intros ? ? [_ ?].
  - apply Hcalm, read_samples_calm.
Qed.

Lemma attach_all_run s0 tids : ready s0 -> forall s n l r s', mon_run s0 s n l ->
  forM tids (fun tid => try_catch (register_thread_locked tid);; ret tt) s = Some (r, s') ->
  (exists l', mon_run s0 s' n l') /\ window_counters s'.1 = window_counters s.1.
Proof.
  intros H0; induction tids as [|tid tids IH]; intros s n l r s' Hr E; cbn [forM] in E; [injection E as <- <-; eauto|].
  unfold bind at 1 2, try_catch in E.
  destruct (register_thread_locked tid s) as [[r1 s1]|] eqn:E1; [|done]; rewrite some_bind in E; cbn in E.
  pose proof (call_keeps_windows _ _ _ _ (Attach tid) _ _ (mon_run_inv _ _ _ _ H0 Hr) eq_refl E1) as Hw.
  rewrite <- Hw; eapply IH; [|exact E]; by apply (run_step s0 s n l (Attach tid) r1).
Qed.

Lemma attach_run s tid r s' : ready s -> attach_threads tid s = Some (r, s') ->
  (exists l, mon_run s s' (fun _ => 0) l) /\ window_counters s'.1 = [].
Proof.
  intros H0; assert (E0 : window_counters s.1 = []) by (destruct H0 as (_ & _ & _ & E & _); unfold window_counters; by rewrite E).
  unfold attach_threads, bind at 1, ask, call; unfold bind at 1, lift; cbn [snd].
  destruct s as [p o]; cbn [fst snd] in *; destruct (TargetedCtl.TargetedCtl.get_threads _ _) as [tids|e]; intros E.
  - rewrite <- E0; by apply (attach_all_run (p, o) tids H0 (p, o) _ _ r s' (run_ready _)).
  - injection E as <- <-; split; [eexists; apply run_ready|done].
Qed.

(** ** Runs of the profiler *)

(** Calls between rounds: phases, and what other threads do to the monitor. *)
Inductive pp_call := PStart (tag : text) | PStop | PThread (c : mon_call).

Definition run_pp_call (c : pp_call) : prog periodic perf_os unit :=
  match c with
  | PStart tag => kernel_start tag
  | PStop => kernel_stop
  | PThread c => on_mon (run_call c)
  end.
Definition pp_allowed (c : pp_call) : bool := match c with PThread c => negb (opens_or_closes c) | _ => true end.

(** [pp_run s0 s n k]: after the constructor left [s0], [k] rounds of the
    background thread and any calls of other threads, between which events count. *)
Inductive pp_run (s0 : periodic * perf_os) : periodic * perf_os -> (Z -> Z) -> nat -> Prop :=
| pp_built : pp_run s0 s0 (fun _ => 0) 0
| pp_round s n k s' : pp_run s0 s n k -> round s = Some (Ok tt, s') -> pp_run s0 s' n (S k)
| pp_other s n k c r s' :
    pp_run s0 s n k -> pp_allowed c = true -> run_pp_call c s = Some (r, s') -> pp_run s0 s' n k
| pp_count s n k o' :
    pp_run s0 s n k -> (forall r, po_has o' r <-> po_has s.2 r) -> (forall e f, po_watch e f o' = po_watch e f s.2) ->
    pp_run s0 (s.1, o') (fun c => n c + sumZ ((fun fd => po_value fd o' - po_value fd s.2) <$> event_fds (pp_mon s.1) c)) k.

(** [k] windows are closed and one is open. *)
Definition windows (k : nat) (p : monitor) : Prop :=
  exists ws, window_counters p = ws ++ [None] /\ length ws = k /\ Forall is_Some ws.

Definition mon_state (s : periodic * perf_os) : monitor * perf_os := (pp_mon s.1, s.2).

Definition pp_inv (sm : monitor * perf_os) (s : periodic * perf_os) (n : Z -> Z) (k : nat) : Prop :=
  (exists l, mon_run sm (mon_state s) n l) /\ windows k (pp_mon s.1).

Lemma on_mon_run {A} (m : prog monitor perf_os A) s r s' :
  on_mon m s = Some (r, s') -> m (mon_state s) = Some (r, mon_state s') /\ pp_tag s'.1 = pp_tag s.1.
Proof.
  unfold on_mon, mon_state; destruct (m (pp_mon s.1, s.2)) as [[r1 [p o]]|]; [|done]; rewrite some_bind.
  by intros [= <- <-].
Qed.

Lemma windows_running k p : windows k p -> window_running p.
Proof. intros (ws & E & _); by exists ws. Qed.

Lemma closed_windows k p o s' : windows k p -> closed_window p o s' ->
  length (mo_kinfos s'.1) = S k /\ Forall is_Some (window_counters s'.1).
Proof.
  intros (ws & E & Hk & Hs) (_ & _ & _ & _ & ws' & cs & E1 & E2 & _).
  rewrite E in E1; apply app_inj_tail in E1 as [<- _]; split.
  - assert (L : length (window_counters s'.1) = S k) by (rewrite E2, length_app; cbn; lia).
    unfold window_counters in L; by rewrite length_fmap in L.
  - rewrite E2; apply Forall_app; split; [done|]; repeat constructor; eauto.
Qed.

Lemma opened_windows tag offloaded s s' r k :
  Forall is_Some (window_counters s.1) -> length (mo_kinfos s.1) = k ->
  start tag offloaded s = Some (r, s') -> windows k s'.1.
Proof.
  intros Hs Hk E; destruct s as [p o]; pose proof (start_spec (C := True) tag offloaded p o) as Hw; eapply wlp_run in Hw; [|exact E].
  apply calm_windows in Hw; exists (window_counters p); split_and!; [|by unfold window_counters; rewrite length_fmap|done].
  rewrite Hw; unfold opened_window, window_counters; cbn; by rewrite fmap_app.
Qed.

End spec.

Section runs.
Context {Pf : PerfApi} {PL : PerfLaws Pf} (sm : monitor * perf_os) (Hready : ready sm).

Lemma round_inv s n k s' : pp_inv sm s n k -> round s = Some (Ok tt, s') -> pp_inv sm s' n (S k).
Proof.
  intros [[l Hm] Hw] E; unfold round, bind at 1 in E.
  destruct (on_mon stop s) as [[[[]|e] s1]|] eqn:E1; [|done|done]; apply on_mon_run in E1 as [E1 _].
  unfold bind, get in E; destruct (on_mon (start _ _) s1) as [[r2 s2]|] eqn:E2; [|done].
  injection E as -> <-; apply on_mon_run in E2 as [E2 _].
  pose proof (mon_run_inv sm _ n l Hready Hm) as Hi; destruct (ri_inv _ _ _ _ Hi) as (F & HF & _).
  pose proof (stop_spec (C := True) F _ _ HF (ri_arrays _ _ _ _ Hi) (windows_running _ _ Hw)) as Hc.
  eapply wlp_run in Hc; [|exact E1]; cbn in Hc; destruct (closed_windows _ _ _ _ Hw Hc) as [L1 L2]; split.
  - pose proof (run_step sm _ n l Stop (Ok tt) _ Hm (fun _ => windows_running _ _ Hw) E1) as Hm1.
    eexists; refine (run_step sm _ n _ (Start _ _) (Ok tt) _ Hm1 _ E2); done.
  - exact (opened_windows _ _ _ (mon_state s2) _ _ L2 L1 E2).
Qed.

Lemma call_inv s n k c r s' :
  pp_inv sm s n k -> opens_or_closes c = false -> run_call c (mon_state s) = Some (r, mon_state s') -> pp_inv sm s' n k.
Proof.
  intros [[l Hm] Hw] Hc E; split.
  - eexists; refine (run_step sm _ n l c r _ Hm _ E); by intros ->.
  - pose proof (mon_run_inv sm _ n l Hready Hm) as Hi; unfold windows.
    by rewrite (call_keeps_windows _ _ _ _ _ _ _ Hi Hc E : window_counters (pp_mon s'.1) = _).
Qed.

Lemma phase_inv s n k tag f r s' :
  (forall p, pp_mon (f p) = pp_mon p) ->
  pp_inv sm s n k -> (on_mon (mark_phase tag);; modify f) s = Some (r, s') -> pp_inv sm s' n k.
Proof.
  intros Hf H E; unfold bind in E; destruct (on_mon (mark_phase tag) s) as [[r1 s1]|] eqn:E1; [|done].
  apply on_mon_run in E1 as [E1 _]; assert (H1 : pp_inv sm s1 n k).
  { destruct r1 as [u|e]; (eapply (call_inv s n k (MarkPhase tag)); [done|done|exact E1]). }
  destruct r1 as [u|e]; [|by injection E as <- <-]; unfold modify in E; injection E as <- <-.
  unfold pp_inv, mon_state; cbn [fst snd]; by rewrite Hf.
Qed.

Lemma pp_run_inv s0 s n k : pp_inv sm s0 (fun _ => 0) 0 -> pp_run s0 s n k -> pp_inv sm s n k.
Proof.
  intros H0; induction 1 as [|s n k s' _ IH E|s n k c r s' _ IH Ha E|s n k o' _ IH H1 H2]; [done|by eapply round_inv| |].
  - destruct c as [tag| |c]; cbn [run_pp_call pp_allowed] in *.
    + by eapply phase_inv; [|exact IH|exact E].
    + unfold kernel_stop, bind at 1, get in E; by eapply phase_inv; [|exact IH|exact E].
    + apply on_mon_run in E as [E _]; eapply call_inv; [done| |exact E]; by rewrite negb_true_iff in Ha.
  - destruct IH as [[l Hm] Hw]; split; [exists l|done]; by apply (run_count sm _ n l o' Hm).
Qed.

End runs.

Section theorems.
Context {Pf : PerfApi} {PL : PerfLaws Pf} (a : architecture) (beyond : bool).

(** What the constructor leaves: an open window of a monitor that was prepared. *)
Lemma constructor_inv getenv name period mode ring aux cpus pin o s0 :
  0 <= ring < 2048 -> 0 <= aux < 2048 ->
  construct getenv name (initial_periodic a beyond period mode ring aux cpus pin, o) = Some (Ok tt, s0) ->
  exists sm, ready sm /\ pp_inv sm s0 (fun _ => 0) 0 /\
    specs sm.1 = (events_of beyond (get_counters a period mode), events_of beyond (get_samplers a period mode)).
Proof.
  intros Hring Haux E; unfold construct, bind at 1 in E.
  destruct (on_mon (Monitor.Monitor.construct getenv name) _) as [[[[]|e] s1]|] eqn:E1; [|done|done].
  apply on_mon_run in E1 as [E1 _]; unfold Monitor.Monitor.construct, bind at 1 in E1.
  destruct (prepare getenv name _) as [[[tid|e] sm]|] eqn:Ep; [|done|done].
  assert (Hr : ready sm) by (by eapply prepare_ready; [exact Hring|exact Haux|exact Ep]).
  destruct (attach_run _ _ _ _ Hr E1) as [[l Hm] E0]; exists sm; split; [done|]; split; [|exact (prepare_specs _ _ _ _ _ Ep)].
  unfold terminate_on_throw, bind, get in E.
  destruct (on_mon (start _ _) s1) as [[[[]|e] s2]|] eqn:E2; [|done|done]; apply on_mon_run in E2 as [E2 _].
  destruct (on_mon set_nonstop s2) as [[[[]|e] s3]|] eqn:E3; [|done|done]; rewrite some_bind in E; injection E as <-.
  apply on_mon_run in E3 as [E3 _].
  assert (H2 : pp_inv sm s2 (fun _ => 0) 0).
  { split; [eexists; refine (run_step sm _ _ l (Start _ _) (Ok tt) _ Hm _ E2); done|].
    refine (opened_windows _ _ _ (mon_state s2) _ _ _ _ E2); [by rewrite E0|].
    apply (f_equal length) in E0; unfold window_counters in E0; by rewrite length_fmap in E0. }
  by eapply (call_inv sm Hr s2 _ _ SetNonstop).
Qed.

(** After [k] rounds of the background thread the profiler's run has one window
    per second: the [stop] that follows does not crash, and unless it throws, all
    [k + 1] windows are closed and their counts add up, modulo [2^64], to what the
    events of every registered thread counted since the constructor. *)
Theorem every_second_is_accounted
    (getenv : text -> option text) (name : text) (period : Z) (mode : perp_mode) (ring aux cpus : Z) (pin : bool)
    (o : perf_os) (s0 s : periodic * perf_os) (n : Z -> Z) (k : nat)
    (Hring : 0 <= ring < 2048) (Haux : 0 <= aux < 2048)
    (Hnew : construct getenv name (initial_periodic a beyond period mode ring aux cpus pin, o) = Some (Ok tt, s0))
    (Hrun : pp_run s0 s n k) :
  exists r s', on_mon stop s = Some (r, s') /\
    (r = Ok tt ->
       length (mo_kinfos (pp_mon s'.1)) = S k /\ Forall is_Some (window_counters (pp_mon s'.1)) /\
       forall c, 0 <= c < num_events (pp_mon s'.1) -> reported c (pp_mon s'.1) ≡₆₄ n c).
Proof.
  destruct (constructor_inv _ _ _ _ _ _ _ _ _ _ Hring Haux Hnew) as (sm & Hr & H0 & _).
  destruct (pp_run_inv sm Hr _ _ _ _ H0 Hrun) as [[l Hm] Hw].
  pose proof (mon_run_inv sm _ n l Hr Hm) as Hi; destruct (ri_inv _ _ _ _ Hi) as (F & HF & _).
  pose proof (stop_spec (C := False) F _ _ HF (ri_arrays _ _ _ _ Hi) (windows_running _ _ Hw)) as Hs.
  unfold on_mon; unfold wpc in Hs; fold (mon_state s) in *; change (pp_mon s.1, s.2) with (mon_state s) in *.
  destruct (stop (mon_state s)) as [[r [p' o']]|]; [|done]; rewrite some_bind; eexists _, _; split; [done|]; intros ->.
  cbn [fst snd pp_mon]; destruct (closed_windows _ _ _ _ Hw Hs) as [L1 L2]; split_and!; [done|done|].
  exact (proj2 (run_inv_stop sm _ n l (p', o') Hi Hs)).
Qed.

(** The names of the profiler's events are distinct and are no other keys of the
    [.info] file. *)
Lemma periodic_names period mode (p : monitor) :
  specs p = (events_of beyond (get_counters a period mode), events_of beyond (get_samplers a period mode)) -> names_ok p.
Proof.
  unfold specs, names_ok; intros [= -> ->]; destruct a, mode; unfold get_samplers; try destruct (period =? 0); cbn.
  all: split; [by apply (bool_decide_eq_true_1 (NoDup _)); vm_compute|repeat constructor; done].
Qed.

(** C8. The profile a run leaves is complete.  After [k] rounds of the background
    thread, with phases and threads coming and going, the destructor stops the last
    window, ends, and writes an [.info] file in which the line of each counter has
    [k + 1] numbers that add up, modulo [2^64], to what the event counted in every
    registered thread since the constructor.  The last stop and the last drain have
    to return; the phases have tags without a line break. *)
Theorem profile_is_complete
    (getenv : text -> option text) (name : text) (period : Z) (mode : perp_mode) (ring aux cpus : Z) (pin : bool)
    (o : perf_os) (s0 s s1 : periodic * perf_os) (n : Z -> Z) (k : nat) (cmdline : option text) (line_size : Z)
    (c : nat) (event : text)
    (Hring : 0 <= ring < 2048) (Haux : 0 <= aux < 2048)
    (Hnew : construct getenv name (initial_periodic a beyond period mode ring aux cpus pin, o) = Some (Ok tt, s0))
    (Hrun : pp_run s0 s n k) (Hstop : on_mon stop s = Some (Ok tt, s1)) (Hlast : last_drain_returns (mon_state s1))
    (Htags : tags_ok (pp_mon s1.1)) (Hc : (events_of beyond (get_counters a period mode)).*1 !! c = Some event) :
  exists out s2 v, destroy cmdline line_size 0 s = Some (Ok out, s2) /\
    read_field event (file_of (oc_info out)) = Some v /\ length (numbers v) = S k /\ sumZ (numbers v) ≡₆₄ n (Z.of_nat c).
Proof.
  destruct (constructor_inv _ _ _ _ _ _ _ _ _ _ Hring Haux Hnew) as (sm & Hr & H0 & Hsp).
  destruct (pp_run_inv sm Hr _ _ _ _ H0 Hrun) as [[l Hm] Hw].
  pose proof (mon_run_inv sm _ n l Hr Hm) as Hi; destruct (ri_inv _ _ _ _ Hi) as (F & HF & _).
  pose proof (stop_spec (C := False) F _ _ HF (ri_arrays _ _ _ _ Hi) (windows_running _ _ Hw)) as Hs; unfold wpc in Hs.
  change (pp_mon s.1, s.2) with (mon_state s) in Hs; pose proof Hstop as Es; apply on_mon_run in Es as [Es _]; rewrite Es in Hs.
  destruct (run_inv_stop sm (mon_state s) n l (mon_state s1) Hi Hs) as [H1 Hrep]; destruct (closed_windows _ _ _ _ Hw Hs) as [L1 L2].
  pose proof (ri_specs _ _ _ _ H1) as Hsp1; rewrite Hsp in Hsp1.
  assert (Hspec : mo_counter_spec (mon_state s1).1 = events_of beyond (get_counters a period mode)) by by injection Hsp1.
  destruct (destroy_accounts sm (mon_state s1) n l cmdline line_size c event) as (out & s2 & v & Ed & Er & Ln & Hsum); try done.
  - intros E; by rewrite E in L1.
  - apply Hrep; apply lookup_lt_Some in Hc; rewrite length_fmap in Hc.
    unfold num_events, num_counters, num_samplers; rewrite Hspec; lia.
  - by eapply periodic_names.
  - by rewrite Hspec.
  - destruct s2 as [p2 o2]; eexists out, _, v; split; [|by rewrite Ln, L1].
    unfold destroy, run_thread, terminate_on_throw, bind, modify, ret; cbn [rounds]; unfold ret, on_mon; cbn [fst snd].
    change (pp_mon (s.1 ⟦ pp_stop_thread := true ⟧), s.2) with (mon_state s); rewrite Es; cbn.
    change (pp_mon s1.1, s1.2) with (mon_state s1); rewrite Ed; cbn; reflexivity.
Qed.

(** A tag with an equals sign or a newline, which [rd_start] accepts, ends the
    process at the next round: [Monitor::start] throws in the background thread. *)
Theorem forbidden_tag_terminates (tag : text) (s s1 : periodic * perf_os) (k : nat)
    (Htag : existsb forbidden_in_tag tag = true) (Hstart : kernel_start tag s = Some (Ok tt, s1)) :
  run_thread (S k) s1 = None.
Proof.
  assert (Ht : pp_tag s1.1 = tag).
  { unfold kernel_start, bind in Hstart; destruct (on_mon _ s) as [[[[]|e] s2]|]; [|done|done].
    by injection Hstart as <-. }
  unfold run_thread, terminate_on_throw; cbn [rounds]; unfold round, bind at 1 2 3.
  destruct (on_mon stop s1) as [[[[]|e] s2]|] eqn:E1; [|done|done]; apply on_mon_run in E1 as [_ Et].
  unfold bind, get, on_mon, start, set_tag; cbn; rewrite Et, Ht, Htag; done.
Qed.

End theorems.

End PeriodicSpec.
