(* ===== verification/PeriodicDemo.v ===== *)
(** The phase-one profiler on the small system of [MonitorDemo.v]: two seconds
    with a phase, and a phase whose tag ends the process. *)
From S2P Require Import Prelude CText Effects PerfEvents Monitor MonitorInv MonitorState MonitorSpec MonitorInfo MonitorDemo.
From S2P Require Import Manifest Periodic PeriodicSpec.
Import PerfEvents Monitor MonitorInv MonitorState MonitorSpec MonitorInfo MonitorDemo Manifest Periodic PeriodicSpec.

Module PeriodicDemo.

#[local] Existing Instance toy_perf.
#[local] Existing Instance toy_laws.
#[local] Abbreviation toy_os := (@perf_os toy_perf).

Inductive pp_demo := DRound | DCall (c : pp_call) | DTick.

Fixpoint pp_play (steps : list pp_demo) (s : periodic * toy_os) : option (periodic * toy_os) :=
  match steps with
  | [] => Some s
  | DTick :: more => pp_play more (s.1, tick s.2)
  | DRound :: more => match round s with Some (Ok _, s') => pp_play more s' | _ => None end
  | DCall c :: more =>
      if negb (pp_allowed c) then None else
      match run_pp_call c s with Some (_, s') => pp_play more s' | None => None end
  end.
Fixpoint rounds_in (steps : list pp_demo) : nat :=
  match steps with [] => 0 | DRound :: more => S (rounds_in more) | _ :: more => rounds_in more end.

Lemma pp_play_run steps : forall s0 s n k s', pp_run s0 s n k -> pp_play steps s = Some s' ->
  exists n', pp_run s0 s' n' (rounds_in steps + k).
Proof.
  induction steps as [|[|c|] steps IH]; intros s0 s n k s' Hr E; cbn [pp_play rounds_in] in *.
  - injection E as <-; eauto.
  - destruct (round s) as [[[[]|e] s1]|] eqn:E1; [|done|done].
    replace (S (rounds_in steps) + k)%nat with (rounds_in steps + S k)%nat by lia.
    eapply IH; [by eapply pp_round|exact E].
  - destruct (pp_allowed c) eqn:Ha; [|done]; cbn [negb] in E; destruct (run_pp_call c s) as [[r s1]|] eqn:E1; [|done].
    eapply IH; [by eapply pp_other|exact E].
  - pose proof (pp_count s0 s n k (tick s.2) Hr) as Ht; refine (IH s0 (s.1, tick s.2) _ k s' (Ht _ _) E); [|done].
    by intros [].
Qed.

(** The program counts for a second, enters a phase and registers a thread. *)
Definition two_seconds : list pp_demo :=
  [DTick; DRound; DCall (PStart (txt "solve")); DCall (PThread (Register 200)); DTick; DRound; DTick; DCall PStop].

Abbreviation demo_new := (construct no_env (txt "rd")
  (initial_periodic AARCH64 false 1000 PERP_ROOFLINE 1 1 8 false, start_os 100)).

Definition pp_check (built : option (result unit * (periodic * toy_os))) (steps : list pp_demo) (total : Z) : bool :=
  match built with
  | Some (Ok _, s0) =>
      match pp_play steps s0 with
      | Some s => match on_mon stop s with
                  | Some (Ok _, s') => (reported 0 (pp_mon s'.1) =? total) && (0 <? num_events (pp_mon s'.1))
                  | _ => false
                  end
      | None => false
      end
  | _ => false
  end.

Lemma pp_check_run built steps total : pp_check built steps total = true -> exists s0 s n s',
  built = Some (Ok tt, s0) /\ pp_run s0 s n (rounds_in steps) /\ on_mon stop s = Some (Ok tt, s') /\
  reported 0 (pp_mon s'.1) = total /\ 0 < num_events (pp_mon s'.1).
Proof.
  unfold pp_check; destruct built as [[[[]|e] s0]|]; [|done|done]; destruct (pp_play steps s0) as [s|] eqn:Ep; [|done].
  destruct (on_mon stop s) as [[[[]|e] s']|] eqn:Es; [|done|done]; intros [H1 H2]%andb_true_iff.
  destruct (pp_play_run steps s0 s0 _ 0 s (pp_built s0) Ep) as [n Hn]; rewrite Nat.add_0_r in Hn.
  exists s0, s, n, s'; split_and!; [done|done|done|by apply Z.eqb_eq|by apply Z.ltb_lt].
Qed.

(** Thread 100 counts for three ticks, thread 200 for two. *)
Lemma two_seconds_check : pp_check demo_new two_seconds 25 = true.
Proof. vm_compute; reflexivity. Qed.

Lemma every_second_is_accounted_witness : exists (s' : periodic * toy_os) (n : Z -> Z),
  length (mo_kinfos (pp_mon s'.1)) = 3%nat /\ 25 ≡₆₄ n 0.
Proof.
  destruct (pp_check_run _ _ _ two_seconds_check) as (s0 & s & n & s' & Hb & Hr & Hs & Ht & Hn); exists s', n.
  destruct (every_second_is_accounted AARCH64 false no_env (txt "rd") 1000 PERP_ROOFLINE 1 1 8 false (start_os 100)
    s0 s n 2) as (r & s2 & E & H); [lia|lia|exact Hb|exact Hr|].
  rewrite Hs in E; apply (inj Some), pair_eq in E as [<- <-]; destruct (H eq_refl) as (L1 & _ & L2).
  split; [exact L1|]; rewrite <- Ht; apply L2; lia.
Defined.

(** [rd_start("n=100")]. *)
Lemma bad_tag_started : exists s s1 : periodic * toy_os, kernel_start (txt "n=100") s = Some (Ok tt, s1).
Proof.
  exists (mk_periodic demo_initial false (txt "init"), start_os 100); eexists; vm_compute; reflexivity.
Qed.

Lemma forbidden_tag_terminates_witness : exists s1 : periodic * toy_os, run_thread 1 s1 = None.
Proof.
  destruct bad_tag_started as (s & s1 & E); exists s1; refine (forbidden_tag_terminates (txt "n=100") s s1 0 _ E); reflexivity.
Defined.

(** On AArch64 the prefetch mode names four events and three leaders. *)
Example prefetch_leaders_too_short :
  arrays_cover (get_counters AARCH64 0 PERP_PREFETCH) = false /\ arrays_cover (get_counters X86_64 0 PERP_PREFETCH) = true.
Proof. split; reflexivity. Qed.

(** ** The file of a run in prefetch mode *)

Abbreviation prefetch_new := (construct no_env (txt "rd")
  (initial_periodic X86_64 false 0 PERP_PREFETCH 1 1 8 false, start_os 100)).

Definition profile_check (built : option (result unit * (periodic * toy_os))) (steps : list pp_demo) : bool :=
  match built with
  | Some (Ok _, s0) =>
      match pp_play steps s0 with
      | Some s => match on_mon stop s with
                  | Some (Ok _, s1) =>
                      let p := pp_mon s1.1 in
                      (mo_event_fd p =? -1) && bool_decide (mo_addr_tags p = []) && (2 =? zlen (mo_phases p)) &&
                      forallb (fun '(tag, time) => forallb (fun c => negb (ceqb c NEWLINE)) tag && (0 <=? time)) (mo_phases p)
                  | _ => false
                  end
      | None => false
      end
  | _ => false
  end.

Lemma profile_check_run built steps : profile_check built steps = true -> exists s0 s n s1,
  built = Some (Ok tt, s0) /\ pp_run s0 s n (rounds_in steps) /\ on_mon stop s = Some (Ok tt, s1) /\
  last_drain_returns (mon_state s1) /\ tags_ok (pp_mon s1.1).
Proof.
  unfold profile_check; destruct built as [[[[]|e] s0]|]; [|done|done]; destruct (pp_play steps s0) as [s|] eqn:Ep; [|done].
  destruct (on_mon stop s) as [[[[]|e] s1]|] eqn:Es; [|done|done]; cbn zeta; intros [[[H1 H2]%andb_true_iff _]%andb_true_iff H3]%andb_true_iff.
  destruct (pp_play_run steps s0 s0 _ 0 s (pp_built s0) Ep) as [n Hn]; rewrite Nat.add_0_r in Hn.
  apply bool_decide_eq_true in H2; exists s0, s, n, s1; split_and!; try done.
  - intros Hne; destruct Hne; by apply Z.eqb_eq.
  - assert (Hp : Forall (fun '(tag, time) => free_of NEWLINE tag /\ 0 <= time) (mo_phases (pp_mon s1.1))).
    { apply Forall_forall; intros [tag time] Hin; rewrite forallb_forall in H3; apply list_elem_of_In in Hin.
      specialize (H3 _ Hin); apply andb_true_iff in H3 as [Ht Hz]; split; [|lia]; apply Forall_forall; intros c Hc.
      rewrite forallb_forall in Ht; apply list_elem_of_In in Hc; by apply negb_true_iff, Ht. }
    unfold tags_ok; rewrite H2; split_and!; [done| |done|]; eapply Forall_impl; try exact Hp; by intros [] [].
Qed.

Lemma prefetch_check : profile_check prefetch_new two_seconds = true.
Proof. vm_compute; reflexivity. Qed.

(** Two seconds and the rest: three numbers for each event. *)
Lemma profile_is_complete_witness : exists (out : outcome) (v : text) (n : Z -> Z),
  read_field (txt "L2_LINES_IN") (file_of (oc_info out)) = Some v /\ length (numbers v) = 3%nat /\ sumZ (numbers v) ≡₆₄ n 2.
Proof.
  destruct (profile_check_run _ _ prefetch_check) as (s0 & s & n & s1 & Hb & Hr & Hs & Hl & Ht).
  destruct (profile_is_complete X86_64 false no_env (txt "rd") 0 PERP_PREFETCH 1 1 8 false (start_os 100)
    s0 s s1 n 2 None 64 2 (txt "L2_LINES_IN")) as (out & s2 & v & _ & Er & Ln & Hv);
    [lia|lia|exact Hb|exact Hr|exact Hs|exact Hl|exact Ht|reflexivity|].
  exists out, v, n; exact (conj Er (conj Ln Hv)).
Defined.

End PeriodicDemo.
