(* ===== verification/SamplerThread.v ===== *)
(** The hand-shake between the thread that opens and closes windows and the
    sampler thread: [Monitor::run_sampler_thread] of [src/monitor.cc] with the
    event descriptor and the semaphore that [start], [stop], [read_samples] and
    the destructor use.

    An event descriptor holds a counter: a write adds to it, a read takes all of
    it and sets it to 0, so two commands that are written before the sampler
    thread reads arrive as their sum.  The draining itself is in [Monitor.v]; here
    only whether it found samples matters. *)
From S2P Require Import Prelude Monitor.

Module SamplerThread.

(** What the sampler thread does: it waits, serves a command, or has returned. *)
Inductive sampler_at := Waiting | Serving (efd_cmd : Z) | Returned.
(** The thread of the windows: between windows, in one, in [join], past it. *)
Inductive owner_at := Closed | Opened | Joining | Joined.

Record shake := mk_shake {
  sh_eventfd : Z;
  sh_semaphore : Z;
  sh_sampler : sampler_at;
  sh_owner : owner_at;
  sh_nonstop : bool;
}.
#[export] Instance eta_shake : Eta shake := fun r =>
  mk_shake (sh_eventfd r) (sh_semaphore r) (sh_sampler r) (sh_owner r) (sh_nonstop r).
#[export] Instance sampler_at_eq_dec : EqDecision sampler_at.
Proof. solve_decision. Defined.
#[export] Instance owner_at_eq_dec : EqDecision owner_at.
Proof. solve_decision. Defined.

(** After the constructor: [eventfd(0, 0)], from which the thread id was read, and
    [sem_init(&_sampler_drain, 0, 1)]. *)
Definition shake_init : shake := mk_shake 0 1 Waiting Closed false.

Definition post_command (efd_cmd : Z) (s : shake) : shake := s ⟦ sh_eventfd ::= Z.add efd_cmd ⟧.

(** ** Steps; [None]: the thread is blocked or elsewhere *)

(** [start]: in stop mode it waits until the last drain is done. *)
Definition step_start (s : shake) : option shake :=
  if negb (bool_decide (sh_owner s = Closed)) then None else
  if sh_nonstop s then Some (s ⟦ sh_owner := Opened ⟧) else
  if sh_semaphore s =? 0 then None else
  Some (s ⟦ sh_semaphore ::= Z.pred ⟧ ⟦ sh_owner := Opened ⟧).

(** [stop]: in stop mode it asks for a drain. *)
Definition step_stop (s : shake) : option shake :=
  if negb (bool_decide (sh_owner s = Opened)) then None else
  Some ((if sh_nonstop s then s else post_command SAMPLER_DRAIN s) ⟦ sh_owner := Closed ⟧).

(** The destructor: the stop command, then [join]. *)
Definition step_destroy (s : shake) : option shake :=
  if bool_decide (sh_owner s = Closed) || bool_decide (sh_owner s = Opened)
  then Some (post_command SAMPLER_STOP s ⟦ sh_owner := Joining ⟧) else None.
Definition step_join (s : shake) : option shake :=
  if bool_decide (sh_owner s = Joining) && bool_decide (sh_sampler s = Returned)
  then Some (s ⟦ sh_owner := Joined ⟧) else None.

(** [read] of the event descriptor, once [epoll_wait] reports it. *)
Definition step_wake (s : shake) : option shake :=
  if bool_decide (sh_sampler s = Waiting) && (0 <? sh_eventfd s)
  then Some (s ⟦ sh_sampler := Serving (sh_eventfd s) ⟧ ⟦ sh_eventfd := 0 ⟧) else None.

(** The end of a drain. *)
Definition step_drained (extra_samples : bool) (s : shake) : option shake :=
  match sh_sampler s with
  | Serving efd_cmd =>
      let s := if negb (efd_cmd =? SAMPLER_STOP) || extra_samples then s ⟦ sh_semaphore ::= Z.succ ⟧ else s in
      Some (s ⟦ sh_sampler := if efd_cmd =? SAMPLER_STOP then Returned else Waiting ⟧)
  | _ => None
  end.

Inductive owner_act := AStart | AStop | ASetNonstop | AReadSamples | ADestroy | AJoin.
Definition owner_step (act : owner_act) (s : shake) : option shake :=
  match act with
  | AStart => step_start s
  | AStop => step_stop s
  | ASetNonstop => Some (s ⟦ sh_nonstop := true ⟧)
  | AReadSamples => Some (post_command SAMPLER_DRAIN s)
  | ADestroy => step_destroy s
  | AJoin => step_join s
  end.

(** ** A script of the owner beside the sampler thread *)

Definition config : Type := list owner_act * shake.
Inductive sys_step : config -> config -> Prop :=
| sys_owner act acts s s' : owner_step act s = Some s' -> sys_step (act :: acts, s) (acts, s')
| sys_wake acts s s' : step_wake s = Some s' -> sys_step (acts, s) (acts, s')
| sys_drained b acts s s' : step_drained b s = Some s' -> sys_step (acts, s) (acts, s').

(** Steps that are left: an action of the owner can cause two of the sampler. *)
Definition serving (s : shake) : nat := match sh_sampler s with Serving _ => 1 | _ => 0 end.
Definition steps_left (c : config) : nat :=
  3 * length c.1 + (if 0 <? sh_eventfd c.2 then 2 else 0) + serving c.2.

Lemma owner_step_sampler act s s' : owner_step act s = Some s' -> serving s' = serving s.
Proof.
  destruct s as [ev sem sa ow ns]; destruct act; cbn; unfold step_start, step_stop, step_destroy, step_join; cbn; intros E;
    repeat (case_match; cbn in E; try done); by simplify_eq/=.
Qed.

Lemma sys_step_measure c c' : sys_step c c' -> (steps_left c' < steps_left c)%nat.
Proof.
  intros H; destruct H as [act acts s s' E|acts s s' E|b acts s s' E]; unfold steps_left; cbn [fst snd].
  - rewrite (owner_step_sampler _ _ _ E); cbn [length]; destruct (0 <? sh_eventfd s'), (0 <? sh_eventfd s); lia.
  - unfold step_wake in E; case_bool_decide as Hw; [|done]; cbn in E; destruct (0 <? sh_eventfd s); [|done].
    injection E as <-; unfold serving; cbn; rewrite Hw; lia.
  - unfold step_drained in E; destruct (sh_sampler s) eqn:Es; try done; injection E as <-; unfold serving; rewrite Es.
    destruct (negb _ || b); cbn; destruct (_ =? SAMPLER_STOP); lia.
Qed.

(** ** The profiler's script *)

(** What [PeriodicProfiler] does over [k] rounds and a destruction. *)
Fixpoint rounds (k : nat) : list owner_act :=
  match k with
  | O => [AStop; ADestroy; AJoin]
  | S k => AStop :: AStart :: rounds k
  end.
Definition profiler_script (k : nat) : list owner_act := AStart :: ASetNonstop :: rounds k.

Inductive prof_inv : config -> Prop :=
| pi_new k : prof_inv (profiler_script k, shake_init)
| pi_first k : prof_inv (ASetNonstop :: rounds k, mk_shake 0 0 Waiting Opened false)
| pi_open k : prof_inv (rounds k, mk_shake 0 0 Waiting Opened true)
| pi_closed k : prof_inv (AStart :: rounds k, mk_shake 0 0 Waiting Closed true)
| pi_last : prof_inv ([ADestroy; AJoin], mk_shake 0 0 Waiting Closed true)
| pi_asked : prof_inv ([AJoin], mk_shake 2 0 Waiting Joining true)
| pi_serving : prof_inv ([AJoin], mk_shake 0 0 (Serving 2) Joining true)
| pi_returned v : prof_inv ([AJoin], mk_shake 0 v Returned Joining true)
| pi_joined v : prof_inv ([], mk_shake 0 v Returned Joined true).

Ltac run_owner := eapply ex_intro, sys_owner; reflexivity.

Lemma prof_progress c : prof_inv c -> (c.1 = [] /\ sh_owner c.2 = Joined) \/ exists c', sys_step c c'.
Proof.
  intros H; destruct H as [k|k|[|k]|k| | | |v|v]; try (right; run_owner); [| |by left].
  - right; eexists; by apply sys_wake.
  - right; eexists; by apply (sys_drained false).
Qed.

Lemma prof_step c c' : prof_inv c -> sys_step c c' -> prof_inv c'.
Proof.
  intros H; destruct H as [k|k|[|k]|k| | | |v|v]; intros Hs; cbn [rounds] in Hs;
    inversion Hs as [act acts s s' E E1|acts s s' E E1|b acts s s' E E1]; subst;
    try (cbn in E; done); try (injection E as <-; constructor).
  destruct b; injection E as <-; constructor.
Qed.

(** C9. However the two threads are scheduled, a profiler that is destroyed after any
    number of rounds joins its sampler thread: the stop command is not lost, no
    semaphore blocks a window, and the number of steps is bounded. *)
Theorem profiler_joins_sampler (k : nat) :
  inevitable sys_step (fun c => c.1 = [] /\ sh_owner c.2 = Joined) (profiler_script k, shake_init).
Proof.
  apply (inevitable_by_invariant sys_step prof_inv _ steps_left); [exact prof_progress| |constructor].
  intros c c' Hi Hs; split; [by eapply prof_step|by apply sys_step_measure].
Qed.

(** ** Stop mode *)

(** Windows without [set_nonstop] and [read_samples]. *)
Definition window_act (act : owner_act) : bool := match act with ASetNonstop | AReadSamples => false | _ => true end.
Inductive stop_mode_run : shake -> Prop :=
| smr_init : stop_mode_run shake_init
| smr_owner act s s' : stop_mode_run s -> window_act act = true -> owner_step act s = Some s' -> stop_mode_run s'
| smr_wake s s' : stop_mode_run s -> step_wake s = Some s' -> stop_mode_run s'
| smr_drained b s s' : stop_mode_run s -> step_drained b s = Some s' -> stop_mode_run s'.

(** One token: the semaphore, a drain that was asked for, or one in progress. *)
Definition token_ok (s : shake) : Prop :=
  sh_nonstop s = false /\
  match sh_owner s with
  | Opened => sh_semaphore s = 0 /\ sh_eventfd s = 0 /\ sh_sampler s = Waiting
  | Closed => (sh_semaphore s = 1 /\ sh_eventfd s = 0 /\ sh_sampler s = Waiting) \/
              (sh_semaphore s = 0 /\ sh_eventfd s = 1 /\ sh_sampler s = Waiting) \/
              (sh_semaphore s = 0 /\ sh_eventfd s = 0 /\ sh_sampler s = Serving 1)
  | _ => True
  end.

Lemma token_owner act s s' : token_ok s -> window_act act = true -> owner_step act s = Some s' -> token_ok s'.
Proof.
  destruct s as [ev sem sa ow ns]; intros [Hn H] Ha E; cbn in Hn; subst ns; unfold token_ok in *; cbn in H.
  destruct act; try done; cbn in E; unfold step_start, step_stop, step_destroy, step_join in E; cbn in E.
  - case_bool_decide as Ho; [|done]; cbn in Ho, E; subst ow; destruct (Z.eqb_spec sem 0); [done|].
    injection E as <-; cbn; destruct H as [(-> & -> & ->)|[(-> & _)|(-> & _)]]; by split_and!.
  - case_bool_decide as Ho; [|done]; cbn in Ho, E; subst ow; injection E as <-; destruct H as (-> & -> & ->).
    split; [done|right; left]; by split_and!.
  - destruct (_ || _) in E; [|done]; injection E as <-; done.
  - destruct (_ && _) in E; [|done]; injection E as <-; done.
Qed.

Lemma token_wake s s' : token_ok s -> step_wake s = Some s' -> token_ok s'.
Proof.
  destruct s as [ev sem sa ow ns]; intros [Hn H] E; cbn in Hn; subst ns; unfold token_ok, step_wake in *; cbn in *.
  case_bool_decide as Hs; [|done]; subst sa; destruct (Z.ltb_spec 0 ev); [|done]; injection E as <-; split; [done|]; cbn.
  destruct ow; cbn; try done; [|lia]; destruct H as [(_ & ? & _)|[(-> & -> & _)|(_ & ? & _)]]; [lia| |lia].
  right; right; by split_and!.
Qed.

Lemma token_drained b s s' : token_ok s -> step_drained b s = Some s' -> token_ok s'.
Proof.
  destruct s as [ev sem sa ow ns]; intros [Hn H] E; cbn in Hn; subst ns; unfold token_ok, step_drained in *; cbn in *.
  destruct sa as [|cmd|]; try done; injection E as <-.
  destruct ow; cbn in H.
  - destruct H as [(_ & _ & ?)|[(_ & _ & ?)|(-> & -> & [= ->])]]; try done; cbn; split; [done|left]; by split_and!.
  - by destruct H as (_ & _ & ?).
  - destruct (negb _ || b); by split.
  - destruct (negb _ || b); by split.
Qed.

Lemma stop_mode_token s : stop_mode_run s -> token_ok s.
Proof.
  induction 1; [split; [done|left]; by split_and!|by eapply token_owner|by eapply token_wake|by eapply token_drained].
Qed.

(** In stop mode a window opens only after the drain of the previous window is
    complete: while a window is open no drain is asked for or in progress, so
    samples of different windows cannot mix. *)
Theorem window_excludes_drain (s : shake) (Hrun : stop_mode_run s) (Hopen : sh_owner s = Opened) :
  sh_eventfd s = 0 /\ sh_sampler s = Waiting /\ sh_semaphore s = 0.
Proof. destruct (stop_mode_token s Hrun) as [_ H]; rewrite Hopen in H; naive_solver. Qed.

(** The second window of a run, after the drain of the first. *)
Lemma second_window_run : stop_mode_run (mk_shake 0 0 Waiting Opened false).
Proof.
  apply (smr_owner AStart (mk_shake 0 1 Waiting Closed false)); [|done|reflexivity].
  apply (smr_drained false (mk_shake 0 0 (Serving 1) Closed false)); [|reflexivity].
  apply (smr_wake (mk_shake 1 0 Waiting Closed false)); [|reflexivity].
  apply (smr_owner AStop (mk_shake 0 0 Waiting Opened false)); [|done|reflexivity].
  apply (smr_owner AStart shake_init); [constructor|done|reflexivity].
Qed.

Lemma window_excludes_drain_witness : sh_sampler (mk_shake 0 0 Waiting Opened false) = Waiting.
Proof. destruct (window_excludes_drain _ second_window_run eq_refl) as (_ & H & _); exact H. Defined.

(** ** A stop command that is lost *)

Inductive sys_steps : config -> config -> Prop :=
| steps_done c : sys_steps c c
| steps_more c c' c'' : sys_step c c' -> sys_steps c' c'' -> sys_steps c c''.

(** In stop mode a monitor that is destroyed right after a window was closed can
    wait for ever: the drain and the stop command are read as one command, 3,
    which the sampler thread does not know, and no step is left. *)
Theorem merged_commands_deadlock :
  exists c, sys_steps ([AStart; AStop; ADestroy; AJoin], shake_init) c /\
    sh_owner c.2 = Joining /\ (forall c', ~ sys_step c c').
Proof.
  exists ([AJoin], mk_shake 0 1 Waiting Joining false); split_and!; [|done|].
  - eapply steps_more; [by apply sys_owner|]; eapply steps_more; [by apply sys_owner|].
    eapply steps_more; [by apply sys_owner|]; eapply steps_more; [by apply sys_wake|].
    eapply steps_more; [by apply (sys_drained false)|]; apply steps_done.
  - intros c' H; inversion H as [act acts s s' E|acts s s' E|b acts s s' E]; subst; done.
Qed.

End SamplerThread.
