(* ===== verification/PthreadHook.v ===== *)
(** The interposed [pthread_create] of [src/pthread_hook.cc]: threads that the
    program creates run through a trampoline that registers them with the
    profilers and unregisters them however they end; threads created under a
    [PthreadCreateBypassGuard] run directly.

    A thread is named by its creation, so names are not reused.  The C library's
    [pthread_create] is a parameter of each call: the name of the thread it made,
    or its error; [sym] is what [dlsym] finds under its name. *)
From S2P Require Import Prelude.

(** [thread_start_ctx]. *)
Record thread_start_ctx := mk_ctx { cx_start_routine : Z; cx_arg : Z }.

(** The entry that the C library was given, with its argument. *)
Inductive entry := Direct (start_routine arg : Z) | Trampoline (ctx : Z).

(** How far a thread is: created; past [rd_on_thread_start]; in its routine; gone. *)
Inductive stage := Created | Started | Running | Ended.

Record pthread := mk_pthread {
  th_entry : entry;
  th_stage : stage;
  th_bypass_depth : Z;
}.
#[export] Instance eta_pthread : Eta pthread := fun r => mk_pthread (th_entry r) (th_stage r) (th_bypass_depth r).

(** What a thread called. *)
Inductive hook_call := OnStart | Routine (start_routine arg : Z) | OnStop.

Record hook := mk_hook {
  hk_heap : gmap Z thread_start_ctx;
  hk_threads : gmap Z pthread;
  hk_calls : list (Z * hook_call);
}.
#[export] Instance eta_hook : Eta hook := fun r => mk_hook (hk_heap r) (hk_threads r) (hk_calls r).

Module PthreadHook.

(** ** Operations; [None] is the end of the process, by [abort] or by a use of
    memory that is not allocated *)

Definition set_pthread (tid : Z) (th : pthread) (h : hook) : hook := h ⟦ hk_threads ::= <[tid := th]> ⟧.
Definition log_call (tid : Z) (c : hook_call) (h : hook) : hook := h ⟦ hk_calls ::= fun l => l ++ [(tid, c)] ⟧.

Definition rd_pthread_hook_push_bypass (th : pthread) : pthread := th ⟦ th_bypass_depth ::= inc32 ⟧.
Definition rd_pthread_hook_pop_bypass (th : pthread) : pthread :=
  if 0 <? th_bypass_depth th then th ⟦ th_bypass_depth ::= Z.pred ⟧ else th.
Definition rd_pthread_hook_bypass_enabled (th : pthread) : bool := negb (th_bypass_depth th =? 0).

(** The C library makes a thread, or returns an error. *)
Definition real_pthread_create (made : option Z) (e : entry) (h : hook) : bool * hook :=
  match made with
  | Some tid => (true, set_pthread tid (mk_pthread e Created 0) h)
  | None => (false, h)
  end.

(** The address that [dlsym] returns; a null one aborts. *)
Definition resolve_real_pthread_create (sym : Z) : option Z := if sym =? 0 then None else Some sym.

(** [pthread_create] as thread [caller] calls it; [p] is what [new] returns.  The
    static pointer is resolved by the first call and [sym] is the same in every one. *)
Definition pthread_create (sym : Z) (caller : Z) (p : Z) (made : option Z) (start_routine arg : Z) (h : hook) : option hook :=
  _ ← resolve_real_pthread_create sym;
  th ← hk_threads h !! caller;
  if rd_pthread_hook_bypass_enabled th then Some (real_pthread_create made (Direct start_routine arg) h).2 else
  let h := h ⟦ hk_heap ::= <[p := mk_ctx start_routine arg]> ⟧ in
  let '(ok, h) := real_pthread_create made (Trampoline p) h in
  Some (if ok then h else h ⟦ hk_heap ::= delete p ⟧).

(** The trampoline up to the call of the routine: the clean-up handler is in place
    before [rd_on_thread_start]. *)
Definition trampoline_start (tid : Z) (h : hook) : option hook :=
  th ← hk_threads h !! tid;
  Some (log_call tid OnStart (set_pthread tid (th ⟦ th_stage := Started ⟧) h)).

(** The call of the routine, by the trampoline or by the C library. *)
Definition run_routine (tid : Z) (h : hook) : option hook :=
  th ← hk_threads h !! tid;
  match th_entry th with
  | Direct start_routine arg => Some (log_call tid (Routine start_routine arg) (set_pthread tid (th ⟦ th_stage := Running ⟧) h))
  | Trampoline p =>
      ctx ← hk_heap h !! p;
      Some (log_call tid (Routine (cx_start_routine ctx) (cx_arg ctx)) (set_pthread tid (th ⟦ th_stage := Running ⟧) h))
  end.

(** [cleanup_thread_ctx], when the routine returns, exits or is cancelled. *)
Definition cleanup_thread_ctx (tid : Z) (p : Z) (h : hook) : option hook :=
  _ ← hk_heap h !! p;
  Some (log_call tid OnStop h ⟦ hk_heap ::= delete p ⟧).

Definition end_thread (tid : Z) (h : hook) : option hook :=
  th ← hk_threads h !! tid;
  let h := set_pthread tid (th ⟦ th_stage := Ended ⟧) h in
  match th_entry th with
  | Direct _ _ => Some h
  | Trampoline p => cleanup_thread_ctx tid p h
  end.

(** A guarded creation: [{ PthreadCreateBypassGuard guard; std::thread(...); }]. *)
Definition guarded_create (sym : Z) (caller : Z) (p : Z) (made : option Z) (start_routine arg : Z) (h : hook) : option hook :=
  th ← hk_threads h !! caller;
  let h := set_pthread caller (rd_pthread_hook_push_bypass th) h in
  h ← pthread_create sym caller p made start_routine arg h;
  th ← hk_threads h !! caller;
  Some (set_pthread caller (rd_pthread_hook_pop_bypass th) h).

(** ** Runs *)

(** The program starts with its main thread. *)
Definition hook_init (main : Z) : hook := mk_hook ∅ {[main := mk_pthread (Direct 0 0) Running 0]} [(main, Routine 0 0)].

Definition stage_of (h : hook) (tid : Z) : option stage := th_stage <$> hk_threads h !! tid.
Definition hooked (th : pthread) : bool := match th_entry th with Trampoline _ => true | Direct _ _ => false end.

(** What the creator of each thread asked for: the routine with its argument, and
    whether it held a guard. *)
Abbreviation requests := (gmap Z (thread_start_ctx * bool)).
Definition ask (made : option Z) (ctx : thread_start_ctx) (guarded : bool) (q : requests) : requests :=
  match made with Some tid => <[tid := (ctx, guarded)]> q | None => q end.

(** A call of a running thread; [new] returns memory that is not in use and the
    name of a thread that was made is new. *)
Definition may_create (h : hook) (caller p : Z) (made : option Z) : Prop :=
  stage_of h caller = Some Running /\ hk_heap h !! p = None /\ forall tid, made = Some tid -> hk_threads h !! tid = None.

(** Steps of the threads in any order.  A thread that is hooked enters the
    trampoline first, and may end before its routine when it is cancelled. *)
Inductive hook_run (sym main : Z) : hook -> requests -> Prop :=
| run_init : hook_run sym main (hook_init main) {[main := (mk_ctx 0 0, true)]}
| run_create h q h' caller p made r arg :
    hook_run sym main h q -> may_create h caller p made -> pthread_create sym caller p made r arg h = Some h' ->
    hook_run sym main h' (ask made (mk_ctx r arg) false q)
| run_guarded h q h' caller p made r arg :
    hook_run sym main h q -> may_create h caller p made -> guarded_create sym caller p made r arg h = Some h' ->
    hook_run sym main h' (ask made (mk_ctx r arg) true q)
| run_start h q h' tid th :
    hook_run sym main h q -> hk_threads h !! tid = Some th -> th_stage th = Created -> hooked th = true ->
    trampoline_start tid h = Some h' -> hook_run sym main h' q
| run_body h q h' tid th :
    hook_run sym main h q -> hk_threads h !! tid = Some th -> th_stage th = (if hooked th then Started else Created) ->
    run_routine tid h = Some h' -> hook_run sym main h' q
| run_end h q h' tid th :
    hook_run sym main h q -> hk_threads h !! tid = Some th -> th_stage th = Running \/ th_stage th = Started ->
    end_thread tid h = Some h' -> hook_run sym main h' q.

(** ** The life of a thread *)

Definition calls_of (tid : Z) (h : hook) : list hook_call := snd <$> filter (fun c => c.1 = tid) (hk_calls h).

(** What a thread has called, given what was asked for. *)
Definition life (ctx : thread_start_ctx) (th : pthread) (l : list hook_call) : Prop :=
  let body := Routine (cx_start_routine ctx) (cx_arg ctx) in
  match hooked th, th_stage th with
  | _, Created => l = []
  | true, Started => l = [OnStart]
  | true, Running => l = [OnStart; body]
  | true, Ended => l = [OnStart; body; OnStop] \/ l = [OnStart; OnStop]
  | false, Started => False
  | false, _ => l = [body]
  end.

(** The entry of a thread and the request; a context is on the heap until the
    thread ends. *)
Definition serves (h : hook) (th : pthread) (request : thread_start_ctx * bool) : Prop :=
  match th_entry th with
  | Direct r arg => request = (mk_ctx r arg, true)
  | Trampoline p => request.2 = false /\ (th_stage th <> Ended -> hk_heap h !! p = Some request.1)
  end.

Record hook_inv (h : hook) (q : requests) : Prop := {
  hi_life tid th : hk_threads h !! tid = Some th ->
    th_bypass_depth th = 0 /\ exists req, q !! tid = Some req /\ serves h th req /\ life req.1 th (calls_of tid h);
  hi_silent tid : hk_threads h !! tid = None -> calls_of tid h = [];
  hi_owner p : is_Some (hk_heap h !! p) -> exists tid th,
    hk_threads h !! tid = Some th /\ th_entry th = Trampoline p /\ th_stage th <> Ended;
  hi_unique tid1 tid2 th1 th2 p :
    hk_threads h !! tid1 = Some th1 -> hk_threads h !! tid2 = Some th2 ->
    th_entry th1 = Trampoline p -> th_entry th2 = Trampoline p -> th_stage th1 <> Ended -> th_stage th2 <> Ended ->
    tid1 = tid2;
}.

Lemma calls_log t tid c h : calls_of t (log_call tid c h) = calls_of t h ++ (if decide (t = tid) then [c] else []).
Proof.
  unfold calls_of, log_call; cbn; rewrite filter_app, fmap_app; f_equal; rewrite filter_cons; cbn.
  destruct (decide (tid = t)), (decide (t = tid)); done || congruence.
Qed.

(** A thread makes a step: its stage, its calls and, at its end, its context. *)
Lemma inv_step h q h' tid th th' new :
  hook_inv h q -> hk_threads h !! tid = Some th -> th_stage th <> Ended ->
  th_entry th' = th_entry th -> th_bypass_depth th' = th_bypass_depth th ->
  hk_threads h' = <[tid := th']> (hk_threads h) ->
  (forall t, calls_of t h' = calls_of t h ++ (if decide (t = tid) then new else [])) ->
  hk_heap h' = match th_entry th, th_stage th' with Trampoline p, Ended => delete p (hk_heap h) | _, _ => hk_heap h end ->
  (forall req, q !! tid = Some req -> serves h th req -> life req.1 th (calls_of tid h) -> life req.1 th' (calls_of tid h ++ new)) ->
  hook_inv h' q.
Proof.
  intros Hi Ht Hlive Ee Ed Em Ec Eh Hl; destruct Hi as [I1 I2 I3 I4].
  assert (Hheap : forall tid0 th0 p0, tid0 <> tid -> hk_threads h !! tid0 = Some th0 -> th_entry th0 = Trampoline p0 ->
    th_stage th0 <> Ended -> hk_heap h' !! p0 = hk_heap h !! p0).
  { intros tid0 th0 p0 Hne H0 E0 S0; rewrite Eh; destruct (th_entry th) as [r a|p] eqn:E; [done|]; destruct (th_stage th'); try done.
    apply lookup_delete_ne; intros ->; apply Hne; by eapply (I4 tid0 tid th0 th). }
  split.
  - intros t0 th0 H0; rewrite Em in H0; apply lookup_insert_Some in H0 as [[<- <-]|[Hne H0]].
    + destruct (I1 tid th Ht) as (D & req & Q & S & L); split; [congruence|]; exists req; split_and!; [done| |].
      * unfold serves in *; rewrite Ee; destruct (th_entry th) as [r a|p]; [done|]; destruct S as [S1 S2]; split; [done|].
        intros Hs; rewrite Eh; destruct (th_stage th'); done || by apply S2.
      * rewrite Ec, decide_True by done; auto.
    + destruct (I1 t0 th0 H0) as (D & req & Q & S & L); split; [done|]; exists req; split_and!; [done| |].
      * unfold serves in *; destruct (th_entry th0) as [r a|p] eqn:E0; [done|]; destruct S as [S1 S2]; split; [done|].
        intros Hs; rewrite (Hheap t0 th0 p); auto.
      * rewrite Ec, decide_False, app_nil_r by done; done.
  - intros t0 H0; rewrite Em in H0; apply lookup_insert_None in H0 as [H0 Hne].
    rewrite Ec, decide_False, app_nil_r by done; by apply I2.
  - intros p0 H0; assert (H1 : is_Some (hk_heap h !! p0)).
    { rewrite Eh in H0; destruct (th_entry th), (th_stage th'); try done; by apply lookup_delete_is_Some in H0 as [_ ?]. }
    destruct (I3 p0 H1) as (t0 & th0 & A1 & A2 & A3); destruct (decide (t0 = tid)) as [->|Hne].
    + rewrite Ht in A1; injection A1 as <-; exists tid, th'; rewrite Em, lookup_insert_eq, Ee; split_and!; [done|done|].
      intros Hs; rewrite Eh, A2, Hs in H0; rewrite lookup_delete_eq in H0; by destruct H0.
    + exists t0, th0; by rewrite Em, lookup_insert_ne.
  - intros t1 t2 th1 th2 p; rewrite Em; intros H1 H2 E1 E2 S1 S2.
    apply lookup_insert_Some in H1 as [[<- <-]|[N1 H1]], H2 as [[<- <-]|[N2 H2]]; [done| | |by eapply I4].
    + rewrite Ee in E1; by eapply (I4 _ _ th th2).
    + rewrite Ee in E2; by eapply (I4 _ _ th1 th).
Qed.

(** A thread is made. *)
Lemma inv_create h q tid e ctx guarded heap' :
  hook_inv h q -> hk_threads h !! tid = None ->
  (match e with
   | Direct r arg => ctx = mk_ctx r arg /\ guarded = true /\ heap' = hk_heap h
   | Trampoline p => guarded = false /\ hk_heap h !! p = None /\ heap' = <[p := ctx]> (hk_heap h)
   end) ->
  hook_inv (mk_hook heap' (<[tid := mk_pthread e Created 0]> (hk_threads h)) (hk_calls h)) (<[tid := (ctx, guarded)]> q).
Proof.
  intros [I1 I2 I3 I4] Hn He.
  assert (Hkeep : forall p c, hk_heap h !! p = Some c -> heap' !! p = Some c).
  { intros p c Hp; destruct e as [r a|p']; [by destruct He as (_ & _ & ->)|]; destruct He as (_ & Hf & ->).
    rewrite lookup_insert_ne; [done|]; congruence. }
  split; cbn [hk_heap hk_threads].
  - intros t th H; apply lookup_insert_Some in H as [[<- <-]|[Hne H]].
    + split; [done|]; exists (ctx, guarded); rewrite lookup_insert_eq; split_and!; [done| |].
      * unfold serves; cbn; destruct e as [r a|p]; [by destruct He as (-> & -> & _)|].
        destruct He as (-> & _ & ->); split; [done|]; intros _; by rewrite lookup_insert_eq.
      * unfold life; change (calls_of tid _) with (calls_of tid h); rewrite I2 by done; by destruct e.
    + destruct (I1 t th H) as (D & req & Q & S & L); split; [done|]; exists req; rewrite lookup_insert_ne by done.
      split_and!; [done| |done]; unfold serves in *; destruct (th_entry th); [done|]; destruct S as [S1 S2]; cbn; split; auto.
  - intros t H; apply lookup_insert_None in H as [H _]; by apply I2.
  - intros p Hp; assert (Hc : is_Some (hk_heap h !! p) \/ e = Trampoline p).
    { destruct e as [r a|p']; [destruct He as (_ & _ & ->); by left|]; destruct He as (_ & _ & ->); cbn in Hp.
      destruct (decide (p' = p)) as [->|Hne]; [by right|left]; by rewrite lookup_insert_ne in Hp. }
    destruct Hc as [Hc| ->].
    + destruct (I3 p Hc) as (t & th & A1 & A2 & A3); exists t, th; rewrite lookup_insert_ne by congruence; done.
    + exists tid; eexists; rewrite lookup_insert_eq; by split_and!.
  - assert (Hno : forall t th p, hk_threads h !! t = Some th -> th_entry th = Trampoline p -> th_stage th <> Ended -> e <> Trampoline p).
    { intros t th p H E S ->; destruct He as (_ & Hf & _); destruct (I1 t th H) as (_ & req & _ & Sv & _).
      unfold serves in Sv; rewrite E in Sv; destruct Sv as [_ Sv]; rewrite (Sv S) in Hf; done. }
    intros t1 t2 th1 th2 p H1 H2 E1 E2 S1 S2.
    apply lookup_insert_Some in H1 as [[<- <-]|[N1 H1]], H2 as [[<- <-]|[N2 H2]]; [done| | |by eapply I4].
    + cbn in E1; by destruct (Hno _ _ _ H2 E2 S2).
    + cbn in E2; by destruct (Hno _ _ _ H1 E1 S1).
Qed.

Lemma stage_lookup h tid st : stage_of h tid = Some st -> exists th, hk_threads h !! tid = Some th /\ th_stage th = st.
Proof. unfold stage_of; destruct (hk_threads h !! tid) as [th|]; [|done]; cbn; intros [= <-]; eauto. Qed.

Lemma create_inv sym h q h' caller p made r arg :
  hook_inv h q -> may_create h caller p made -> pthread_create sym caller p made r arg h = Some h' ->
  hook_inv h' (ask made (mk_ctx r arg) false q).
Proof.
  intros Hi (Hc & Hp & Hm) E; destruct (stage_lookup _ _ _ Hc) as (th & Ht & _); destruct (hi_life _ _ Hi _ _ Ht) as [Hd _].
  unfold pthread_create, rd_pthread_hook_bypass_enabled in E; destruct (resolve_real_pthread_create sym) as [real|]; [|done].
  rewrite some_bind in E; rewrite Ht, some_bind, Hd in E; cbn [Z.eqb negb] in E.
  destruct made as [tid|]; cbn in E; injection E as <-.
  - by apply (inv_create h q tid (Trampoline p)); [|apply Hm|].
  - unfold upd; cbn; rewrite delete_insert_id by done; by destruct h.
Qed.

(** A guard sets the depth of its thread to 1 and back. *)
Lemma guarded_inv sym h q h' caller p made r arg :
  hook_inv h q -> may_create h caller p made -> guarded_create sym caller p made r arg h = Some h' ->
  hook_inv h' (ask made (mk_ctx r arg) true q).
Proof.
  intros Hi (Hc & Hp & Hm) E; destruct (stage_lookup _ _ _ Hc) as (th & Ht & _); destruct (hi_life _ _ Hi _ _ Ht) as [Hd _].
  destruct th as [e st d]; cbn in Hd; subst d; unfold guarded_create in E; rewrite Ht, some_bind in E.
  unfold pthread_create in E; destruct (resolve_real_pthread_create sym) as [real|]; [rewrite some_bind in E|done].
  unfold rd_pthread_hook_push_bypass, set_pthread, upd in E; cbn in E; rewrite lookup_insert_eq, some_bind in E; cbn in E.
  change (rd_pthread_hook_bypass_enabled _) with true in E; cbn iota in E; rewrite some_bind in E.
  destruct made as [tid|]; cbn in E; unfold set_pthread, upd in E; cbn in E.
  - assert (Hne : caller <> tid) by (intros ->; rewrite (Hm tid eq_refl) in Ht; done).
    rewrite lookup_insert_ne, lookup_insert_eq, some_bind in E by done; cbn in E; injection E as <-.
    rewrite (insert_insert_ne _ caller tid), insert_insert_eq by done.
    replace (<[caller := mk_pthread e st 0]> (hk_threads h)) with (hk_threads h) by (symmetry; by apply insert_id).
    by apply (inv_create h q tid (Direct r arg)); [|apply Hm|].
  - rewrite lookup_insert_eq, some_bind in E; cbn in E; injection E as <-.
    rewrite insert_insert_eq, insert_id by done; by destruct h.
Qed.

Lemma start_inv h q h' tid th :
  hook_inv h q -> hk_threads h !! tid = Some th -> th_stage th = Created -> hooked th = true ->
  trampoline_start tid h = Some h' -> hook_inv h' q.
Proof.
  intros Hi Ht Hs Hk E; unfold trampoline_start in E; rewrite Ht, some_bind in E; injection E as <-.
  eapply (inv_step h q _ tid th (th ⟦ th_stage := Started ⟧) [OnStart]); try done;
    [congruence|intros t; exact (calls_log t tid _ (set_pthread tid (th ⟦ th_stage := Started ⟧) h))| |].
  - by destruct (th_entry th).
  - intros req _ _; unfold life, hooked in *; cbn; rewrite Hs; destruct (th_entry th); [done|]; by intros ->.
Qed.

Lemma body_inv h q h' tid th :
  hook_inv h q -> hk_threads h !! tid = Some th -> th_stage th = (if hooked th then Started else Created) ->
  run_routine tid h = Some h' -> hook_inv h' q.
Proof.
  intros Hi Ht Hs E; unfold run_routine in E; rewrite Ht, some_bind in E.
  destruct (hi_life _ _ Hi _ _ Ht) as (_ & req & Q & Hv & Hl).
  assert (Hne : th_stage th <> Ended) by (rewrite Hs; by destruct (hooked th)).
  assert (Eh : h' = log_call tid (Routine (cx_start_routine req.1) (cx_arg req.1)) (set_pthread tid (th ⟦ th_stage := Running ⟧) h)).
  { unfold serves in Hv; destruct (th_entry th) as [r a|p]; [rewrite Hv; by injection E as <-|].
    destruct Hv as [_ Hv]; rewrite (Hv Hne), some_bind in E; by injection E as <-. }
  subst h'; eapply (inv_step h q _ tid th (th ⟦ th_stage := Running ⟧)); try done;
    [intros t; exact (calls_log t tid _ (set_pthread tid (th ⟦ th_stage := Running ⟧) h))| |].
  - by destruct (th_entry th).
  - intros req' Q' _; rewrite Q in Q'; injection Q' as <-; clear Hv; unfold life, hooked in *; cbn; rewrite Hs in *.
    destruct (th_entry th); by intros ->.
Qed.

Lemma end_inv h q h' tid th :
  hook_inv h q -> hk_threads h !! tid = Some th -> th_stage th = Running \/ th_stage th = Started ->
  end_thread tid h = Some h' -> hook_inv h' q.
Proof.
  intros Hi Ht Hs E; unfold end_thread in E; rewrite Ht, some_bind in E.
  assert (Hne : th_stage th <> Ended) by (by destruct Hs as [-> | ->]).
  set (new := match th_entry th with Trampoline _ => [OnStop] | Direct _ _ => [] end).
  eapply (inv_step h q _ tid th (th ⟦ th_stage := Ended ⟧) new); try done; subst new; destruct (th_entry th) as [r a|p] eqn:Ee.
  - by injection E as <-.
  - unfold cleanup_thread_ctx in E; cbn in E; destruct (hk_heap h !! p); [|done]; by injection E as <-.
  - injection E as <-; intros t; destruct (decide _); by rewrite app_nil_r.
  - unfold cleanup_thread_ctx in E; cbn in E; destruct (hk_heap h !! p); [|done]; injection E as <-.
    intros u; exact (calls_log u tid OnStop (set_pthread tid (th ⟦ th_stage := Ended ⟧) h)).
  - by injection E as <-.
  - unfold cleanup_thread_ctx in E; cbn in E; destruct (hk_heap h !! p); [|done]; by injection E as <-.
  - intros req _ _; unfold life, hooked; cbn; rewrite Ee; destruct Hs as [-> | ->]; [|done]; by intros ->.
  - intros req _ _; unfold life, hooked; cbn; rewrite Ee; destruct Hs as [-> | ->]; intros ->; auto.
Qed.

Lemma hook_run_inv sym main h q : hook_run sym main h q -> hook_inv h q.
Proof.
  induction 1; eauto using create_inv, guarded_inv, start_inv, body_inv, end_inv.
  split; cbn.
  - intros tid th H; apply lookup_singleton_Some in H as [<- <-]; split; [done|]; exists (mk_ctx 0 0, true).
    rewrite lookup_singleton_eq; split_and!; [done|done|]; unfold life, calls_of; cbn; rewrite decide_True by done; done.
  - intros tid H; apply lookup_singleton_None in H; unfold calls_of; cbn; by rewrite decide_False.
  - intros p H; rewrite lookup_empty in H; by destruct H.
  - intros t1 t2 th1 th2 p H1 H2; apply lookup_singleton_Some in H1 as [<- _], H2 as [<- _]; done.
Qed.

(** C38. In every interleaving of thread creations, starts and ends: a thread that was
    created without a guard is registered before its routine runs with the
    argument it was given, and is unregistered exactly once when it ends, also
    when it is cancelled before its routine; a thread created under a guard never
    reaches the profilers.  No step uses a context that was freed, and when all
    hooked threads have ended every context has been freed. *)
Theorem hooked_threads_are_bracketed (sym main : Z) (h : hook) (q : requests) (Hrun : hook_run sym main h q) :
  (forall tid th, hk_threads h !! tid = Some th -> exists ctx guarded,
     q !! tid = Some (ctx, guarded) /\ hooked th = negb guarded /\ life ctx th (calls_of tid h)) /\
  (forall tid th, hk_threads h !! tid = Some th -> th_stage th <> Ended ->
     (th_stage th = (if hooked th then Started else Created) -> is_Some (run_routine tid h)) /\ is_Some (end_thread tid h)) /\
  ((forall tid th, hk_threads h !! tid = Some th -> hooked th = true -> th_stage th = Ended) -> hk_heap h = ∅).
Proof.
  apply hook_run_inv in Hrun as Hi; split_and!.
  - intros tid th Ht; destruct (hi_life _ _ Hi _ _ Ht) as (_ & [ctx g] & Q & Hv & Hl); exists ctx, g; split_and!; [done| |done].
    unfold serves, hooked in *; destruct (th_entry th); [by injection Hv as _ ->|cbn in Hv; by destruct Hv as [-> _]].
  - intros tid th Ht Hne; destruct (hi_life _ _ Hi _ _ Ht) as (_ & req & _ & Hv & _).
    unfold run_routine, end_thread, cleanup_thread_ctx, serves in *; rewrite Ht, !some_bind.
    destruct (th_entry th) as [r a|p]; [by split; eauto|]; destruct Hv as [_ Hv]; cbn.
    rewrite (Hv Hne), !some_bind; split; eauto.
  - intros Hend; apply map_empty; intros p; apply eq_None_not_Some; intros Hp.
    destruct (hi_owner _ _ Hi p Hp) as (tid & th & Ht & Ee & Hne); apply Hne, (Hend tid); [done|]; unfold hooked; by rewrite Ee.
Qed.

(** A program thread and a guarded one: both run to their end. *)
Definition life_script (h : hook) : option hook :=
  h ← pthread_create 4096 1 100 (Some 2) 7 8 h;
  h ← guarded_create 4096 1 200 (Some 3) 9 10 h;
  h ← trampoline_start 2 h;
  h ← run_routine 3 h;
  h ← run_routine 2 h;
  h ← end_thread 2 h;
  end_thread 3 h.

Lemma life_script_run : exists h q, hook_run 4096 1 h q /\ life_script (hook_init 1) = Some h.
Proof.
  assert (Hnew : forall h tid, hk_threads h !! tid = None -> forall t, Some tid = Some t -> hk_threads h !! t = None)
    by (by intros h tid H t [= <-]).
  pose proof (run_init 4096 1) as H.
  eapply (run_create 4096 1 _ _ _ 1 100 (Some 2) 7 8) in H; [|split_and!; [reflexivity|reflexivity|by apply Hnew]|reflexivity].
  eapply (run_guarded 4096 1 _ _ _ 1 200 (Some 3) 9 10) in H; [|split_and!; [reflexivity|reflexivity|by apply Hnew]|reflexivity].
  eapply (run_start 4096 1 _ _ _ 2) in H; [|reflexivity|reflexivity|reflexivity|reflexivity].
  eapply (run_body 4096 1 _ _ _ 3) in H; [|reflexivity|reflexivity|reflexivity].
  eapply (run_body 4096 1 _ _ _ 2) in H; [|reflexivity|reflexivity|reflexivity].
  eapply (run_end 4096 1 _ _ _ 2) in H; [|reflexivity|by left|reflexivity].
  eapply (run_end 4096 1 _ _ _ 3) in H; [|reflexivity|by left|reflexivity].
  do 2 eexists; split; [exact H|reflexivity].
Qed.

(** All hooked threads have ended. *)
Definition all_ended (h : hook) : bool :=
  forallb (fun c => negb (hooked c.2) || match th_stage c.2 with Ended => true | _ => false end) (map_to_list (hk_threads h)).
Lemma all_ended_spec h tid th : all_ended h = true -> hk_threads h !! tid = Some th -> hooked th = true -> th_stage th = Ended.
Proof.
  unfold all_ended; rewrite forallb_forall; intros H Ht Hk; specialize (H (tid, th)); cbn in H; rewrite Hk in H.
  assert (Hin : In (tid, th) (map_to_list (hk_threads h))) by (by apply list_elem_of_In, elem_of_map_to_list).
  specialize (H Hin); by destruct (th_stage th).
Qed.

Lemma hooked_threads_are_bracketed_witness : exists h : hook,
  calls_of 2 h = [OnStart; Routine 7 8; OnStop] /\ calls_of 3 h = [Routine 9 10] /\ hk_heap h = ∅.
Proof.
  destruct life_script_run as (h & q & Hr & E); exists h; destruct (hooked_threads_are_bracketed 4096 1 h q Hr) as (_ & _ & H).
  assert (Ha : all_ended h = true) by (vm_compute in E; apply (inj Some) in E; rewrite <- E; reflexivity).
  split_and!; [vm_compute in E; apply (inj Some) in E; rewrite <- E; reflexivity..|].
  apply H; intros tid th; by apply all_ended_spec.
Defined.

End PthreadHook.
