(* ===== verification/CtlInv.v ===== *)
(** What the controller keeps true, against an interface.

    [RdDevice] states what the controller relies on: the device keeps a running
    flag and a set of registered threads per open descriptor and a request
    changes them as documented; memory is mapped and unmapped as asked.  The
    theorems here are proved from the interface alone; [CtlKernel.v] shows that
    the kernel module implements it. *)
From S2P Require Import Prelude Uapi EffAddr KernelApi KTypes Lifecycle Session CText AsmDecode Objdump ProcMaps LoadTargets.
From S2P Require Import Effects TargetedCtl.
Import AsmDecode Objdump ProcMaps LoadTargets TargetedCtl.

(** The flag and the thread set after a successful request. *)
Definition running_after (cmd : ioctl_cmd) (running : bool) : bool :=
  match cmd with
  | START_WINDOW => true
  | STOP_WINDOW => false
  | _ => running
  end.
Definition active_after (cmd : ioctl_cmd) (active : gset Z) : gset Z :=
  match cmd with
  | REGISTER_THREAD (Some reg) => {[reg_tid reg]} ∪ active
  | UNREGISTER_THREAD (Some tid) => active ∖ {[tid]}
  | _ => active
  end.

(** The requests of a running session. *)
Definition runtime_cmd (cmd : ioctl_cmd) : Prop :=
  match cmd with
  | CONFIG_SESSION _ | LOAD_TARGETS _ | OTHER_IOCTL => False
  | GET_LOG2_HIST (Some (_, j)) | GET_PAIR_HIST_ENTRY (Some (_, j))
  | GET_CONTEXT_ENTRY (Some (_, j)) | GET_DWARF_EVENT (Some (_, j)) => is_u32 j
  | _ => True
  end.

(** Arguments of the set-up requests have their C widths. *)
Definition cfg_ok (cfg : rd_wpctl_session_cfg) : Prop :=
  is_u32 (cfg_wp_capacity cfg) /\ is_u32 (cfg_dwarf_event_capacity cfg).
Definition target_ok (t : rd_wpctl_target) : Prop :=
  0 <= extend (decode t) /\ 0 <= Uapi.shift (decode t).

Class RdDevice (O : OsApi) := {
  os_valid : os -> Prop;
  dv_ok : Z -> os -> Prop;
  dv_running : Z -> os -> bool;
  dv_active : Z -> os -> gset Z;
  dv_mapped : os -> gset (Z * Z);
  (** What the rest of the system does between two calls of the controller. *)
  dv_step : Z -> os -> os -> Prop;
  dv_step_keeps fd o o' : dv_ok fd o -> dv_step fd o o' ->
    dv_ok fd o' /\ dv_running fd o' = dv_running fd o /\ dv_active fd o' = dv_active fd o;
  dv_ioctl fd cmd o : dv_ok fd o -> runtime_cmd cmd ->
    exists ret rep o', os_ioctl fd cmd o = Some (ret, rep, o') /\ dv_ok fd o' /\
      dv_mapped o' = dv_mapped o /\
      (ret < 0 -> dv_running fd o' = dv_running fd o /\ dv_active fd o' = dv_active fd o) /\
      (0 <= ret -> dv_running fd o' = running_after cmd (dv_running fd o) /\
                   dv_active fd o' = active_after cmd (dv_active fd o));
  dv_affinity fd tid cpu o : dv_ok fd o ->
    let o' := (os_setaffinity tid cpu o).2 in
    dv_ok fd o' /\ dv_running fd o' = dv_running fd o /\ dv_active fd o' = dv_active fd o /\
    dv_mapped o' = dv_mapped o;
  dv_mmap fd bytes o : dv_ok fd o ->
    let '(r, o') := os_mmap bytes o in
    dv_ok fd o' /\ dv_running fd o' = dv_running fd o /\ dv_active fd o' = dv_active fd o /\
    match r with
    | Some base => ((base, bytes) ∉ dv_mapped o) /\ dv_mapped o' = {[(base, bytes)]} ∪ dv_mapped o
    | None => dv_mapped o' = dv_mapped o
    end;
  dv_munmap fd base bytes o : dv_ok fd o ->
    let o' := os_munmap base bytes o in
    dv_ok fd o' /\ dv_running fd o' = dv_running fd o /\ dv_active fd o' = dv_active fd o /\
    dv_mapped o' = dv_mapped o ∖ {[(base, bytes)]};
  os_fopen_valid path o : os_valid o -> os_valid (os_fopen path o).2;
  dv_open o : os_valid o ->
    let '(fd, o') := os_open o in
    0 <= fd -> dv_ok fd o' /\ dv_running fd o' = false /\ dv_active fd o' = ∅;
  dv_config fd cfg o : dv_ok fd o -> cfg_ok cfg ->
    exists ret rep o', os_ioctl fd (CONFIG_SESSION (Some cfg)) o = Some (ret, rep, o') /\ dv_ok fd o' /\
      dv_running fd o' = dv_running fd o /\ dv_active fd o' = dv_active fd o;
  dv_load fd l o : dv_ok fd o -> zlen l < 4294967296 -> Forall target_ok l ->
    let '(ptr, o1) := os_vector l o in
    exists ret rep o', os_ioctl fd (LOAD_TARGETS (Some (mk_batch ptr (zlen l)))) o1 = Some (ret, rep, o') /\
      dv_ok fd o' /\ dv_running fd o' = dv_running fd o /\ dv_active fd o' = dv_active fd o;
}.

Module CtlInv.

(** * The invariant *)

Section invariant.
Context {O : OsApi} {D : RdDevice O}.

(** The members that registration leaves alone. *)
Definition frame (p p' : profiler) : Prop :=
  pf_device_fd p' = pf_device_fd p /\ pf_window_open p' = pf_window_open p /\
  pf_auto_fallback_active p' = pf_auto_fallback_active p /\
  pf_explicit_window_seen p' = pf_explicit_window_seen p /\ pf_config p' = pf_config p /\
  pf_table p' = pf_table p.

(** Some registered thread runs on [cpu]. *)
Definition on_cpu (threads : gmap Z thread_binding) (cpu tid : Z) : Prop :=
  exists b, threads !! tid = Some b /\ tb_active b = true /\ tb_cpu b = cpu.

(** The CPU table and the thread table agree, and no two threads share a CPU. *)
Record tables_inv (p : profiler) : Prop := {
  ti_cpus : zlen (pf_cpu_owner p) = pf_num_cpus p;
  ti_owner cpu x : pf_cpu_owner p !!z cpu = Some x -> (x <> 0 <-> exists tid, on_cpu (pf_threads p) cpu tid);
  ti_range cpu tid : on_cpu (pf_threads p) cpu tid -> 0 <= cpu < pf_num_cpus p;
  ti_excl cpu t1 t2 : on_cpu (pf_threads p) cpu t1 -> on_cpu (pf_threads p) cpu t2 -> t1 = t2;
  ti_tid tid b : pf_threads p !! tid = Some b -> tb_tid b = tid;
}.

(** The device knows what the controller knows. *)
Record mirror (p : profiler) (o : os) : Prop := {
  mi_ok : dv_ok (pf_device_fd p) o;
  mi_window : pf_window_open p = dv_running (pf_device_fd p) o;
  mi_active tid : tid ∈ dv_active (pf_device_fd p) o <->
    exists b, pf_threads p !! tid = Some b /\ tb_active b = true;
}.

Definition flags_inv (p : profiler) : Prop :=
  pf_auto_fallback_active p = true -> pf_explicit_window_seen p = false.

Definition ctl_inv (s : profiler * os) : Prop :=
  tables_inv s.1 /\ mirror s.1 s.2 /\ flags_inv s.1.

(** Changing only the window flags keeps the tables. *)
Lemma tables_inv_same p p' :
  pf_cpu_owner p' = pf_cpu_owner p -> pf_num_cpus p' = pf_num_cpus p -> pf_threads p' = pf_threads p ->
  tables_inv p -> tables_inv p'.
Proof. intros E1 E2 E3 [H1 H2 H3 H4 H5]; split; rewrite ?E1, ?E2, ?E3; done. Qed.

(** ** Requests *)

(** What a request did. *)
Definition ioctl_effect (fd : Z) (cmd : ioctl_cmd) (ret : Z) (o o' : os) : Prop :=
  dv_ok fd o' /\ dv_mapped o' = dv_mapped o /\
  (ret < 0 -> dv_running fd o' = dv_running fd o /\ dv_active fd o' = dv_active fd o) /\
  (0 <= ret -> dv_running fd o' = running_after cmd (dv_running fd o) /\
               dv_active fd o' = active_after cmd (dv_active fd o)).

Lemma wp_device_ioctl cmd Q p o :
  dv_ok (pf_device_fd p) o -> runtime_cmd cmd ->
  (forall ret rep o', ioctl_effect (pf_device_fd p) cmd ret o o' -> Q (Ok (ret, rep)) (p, o')) ->
  wp (device_ioctl cmd) Q (p, o).
Proof.
  intros Hok Hc HQ; destruct (dv_ioctl (pf_device_fd p) cmd o Hok Hc) as (ret & rep & o' & E & H).
  unfold wpc, device_ioctl; cbn [fst snd]; rewrite E, some_bind; by apply HQ.
Qed.

Lemma wp_ioctl_or_throw name cmd Q p o :
  dv_ok (pf_device_fd p) o -> runtime_cmd cmd ->
  (forall e o', dv_ok (pf_device_fd p) o' -> dv_mapped o' = dv_mapped o ->
     dv_running (pf_device_fd p) o' = dv_running (pf_device_fd p) o ->
     dv_active (pf_device_fd p) o' = dv_active (pf_device_fd p) o -> Q (Throw e) (p, o')) ->
  (forall rep o', dv_ok (pf_device_fd p) o' -> dv_mapped o' = dv_mapped o ->
     dv_running (pf_device_fd p) o' = running_after cmd (dv_running (pf_device_fd p) o) ->
     dv_active (pf_device_fd p) o' = active_after cmd (dv_active (pf_device_fd p) o) -> Q (Ok rep) (p, o')) ->
  wp (ioctl_or_throw name cmd) Q (p, o).
Proof.
  intros Hok Hc HT HO; apply wp_bind, wp_device_ioctl; [done|done|]; intros ret rep o' (E1 & E2 & E3 & E4).
  cbn [fst snd]; destruct (ret <? 0) eqn:E.
  - apply wp_throw; destruct E3; [lia|]; by apply HT.
  - apply wp_ret; destruct E4; [lia|]; by apply HO.
Qed.

(** ** Windows *)

Lemma ctl_start_inv s :
  ctl_inv s -> wp start_window_locked (fun r s' => ctl_inv s' /\
    pf_auto_fallback_active s'.1 = pf_auto_fallback_active s.1 /\
    pf_explicit_window_seen s'.1 = pf_explicit_window_seen s.1 /\
    (r = Ok tt -> pf_window_open s'.1 = true)) s.
Proof.
  destruct s as [p o]; intros (Ht & [Hok Hw Ha] & Hf); cbn [fst snd] in *; apply wp_bind, wp_get, wp_if; intros E; [by apply wp_ret|].
  apply wp_bind, wp_ioctl_or_throw; [done|done| |].
  - intros e o' H1 _ H2 H3; split; [split; [done|split; [|done]]|done]; split; cbn; [done|congruence|by rewrite H3].
  - intros rep o' H1 _ H2 H3; apply wp_modify; split; [split; [|split; [|done]]|done].
    + by eapply tables_inv_same, Ht.
    + split; cbn; [done|done|by rewrite H3].
Qed.

Lemma ctl_stop_inv s :
  ctl_inv s -> wp stop_window_locked (fun r s' => ctl_inv s' /\
    pf_auto_fallback_active s'.1 = pf_auto_fallback_active s.1) s.
Proof.
  destruct s as [p o]; intros (Ht & [Hok Hw Ha] & Hf); cbn [fst snd] in *; apply wp_bind, wp_get, wp_if; intros E; [by apply wp_ret|].
  apply wp_bind, wp_ioctl_or_throw; [done|done| |].
  - intros e o' H1 _ H2 H3; split; [split; [done|split; [|done]]|done]; split; cbn; [done|congruence|by rewrite H3].
  - intros rep o' H1 _ H2 H3; apply wp_modify; split; [split; [|split; [|done]]|done].
    + by eapply tables_inv_same, Ht.
    + split; cbn; [done|done|by rewrite H3].
Qed.

Lemma reset_session_inv s : ctl_inv s -> wp reset_session_locked (fun _ s' => ctl_inv s') s.
Proof.
  destruct s as [p o]; intros (Ht & [Hok Hw Ha] & Hf); cbn [fst snd] in *; apply wp_bind, wp_get, wp_if; intros E; [by apply wp_throw|].
  apply wp_bind, wp_ioctl_or_throw; [done|done| |].
  - intros e o' H1 _ H2 H3; split; [done|split; [|done]]; split; cbn; [done|congruence|by rewrite H3].
  - intros rep o' H1 _ H2 H3; cbn [running_after active_after] in H2, H3; apply wp_ret; split; [done|split; [|done]]; split; cbn; [done|congruence|by rewrite H3].
Qed.

Lemma kernel_start_inv s : ctl_inv s -> wp kernel_start (fun _ s' => ctl_inv s') s.
Proof.
  intros Hi; apply wp_bind, wp_get, wp_if; intros E.
  - apply wp_bind; eapply wp_mono; [by apply ctl_stop_inv|]; intros [[]|e] s1 [H1 _]; [|done].
    apply wp_bind; eapply wp_mono; [by apply reset_session_inv|]; intros [[]|e] s2 H2; [|done].
    apply wp_bind; eapply wp_mono; [by apply ctl_start_inv|]; intros [[]|e] [p3 o3] [(Ht & [Hok Hw Ha] & Hf) _]; [|done].
    apply wp_modify; split; [by eapply tables_inv_same, Ht|split; [done|done]].
  - apply wp_bind, wp_modify; destruct s as [p o]; destruct Hi as (Ht & [Hok Hw Ha] & Hf).
    assert (Hi' : ctl_inv (p ⟦ pf_explicit_window_seen := true ⟧ ⟦ pf_auto_fallback_active := false ⟧, o)).
    { split; [by eapply tables_inv_same, Ht|split; [done|done]]. }
    apply wp_if; intros _; [by apply wp_ret|].
    eapply wp_mono; [by apply ctl_start_inv|]; by intros r s' [].
Qed.

Lemma kernel_stop_inv s : ctl_inv s -> wp kernel_stop (fun _ s' => ctl_inv s') s.
Proof.
  intros Hi; apply wp_bind, wp_get, wp_if; intros _; [by apply wp_ret|].
  apply wp_if; intros _; [by apply wp_ret|].
  eapply wp_mono; [by apply ctl_stop_inv|]; by intros r s' [].
Qed.

(** ** CPUs *)

Lemma scan_cpus_spec owner start num offs :
  zlen owner = num -> 0 < num \/ offs = [] ->
  exists r, scan_cpus owner start num offs = Some r /\
    match r with
    | Some cpu => owner !!z cpu = Some 0
    | None => forall off, off ∈ offs -> owner !!z ((start + off) mod num) <> Some 0
    end.
Proof.
  intros Hl Hn; induction offs as [|off offs IH]; cbn [scan_cpus].
  { exists None; split; [done|]; by intros off ?%elem_of_nil. }
  destruct Hn as [Hn|]; [|done]; pose proof (Z.mod_pos_bound (start + off) num Hn) as Hr.
  destruct (proj2 (zlookup_is_Some owner ((start + off) mod num))) as [x Hx]; [lia|].
  rewrite Hx, some_bind; destruct (x =? 0) eqn:E.
  - eexists; split; [done|]; cbn; rewrite Hx; f_equal; lia.
  - destruct IH as (r & -> & Hr'); [by left|]; exists r; split; [done|]; destruct r; [done|].
    intros o [->|Ho]%elem_of_cons; [rewrite Hx; intros [= ->]; lia|by apply Hr'].
Qed.

Lemma scan_all_cpus owner start num :
  zlen owner = num ->
  exists r, scan_cpus owner start num (seqZ 0 num) = Some r /\
    match r with
    | Some cpu => owner !!z cpu = Some 0
    | None => forall cpu, owner !!z cpu <> Some 0
    end.
Proof.
  intros Hl; destruct (decide (0 < num)) as [Hn|Hn].
  - destruct (scan_cpus_spec owner start num (seqZ 0 num) Hl) as (r & E & Hr); [by left|].
    exists r; split; [done|]; destruct r as [|]; [done|]; intros cpu Hcpu.
    pose proof Hcpu as Hin; apply zlookup_Some in Hin as [Hin _].
    apply (Hr ((cpu - start) mod num)); [apply elem_of_seqZ; pose proof (Z.mod_pos_bound (cpu - start) num Hn); lia|].
    rewrite Zplus_mod_idemp_r; replace (start + (cpu - start)) with cpu by lia.
    by rewrite Z.mod_small by lia.
  - rewrite seqZ_nil by lia; exists None; split; [done|]; intros cpu Hcpu.
    apply zlookup_Some in Hcpu as [? _]; lia.
Qed.

(** The CPU returned was free and is marked; a throw means that all are taken. *)
Lemma allocate_spec caller p o :
  tables_inv p ->
  wp (allocate_cpu_locked caller) (fun r s' =>
    match r with
    | Ok cpu => pf_cpu_owner p !!z cpu = Some 0 /\
                s' = (p ⟦ pf_cpu_owner ::= <[Z.to_nat cpu := 1]> ⟧, o)
    | Throw _ => s' = (p, o) /\ forall cpu, pf_cpu_owner p !!z cpu <> Some 0
    end) (p, o).
Proof.
  intros Ht; apply wp_bind, wp_get, wp_bind, wp_call; cbn zeta; cbn [fst snd].
  set (start := if pf_is_pin p then _ else _).
  destruct (scan_all_cpus (pf_cpu_owner p) start (pf_num_cpus p) (ti_cpus p Ht)) as (r & E & Hr).
  apply wp_bind; unfold wpc at 1, crash_if_none; rewrite E, some_bind; destruct r as [cpu|]; [|done].
  apply wp_bind, wp_modify, wp_ret; done.
Qed.

Lemma insert_back (l : list Z) cpu : l !!z cpu = Some 0 -> <[Z.to_nat cpu := 0]> (<[Z.to_nat cpu := 1]> l) = l.
Proof. intros [_ H]%zlookup_Some; by rewrite list_insert_insert_eq, list_insert_id. Qed.

(** Releasing the CPU just taken restores the table. *)
Lemma release_after_allocate p cpu :
  zlen (pf_cpu_owner p) = pf_num_cpus p -> pf_cpu_owner p !!z cpu = Some 0 ->
  (if (0 <=? cpu) && (cpu <? pf_num_cpus p)
   then p ⟦ pf_cpu_owner ::= <[Z.to_nat cpu := 1]> ⟧ ⟦ pf_cpu_owner ::= <[Z.to_nat cpu := 0]> ⟧
   else p ⟦ pf_cpu_owner ::= <[Z.to_nat cpu := 1]> ⟧) = p.
Proof.
  intros Hl H; pose proof H as [Hr _]%zlookup_Some.
  assert ((0 <=? cpu) && (cpu <? pf_num_cpus p) = true) as -> by lia.
  destruct p; unfold upd; cbn in *; f_equal; by apply insert_back.
Qed.

(** ** Registration *)

Definition forget (tid : Z) (p : profiler) : profiler := p ⟦ pf_threads ::= delete tid ⟧.

Lemma on_cpu_delete threads cpu tid t :
  (forall b, threads !! tid = Some b -> tb_active b = false) ->
  on_cpu (delete tid threads) cpu t <-> on_cpu threads cpu t.
Proof.
  intros H; split; intros (b & Hb & Ha & Hc).
  - apply lookup_delete_Some in Hb as [_ Hb]; by exists b.
  - exists b; split; [|done]; rewrite lookup_delete_ne; [done|]; intros ->.
    by rewrite (H b Hb) in Ha.
Qed.

(** Dropping the entry of a thread that is not registered. *)
Lemma forget_inv tid p o :
  (forall b, pf_threads p !! tid = Some b -> tb_active b = false) ->
  ctl_inv (p, o) -> ctl_inv (forget tid p, o).
Proof.
  intros Hn ([H1 H2 H3 H4 H5] & [M1 M2 M3] & Hf); split; [|split; [|done]]; split; cbn in *; try done.
  - intros cpu x Hx; rewrite (H2 cpu x Hx); split; intros [t Ht]; exists t; by apply on_cpu_delete in Ht || apply on_cpu_delete.
  - intros cpu t Ht; apply on_cpu_delete in Ht; [by eapply H3|done].
  - intros cpu t1 t2 Ht1 Ht2; apply on_cpu_delete in Ht1, Ht2; [by eapply H4|done..].
  - intros t b [_ Hb]%lookup_delete_Some; by apply H5.
  - intros t; rewrite M3; split; intros (b & Hb & Ha); exists b; split; try done.
    + rewrite lookup_delete_ne; [done|]; intros ->; by rewrite (Hn b Hb) in Ha.
    + by apply lookup_delete_Some in Hb as [_ Hb].
Qed.

Lemma on_cpu_insert threads cpu tid t b :
  tb_active b = true ->
  on_cpu (<[tid := b]> threads) cpu t <-> (t = tid /\ tb_cpu b = cpu) \/ (t <> tid /\ on_cpu threads cpu t).
Proof.
  intros Hb; unfold on_cpu; split.
  - intros (b' & [[<- <-]|[Hne Hb']]%lookup_insert_Some & Ha & Hc); [by left|right; eauto].
  - intros [[-> Hc]|[Hne (b' & H1 & H2)]]; [exists b; by rewrite lookup_insert_eq|].
    exists b'; by rewrite lookup_insert_ne.
Qed.

(** Adding a thread on a CPU that was free. *)
Lemma add_thread_inv tid b p o o' :
  ctl_inv (p, o) -> (forall b, pf_threads p !! tid = Some b -> tb_active b = false) ->
  pf_cpu_owner p !!z tb_cpu b = Some 0 -> tb_tid b = tid -> tb_active b = true ->
  dv_ok (pf_device_fd p) o' -> dv_running (pf_device_fd p) o' = dv_running (pf_device_fd p) o ->
  dv_active (pf_device_fd p) o' = {[tid]} ∪ dv_active (pf_device_fd p) o ->
  ctl_inv (p ⟦ pf_cpu_owner ::= <[Z.to_nat (tb_cpu b) := 1]> ⟧ ⟦ pf_threads ::= <[tid := b]> ⟧, o').
Proof.
  intros ([H1 H2 H3 H4 H5] & [M1 M2 M3] & Hf) Hn Hfree Htid Ha Hok Hrun Hact.
  pose proof Hfree as [Hr Hl]%zlookup_Some.
  assert (Hno : forall t, ~ on_cpu (pf_threads p) (tb_cpu b) t).
  { intros t Ht; destruct (H2 _ _ Hfree) as [_ Hx]; apply Hx; [by exists t|done]. }
  assert (Hother : forall cpu t, on_cpu (pf_threads p) cpu t -> t <> tid).
  { intros cpu t (b' & Hb' & Ha' & _) ->; by rewrite (Hn b' Hb') in Ha'. }
  split; [|split; [|done]]; split; cbn in *; try done.
  - by rewrite length_insert.
  - intros cpu x [Hx1 Hx2]%zlookup_Some; rewrite length_insert in Hx1.
    apply list_insert_cases in Hx2 as [[E ->]|[Hne Hx2]].
    + assert (cpu = tb_cpu b) as -> by lia; split; [|done]; intros _.
      exists tid; apply on_cpu_insert; [done|by left].
    + assert (Hx : pf_cpu_owner p !!z cpu = Some x) by (apply zlookup_Some; split; [lia|done]).
      rewrite (H2 cpu x Hx); split; intros [t Ht].
      * exists t; apply on_cpu_insert; [done|]; right; split; [by eapply Hother|done].
      * apply on_cpu_insert in Ht as [[-> E]|[_ Ht]]; [lia|by exists t|done].
  - intros cpu t Ht; apply on_cpu_insert in Ht as [[-> <-]|[_ Ht]]; [lia|by eapply H3|done].
  - intros cpu t1 t2 Ht1 Ht2; apply on_cpu_insert in Ht1, Ht2; try done.
    destruct Ht1 as [[-> <-]|[N1 Ht1]], Ht2 as [[-> E]|[N2 Ht2]]; [done| | |by eapply H4].
    + by destruct (Hno t2).
    + subst cpu; by destruct (Hno t1).
  - intros t b' [[<- <-]|[_ Hb']]%lookup_insert_Some; [done|by apply H5].
  - by rewrite Hrun.
  - intros t; rewrite Hact, elem_of_union, elem_of_singleton, M3; split.
    + intros [->|(b' & Hb' & Ha')]; [exists b; by rewrite lookup_insert_eq|].
      exists b'; rewrite lookup_insert_ne; [done|]; intros <-; by rewrite (Hn b' Hb') in Ha'.
    + intros (b' & [[<- <-]|[_ Hb']]%lookup_insert_Some & Ha'); [by left|right; eauto].
Qed.

Lemma undo_spec {A} tid b e p o (Q : result A -> profiler * os -> Prop) :
  tables_inv p -> pf_cpu_owner p !!z tb_cpu b = Some 0 ->
  Q (Throw e) (p, match tb_scratch b with Some base => os_munmap base (tb_scratch_bytes b) o | None => o end) ->
  wp (undo_registration tid false b e) Q (p ⟦ pf_cpu_owner ::= <[Z.to_nat (tb_cpu b) := 1]> ⟧, o).
Proof.
  intros Ht Hfree HQ; apply wp_bind, wp_ret, wp_bind.
  assert (Hrel : forall o', Q (Throw e) (p, o') ->
    wp (release_cpu_locked (tb_cpu b);; throw e) Q (p ⟦ pf_cpu_owner ::= <[Z.to_nat (tb_cpu b) := 1]> ⟧, o')).
  { intros o' HQ'; apply wp_bind, wp_modify, wp_throw; cbn [fst snd].
    rewrite <- (release_after_allocate p (tb_cpu b) (ti_cpus p Ht) Hfree) in HQ' at 1; exact HQ'. }
  unfold unmap; destruct (tb_scratch b) as [base|]; [apply wp_call|apply wp_ret]; by apply Hrel.
Qed.

(** The CPU table, the device and the mappings are as before. *)
Definition undone (tid : Z) (s s' : profiler * os) : Prop :=
  (s'.1 = s.1 \/ s'.1 = forget tid s.1) /\
  dv_active (pf_device_fd s.1) s'.2 = dv_active (pf_device_fd s.1) s.2 /\ dv_mapped s'.2 = dv_mapped s.2.

Definition now_registered (tid : Z) (b : thread_binding) (s s' : profiler * os) : Prop :=
  pf_threads s'.1 !! tid = Some b /\ tb_active b = true /\
  (forall t, t <> tid -> pf_threads s'.1 !! t = pf_threads s.1 !! t).

Lemma same_device p o o' :
  dv_ok (pf_device_fd p) o' -> dv_running (pf_device_fd p) o' = dv_running (pf_device_fd p) o ->
  dv_active (pf_device_fd p) o' = dv_active (pf_device_fd p) o ->
  ctl_inv (p, o) -> ctl_inv (p, o').
Proof.
  intros H1 H2 H3 (Ht & [M1 M2 M3] & Hf); split; [done|split; [|done]]; split; cbn in *; [done|congruence|].
  by rewrite H3.
Qed.

(** Pinning a thread, with its exception caught. *)
Lemma wp_pin tid cpu Q s :
  Q (Ok (if (os_setaffinity tid cpu s.2).1 then None else Some (txt "sched_setaffinity failed")))
    (s.1, (os_setaffinity tid cpu s.2).2) -> wp (try_catch (pin_tid_to_cpu tid cpu)) Q s.
Proof.
  destruct s as [p o]; unfold wpc, try_catch, pin_tid_to_cpu, bind, call; cbn [fst snd].
  by destruct (os_setaffinity tid cpu o) as [[] o'].
Qed.

(** A fresh registration, after a stale entry was dropped. *)
Lemma register_fresh caller tid p o :
  ctl_inv (p, o) -> (forall b, pf_threads p !! tid = Some b -> tb_active b = false) ->
  wp (cpu <-- allocate_cpu_locked caller;
      let b := mk_binding tid cpu None 0 0 0 false in
      failed <-- try_catch (pin_tid_to_cpu tid cpu);
      match failed with Some e => undo_registration tid false b e | None =>
      let stride := u64 os_page_size in
      let bytes := u64 (os_page_size * cf_watchpoint_capacity (pf_config p)) in
      mapped <-- call (os_mmap bytes);
      match mapped with
      | None =>
          undo_registration tid false (b ⟦ tb_scratch_stride := stride ⟧ ⟦ tb_scratch_bytes := bytes ⟧)
            (txt "mmap scratch watchpoint region failed")
      | Some base =>
          let b := mk_binding tid cpu (Some base) bytes base stride false in
          r <-- device_ioctl (REGISTER_THREAD (Some (mk_thread_register tid cpu base stride)));
          if r.1 <? 0 then
            undo_registration tid false b (txt "RDKIOC_REGISTER_THREAD failed: " ++ strerror (- r.1))
          else
            let b := b ⟦ tb_active := true ⟧ in
            modify (fun p => p ⟦ pf_threads ::= <[tid := b]> ⟧);; ret b
      end
      end)
    (fun r s' => ctl_inv s' /\ frame p s'.1 /\
       match r with
       | Ok b => now_registered tid b (p, o) s'
       | Throw _ => s'.1 = p /\ dv_active (pf_device_fd p) s'.2 = dv_active (pf_device_fd p) o /\
                    dv_mapped s'.2 = dv_mapped o
       end) (p, o).
Proof.
  intros Hi Hn; pose proof Hi as (Ht & [Hok _ _] & _); cbn [fst snd] in *.
  apply wp_bind; eapply wp_mono; [by apply allocate_spec|]; intros [cpu|e] s1; [intros [Hfree ->]|intros [-> _]]; [|done].
  cbn zeta; apply wp_bind, wp_pin; cbn [fst snd].
  destruct (dv_affinity (pf_device_fd p) tid cpu o Hok) as (A1 & A2 & A3 & A4); set (o1 := (os_setaffinity tid cpu o).2) in *.
  assert (Hi1 : ctl_inv (p, o1)) by (by apply (same_device p o)).
  destruct (os_setaffinity tid cpu o).1.
  2: { apply undo_spec; [done|done|]; cbn; done. }
  apply wp_bind, wp_call; cbn [fst snd].
  set (bytes := u64 (os_page_size * cf_watchpoint_capacity (pf_config p))).
  pose proof (dv_mmap (pf_device_fd p) bytes o1 A1) as Hm; destruct (os_mmap bytes o1) as [[base|] o2]; cbn [fst snd].
  2: { destruct Hm as (B1 & B2 & B3 & B4); apply undo_spec; [done|done|]; cbn.
       split_and!; try done; [|congruence..]; apply (same_device p o1); done. }
  destruct Hm as (B1 & B2 & B3 & B4 & B5).
  apply wp_bind, wp_device_ioctl; [done|done|]; intros ret rep o3 (C1 & C2 & C3 & C4); cbn [fst snd].
  change (pf_device_fd (p ⟦ pf_cpu_owner ::= <[Z.to_nat cpu := 1]> ⟧)) with (pf_device_fd p) in *.
  destruct (ret <? 0) eqn:E.
  - destruct C3 as [C3 C5]; [lia|]; apply undo_spec; [done|done|]; cbn [tb_scratch tb_scratch_bytes].
    destruct (dv_munmap (pf_device_fd p) base bytes o3 C1) as (D1 & D2 & D3 & D4).
    split; [apply (same_device p o); [done|congruence|congruence|done]|].
    split; [done|]; split; [done|]; split; cbn [snd]; [congruence|].
    rewrite D4, C2, B5; rewrite A4; rewrite A4 in B4; set_solver.
  - destruct C4 as [C4 C5]; [lia|]; cbn [running_after active_after reg_tid] in C4, C5.
    apply wp_bind, wp_modify, wp_ret; cbn [fst snd]; split; [|split; [done|]].
    + apply (add_thread_inv tid (mk_binding tid cpu (Some base) bytes base (u64 os_page_size) true) p o o3);
        try done; congruence.
    + split; [|split; [done|]]; cbn; [by rewrite lookup_insert_eq|]; intros t Hne; by rewrite lookup_insert_ne.
Qed.

Lemma register_spec caller tid s :
  ctl_inv s ->
  wp (register_thread_locked caller tid) (fun r s' => ctl_inv s' /\ frame s.1 s'.1 /\
    match r with Ok b => now_registered tid b s s' | Throw _ => undone tid s s' end) s.
Proof.
  destruct s as [p o]; intros Hi; apply wp_bind, wp_get; cbn [fst].
  destruct (pf_threads p !! tid) as [[t c sc by_ ba st []]|] eqn:E.
  - apply wp_ret; split; [done|]; split; [done|]; split_and!; done.
  - cbn [is_null]; apply wp_bind, wp_modify; cbn [fst snd]; change (p ⟦ pf_threads ::= delete tid ⟧) with (forget tid p).
    assert (Hn : forall b, pf_threads p !! tid = Some b -> tb_active b = false) by (intros b Hb; rewrite E in Hb; by injection Hb as <-).
    change (pf_config p) with (pf_config (forget tid p)).
    eapply wp_mono; [apply register_fresh; [by apply forget_inv|cbn; intros b Hb; by rewrite lookup_delete_eq in Hb]|].
    intros [b|e] s' (H1 & H2 & H3); (split; [done|split; [done|]]).
    + destruct H3 as (R1 & R2 & R3); split; [done|split; [done|]]; intros t' Hne; rewrite R3 by done; cbn.
      by rewrite lookup_delete_ne.
    + destruct H3 as (R1 & R2 & R3); split; [by right|done].
  - cbn [is_null]; apply wp_bind, wp_ret.
    eapply wp_mono; [apply register_fresh; [done|intros b Hb; by rewrite E in Hb]|].
    intros [b|e] s' (H1 & H2 & H3); (split; [done|split; [done|]]); [done|].
    destruct H3 as (R1 & R2 & R3); split; [by left|done].
Qed.

(** Removing a registered thread. *)
Lemma drop_thread_inv tid b b' p o o' :
  ctl_inv (p, o) -> pf_threads p !! tid = Some b -> tb_active b = true ->
  tb_active b' = false -> tb_tid b' = tid ->
  dv_ok (pf_device_fd p) o' -> dv_running (pf_device_fd p) o' = dv_running (pf_device_fd p) o ->
  dv_active (pf_device_fd p) o' = dv_active (pf_device_fd p) o ∖ {[tid]} ->
  ctl_inv (p ⟦ pf_cpu_owner ::= <[Z.to_nat (tb_cpu b) := 0]> ⟧ ⟦ pf_threads ::= <[tid := b']> ⟧, o').
Proof.
  intros ([H1 H2 H3 H4 H5] & [M1 M2 M3] & Hf) Hb Ha Hi' Htid Hok Hrun Hact; cbn [fst snd] in *.
  assert (Hon : forall cpu t, on_cpu (<[tid := b']> (pf_threads p)) cpu t <-> t <> tid /\ on_cpu (pf_threads p) cpu t).
  { intros cpu t; split.
    - intros (x & [[<- <-]|[Hne Hx]]%lookup_insert_Some & Hxa & Hc); [congruence|split; [done|by exists x]].
    - intros [Hne (x & Hx & Hxa)]; exists x; by rewrite lookup_insert_ne. }
  assert (Hown : on_cpu (pf_threads p) (tb_cpu b) tid) by (by exists b).
  pose proof (H3 _ _ Hown) as Hr.
  split; [|split; [|done]]; split; cbn in *; try done.
  - by rewrite length_insert.
  - intros cpu x [Hx1 Hx2]%zlookup_Some; rewrite length_insert in Hx1.
    apply list_insert_cases in Hx2 as [[E ->]|[Hne Hx2]].
    + split; [done|]; intros [t Ht]; apply Hon in Ht as [Hne Ht]; exfalso.
      apply Hne; assert (cpu = tb_cpu b) as -> by lia; by eapply H4.
    + assert (Hx : pf_cpu_owner p !!z cpu = Some x) by (apply zlookup_Some; split; [lia|done]).
      rewrite (H2 cpu x Hx); split; intros [t Ht]; [|by apply Hon in Ht as [_ ?]; exists t].
      exists t; apply Hon; split; [|done]; intros ->.
      destruct Ht as (y & Hy & _ & Hc); assert (y = b) as -> by congruence; lia.
  - intros cpu t [_ Ht]%Hon; by eapply H3.
  - intros cpu t1 t2 [_ Ht1]%Hon [_ Ht2]%Hon; by eapply H4.
  - intros t x [[<- <-]|[_ Hx]]%lookup_insert_Some; [done|by apply H5].
  - by rewrite Hrun.
  - intros t; rewrite Hact, elem_of_difference, elem_of_singleton, M3; split.
    + intros [(x & Hx & Hxa) Hne]; exists x; by rewrite lookup_insert_ne.
    + intros (x & [[<- <-]|[Hne Hx]]%lookup_insert_Some & Hxa); [congruence|split; [eauto|done]].
Qed.

Definition unregistered (tid : Z) (s s' : profiler * os) : Prop :=
  (forall b, pf_threads s'.1 !! tid = Some b -> tb_active b = false) /\
  (forall t, t <> tid -> pf_threads s'.1 !! t = pf_threads s.1 !! t).

Lemma release_cpu_of p cpu :
  0 <= cpu < pf_num_cpus p ->
  (if (0 <=? cpu) && (cpu <? pf_num_cpus p) then p ⟦ pf_cpu_owner ::= <[Z.to_nat cpu := 0]> ⟧ else p) =
  p ⟦ pf_cpu_owner ::= <[Z.to_nat cpu := 0]> ⟧.
Proof. intros; by assert ((0 <=? cpu) && (cpu <? pf_num_cpus p) = true) as -> by lia. Qed.

Lemma unregister_spec tid s :
  ctl_inv s ->
  wp (unregister_thread_locked tid) (fun r s' => ctl_inv s' /\ frame s.1 s'.1 /\
    match r with Ok _ => unregistered tid s s' | Throw _ => s'.1 = s.1 end) s.
Proof.
  destruct s as [p o]; intros Hi; pose proof Hi as (Ht & [Hok _ _] & _); cbn [fst snd] in *.
  apply wp_bind, wp_get; cbn [fst].
  destruct (pf_threads p !! tid) as [[t cpu sc by_ ba st a]|] eqn:E.
  2: { apply wp_ret; split; [done|split; [done|]]; split; [|done]; intros b Hb; cbn in Hb; congruence. }
  destruct a.
  2: { apply wp_ret; split; [done|split; [done|]]; split; [|done]; intros b Hb; cbn in Hb; rewrite E in Hb; by injection Hb as <-. }
  set (b := mk_binding t cpu sc by_ ba st true) in *.
  apply wp_bind, wp_ioctl_or_throw; [done|done| |].
  { intros e o' D1 D2 D3 D4; split; [by apply (same_device p o)|done]. }
  intros rep o1 D1 D2 D3 D4; cbn [running_after active_after] in D3, D4.
  assert (Hrest : forall o2, dv_ok (pf_device_fd p) o2 ->
    dv_running (pf_device_fd p) o2 = dv_running (pf_device_fd p) o1 ->
    dv_active (pf_device_fd p) o2 = dv_active (pf_device_fd p) o1 ->
    wp (release_cpu_locked cpu;;
        modify (fun p => p ⟦ pf_threads ::= <[tid := b ⟦ tb_active := false ⟧ ⟦ tb_scratch := None ⟧
                                                       ⟦ tb_scratch_bytes := 0 ⟧]> ⟧))
      (fun r s' => ctl_inv s' /\ frame p s'.1 /\
         match r with Ok _ => unregistered tid (p, o) s' | Throw _ => s'.1 = p end) (p, o2)).
  { intros o2 E1 E2 E3; apply wp_bind, wp_modify, wp_modify; cbn [fst snd].
    rewrite release_cpu_of by (apply (ti_range p Ht cpu tid); by exists b).
    split; [|split; [done|]].
    - apply (drop_thread_inv tid b _ p o o2); try done; [|congruence..].
      by apply (ti_tid p Ht) in E.
    - split; cbn; [intros x Hx; rewrite lookup_insert_eq in Hx; by injection Hx as <-|].
      intros t' Hne; by rewrite lookup_insert_ne. }
  apply wp_bind; unfold unmap; destruct sc as [base|]; [apply wp_call|apply wp_ret]; cbn [fst snd].
  - destruct (dv_munmap (pf_device_fd p) base by_ o1 D1) as (M1 & M2 & M3 & _); by apply Hrest.
  - by apply Hrest.
Qed.

(** * The controller as a transition system *)

(** The calls other components make, by thread [caller]. *)
Inductive call_step : (profiler * os) -> (profiler * os) -> Prop :=
| step_start s r s' : kernel_start s = Some (r, s') -> call_step s s'
| step_stop s r s' : kernel_stop s = Some (r, s') -> call_step s s'
| step_register caller s r s' : register_current_thread caller s = Some (r, s') -> call_step s s'
| step_unregister caller s r s' : unregister_current_thread caller s = Some (r, s') -> call_step s s'
| step_other p o o' : dv_step (pf_device_fd p) o o' -> call_step (p, o) (p, o').

Lemma wp_run {A} (m : ctl A) Q s r s' : wp m Q s -> m s = Some (r, s') -> Q r s'.
Proof. unfold wpc; by intros H E; rewrite E in H. Qed.

Lemma wp_total {A} (m : ctl A) Q s : wp m Q s -> is_Some (m s).
Proof. unfold wpc; destruct (m s); [eauto|done]. Qed.

(** No call crashes. *)
Lemma calls_total s caller :
  ctl_inv s -> is_Some (kernel_start s) /\ is_Some (kernel_stop s) /\
  is_Some (register_current_thread caller s) /\ is_Some (unregister_current_thread caller s).
Proof.
  intros Hi; split_and!.
  - by eapply wp_total, kernel_start_inv.
  - by eapply wp_total, kernel_stop_inv.
  - apply (wp_total _ (fun _ _ => True)), wp_bind; eapply wp_mono; [by apply register_spec|].
    by intros [b|e] s1 _.
  - by eapply wp_total, unregister_spec.
Qed.

Lemma call_step_inv s s' : ctl_inv s -> call_step s s' -> ctl_inv s'.
Proof.
  intros Hi Hs; destruct Hs as [s r s' E|s r s' E|caller s r s' E|caller s r s' E|p o o' E].
  - exact (wp_run _ _ _ _ _ (kernel_start_inv s Hi) E).
  - exact (wp_run _ _ _ _ _ (kernel_stop_inv s Hi) E).
  - assert (H : wp (register_current_thread caller) (fun _ s' => ctl_inv s') s).
    { apply wp_bind; eapply wp_mono; [by apply register_spec|]; by intros [b|e] s1 (? & _). }
    exact (wp_run _ _ _ _ _ H E).
  - assert (H : wp (unregister_current_thread caller) (fun _ s' => ctl_inv s') s).
    { eapply wp_mono; [by apply unregister_spec|]; by intros r1 s1 (? & _). }
    exact (wp_run _ _ _ _ _ H E).
  - pose proof Hi as (_ & [Hok _ _] & _); destruct (dv_step_keeps _ o o' Hok E) as (H1 & H2 & H3).
    by apply (same_device p o).
Qed.

(** * Construction *)

Lemma ioctl_or_throw_same name cmd Q p o r :
  os_ioctl (pf_device_fd p) cmd o = Some r ->
  (r.1.1 < 0 -> forall e, Q (Throw e) (p, r.2)) -> (0 <= r.1.1 -> Q (Ok r.1.2) (p, r.2)) ->
  wp (ioctl_or_throw name cmd) Q (p, o).
Proof.
  destruct r as [[ret rep] o']; intros E HT HO; apply wp_bind; unfold wpc at 1, device_ioctl.
  cbn [fst snd] in *; rewrite E, some_bind; cbn [fst snd]; destruct (ret <? 0) eqn:El; cbn.
  - apply HT; lia.
  - apply HO; lia.
Qed.

Lemma configure_inv s :
  ctl_inv s -> cfg_ok (session_cfg (pf_config s.1)) ->
  zlen (tt_targets (pf_table s.1)) < 4294967296 ->
  Forall target_ok (uapi_target <$> tt_targets (pf_table s.1)) ->
  wp configure_session (fun _ s' => ctl_inv s' /\ s'.1 = s.1) s.
Proof.
  destruct s as [p o]; cbn [fst snd]; intros Hi Hc Hl Ht; pose proof Hi as (_ & [Hok _ _] & _); cbn [fst snd] in *.
  apply wp_bind, wp_get, wp_bind; cbn [fst].
  destruct (dv_config (pf_device_fd p) _ o Hok Hc) as (r1 & rep1 & o1 & E1 & H1 & H2 & H3).
  assert (Hi1 : ctl_inv (p, o1)) by (by apply (same_device p o)).
  eapply ioctl_or_throw_same; [exact E1|done|]; intros _; cbn zeta; apply wp_bind, wp_call; cbn [fst snd].
  pose proof (dv_load (pf_device_fd p) (uapi_target <$> tt_targets (pf_table p)) o1 H1) as Hv.
  destruct (os_vector _ o1) as [ptr o2]; cbn [fst snd]; rewrite length_fmap in Hv |- *.
  destruct (Hv Hl Ht) as (r2 & rep2 & o3 & E2 & H4 & H5 & H6); rewrite u32_id by lia.
  assert (Hi3 : ctl_inv (p, o3)) by (by apply (same_device p o1)).
  apply wp_bind; eapply ioctl_or_throw_same; [exact E2|done|]; intros _; by apply wp_ret.
Qed.

Lemma register_initial_inv caller s :
  ctl_inv s -> wp (register_initial_threads caller) (fun _ s' => ctl_inv s' /\ frame s.1 s'.1) s.
Proof.
  intros Hi; apply wp_bind, wp_call; cbn [fst snd].
  apply wp_bind, wp_lift; destruct (get_threads 0 _) as [tids|e]; [|by destruct s].
  apply wp_forM; [by destruct s|]; intros tid s1 [Hi1 Hf1].
  apply wp_bind; eapply wp_mono; [by apply register_spec|]; intros [b|e] s2 (Hi2 & Hf2 & _); [apply wp_ret|].
  all: split; [done|]; unfold frame in *; destruct_and!; split_and!; congruence.
Qed.

(** The configuration has the widths of its C members. *)
Lemma env_positive_range getenv name dflt v :
  is_u32 dflt -> env_positive getenv name dflt = Ok v -> is_u32 v.
Proof.
  intros Hd; unfold env_positive; destruct (env_set getenv name); [|by intros [= <-]].
  cbn zeta; split_if; [done|]; intros [= <-]; apply u32_range.
Qed.

Lemma parsed_config_ok getenv c : parse_environment getenv = Ok c -> cfg_ok (session_cfg c).
Proof.
  unfold parse_environment; destruct (env_set getenv _); [|done].
  intros (wp & Hwp & H)%rbind_Ok; apply rbind_Ok in H as (bp & _ & H); apply rbind_Ok in H as (period & _ & H).
  split_if; [done|]; apply rbind_Ok in H as (mode & _ & H); apply rbind_Ok in H as (stack & _ & H).
  apply rbind_Ok in H as (events & Hev & H); injection H as <-.
  apply env_positive_range in Hwp, Hev; [|unfold DEFAULT_DWARF_EVENT_CAPACITY, DEFAULT_WP_CAPACITY; lia..].
  split; cbn; [done|]; split_if; [done|lia].
Qed.

Lemma initial_tables n : 0 <= n -> forall p,
  pf_cpu_owner p = replicate (Z.to_nat n) 0 -> pf_num_cpus p = n -> pf_threads p = ∅ -> tables_inv p.
Proof.
  intros Hn p E1 E2 E3; split; rewrite ?E1, ?E2, ?E3.
  - rewrite length_replicate; lia.
  - intros cpu x [_ Hx]%zlookup_Some; apply lookup_replicate in Hx as [-> _]; split; [done|].
    by intros (t & b & Hb & _).
  - by intros cpu t (b & Hb & _).
  - by intros cpu t1 t2 (b & Hb & _).
  - intros t b Hb; by rewrite lookup_empty in Hb.
Qed.

Section construction.
Context (getenv realpath : text -> option text) (readlink : option text) (popen : text -> option (text * Z)).
Context (maps : option text) (read_file : text -> option text) (caller : Z).
Context (name : option text) (is_pin : bool) (num_cpus : Z).
Hypothesis Hcpus : 0 <= num_cpus.

(** The number of targets fits the field that carries it. *)
Definition sane_targets (tbl : target_table) : Prop := zlen (tt_targets tbl) < 4294967296.

Hypothesis Hcount32 : forall config tbl, parse_environment getenv = Ok config ->
  load_targets realpath popen maps (read_self_exe_path realpath readlink) (cf_target_file config)
    (cf_bp_capacity config) (read_file (cf_target_file config)) = Ok tbl ->
  sane_targets tbl.

Lemma made_target_wf main kv t : make_target realpath popen maps main kv = Ok t -> template_wf (ht_decode t).
Proof.
  intros (t0 & H0 & H)%rbind_Ok; apply rbind_Ok in H as (a & _ & [= <-]).
  apply decode_target_fields in H0 as (_ & _ & _ & H0); by apply decoded_template_wf in H0.
Qed.

Lemma uapi_targets_ok main file cap content tbl :
  load_targets realpath popen maps main file cap content = Ok tbl ->
  Forall target_ok (uapi_target <$> tt_targets tbl).
Proof.
  intros Hl%load_targets_made; apply Forall_fmap, Forall_forall; intros t Ht; rewrite Forall_forall in Hl.
  destruct (Hl t Ht) as (kv & [_ _ _ W]%made_target_wf); split; cbn; [apply u8_range|lia].
Qed.

Lemma construct_inv o :
  os_valid o ->
  wp (construct getenv realpath readlink popen maps read_file caller)
    (fun r s' => r = Ok tt -> ctl_inv s' /\ pf_window_open s'.1 = true /\
       pf_auto_fallback_active s'.1 = true /\ pf_explicit_window_seen s'.1 = false)
    (initial_profiler name is_pin num_cpus, o).
Proof.
  intros Hv; apply wp_bind, wp_lift; destruct (parse_environment getenv) as [config|e] eqn:Ec; [|done].
  apply wp_bind, wp_modify; cbn zeta; apply wp_if; intros _; [by apply wp_throw|].
  apply wp_bind, wp_modify, wp_bind, wp_get, wp_bind, wp_call; cbn [fst snd].
  apply wp_if; intros _; [by apply wp_throw|].
  match goal with |- context [os_fopen ?p o] => pose proof (os_fopen_valid p o Hv) as Hv1; set (o1 := (os_fopen p o).2) in * end.
  apply wp_bind, wp_call, wp_bind, wp_modify; cbn [fst snd].
  pose proof (dv_open o1 Hv1) as Ho; destruct (os_open o1) as [fd o2]; cbn [fst snd].
  apply wp_if; intros Efd; [by apply wp_throw|]; destruct Ho as (O1 & O2 & O3); [lia|].
  apply wp_bind, wp_lift; destruct (load_targets _ _ _ _ _ _ _) as [tbl|e] eqn:El; [|done].
  apply wp_bind, wp_modify; cbn [fst snd].
  match goal with |- wp _ _ (?p, o2) => set (p1 := p) end.
  assert (Hi : ctl_inv (p1, o2)).
  { split; [by apply (initial_tables num_cpus)|]; split; [|done]; split; cbn; [done|done|].
    intros tid; rewrite O3; split; [by intros ?%not_elem_of_empty|].
    intros (b & Hb & _); by rewrite lookup_empty in Hb. }
  pose proof (Hcount32 _ _ eq_refl El) as Hsane; pose proof (uapi_targets_ok _ _ _ _ _ El) as Htg.
  apply wp_bind; eapply wp_mono; [apply (configure_inv (p1, o2) Hi); [by apply (parsed_config_ok getenv)|apply Hsane|exact Htg]|].
  intros [[]|e] [p2 o3] [Hi2 Hp2]; [|done]; cbn in Hp2; subst p2.
  apply wp_bind; eapply wp_mono; [by apply (register_initial_inv caller (p1, o3))|].
  intros [[]|e] s3 [Hi3 Hf3]; [|done].
  apply wp_bind; eapply wp_mono; [by apply ctl_start_inv|].
  intros [[]|e] s4 (Hi4 & Hauto & Hexp & Hopen); [|done].
  apply wp_modify; intros _; cbn [fst snd]; destruct Hf3 as (F1 & F2 & F3 & F4 & F5 & F6); cbn in F1, F2, F3, F4.
  assert (Hexp4 : pf_explicit_window_seen s4.1 = false) by congruence.
  split; [|split; [exact (Hopen eq_refl)|split; [done|exact Hexp4]]].
  destruct s4 as [p4 o4]; destruct Hi4 as (Ht4 & [M1 M2 M3] & _); split; [by eapply tables_inv_same, Ht4|].
  split; [done|]; intros _; exact Hexp4.
Qed.

(** The states of a controller: constructed, then called and interleaved with the
    rest of the system. *)
Inductive ctl_reachable : profiler * os -> Prop :=
| reach_constructed o s :
    os_valid o ->
    construct getenv realpath readlink popen maps read_file caller (initial_profiler name is_pin num_cpus, o) =
      Some (Ok tt, s) ->
    ctl_reachable s
| reach_call s s' : ctl_reachable s -> call_step s s' -> ctl_reachable s'.

Lemma reachable_ctl_inv s : ctl_reachable s -> ctl_inv s.
Proof.
  induction 1 as [o s Hv E|s s' _ IH Hs]; [|by eapply call_step_inv].
  by apply (wp_run _ _ _ _ _ (construct_inv o Hv) E).
Qed.

End construction.


End invariant.

End CtlInv.
