(* ===== verification/CtlKernel.v ===== *)
(** The controller on top of the kernel module: the module's session implements
    the interface [RdDevice] that the controller's theorems are proved from, for
    any kernel and any system calls ([UserApi]) that obey their documentation. *)
From S2P Require Import Prelude Uapi Buckets EffAddr KernelApi KTypes Tables Callchain Handlers Sampling HitSpec.
From S2P Require Import Lifecycle Session SessionInv RdModule CText AsmDecode Objdump ProcMaps LoadTargets.
From S2P Require Import Effects TargetedCtl CtlInv.
Import EffAddr AsmDecode Objdump ProcMaps LoadTargets TargetedCtl CtlInv.

(** * What a session shows to its user *)

Section view.
Context `{K : KernelApi} {KL : KernelLaws K}.
Context (other_events : gset Z) (other_refs : Z -> Z).
Abbreviation km_inv := (SessionInv.km_inv other_events other_refs).

Definition active_tid (st : kmod) (tp : Z) : option Z :=
  th ← km_threads st !! tp; if t_active th then Some (t_tid th) else None.
(** The ids of the registered threads of a session. *)
Definition active_tids (sp : Z) (st : kmod) : gset Z :=
  match km_sessions st !! sp with
  | None => ∅
  | Some ses => list_to_set (omap (active_tid st) (s_threads ses))
  end.
Definition session_running (sp : Z) (st : kmod) : bool :=
  match km_sessions st !! sp with
  | None => false
  | Some ses => s_running ses
  end.

Lemma elem_of_active sp st ses tid :
  km_sessions st !! sp = Some ses ->
  tid ∈ active_tids sp st <->
  exists tp th, tp ∈ s_threads ses /\ km_threads st !! tp = Some th /\ t_active th = true /\ t_tid th = tid.
Proof.
  intros Hs; unfold active_tids; rewrite Hs, elem_of_list_to_set, list_elem_of_omap; unfold active_tid; split.
  - intros (tp & Hin & (th & Ht & H)%bind_Some); destruct (t_active th) eqn:E; [|done].
    injection H as <-; by exists tp, th.
  - intros (tp & th & Hin & Ht & Ha & Hid); exists tp; split; [done|]; rewrite Ht, some_bind, Ha; congruence.
Qed.

(** Only session [sp] and its threads changed. *)
Definition local_change (sp : Z) (st st' : kmod) : Prop :=
  (forall sp', sp' <> sp -> km_sessions st' !! sp' = km_sessions st !! sp') /\
  (forall tp th, km_threads st !! tp = Some th -> t_session th <> sp -> km_threads st' !! tp = Some th).

(** A change of [sp] that its user sees as [running] and [active]. *)
Definition shows (sp : Z) (st' : kmod) (running : bool) (active : gset Z) : Prop :=
  is_Some (km_sessions st' !! sp) /\ session_running sp st' = running /\ active_tids sp st' = active.

Lemma insert_view sp ses ses' st st' :
  km_sessions st !! sp = Some ses -> km_sessions st' = <[sp := ses']> (km_sessions st) ->
  km_threads st' = km_threads st -> s_threads ses' = s_threads ses ->
  local_change sp st st' /\ shows sp st' (s_running ses') (active_tids sp st).
Proof.
  intros Hs E1 E2 E3; assert (Hs' : km_sessions st' !! sp = Some ses') by (by rewrite E1, lookup_insert_eq).
  split; [split|].
  - intros sp' Hne; by rewrite E1, lookup_insert_ne.
  - intros tp th Ht _; by rewrite E2.
  - split; [eauto|]; split; [unfold session_running; by rewrite Hs'|]; apply set_eq; intros tid.
    by rewrite (elem_of_active sp st ses tid Hs), (elem_of_active sp st' ses' tid Hs'), E2, E3.
Qed.

Lemma same_view sp ses st st' :
  km_sessions st !! sp = Some ses -> km_sessions st' = km_sessions st -> km_threads st' = km_threads st ->
  local_change sp st st' /\ shows sp st' (s_running ses) (active_tids sp st).
Proof. intros Hs E1 E2; apply (insert_view sp ses ses st st'); try done; by rewrite insert_id. Qed.

Lemma thread_before_next st tp th : km_inv st -> km_threads st !! tp = Some th -> tp < km_next st.
Proof. intros Hi Ht; destruct (ki_threads _ _ st Hi tp th Ht) as [R1 _ _ _]; lia. Qed.

Lemma register_view sp ses th w st :
  km_inv st -> km_sessions st !! sp = Some ses -> t_active th = true ->
  let st' := registered sp ses th w st in
  local_change sp st st' /\ shows sp st' (s_running ses) ({[t_tid th]} ∪ active_tids sp st).
Proof.
  intros Hi Hs Ha st'.
  assert (Hs' : km_sessions st' !! sp = Some (ses ⟦ s_threads ::= fun l => l ++ [km_next st] ⟧)) by (cbn; by rewrite lookup_insert_eq).
  assert (Hold : forall tp x, km_threads st !! tp = Some x -> km_threads st' !! tp = Some x).
  { intros tp x Hx; pose proof (thread_before_next st tp x Hi Hx); cbn; rewrite lookup_insert_ne; [done|lia]. }
  split; [split|].
  - intros sp' Hne; cbn; by rewrite lookup_insert_ne.
  - intros tp x Hx _; by apply Hold.
  - split; [eauto|]; split; [unfold session_running; by rewrite Hs'|]; apply set_eq; intros tid.
    rewrite elem_of_union, elem_of_singleton, (elem_of_active sp st ses tid Hs), (elem_of_active sp st' _ tid Hs'); split.
    + intros (tp & x & Hin & Hx & Hxa & Hid); cbn in Hin; apply elem_of_app in Hin as [Hin|Hin%list_elem_of_singleton].
      * right; destruct (ki_member _ _ st Hi sp ses tp Hs Hin) as (y & Hy & _).
        pose proof (Hold tp y Hy) as Hy'; assert (x = y) as -> by congruence; by exists tp, y.
      * left; subst tp; cbn in Hx; rewrite lookup_insert_eq in Hx; injection Hx as <-; done.
    + intros [->|(tp & x & Hin & Hx & Hxa & Hid)].
      * exists (km_next st), th; cbn; rewrite lookup_insert_eq; split_and!; try done; set_solver.
      * exists tp, x; cbn; split; [set_solver|]; split; [by apply Hold|done].
Qed.

Lemma detach_view sp ses tp th th' w st :
  km_inv st -> km_sessions st !! sp = Some ses -> tp ∈ s_threads ses -> km_threads st !! tp = Some th ->
  t_active th = true -> t_active th' = false ->
  let st' := detached_state tp th' w st in
  local_change sp st st' /\ shows sp st' (s_running ses) (active_tids sp st ∖ {[t_tid th]}).
Proof.
  intros Hi Hs Hin Ht Ha Ha' st'; destruct (ki_member _ _ st Hi sp ses tp Hs Hin) as (y & Hy & Hsp).
  assert (y = th) as -> by congruence; split; [split|]; [done| |].
  - intros tp0 x Hx Hne; cbn; rewrite lookup_insert_ne; [done|]; intros ->; congruence.
  - split; [by exists ses|]; split; [unfold session_running; cbn; by rewrite Hs|]; apply set_eq; intros tid.
    rewrite elem_of_difference, elem_of_singleton, (elem_of_active sp st ses tid Hs), (elem_of_active sp st' ses tid Hs); split.
    + intros (tp0 & x & Hin0 & Hx & Hxa & Hid); cbn in Hx.
      apply lookup_insert_Some in Hx as [[<- <-]|[Hne Hx]]; [congruence|].
      split; [by exists tp0, x|]; intros ->; apply Hne; symmetry.
      destruct (ki_member _ _ st Hi sp ses tp0 Hs Hin0) as (z & Hz & Hzs); assert (z = x) as -> by congruence.
      eapply (ki_tids _ _ st Hi tp0 tp x th); try done; congruence.
    + intros [(tp0 & x & Hin0 & Hx & Hxa & Hid) Hne]; exists tp0, x; split_and!; try done.
      cbn; rewrite lookup_insert_ne; [done|]; intros <-; assert (x = th) as -> by congruence; congruence.
Qed.

Lemma reset_view sp ses st st' :
  km_inv st -> km_sessions st !! sp = Some ses -> km_sessions st' = km_sessions st ->
  (forall tp th, km_threads st !! tp = Some th ->
     km_threads st' !! tp = Some (if decide (tp ∈ s_threads ses) then reset_thread ses th else th)) ->
  local_change sp st st' /\ shows sp st' (s_running ses) (active_tids sp st).
Proof.
  intros Hi Hs E1 Hth; assert (Hs' : km_sessions st' !! sp = Some ses) by congruence; split; [split|].
  - intros; by rewrite E1.
  - intros tp th Ht Hne; rewrite (Hth tp th Ht), decide_False; [done|]; intros Hin.
    destruct (ki_member _ _ st Hi sp ses tp Hs Hin) as (y & Hy & Hsp); congruence.
  - split; [by exists ses|]; split; [unfold session_running; by rewrite Hs'|]; apply set_eq; intros tid.
    rewrite (elem_of_active sp st ses tid Hs), (elem_of_active sp st' ses tid Hs'); split.
    + intros (tp & x & Hin & Hx & Hxa & Hid); destruct (ki_member _ _ st Hi sp ses tp Hs Hin) as (y & Hy & _).
      rewrite (Hth tp y Hy), decide_True in Hx by done; injection Hx as <-; by exists tp, y.
    + intros (tp & x & Hin & Hx & Hxa & Hid); exists tp, (reset_thread ses x).
      rewrite (Hth tp x Hx), decide_True by done; done.
Qed.

(** Registration reports no positive number. *)
Lemma register_nonpos sp a st ret st' :
  km_inv st -> rd_register_thread_locked sp a st = Some (ret, st') -> ret <= 0.
Proof.
  intros Hi (ses & Hs & H)%bind_Some.
  destruct (negb (configured ses) || negb (targets_loaded ses)) eqn:G1; [injection H as <- _; done|].
  apply bind_Some in H as (found & _ & H); split_if; [by injection H as <- _|]; split_if; [by injection H as <- _|].
  destruct (get_pid_task _ _) as [[task|] w]; [|by injection H as <- _]; split_if; [by injection H as <- _|].
  unfold rd_check_thread_affinity in H; cbn zeta in H.
  split_if; [injection H as <- _; repeat split_if; done|].
  destruct (kcalloc _ _ _) as [ok w2]; split_if; [by injection H as <- _|].
  assert (Hok : session_ok ses).
  { destruct (ki_sessions _ _ st Hi sp ses Hs) as [_ Hw]; apply (sess_wf_ok _ Hw).
    apply orb_false_iff in G1 as [_ G1]; by apply negb_false_iff in G1. }
  pose proof (setup_spec ses sp task a w2 Hok) as Hsu; destruct (rd_thread_setup_events _ _ _ _) as [[r th] w3].
  destruct Hsu as (_ & Hr & _); split_if; [by injection H as <- _|].
  apply bind_Some in H as (w4 & _ & [= <- _]); done.
Qed.

Lemma unregister_nonpos sp tid st ret st' :
  rd_unregister_thread_locked sp tid st = Some (ret, st') -> ret <> 0 -> ret < 0.
Proof.
  intros (ses & _ & H)%bind_Some; apply bind_Some in H as ([tp|] & _ & H); [|by injection H as <- _].
  apply bind_Some in H as (th & _ & H); split_if; [by injection H as <- _|].
  by apply bind_Some in H as (? & _ & [= <- _]).
Qed.

Definition view_after (sp : Z) (cmd : ioctl_cmd) (ret : Z) (ses : rd_session) (st st' : kmod) : Prop :=
  local_change sp st st' /\
  if ret <? 0 then shows sp st' (s_running ses) (active_tids sp st)
  else shows sp st' (running_after cmd (s_running ses)) (active_after cmd (active_tids sp st)).

(** What a request does to the view, by kind of request. *)
Section views.
Context (sp : Z) (ses : rd_session) (st : kmod) (Hi : km_inv st) (Hs : km_sessions st !! sp = Some ses).

(** The request leaves the window and the threads of the session alone. *)
Definition passive (cmd : ioctl_cmd) : Prop :=
  running_after cmd (s_running ses) = s_running ses /\ active_after cmd (active_tids sp st) = active_tids sp st.

Lemma view_same cmd ret st' : passive cmd -> km_sessions st' = km_sessions st -> km_threads st' = km_threads st ->
  view_after sp cmd ret ses st st'.
Proof.
  intros [E3 E4] E1 E2; destruct (same_view sp ses st st' Hs E1 E2) as [H1 H2]; split; [done|]; rewrite E3, E4; by split_if.
Qed.

Lemma view_failed cmd ret st' : ret < 0 -> km_sessions st' = km_sessions st -> km_threads st' = km_threads st ->
  view_after sp cmd ret ses st st'.
Proof.
  intros Hr E1 E2; destruct (same_view sp ses st st' Hs E1 E2) as [H1 H2]; split; [done|]; by rewrite (proj2 (Z.ltb_lt ret 0) Hr).
Qed.

Lemma view_query cmd out x ret rep st' : passive cmd -> query out st x = Some (ret, rep, st') -> view_after sp cmd ret ses st st'.
Proof. unfold query; intros Hp (y & _ & [= _ <-])%bind_Some; by apply view_same. Qed.

Lemma view_session cmd ret st' : passive cmd ->
  (km_sessions st' = km_sessions st \/ exists ses', km_sessions st' = <[sp := ses']> (km_sessions st) /\
     s_threads ses' = s_threads ses /\ s_running ses' = s_running ses) -> km_threads st' = km_threads st ->
  view_after sp cmd ret ses st st'.
Proof.
  intros Hp [E|(ses' & E & E1 & E2)] Et; [by apply view_same|]; destruct Hp as [E3 E4].
  destruct (insert_view sp ses ses' st st' Hs E Et E1) as [H1 H2]; rewrite E2 in H2; split; [done|]; rewrite E3, E4; by split_if.
Qed.

Lemma config_view cfg ret st' : rd_session_config_locked sp cfg st = Some (ret, st') ->
  view_after sp (CONFIG_SESSION (Some cfg)) ret ses st st'.
Proof.
  intros H; unfold rd_session_config_locked in H; rewrite Hs, some_bind in H.
  assert (Hsp : (km_sessions st' = km_sessions st \/ exists ses', km_sessions st' = <[sp := ses']> (km_sessions st) /\
     s_threads ses' = s_threads ses /\ s_running ses' = s_running ses) /\ km_threads st' = km_threads st).
  { repeat (split_if; [injection H as _ <-; by split; [left|]|]); injection H as _ <-; split; [right; by eexists|done]. }
  destruct Hsp as [Hse Ht]; apply view_session; [by split|exact Hse|exact Ht].
Qed.

Lemma load_view batch ret st' : rd_load_targets_locked sp batch st = Some (ret, st') ->
  view_after sp (LOAD_TARGETS (Some batch)) ret ses st st'.
Proof.
  intros H; unfold rd_load_targets_locked in H; rewrite Hs, some_bind in H.
  assert (Hsp : (km_sessions st' = km_sessions st \/ exists ses', km_sessions st' = <[sp := ses']> (km_sessions st) /\
     s_threads ses' = s_threads ses /\ s_running ses' = s_running ses) /\ km_threads st' = km_threads st).
  { do 2 (split_if; [injection H as _ <-; by split; [left|]|]).
    destruct (memdup_user_targets _ _ _) as [[err|l] w1]; [injection H as _ <-; by split; [left|]|].
    destruct (kcalloc _ _ w1) as [ok w2]; destruct ok; cbn [negb] in H; [|injection H as _ <-; by split; [left|]].
    apply bind_Some in H as (tgts & _ & H); split_if; injection H as _ <-; [by split; [left|]|split; [right; by eexists|done]]. }
  destruct Hsp as [Hse Ht]; apply view_session; [by split|exact Hse|exact Ht].
Qed.

Lemma registration_view reg ret st' : rd_register_thread_locked sp reg st = Some (ret, st') ->
  view_after sp (REGISTER_THREAD (Some reg)) ret ses st st'.
Proof.
  intros H; pose proof (register_nonpos sp reg st ret st' Hi H) as Hle.
  destruct (register_inv _ _ st sp ses reg Hi Hs) as (ret' & st2 & E & _ & Hf & Hok).
  rewrite E in H; injection H as -> ->; destruct (decide (ret = 0)) as [->|Hn].
  - destruct (Hok eq_refl) as (th & w & -> & Htid & _ & Ha & _).
    destruct (register_view sp ses th w st Hi Hs Ha) as [V1 V2]; rewrite Htid in V2; split; [done|exact V2].
  - destruct (Hf Hn) as (w & -> & _); apply view_failed; [lia|done|done].
Qed.

Lemma unregistration_view tid ret st' : rd_unregister_thread_locked sp tid st = Some (ret, st') ->
  view_after sp (UNREGISTER_THREAD (Some tid)) ret ses st st'.
Proof.
  intros H; destruct (unregister_inv _ _ st sp ses tid Hi Hs) as (ret' & st2 & E & _ & Hf & Hok).
  rewrite E in H; injection H as -> ->; destruct (decide (ret = 0)) as [->|Hn].
  - destruct (Hok eq_refl) as (tp & th & th' & w & Ht & <- & Hin & Ha & -> & Ha' & _).
    destruct (detach_view sp ses tp th th' w st Hi Hs Hin Ht Ha Ha') as [V1 V2]; split; [done|exact V2].
  - rewrite (Hf Hn); apply view_failed; [|done|done]; by eapply unregister_nonpos.
Qed.

Lemma reset_request_view ret st' : rd_reset_session_locked sp st = Some (ret, st') -> view_after sp RESET_SESSION ret ses st st'.
Proof.
  unfold rd_reset_session_locked; rewrite Hs, some_bind; destruct (s_running ses) eqn:Er.
  { intros [= <- <-]; by apply view_failed. }
  destruct (ki_sessions _ _ st Hi sp ses Hs) as [_ Hwf].
  destruct (reset_threads_inv _ _ sp ses (s_threads ses) 0 st Hi Hs) as (r1 & st1 & -> & _ & Hse & Hth);
    [done|apply (sw_threads _ Hwf)|]; intros [= <- <-].
  destruct (reset_view sp ses st st1 Hi Hs Hse Hth) as [V1 V2]; split; [done|]; by split_if.
Qed.

End views.

(** What every request does to the view. *)
Lemma ioctl_view sp ses cmd out st ret rep st' :
  km_inv st -> km_sessions st !! sp = Some ses -> cmd_wf cmd (km_world st) ->
  rd_wpctl_ioctl sp cmd out st = Some (ret, rep, st') -> view_after sp cmd ret ses st st'.
Proof.
  intros Hi Hs Hc; destruct (ki_sessions _ _ st Hi sp ses Hs) as [Hsp _].
  unfold rd_wpctl_ioctl; rewrite (proj2 (Z.eqb_neq sp 0)), Hs, some_bind by lia; unfold faulted, command.
  destruct cmd as [[cfg|]|[batch|]|[reg|]|[tid|]| | | | |[i|]|[[i j]|]|[[i j]|]|[[i j]|]|[[i j]|]|];
    try (intros [= <- _ <-]; by apply view_failed); try (intros Hx; by eapply view_query in Hx); cbn [cmd_wf] in Hc.
  - intros ([r1 st1] & H & [= <- _ <-])%bind_Some; by apply config_view.
  - intros ([r1 st1] & H & [= <- _ <-])%bind_Some; by apply load_view.
  - intros ([r1 st1] & H & [= <- _ <-])%bind_Some; by apply registration_view.
  - intros ([r1 st1] & H & [= <- _ <-])%bind_Some; by apply unregistration_view.
  - destruct (start_window_inv _ _ st sp ses Hi Hs) as (st1 & -> & _ & Hse & Hth).
    rewrite some_bind; intros [= <- _ <-]; destruct (insert_view sp ses _ st st1 Hs Hse Hth eq_refl) as [V1 V2].
    split; [done|exact V2].
  - destruct (stop_window_inv _ _ st sp ses Hi Hs) as (st1 & -> & _ & Hse & Hth).
    rewrite some_bind; intros [= <- _ <-]; destruct (insert_view sp ses _ st st1 Hs Hse Hth eq_refl) as [V1 V2].
    split; [done|exact V2].
  - intros ([r1 st1] & H & [= <- _ <-])%bind_Some; by apply reset_request_view.
  - intros ([[r1 rep1] st1] & H & E2)%bind_Some; destruct (copy_out out (r1, rep1)); injection E2 as _ _ <-.
    destruct (get_event_ok _ _ st sp ses i j Hi Hs Hc) as (r2 & rep2 & w & E & _); rewrite E in H.
    injection H as _ _ <-; by apply view_same.
Qed.

(** ** Everything else leaves the session alone *)

(** The part of a thread that its session's user sees. *)
Definition thread_id (th : rd_thread_ctx) := (t_session th, t_tid th, t_active th).

Definition same_ids (st st' : kmod) : Prop :=
  forall tp, thread_id <$> km_threads st' !! tp = thread_id <$> km_threads st !! tp.

Lemma set_thread_ids tp th th' st st' :
  km_threads st !! tp = Some th -> thread_id th' = thread_id th ->
  km_threads st' = <[tp := th']> (km_threads st) -> same_ids st st'.
Proof.
  intros Ht Hid E tp0; rewrite E; destruct (decide (tp = tp0)) as [<-|Hne].
  - by rewrite lookup_insert_eq, Ht; cbn; rewrite Hid.
  - by rewrite lookup_insert_ne.
Qed.

Lemma found_thread st ev select tp i th' :
  found_at st ev select tp i th' -> exists th, km_threads st !! tp = Some th /\ thread_id th' = thread_id th.
Proof. intros (th & ses & evs & n & Ht & Ha & Hs & -> & _); by exists th. Qed.

Lemma live_put_id th : thread_id (rd_thread_live_put th) = thread_id th.
Proof. unfold rd_thread_live_put; by split_if. Qed.

Lemma hit_ids ses h th e th2 e2 :
  session_ok ses -> thread_inv ses th -> hit_wf h -> handle_hit ses h th e = Some (th2, e2) ->
  thread_id th2 = thread_id th.
Proof.
  intros Hok Htv Hwf H; destruct (handle_hit_some ses Hok h th e th2 e2 Htv Hwf H) as [_ Hres].
  unfold resources in Hres; unfold thread_id; congruence.
Qed.

Lemma probe_ids st ev select tp i th' h ses th2 e2 st' :
  km_inv st -> found_at st ev select tp i th' -> hit_wf h ->
  km_sessions st !! t_session th' = Some ses -> handle_hit ses h th' (km_env st) = Some (th2, e2) ->
  km_threads st' = <[tp := rd_thread_live_put th2]> (km_threads st) -> same_ids st st'.
Proof.
  intros Hi Hf Hwf Hs Hh E; pose proof Hf as (th & ses0 & evs & n & Ht & Ha & Hs0 & -> & _).
  destruct (thread_at_ok _ _ st tp th ses0 Hi Ht Hs0) as (_ & Htv & Hok).
  cbn in Hs; assert (ses0 = ses) as -> by congruence.
  eapply set_thread_ids; [exact Ht| |exact E]; rewrite live_put_id.
  by apply (hit_ids ses h _ _ _ _ Hok (thread_inv_refs ses th 2 Htv) Hwf) in Hh.
Qed.

Lemma overflow_ids ev regs pid st st' :
  km_inv st -> (forall r, regs = Some r -> pt_regs_wf r) ->
  rd_perf_event_overflow_pre ev regs pid st = Some st' -> same_ids st st'.
Proof.
  intros Hi Hr; unfold rd_perf_event_overflow_pre; destruct regs as [r|]; [|by rewrite orb_true_r; intros [= <-]].
  cbn [is_null]; rewrite orb_false_r; split_if; [by intros [= <-]|]; split_if; [by intros [= <-]|].
  unfold rd_lookup_bp_site_rcu.
  destruct (lookup_event_spec other_events other_refs st ev (fun ses th => (t_bp_events th, target_count ses)) (km_live st))
    as (res & -> & Hres); [done|done|exact select_bps|]; rewrite some_bind.
  destruct res as [[[tp i] th']|]; [destruct Hres as [_ Hf]|by intros [= <-]].
  split_if; [|]; cbn zeta.
  - intros [= <-]; destruct (found_thread _ _ _ _ _ _ Hf) as (th & Ht & Hid).
    eapply set_thread_ids; [exact Ht| |reflexivity]; by rewrite live_put_id.
  - intros (ses & Hs & ([th2 e2] & Hh & [= <-])%bind_Some)%bind_Some.
    eapply (probe_ids st ev _ tp i th' (BpHit i r)); try done.
    split; [|auto]; destruct Hf as (? & ? & ? & ? & _ & _ & _ & _ & _ & [? _]%zlookup_Some); lia.
Qed.

Lemma report_ids ev regs st st' :
  km_inv st -> (forall r, regs = Some r -> pt_regs_wf r) ->
  rd_watchpoint_report_pre ev regs st = Some st' -> same_ids st st'.
Proof.
  intros Hi Hr; unfold rd_watchpoint_report_pre; split_if; [by intros [= <-]|].
  destruct regs as [r|]; [|by intros [= <-]]; split_if; [by intros [= <-]|].
  unfold rd_lookup_wp_slot_rcu.
  destruct (lookup_event_spec other_events other_refs st ev (fun ses th => (t_wp_events th, wp_capacity ses)) (km_live st))
    as (res & -> & Hres); [done|done|exact select_wps|]; rewrite some_bind.
  destruct res as [[[tp i] th']|]; [destruct Hres as [_ Hf]|by intros [= <-]].
  split_if; cbn zeta.
  - intros [= <-]; destruct (found_thread _ _ _ _ _ _ Hf) as (th & Ht & Hid).
    eapply set_thread_ids; [exact Ht| |reflexivity]; by rewrite live_put_id.
  - intros (ses & Hs & ([th2 e2] & Hh & [= <-])%bind_Some)%bind_Some.
    eapply (probe_ids st ev _ tp i th' (WpHit i r)); try done.
    split; [|auto]; destruct Hf as (? & ? & ? & ? & _ & _ & _ & _ & _ & [? _]%zlookup_Some); lia.
Qed.

(** Same record of the session and same visible part of its threads: same view. *)
Lemma shows_same sp ses st st' :
  km_inv st -> km_sessions st !! sp = Some ses -> km_sessions st' !! sp = Some ses ->
  (forall tp th, km_threads st !! tp = Some th -> t_session th = sp ->
     thread_id <$> km_threads st' !! tp = Some (thread_id th)) ->
  shows sp st' (session_running sp st) (active_tids sp st).
Proof.
  intros Hi Hs Hs' Hth; split; [eauto|]; split; [unfold session_running; by rewrite Hs, Hs'|].
  assert (Hm : forall tp, tp ∈ s_threads ses -> exists th th', km_threads st !! tp = Some th /\
    km_threads st' !! tp = Some th' /\ thread_id th' = thread_id th).
  { intros tp Hin; destruct (ki_member _ _ st Hi sp ses tp Hs Hin) as (th & Ht & Hsp).
    pose proof (Hth tp th Ht Hsp) as Hf; apply fmap_Some in Hf as (th' & Ht' & Hid); eauto. }
  apply set_eq; intros tid; rewrite (elem_of_active sp st ses tid Hs), (elem_of_active sp st' ses tid Hs').
  unfold thread_id in Hm; split; intros (tp & x & Hin & Hx & Hxa & Hid);
    destruct (Hm tp Hin) as (th & th' & Ht & Ht' & E); exists tp; [exists th|exists th']; simplify_eq; split_and!; congruence.
Qed.

(** An entry into the module that is not a call on session [sp]. *)
Definition elsewhere (sp : Z) (a : action) : Prop :=
  match a with
  | Release sp' | Ioctl sp' _ _ => sp' <> sp
  | _ => True
  end.

Lemma run_elsewhere sp ses a st st' :
  km_inv st -> km_sessions st !! sp = Some ses -> action_wf a st -> elsewhere sp a -> run a st = Some st' ->
  shows sp st' (session_running sp st) (active_tids sp st).
Proof.
  intros Hi Hs Hwf He Hrun.
  destruct a as [tgid|sp0|sp0 cmd out|ev regs pid|ev regs]; cbn [run action_wf elsewhere] in *.
  - injection Hrun as <-; unfold rd_wpctl_open.
    destruct (kcalloc 1 sizeof_session (km_world st)) as [ok w]; destruct ok; cbn [negb snd];
      (apply (shows_same sp ses); [done|done| |intros tp th Ht _; cbn; by rewrite Ht]); cbn; [|done].
    destruct (ki_sessions _ _ st Hi sp ses Hs); rewrite lookup_insert_ne; [done|]; cbn; lia.
  - destruct Hwf as [s0 H0]; destruct (release_inv _ _ st sp0 s0 Hi H0) as (st1 & E & _ & Hse & Hth).
    rewrite E in Hrun; injection Hrun as <-; apply (shows_same sp ses); [done|done|by rewrite Hse, lookup_delete_ne|].
    intros tp th Ht Hsp; assert (Hx : km_threads st1 !! tp = Some th) by (apply Hth; split; [done|congruence]).
    by rewrite Hx.
  - destruct Hwf as [[s0 H0] Hc]; apply bind_Some in Hrun as ([[r rep] st1] & E & [= <-]).
    destruct (ioctl_view sp0 s0 cmd out st r rep st1 Hi H0 Hc E) as [[L1 L2] _].
    apply (shows_same sp ses); [done|done|by rewrite L1|].
    intros tp th Ht Hsp; rewrite (L2 tp th Ht); [done|congruence].
  - apply (shows_same sp ses); [done|done|by rewrite (overflow_sessions _ _ _ _ _ Hrun)|].
    intros tp th Ht _; rewrite (overflow_ids _ _ _ _ _ Hi Hwf Hrun tp), Ht; done.
  - apply (shows_same sp ses); [done|done|by rewrite (report_sessions _ _ _ _ Hrun)|].
    intros tp th Ht _; rewrite (report_ids _ _ _ _ Hi Hwf Hrun tp), Ht; done.
Qed.

End view.

(** * System calls *)

(** The calls of the controller that do not go to the module.  The address space
    is a state of its own ([mem]): the module does not map memory. *)
Class UserApi (K : KernelApi) := {
  mem : Type;
  us_setaffinity : Z -> Z -> world -> bool * world;
  us_mmap : Z -> mem -> option Z * mem;
  us_munmap : Z -> Z -> mem -> mem;
  us_page_size : Z;
  us_stat : Z -> world -> option text;
  us_tasks : world -> option (list text);
  us_vector : list rd_wpctl_target -> world -> Z * world;
  us_fopen : text -> world -> bool * world;
  us_strerror : Z -> text;
}.

Class UserLaws {K : KernelApi} (KL : KernelLaws K) (U : UserApi K) := {
  us_mapped : mem -> gset (Z * Z);
  setaffinity_keeps tid cpu w : same_resources w (us_setaffinity tid cpu w).2;
  vector_keeps l w : same_resources w (us_vector l w).2;
  fopen_keeps path w : same_resources w (us_fopen path w).2;
  vector_memdup l w l' w' :
    memdup_user_targets (us_vector l w).1 (zlen l) (us_vector l w).2 = (inr l', w') -> l' = l;
  mmap_fresh bytes m :
    let '(r, m') := us_mmap bytes m in
    match r with
    | Some base => ((base, bytes) ∉ us_mapped m) /\ us_mapped m' = {[(base, bytes)]} ∪ us_mapped m
    | None => us_mapped m' = us_mapped m
    end;
  munmap_removes base bytes m : us_mapped (us_munmap base bytes m) = us_mapped m ∖ {[(base, bytes)]};
}.

Section system.
Context `{K : KernelApi} {KL : KernelLaws K} {U : UserApi K} {UL : UserLaws KL U}.
Context (other_events : gset Z) (other_refs : Z -> Z) (tgid : Z).
Abbreviation km_inv := (SessionInv.km_inv other_events other_refs).

Definition on_world {A} (f : world -> A * world) (s : kmod * mem) : A * (kmod * mem) :=
  let '(a, w) := f (km_world s.1) in (a, (set_world w s.1, s.2)).

(** The process [tgid] on a machine with the module loaded; a descriptor of the
    device stands for the session behind it. *)
#[export] Instance kernel_os : OsApi := {|
  os := kmod * mem;
  os_open s := match rd_wpctl_open tgid s.1 with
               | (inr sp, st) => (sp, (st, s.2))
               | (inl err, st) => (err, (st, s.2))
               end;
  os_close fd s := match rd_wpctl_release fd s.1 with Some st => (st, s.2) | None => s end;
  os_ioctl fd cmd s := '(r, st) ← rd_wpctl_ioctl fd cmd true s.1; Some (r, (st, s.2));
  os_setaffinity tid cpu := on_world (us_setaffinity tid cpu);
  os_mmap bytes s := let '(r, m) := us_mmap bytes s.2 in (r, (s.1, m));
  os_munmap base bytes s := (s.1, us_munmap base bytes s.2);
  os_page_size := us_page_size;
  os_stat tid s := us_stat tid (km_world s.1);
  os_tasks s := us_tasks (km_world s.1);
  os_vector l := on_world (us_vector l);
  os_fopen path := on_world (us_fopen path);
  strerror := us_strerror;
|}.

Definition k_ok (fd : Z) (s : kmod * mem) : Prop := km_inv s.1 /\ is_Some (km_sessions s.1 !! fd).

(** Other entries into the module, and what other code does to the kernel's
    state without touching the module's events and references. *)
Definition k_step (fd : Z) (s s' : kmod * mem) : Prop :=
  s'.2 = s.2 /\
  ((exists a, action_wf a s.1 /\ elsewhere fd a /\ run a s.1 = Some s'.1) \/
   (exists w, s'.1 = set_world w s.1 /\ balanced_world (km_world s.1) w)).

Lemma on_world_keeps {A} (f : world -> A * world) fd s :
  same_resources (km_world s.1) (f (km_world s.1)).2 -> k_ok fd s ->
  let s' := (on_world f s).2 in
  k_ok fd s' /\ session_running fd s'.1 = session_running fd s.1 /\ active_tids fd s'.1 = active_tids fd s.1 /\
  s'.2 = s.2.
Proof.
  intros Hw [Hi Hs]; unfold on_world; destruct (f (km_world s.1)) as [a w]; cbn [fst snd] in *.
  split; [split; [by apply km_inv_world|done]|done].
Qed.

Lemma runtime_cmd_wf cmd w : runtime_cmd cmd -> cmd_wf cmd w.
Proof. clear; destruct cmd as [[]|[]|[]|[]| | | | |[]|[[]|]|[[]|]|[[]|]|[[]|]|]; cbn; tauto. Qed.

Lemma kernel_ioctl fd cmd s :
  k_ok fd s -> cmd_wf cmd (km_world s.1) ->
  exists ret rep s', os_ioctl fd cmd s = Some (ret, rep, s') /\ k_ok fd s' /\ s'.2 = s.2 /\
    (ret < 0 -> session_running fd s'.1 = session_running fd s.1 /\ active_tids fd s'.1 = active_tids fd s.1) /\
    (0 <= ret -> session_running fd s'.1 = running_after cmd (session_running fd s.1) /\
                 active_tids fd s'.1 = active_after cmd (active_tids fd s.1)).
Proof.
  intros [Hi [ses Hs]] Hc; destruct (ioctl_inv _ _ s.1 fd ses cmd true Hi Hs Hc) as (ret & rep & st' & E & Hi' & _).
  destruct (ioctl_view _ _ fd ses cmd true s.1 ret rep st' Hi Hs Hc E) as [_ V].
  exists ret, rep, (st', s.2); cbn; rewrite E, some_bind; split; [done|].
  assert (Hr : s_running ses = session_running fd s.1) by (unfold session_running; by rewrite Hs).
  rewrite Hr in V; destruct (ret <? 0) eqn:El; destruct V as (V1 & V2 & V3);
    (split; [done|]); (split; [done|]); (split; intros; [|]); try lia; done.
Qed.

#[export] Instance kernel_device : RdDevice kernel_os.
Proof.
  refine {| os_valid := fun s : @os kernel_os => km_inv s.1;
            dv_ok := k_ok;
            dv_running := fun fd (s : @os kernel_os) => session_running fd s.1;
            dv_active := fun fd (s : @os kernel_os) => active_tids fd s.1;
            dv_mapped := fun s : @os kernel_os => us_mapped s.2;
            dv_step := k_step |}.
  - intros fd [st m] [st' m'] [Hi [ses Hs]] [Em [(a & Hwf & He & Hrun)|(w & Ew & Hw)]]; cbn in *.
    + pose proof (run_inv _ _ a st st' Hi Hwf Hrun) as Hi2.
      destruct (run_elsewhere _ _ fd ses a st st' Hi Hs Hwf He Hrun) as (V1 & V2 & V3); done.
    + subst st'; split; [split; [by apply km_inv_balanced|by exists ses]|done].
  - intros fd cmd s Hok Hc; apply (runtime_cmd_wf cmd (km_world s.1)) in Hc.
    destruct (kernel_ioctl fd cmd s Hok Hc) as (ret & rep & s' & E & H1 & H2 & H3 & H4).
    exists ret, rep, s'; split_and!; try done; by rewrite H2.
  - intros fd tid cpu s Hok; destruct (on_world_keeps (us_setaffinity tid cpu) fd s) as (H1 & H2 & H3 & H4);
      [apply setaffinity_keeps|done|]; split_and!; try done; cbn in H4 |- *; by rewrite H4.
  - intros fd bytes [st m] Hok; cbn; pose proof (mmap_fresh bytes m) as Hm.
    destruct (us_mmap bytes m) as [[base|] m']; done.
  - intros fd base bytes [st m] Hok; cbn; split_and!; try done; apply munmap_removes.
  - intros path [st m] Hi; cbn in *; unfold on_world; pose proof (fopen_keeps path (km_world st)) as Hw.
    cbn [fst snd]; destruct (us_fopen path (km_world st)) as [b w]; by apply km_inv_world.
  - intros [st m] Hi; cbn in *; pose proof (open_inv _ _ st tgid Hi) as Hi'; unfold rd_wpctl_open in *.
    destruct (kcalloc 1 sizeof_session (km_world st)) as [ok w]; destruct ok; cbn [negb snd] in *; [|unfold ENOMEM; lia].
    intros _; split; [split; [done|]|]; cbn; rewrite ?lookup_insert_eq; [by eexists|].
    unfold session_running, active_tids; cbn; by rewrite !lookup_insert_eq.
  - intros fd cfg s Hok Hc; destruct (kernel_ioctl fd (CONFIG_SESSION (Some cfg)) s Hok Hc)
      as (ret & rep & s' & E & H1 & _ & H3 & H4).
    exists ret, rep, s'; split_and!; try done; destruct (decide (ret < 0)); [by apply H3|by apply H4; lia|by apply H3|by apply H4; lia].
  - intros fd l s Hok Hl Ht; pose proof (on_world_keeps (us_vector l) fd s (vector_keeps l (km_world s.1)) Hok) as Hk.
    change (os_vector l s) with (on_world (us_vector l) s).
    pose proof (vector_memdup l (km_world s.1)) as Hmd; unfold on_world in *.
    destruct (us_vector l (km_world s.1)) as [ptr w]; cbn [fst snd] in *; destruct Hk as (K1 & K2 & K3 & _).
    destruct (kernel_ioctl fd (LOAD_TARGETS (Some (mk_batch ptr (zlen l)))) (set_world w s.1, s.2) K1)
      as (ret & rep & s' & E & H1 & _ & H3 & H4).
    { cbn [cmd_wf]; unfold batch_wf; cbn [batch_ptr batch_count]; split; [lia|]; intros l' w' E; apply Hmd in E as ->; split; [done|exact Ht]. }
    exists ret, rep, s'; cbn [fst snd running_after active_after] in H3, H4.
    split; [exact E|]; split; [done|]; destruct (decide (ret < 0)) as [Hn|Hn];
      [destruct (H3 Hn)|destruct (H4 ltac:(lia))]; split; congruence.
Defined.

(** * The controller and the module agree *)

Context (getenv realpath : text -> option text) (readlink : option text) (popen : text -> option (text * Z)).
Context (maps : option text) (read_file : text -> option text) (caller : Z).
Context (name : option text) (is_pin : bool) (num_cpus : Z).

Abbreviation system_reachable :=
  (ctl_reachable getenv realpath readlink popen maps read_file caller name is_pin num_cpus).

(** C6. The controller and the module never disagree.  In every state that is
    reached from a successful construction by calls of the controller by any
    thread, whether they return or throw, interleaved with breakpoint and
    watchpoint hits and with other users of the module: no call crashes, the
    session is open, its
    window is open exactly when the controller thinks so, the threads registered
    with it are exactly the active bindings, and no two of them share a CPU. *)
Theorem controller_agrees_with_module (p : profiler) (st : kmod) (m : mem)
    (Hcpus : 0 <= num_cpus)
    (Hcount32 : forall config tbl, parse_environment getenv = Ok config ->
       load_targets realpath popen maps (read_self_exe_path realpath readlink) (cf_target_file config)
         (cf_bp_capacity config) (read_file (cf_target_file config)) = Ok tbl -> sane_targets tbl)
    (Hr : system_reachable (p, (st, m))) :
  exists ses, km_sessions st !! pf_device_fd p = Some ses /\
    s_running ses = pf_window_open p /\
    (forall tid, (exists tp th, tp ∈ s_threads ses /\ km_threads st !! tp = Some th /\
                    t_active th = true /\ t_tid th = tid) <->
                 exists b, pf_threads p !! tid = Some b /\ tb_active b = true) /\
    (forall t1 t2 b1 b2, pf_threads p !! t1 = Some b1 -> pf_threads p !! t2 = Some b2 ->
       tb_active b1 = true -> tb_active b2 = true -> tb_cpu b1 = tb_cpu b2 -> t1 = t2) /\
    (forall cpu x, pf_cpu_owner p !!z cpu = Some x -> x <> 0 ->
       exists tid b, pf_threads p !! tid = Some b /\ tb_active b = true /\ tb_cpu b = cpu) /\
    (forall tid, is_Some (kernel_start (p, (st, m))) /\ is_Some (kernel_stop (p, (st, m))) /\
       is_Some (register_current_thread tid (p, (st, m))) /\
       is_Some (unregister_current_thread tid (p, (st, m)))).
Proof.
  apply reachable_ctl_inv in Hr as Hinv; [|done|done].
  pose proof (fun tid => calls_total (p, (st, m)) tid Hinv) as Htot.
  destruct Hinv as (Ht & [M1 M2 M3] & _); cbn [fst snd] in *.
  change (k_ok (pf_device_fd p) (st, m)) in M1; destruct M1 as [Hi [ses Hs]]; cbn [fst snd] in *; exists ses; split_and!.
  - done.
  - cbn in M2; rewrite M2; unfold session_running; cbn; by rewrite Hs.
  - intros tid; rewrite <- M3; cbn; symmetry; by apply elem_of_active.
  - intros t1 t2 b1 b2 H1 H2 A1 A2 E; apply (ti_excl p Ht (tb_cpu b1)); [by exists b1|exists b2; done].
  - intros cpu x Hx Hn; by apply (ti_owner p Ht cpu x Hx).
  - exact Htot.
Qed.

End system.
