(* ===== verification/CtlSpec.v ===== *)
(** What the controller promises: the window protocol as an abstract machine that
    its calls refine, registration that is undone when it fails, and a session
    set-up that the module accepts. *)
From S2P Require Import Prelude Uapi Buckets EffAddr KernelApi KTypes Tables Callchain Handlers Sampling HitSpec.
From S2P Require Import Lifecycle Session SessionInv RdModule CText AsmDecode Objdump ProcMaps LoadTargets.
From S2P Require Import Effects TargetedCtl CtlInv CtlKernel.
Import EffAddr AsmDecode Objdump ProcMaps LoadTargets TargetedCtl CtlInv.

Module CtlSpec.

(** * The window protocol *)

(** Collecting since the start in the absence of explicit windows, or explicit
    windows, one of which may be open. *)
Inductive window_mode := Fallback | Explicit (is_open : bool).
Inductive window_call := CallStart | CallStop.

(** The next mode and the requests that lead to it. *)
Definition spec_call (c : window_call) (m : window_mode) : window_mode * list ioctl_cmd :=
  match c, m with
  | CallStart, Fallback => (Explicit true, [STOP_WINDOW; RESET_SESSION; START_WINDOW])
  | CallStart, Explicit true => (Explicit true, [])
  | CallStart, Explicit false => (Explicit true, [START_WINDOW])
  | CallStop, Fallback => (Fallback, [])
  | CallStop, Explicit true => (Explicit false, [STOP_WINDOW])
  | CallStop, Explicit false => (Explicit false, [])
  end.
Fixpoint spec_calls (cs : list window_call) (m : window_mode) : window_mode * list ioctl_cmd :=
  match cs with
  | [] => (m, [])
  | c :: cs' =>
      let '(m1, t1) := spec_call c m in
      let '(m2, t2) := spec_calls cs' m1 in (m2, t1 ++ t2)
  end.

(** The flags that stand for a mode. *)
Definition in_mode (m : window_mode) (p : profiler) : Prop :=
  match m with
  | Fallback => pf_auto_fallback_active p = true /\ pf_explicit_window_seen p = false /\ pf_window_open p = true
  | Explicit b => pf_auto_fallback_active p = false /\ pf_explicit_window_seen p = true /\ pf_window_open p = b
  end.

(** An operating system that also records the requests made to the device. *)
Definition traced (O : OsApi) : OsApi := {|
  os := @os O * list ioctl_cmd;
  os_open s := let '(fd, o) := os_open s.1 in (fd, (o, s.2));
  os_close fd s := (os_close fd s.1, s.2);
  os_ioctl fd cmd s := '(r, o) ← os_ioctl fd cmd s.1; Some (r, (o, s.2 ++ [cmd]));
  os_setaffinity tid cpu s := let '(r, o) := os_setaffinity tid cpu s.1 in (r, (o, s.2));
  os_mmap bytes s := let '(r, o) := os_mmap bytes s.1 in (r, (o, s.2));
  os_munmap base bytes s := (os_munmap base bytes s.1, s.2);
  os_page_size := os_page_size;
  os_stat tid s := os_stat tid s.1;
  os_tasks s := os_tasks s.1;
  os_vector l s := let '(r, o) := os_vector l s.1 in (r, (o, s.2));
  os_fopen path s := let '(r, o) := os_fopen path s.1 in (r, (o, s.2));
  strerror := strerror;
|}.

Lemma bind_run {O : OsApi} {A B} (m : ctl A) (f : A -> ctl B) s a s' : m s = Some (Ok a, s') -> bind m f s = f a s'.
Proof. intros E; unfold bind; by rewrite E. Qed.

Section protocol.
Context {O : OsApi}.
#[local] Existing Instance traced.

Definition call_op (c : window_call) : prog profiler (@os (traced O)) unit :=
  match c with CallStart => kernel_start | CallStop => kernel_stop end.
Definition run_calls (cs : list window_call) : prog profiler (@os (traced O)) unit := forM cs call_op.

(** The device grants every window request. *)
Definition grants_windows : Prop := forall fd cmd (o : @os O),
  cmd = START_WINDOW \/ cmd = STOP_WINDOW \/ cmd = RESET_SESSION ->
  exists rep o', os_ioctl fd cmd o = Some (0, rep, o').

Hypothesis Hgrant : grants_windows.

Lemma granted name cmd p o t :
  cmd = START_WINDOW \/ cmd = STOP_WINDOW \/ cmd = RESET_SESSION ->
  exists rep o', @ioctl_or_throw (traced O) name cmd (p, (o, t)) = Some (Ok rep, (p, (o', t ++ [cmd]))).
Proof.
  intros Hc; destruct (Hgrant (pf_device_fd p) cmd o Hc) as (rep & o' & E); exists rep, o'.
  unfold ioctl_or_throw, bind, device_ioctl; cbn; by rewrite E.
Qed.

Lemma start_closed p o t :
  pf_window_open p = false -> exists o',
  @start_window_locked (traced O) (p, (o, t)) = Some (Ok tt, (p ⟦ pf_window_open := true ⟧, (o', t ++ [START_WINDOW]))).
Proof.
  intros E; destruct (granted (txt "RDKIOC_START_WINDOW") START_WINDOW p o t) as (rep & o' & H); [auto|]; exists o'.
  unfold start_window_locked, bind at 1; cbn [get fst]; rewrite E; unfold bind; by rewrite H.
Qed.

Lemma stop_open p o t :
  pf_window_open p = true -> exists o',
  @stop_window_locked (traced O) (p, (o, t)) = Some (Ok tt, (p ⟦ pf_window_open := false ⟧, (o', t ++ [STOP_WINDOW]))).
Proof.
  intros E; destruct (granted (txt "RDKIOC_STOP_WINDOW") STOP_WINDOW p o t) as (rep & o' & H); [auto|]; exists o'.
  unfold stop_window_locked, bind at 1; cbn [get fst]; rewrite E; cbn [negb]; unfold bind; by rewrite H.
Qed.

Lemma reset_closed p o t :
  pf_window_open p = false -> exists o',
  @reset_session_locked (traced O) (p, (o, t)) = Some (Ok tt, (p, (o', t ++ [RESET_SESSION]))).
Proof.
  intros E; destruct (granted (txt "RDKIOC_RESET_SESSION") RESET_SESSION p o t) as (rep & o' & H); [auto|]; exists o'.
  unfold reset_session_locked, bind at 1; cbn [get fst]; rewrite E; unfold bind; by rewrite H.
Qed.

Lemma call_refines c m p o t :
  in_mode m p ->
  exists p' o', call_op c (p, (o, t)) = Some (Ok tt, (p', (o', t ++ (spec_call c m).2))) /\
    in_mode (spec_call c m).1 p'.
Proof.
  intros Hm; destruct c, m as [|[|]]; destruct Hm as (H1 & H2 & H3); cbn [call_op spec_call fst snd].
  - unfold kernel_start; erewrite bind_run by reflexivity; cbn [fst]; rewrite H1, H2; cbn [andb negb].
    destruct (stop_open p o t H3) as (o1 & E1); erewrite bind_run by exact E1.
    set (p1 := p ⟦ pf_window_open := false ⟧) in *; assert (Hp1 : pf_window_open p1 = false) by done.
    destruct (reset_closed p1 o1 (t ++ [STOP_WINDOW]) Hp1) as (o2 & E2).
    erewrite bind_run by exact E2.
    destruct (start_closed p1 o2 ((t ++ [STOP_WINDOW]) ++ [RESET_SESSION]) Hp1) as (o3 & E3).
    erewrite bind_run by exact E3; rewrite <- !app_assoc; cbn [app]; eexists _, o3; split; [reflexivity|done].
  - unfold kernel_start; erewrite bind_run by reflexivity; cbn [fst]; rewrite H1, H3; cbn [andb].
    erewrite bind_run by reflexivity; rewrite app_nil_r; eexists _, o; split; [reflexivity|]; by split.
  - unfold kernel_start; erewrite bind_run by reflexivity; cbn [fst]; rewrite H1, H3; cbn [andb].
    erewrite bind_run by reflexivity; cbn [fst snd].
    set (p1 := p ⟦ pf_explicit_window_seen := true ⟧ ⟦ pf_auto_fallback_active := false ⟧).
    destruct (start_closed p1 o t H3) as (o1 & E1).
    eexists _, o1; split; [exact E1|done].
  - unfold kernel_stop; erewrite bind_run by reflexivity; cbn [fst]; rewrite H3, H1, H2; cbn [andb negb].
    rewrite app_nil_r; by eexists _, o.
  - unfold kernel_stop; erewrite bind_run by reflexivity; cbn [fst]; rewrite H3, H1; cbn [andb negb].
    destruct (stop_open p o t H3) as (o1 & E1); rewrite E1; by eexists _, o1.
  - unfold kernel_stop; erewrite bind_run by reflexivity; cbn [fst]; rewrite H3; cbn [negb].
    rewrite app_nil_r; by eexists _, o.
Qed.

(** Requests to discard what was collected. *)
Definition resets (t : list ioctl_cmd) : Z :=
  zcount (fun c => match c with RESET_SESSION => true | _ => false end) t.

Definition is_start (c : window_call) : bool := match c with CallStart => true | CallStop => false end.

Lemma resets_app t1 t2 : resets (t1 ++ t2) = resets t1 + resets t2.
Proof. apply zcount_app. Qed.

Lemma explicit_resets cs b : resets (spec_calls cs (Explicit b)).2 = 0.
Proof.
  revert b; induction cs as [|c cs IH]; intros b; [done|]; cbn [spec_calls].
  destruct c, b; cbn [spec_call]; specialize (IH true) as I1; specialize (IH false) as I2;
    destruct (spec_calls cs (Explicit true)) as [m1 t1], (spec_calls cs (Explicit false)) as [m2 t2];
    cbn [snd] in *; rewrite resets_app, ?I1, ?I2; done.
Qed.

(** Only the first explicit window discards, once. *)
Lemma fallback_resets cs : resets (spec_calls cs Fallback).2 = if existsb is_start cs then 1 else 0.
Proof.
  induction cs as [|c cs IH]; [done|]; cbn [spec_calls existsb]; destruct c; cbn [spec_call is_start orb].
  - pose proof (explicit_resets cs true); destruct (spec_calls cs (Explicit true)) as [m1 t1]; cbn [snd] in *.
    rewrite resets_app; change (resets [STOP_WINDOW; RESET_SESSION; START_WINDOW]) with 1; lia.
  - destruct (spec_calls cs Fallback) as [m1 t1]; cbn [snd app] in *; done.
Qed.

Lemma calls_refine cs m p o t :
  in_mode m p ->
  exists p' o', run_calls cs (p, (o, t)) = Some (Ok tt, (p', (o', t ++ (spec_calls cs m).2))) /\
    in_mode (spec_calls cs m).1 p'.
Proof.
  revert m p o t; induction cs as [|c cs IH]; intros m p o t Hm.
  { exists p, o; cbn; by rewrite app_nil_r. }
  destruct (call_refines c m p o t Hm) as (p1 & o1 & E1 & Hm1); cbn [spec_calls].
  destruct (spec_call c m) as [m1 t1]; cbn [fst snd] in *.
  destruct (IH m1 p1 o1 (t ++ t1) Hm1) as (p2 & o2 & E2 & Hm2).
  destruct (spec_calls cs m1) as [m2 t2]; cbn [fst snd] in *; rewrite <- app_assoc in E2.
  exists p2, o2; split; [|done]; unfold run_calls in *; cbn [forM].
  by erewrite bind_run by exact E1.
Qed.

End protocol.

(** C34. The calls of [rd_start] and [rd_stop] refine the window protocol.  On a
    device that grants window requests, any sequence of them, started in the
    fallback window the constructor opens, returns and sends exactly the requests
    of the abstract machine: a stop without an explicit window leaves the fallback
    window open; the first start closes it, discards what it collected and opens
    an explicit window, and nothing is discarded after that; a start in an open
    window and a stop of a closed one send nothing. *)
Theorem window_calls_refine_protocol (O : OsApi) (cs : list window_call) (p : profiler) (o : @os O)
    (Hgrant : @grants_windows O) (Hp : in_mode Fallback p) :
  exists p' o' t, @run_calls O cs (p, (o, [])) = Some (Ok tt, (p', (o', t))) /\
    t = (spec_calls cs Fallback).2 /\ in_mode (spec_calls cs Fallback).1 p' /\
    resets t = if existsb is_start cs then 1 else 0.
Proof.
  destruct (calls_refine Hgrant cs Fallback p o [] Hp) as (p' & o' & E & Hm).
  exists p', o', (spec_calls cs Fallback).2; split_and!; [exact E|done|done|apply fallback_resets].
Qed.

(** * Registration *)

(** C35. A registration either takes effect or leaves no trace.  When
    [register_thread_locked] throws (no CPU is free, the affinity, the memory or
    the device refuses) the CPU table and the bindings of all threads are as
    before, except that a stale inactive entry of the thread is gone, the device
    has the same threads and the same memory is mapped; when it returns, the
    thread is registered and the other bindings are unchanged. *)
Theorem failed_registration_is_undone (O : OsApi) (D : RdDevice O) (caller tid : Z) (p : profiler) (o : os)
    (Hi : ctl_inv (p, o)) :
  exists r p' o', register_thread_locked caller tid (p, o) = Some (r, (p', o')) /\ ctl_inv (p', o') /\
    match r with
    | Ok b => pf_threads p' !! tid = Some b /\ tb_active b = true /\
              (forall t, t <> tid -> pf_threads p' !! t = pf_threads p !! t)
    | Throw _ => pf_cpu_owner p' = pf_cpu_owner p /\
                 (pf_threads p' = pf_threads p \/ pf_threads p' = delete tid (pf_threads p)) /\
                 dv_active (pf_device_fd p) o' = dv_active (pf_device_fd p) o /\ dv_mapped o' = dv_mapped o
    end.
Proof.
  pose proof (register_spec caller tid (p, o) Hi) as H; unfold wpc in H.
  destruct (register_thread_locked caller tid (p, o)) as [[r [p' o']]|]; [|done].
  exists r, p', o'; split; [done|]; destruct H as (Hi' & _ & H); split; [done|].
  destruct r as [b|e]; [done|]; destruct H as ([E|E] & H1 & H2); cbn in E, H1, H2; subst p'; auto.
Qed.

(** * Session set-up *)

(** A target whose address is known and whose index register, if any, is not [sp]. *)
Definition usable_target (t : hot_target) : bool :=
  negb (ht_abs_pc t =? 0) &&
  negb (dt_has_index (ht_decode t) && negb (dt_index_is_zero (ht_decode t)) && (dt_index_reg (ht_decode t) =? 31)).

Lemma usable_target_validates t :
  template_wf (ht_decode t) -> truthy (rd_validate_target (uapi_target t)) = negb (usable_target t).
Proof.
  intros [W1 W2 W3 W4]; unfold usable_target, rd_validate_target, uapi_target, to_uapi_decode.
  cbn [decode abs_pc access_size base_reg has_index index_is_zero index_reg extend].
  unfold PERF_REG_ARM64_SP, PERF_REG_ARM64_LR in *; rewrite u32_id by lia.
  destruct (ht_abs_pc t =? 0); [done|]; split_if; [lia|]; split_if; [lia|].
  assert (Hi : truthy (if dt_has_index (ht_decode t) then 1 else 0) &&
    negb (truthy (if dt_index_is_zero (ht_decode t) then 1 else 0)) &&
    ((dt_index_reg (ht_decode t) <? 0) || (30 <? dt_index_reg (ht_decode t))) =
    dt_has_index (ht_decode t) && negb (dt_index_is_zero (ht_decode t)) && (dt_index_reg (ht_decode t) =? 31)).
  { destruct (dt_has_index (ht_decode t)) eqn:Eh; cbn; [|done].
    destruct (dt_index_is_zero (ht_decode t)) eqn:Ez; cbn; [done|].
    destruct (W3 eq_refl); [done|lia]. }
  rewrite Hi; split_if; [done|]; by destruct (dt_extend (ht_decode t)).
Qed.

Lemma usable_targets_validate hot :
  Forall (fun t => template_wf (ht_decode t)) hot ->
  existsb (fun t => truthy (rd_validate_target t)) (uapi_target <$> hot) = negb (forallb usable_target hot).
Proof.
  induction 1 as [|t hot Ht _ IH]; [done|]; cbn [fmap list_fmap existsb forallb].
  by rewrite IH, usable_target_validates, negb_andb.
Qed.

(** What the environment can set. *)
Record parsed (c : ctl_config) : Prop := {
  ps_mode : cf_callchain_mode c = RD_CALLCHAIN_OFF \/ cf_callchain_mode c = RD_CALLCHAIN_FP \/
            cf_callchain_mode c = RD_CALLCHAIN_DWARF;
  ps_period : 0 < cf_bp_sample_period c;
  ps_stack : 0 < cf_dwarf_stack_bytes c <= RD_WPCTL_MAX_DWARF_STACK_BYTES;
}.

Lemma strtoll_range b s : -9223372036854775808 <= strtoll b s <= 9223372036854775807.
Proof. unfold strtoll, LLONG_MAX, LLONG_MIN; destruct (strto b s) as [[neg m] r]; lia. Qed.

Lemma environment_parsed getenv c : parse_environment getenv = Ok c -> parsed c.
Proof.
  unfold parse_environment; destruct (env_set getenv (txt "RD_TARGET_FILE")); [|done].
  intros (wp & _ & H)%rbind_Ok; apply rbind_Ok in H as (bp & _ & H); apply rbind_Ok in H as (period & Hp & H).
  split_if; [done|]; apply rbind_Ok in H as (mode & Hm & H); apply rbind_Ok in H as (stack & Hst & H).
  apply rbind_Ok in H as (events & _ & [= <-]); split; cbn.
  - unfold env_callchain_mode in Hm; destruct (env_set getenv (txt "RD_CALLCHAIN_MODE")); [|simplify_eq; auto].
    repeat split_if; simplify_eq; auto.
  - unfold env_sample_period in Hp; destruct (env_set getenv (txt "RD_BP_SAMPLE_PERIOD")) as [s|]; [|by simplify_eq].
    pose proof (strtoll_range 10 s); cbn zeta in Hp; split_if; [done|]; injection Hp as <-; rewrite u64_id by lia; lia.
  - unfold env_dwarf_stack in Hst; destruct (env_set getenv (txt "RD_DWARF_STACK_BYTES")) as [s|]; [|by simplify_eq].
    cbn zeta in Hst; unfold RD_WPCTL_MAX_DWARF_STACK_BYTES in *; split_if; [done|].
    injection Hst as <-; rewrite u32_id by lia; lia.
Qed.

Section setup.
Context `{K : KernelApi} {KL : KernelLaws K} {U : UserApi K} {UL : UserLaws KL U} (tgid : Z).
Context (getenv realpath : text -> option text) (popen : text -> option (text * Z)).
Context (maps : option text) (main : text) (content : option text).

(** The parameters of a session that was configured with [c]; the sizes of the
    DWARF snapshots are 0 in the other modes. *)
Definition configured_as (c : ctl_config) (ses : rd_session) : Prop :=
  configured ses = true /\ s_running ses = false /\ s_threads ses = [] /\ owner_tgid ses = tgid /\
  wp_capacity ses = cf_watchpoint_capacity c /\ callchain_mode ses = cf_callchain_mode c /\
  bp_sample_period ses = cf_bp_sample_period c /\
  dwarf_stack_bytes ses = (if cf_callchain_mode c =? 2 then cf_dwarf_stack_bytes c else 0) /\
  dwarf_event_capacity ses = (if cf_callchain_mode c =? 2 then cf_dwarf_event_capacity c else 0).

(** The capacities that did not become 0 when they were cut to 32 bits. *)
Definition capacities_ok (c : ctl_config) : bool :=
  negb (cf_watchpoint_capacity c =? 0) &&
  negb ((cf_callchain_mode c =? 2) && (cf_dwarf_event_capacity c =? 0)).

Lemma config_result c fd st :
  parsed c -> km_sessions st !! fd = Some (fresh_session tgid) -> fd <> 0 ->
  if capacities_ok c then
    exists ses, rd_wpctl_ioctl fd (CONFIG_SESSION (Some (session_cfg c))) true st =
        Some (0, NoReply, set_session fd ses st) /\
      configured_as c ses /\ targets_loaded ses = false /\ targets ses = [] /\ target_count ses = 0
  else rd_wpctl_ioctl fd (CONFIG_SESSION (Some (session_cfg c))) true st = Some (- EINVAL, NoReply, st).
Proof.
  intros [Hm Hper Hst] Hs Hfd; unfold rd_wpctl_ioctl; rewrite (proj2 (Z.eqb_neq fd 0) Hfd), Hs, some_bind.
  unfold command, rd_session_config_locked; rewrite Hs, some_bind; cbn [configured targets_loaded fresh_session orb].
  unfold session_cfg, capacities_ok; cbn [cfg_wp_capacity cfg_bp_sample_period cfg_callchain_mode cfg_dwarf_stack_bytes cfg_dwarf_event_capacity].
  rewrite (proj2 (Z.eqb_neq (cf_bp_sample_period c) 0)), orb_false_r by lia.
  destruct (cf_watchpoint_capacity c =? 0); [done|]; cbn [negb andb].
  unfold RD_CALLCHAIN_OFF, RD_CALLCHAIN_FP, RD_CALLCHAIN_DWARF, RD_WPCTL_MAX_DWARF_STACK_BYTES in *.
  replace (negb (cf_callchain_mode c =? 0) && negb (cf_callchain_mode c =? 1) && negb (cf_callchain_mode c =? 2))
    with false by lia.
  unfold configured_as; change RD_CALLCHAIN_DWARF with 2; destruct (cf_callchain_mode c =? 2) eqn:Ed; cbn [andb].
  - rewrite (proj2 (Z.ltb_ge _ (cf_dwarf_stack_bytes c))), (proj2 (Z.eqb_neq (cf_dwarf_stack_bytes c) 0)) by lia; cbn [orb].
    destruct (cf_dwarf_event_capacity c =? 0); [done|]; cbn [negb]; rewrite some_bind; eexists; split; [reflexivity|done].
  - change (8192 <? 0) with false; cbn [negb]; cbv iota; rewrite some_bind; eexists; split; [reflexivity|done].
Qed.

Lemma load_result ptr l fd ses st w :
  km_sessions st !! fd = Some ses -> fd <> 0 -> configured ses = true -> targets_loaded ses = false ->
  ptr <> 0 -> 0 < zlen l ->
  memdup_user_targets ptr (zlen l) (km_world st) = (inr l, w) -> (forall n s w, (kcalloc n s w).1 = true) ->
  exists w', rd_wpctl_ioctl fd (LOAD_TARGETS (Some (mk_batch ptr (zlen l)))) true st =
    Some (if existsb (fun t => truthy (rd_validate_target t)) l then (- EINVAL, NoReply, set_world w' st) else
      (0, NoReply, set_session fd
        (ses ⟦ targets := l ⟧ ⟦ target_count := zlen l ⟧ ⟦ targets_loaded := true ⟧) (set_world w' st))).
Proof.
  intros Hs Hfd Hc Hl Hptr Hlen Hmd Halloc.
  unfold rd_wpctl_ioctl; rewrite (proj2 (Z.eqb_neq fd 0) Hfd), Hs, some_bind.
  unfold command, rd_load_targets_locked; rewrite Hs, some_bind, Hc, Hl; cbn [negb orb batch_ptr batch_count].
  rewrite (proj2 (Z.eqb_neq ptr 0) Hptr), (proj2 (Z.eqb_neq (zlen l) 0)) by lia; cbn [orb]; rewrite Hmd.
  specialize (Halloc (zlen l) 56 w); destruct (kcalloc (zlen l) 56 w) as [ok w2]; cbn in Halloc; subst ok; cbn [negb].
  assert (Hpre : array_prefix l (zlen l) = Some l).
  { unfold array_prefix; split_if; [|lia]; by rewrite Nat2Z.id, firstn_all. }
  exists w2; rewrite Hpre, some_bind; by destruct (existsb _ l).
Qed.

(** What [ioctl_or_throw] makes of an answer of the module. *)
Lemma kernel_answered {A} name cmd p st m r rep st' (f : reply -> prog profiler (@os (kernel_os tgid)) A) :
  rd_wpctl_ioctl (pf_device_fd p) cmd true st = Some (r, rep, st') ->
  bind (ioctl_or_throw name cmd) f (p, (st, m)) =
    if r <? 0 then Some (Throw (name ++ txt " failed: " ++ @strerror (kernel_os tgid) (- r)), (p, (st', m)))
    else f rep (p, (st', m)).
Proof. intros E; unfold ioctl_or_throw, bind, device_ioctl; cbn; rewrite E; cbn; by destruct (r <? 0). Qed.

Lemma set_session_again sp s1 s2 w1 w2 (st : kmod) :
  set_session sp s2 (set_world w2 (set_world w1 (set_session sp s1 st))) = set_session sp s2 (set_world w2 st).
Proof. apply (f_equal (fun ss => mk_kmod ss (km_threads st) (km_live st) (mk_env w2 (e_tokens (km_env st))) (km_next st))), insert_insert_eq. Qed.

Lemma none_rejected l :
  existsb (fun t => truthy (rd_validate_target t)) l = false -> Forall (fun t => rd_validate_target t = 0) l.
Proof.
  induction l as [|t l IH]; cbn [existsb]; [done|]; intros [H1 H2]%orb_false_iff; constructor; [|by apply IH].
  by apply negb_false_iff, Z.eqb_eq in H1.
Qed.

Context (p : profiler) (c : ctl_config) (tbl : target_table) (st : kmod) (m : mem).
Context (Hc : parse_environment getenv = Ok c)
  (Hload : load_targets realpath popen maps main (cf_target_file c) (cf_bp_capacity c) content = Ok tbl)
  (Hp : pf_config p = c) (Ht : pf_table p = tbl)
  (Hopen : km_sessions st !! pf_device_fd p = Some (fresh_session tgid)) (Hfd : pf_device_fd p <> 0)
  (Hlen : zlen (tt_targets tbl) < 4294967296)
  (Hmem : forall l w, l <> [] -> (us_vector l w).1 <> 0 /\
     exists w', memdup_user_targets (us_vector l w).1 (zlen l) (us_vector l w).2 = (inr l, w'))
  (Halloc : forall n s w, (kcalloc n s w).1 = true).

Lemma loaded_templates_wf : Forall (fun t => template_wf (ht_decode t)) (tt_targets tbl).
Proof.
  eapply Forall_impl; [exact (load_targets_made _ _ _ _ _ _ _ _ Hload)|]; intros t (kv & W%made_target_wf); done.
Qed.

(** C36. The module and the controller agree on what a session is.  On a session
    that was just opened, with a configuration that the constructor accepted and
    targets that [load_targets] returned, fewer than 2^32 of them, and enough
    memory: when a capacity became 0 as it was cut to 32 bits,
    [configure_session] throws and changes nothing.  Otherwise the session takes
    every parameter, the two DWARF sizes included; when every target has an
    address and none indexes by [sp], the call succeeds and the session holds
    exactly those targets, in order, each valid; when one has not, the call
    throws and the session holds none.  Nothing else of the module changes but
    its memory. *)
Theorem session_setup_accepted :
  if capacities_ok c then
    exists r w ses, @configure_session (kernel_os tgid) (p, (st, m)) =
        Some (r, (p, (set_session (pf_device_fd p) ses (set_world w st), m))) /\
      configured_as c ses /\
      if forallb usable_target (tt_targets tbl) then
        r = Ok tt /\ targets_loaded ses = true /\
        targets ses = uapi_target <$> tt_targets tbl /\ target_count ses = zlen (tt_targets tbl) /\
        Forall (fun t => rd_validate_target t = 0) (targets ses)
      else (exists e, r = Throw e) /\ targets_loaded ses = false /\ targets ses = [] /\ target_count ses = 0
  else exists e, @configure_session (kernel_os tgid) (p, (st, m)) = Some (Throw e, (p, (st, m))).
Proof.
  pose proof (load_targets_nonempty _ _ _ _ _ _ _ _ Hload) as Hne.
  pose proof (config_result c (pf_device_fd p) st (environment_parsed getenv c Hc) Hopen Hfd) as Hcfg.
  unfold configure_session; erewrite bind_run by reflexivity; cbn [fst]; rewrite Hp, Ht.
  destruct (capacities_ok c); [|rewrite (kernel_answered _ _ p st m _ _ _ _ Hcfg); eexists; reflexivity].
  destruct Hcfg as (ses1 & E1 & S & S1 & S2 & S3).
  rewrite (kernel_answered _ _ p st m _ _ _ _ E1); cbn zeta; change (0 <? 0) with false; cbv iota.
  pose proof (usable_targets_validate _ loaded_templates_wf) as Hval.
  set (l := uapi_target <$> tt_targets tbl) in *; set (st1 := set_session (pf_device_fd p) ses1 st) in *.
  assert (Hl : zlen l = zlen (tt_targets tbl)) by (unfold l; by rewrite length_fmap).
  destruct (Hmem l (km_world st1)) as (Hptr & w' & Hmd); [unfold l; by destruct (tt_targets tbl)|].
  erewrite bind_run by (unfold call; cbn [os_vector kernel_os fst snd]; unfold on_world;
    cbn [fst snd]; rewrite (surjective_pairing (us_vector l (km_world st1))); reflexivity).
  rewrite u32_id by lia.
  destruct (load_result (us_vector l (km_world st1)).1 l (pf_device_fd p) ses1
    (set_world (us_vector l (km_world st1)).2 st1) w') as (w2 & E2); try done.
  { cbn; by rewrite lookup_insert_eq. }
  { by destruct S. }
  { rewrite Hl; destruct (tt_targets tbl); [done|]; cbn [length]; lia. }
  rewrite Hval in E2; destruct (forallb usable_target (tt_targets tbl)); cbn [negb] in *.
  - rewrite (kernel_answered _ _ p _ m _ _ _ _ E2); change (0 <? 0) with false; cbv iota.
    exists (Ok tt), w2, (ses1 ⟦ targets := l ⟧ ⟦ target_count := zlen l ⟧ ⟦ targets_loaded := true ⟧).
    unfold st1; rewrite set_session_again; split; [reflexivity|]; split; [exact S|]; split_and!; [done|done|done|exact Hl|].
    by apply none_rejected.
  - rewrite (kernel_answered _ _ p _ m _ _ _ _ E2); change (- EINVAL <? 0) with true; cbv iota.
    eexists _, w2, ses1; split; [reflexivity|]; split; [exact S|]; split; [eexists; reflexivity|done].
Qed.

End setup.

End CtlSpec.
