(* ===== verification/CtlDemo.v ===== *)
(** The controller run on the small concrete kernel of [KernelApi.v]: the theorems
    of [CtlKernel.v] and [CtlSpec.v] applied at a run that samples two offsets,
    loads one of them and registers thread 100. *)
From S2P Require Import Prelude Uapi Buckets EffAddr KernelApi KTypes Tables Callchain Handlers Sampling HitSpec.
From S2P Require Import Lifecycle Session SessionInv RdModule CText AsmDecode Objdump ProcMaps Hotspots LoadTargets.
From S2P Require Import Manifest Effects TargetedCtl CtlInv CtlKernel CtlSpec.
Import Toy EffAddr AsmDecode Objdump ProcMaps LoadTargets Manifest TargetedCtl CtlInv CtlSpec.

Module CtlDemo.

(** ** System calls of the toy machine *)

Definition fresh_base (m : gset (Z * Z)) : Z := 4096 + set_fold (fun r => Z.max r.1) 0 m.

Definition toy_vector (l : list rd_wpctl_target) (w : toy) : Z * toy := (4096, w ⟦ ty_targets := l ⟧).

#[export] Instance toy_user : UserApi toy_kernel := {|
  mem := gset (Z * Z);
  us_setaffinity tid cpu w := (true, w);
  us_mmap bytes m := (Some (fresh_base m), {[(fresh_base m, bytes)]} ∪ m);
  us_munmap base bytes m := m ∖ {[(base, bytes)]};
  us_page_size := 4096;
  us_stat tid w := Some (stat_line tid (txt "a.out") (txt "S" :: replicate 35 (txt "0") ++ [dec_u64 (tid mod 8); txt "0"]));
  us_tasks w := Some [txt "."; txt ".."; txt "100"];
  us_vector := toy_vector;
  us_fopen path w := (true, w);
  us_strerror e := dec_u64 e;
|}.

Lemma set_fold_max_pairs (s : gset (Z * Z)) x : x ∈ s -> x.1 <= set_fold (fun r => Z.max r.1) 0 s.
Proof.
  revert s; refine (set_fold_ind_L (fun m (s : gset (Z * Z)) => x ∈ s -> x.1 <= m) _ 0 _ _).
  - set_solver.
  - intros y s m Hy IH [->%elem_of_singleton|Hx]%elem_of_union; [lia|]; specialize (IH Hx); lia.
Qed.

Lemma fresh_base_new m bytes : (fresh_base m, bytes) ∉ m.
Proof. intros H%set_fold_max_pairs; cbn [fst] in H; unfold fresh_base in *; lia. Qed.

#[export] Instance toy_user_laws : UserLaws toy_laws toy_user.
Proof.
  refine {| us_mapped := (fun m => m) : mem -> gset (Z * Z) |}; try done.
  - cbn; intros l w l' w'; rewrite Z.eqb_refl; by intros [= <- _].
  - intros bytes m; exact (conj (fresh_base_new m bytes) eq_refl).
Qed.

(** ** The run *)

Definition run_getenv (n : text) : option text :=
  if bool_decide (n = txt "RD_TARGET_FILE") then Some (txt "run.hotpc") else None.
Definition run_file (n : text) : option text :=
  if bool_decide (n = txt "run.hotpc") then Some run_manifest else None.

Abbreviation run_os := (@kernel_os toy_kernel toy_user 100).
Definition run_link : option text := Some (txt "/bin/a.out").
Definition run_machine : kmod * gset (Z * Z) := (initial_state 0 toy0, ∅).
Abbreviation run_construct :=
  (@construct run_os run_getenv demo_realpath run_link run_popen (Some run_maps) run_file 100
     (initial_profiler None true 8, run_machine)).

Lemma run_constructs :
  exists p st m, run_construct = Some (Ok tt, (p, (st, m))) /\
    zlen (tt_targets (pf_table p)) = 1 /\ exists b, pf_threads p !! 100 = Some b /\ tb_active b = true /\ tb_cpu b = 4.
Proof.
  assert (H : match run_construct with
              | Some (Ok _, (p, _)) =>
                  bool_decide (zlen (tt_targets (pf_table p)) = 1) && bool_decide ((fun b => (tb_active b, tb_cpu b)) <$> pf_threads p !! 100 = Some (true, 4))
              | _ => false end = true) by (vm_compute; reflexivity).
  destruct (run_construct) as [[[[]|] [p [st m]]]|]; [|done|done]; exists p, st, m; split; [done|].
  apply andb_prop in H as [H1%bool_decide_eq_true (b & Hb & E)%bool_decide_eq_true%fmap_Some].
  split; [done|]; exists b; split; [done|]; split; congruence.
Qed.

Definition events0 : gset Z := @live_events toy_kernel toy_laws toy0.
Definition refs0 : Z -> Z := @task_refs toy_kernel toy_laws toy0.
Abbreviation ctl_dev := (@kernel_device toy_kernel toy_laws toy_user toy_user_laws events0 refs0 100).

Lemma run_started_valid : @os_valid _ ctl_dev run_machine.
Proof. exact (init_inv (toy0 : world) 0). Qed.

Abbreviation run_reachable :=
  (@ctl_reachable run_os ctl_dev run_getenv demo_realpath run_link run_popen (Some run_maps)
     run_file 100 None true 8).

Lemma run_reached s : run_construct = Some (Ok tt, s) -> run_reachable s.
Proof. intros H; eapply reach_constructed; [exact run_started_valid|exact H]. Qed.

Lemma run_target_count config tbl :
  parse_environment run_getenv = Ok config ->
  load_targets demo_realpath run_popen (Some run_maps) (read_self_exe_path demo_realpath run_link)
    (cf_target_file config) (cf_bp_capacity config) (run_file (cf_target_file config)) = Ok tbl -> sane_targets tbl.
Proof.
  intros E1 E2.
  assert (H : match (config ← match parse_environment run_getenv with Ok c => Some c | _ => None end;
                     match load_targets demo_realpath run_popen (Some run_maps)
                       (read_self_exe_path demo_realpath run_link)
                       (cf_target_file config) (cf_bp_capacity config) (run_file (cf_target_file config)) with
                     | Ok t => Some t | _ => None end) with
              | Some t => bool_decide (sane_targets t)
              | None => false end = true) by (vm_compute; reflexivity).
  rewrite E1 in H; cbn [mbind option_bind] in H; rewrite E2 in H; by apply bool_decide_eq_true in H.
Qed.

Lemma controller_agrees_with_module_witness :
  exists p st m ses, run_construct = Some (Ok tt, (p, (st, m))) /\
    km_sessions st !! pf_device_fd p = Some ses /\ s_running ses = pf_window_open p /\
    exists tp th, tp ∈ s_threads ses /\ km_threads st !! tp = Some th /\ t_active th = true /\ t_tid th = 100.
Proof.
  destruct run_constructs as (p & st & m & E & _ & b & Hb & Ha & _).
  destruct (@controller_agrees_with_module toy_kernel toy_laws toy_user toy_user_laws events0 refs0 100
    run_getenv demo_realpath run_link run_popen (Some run_maps) run_file 100 None true 8
    p st m ltac:(lia) run_target_count (run_reached _ E)) as (ses & H1 & H2 & H3 & _).
  exists p, st, m, ses; split; [exact E|]; split; [exact H1|]; split; [exact H2|].
  apply H3; exists b; split; [exact Hb|exact Ha].
Defined.

Lemma failed_registration_is_undone_witness :
  exists p o r p' o', @ctl_inv run_os ctl_dev (p, o) /\
    @register_thread_locked run_os 100 300 (p, o) = Some (r, (p', o')) /\ @ctl_inv run_os ctl_dev (p', o').
Proof.
  destruct run_constructs as (p & st & m & E & _).
  pose proof (reachable_ctl_inv _ _ _ _ _ _ _ None true 8 ltac:(lia) run_target_count _ (run_reached _ E)) as Hi.
  destruct (@failed_registration_is_undone run_os ctl_dev 100 300 p (st, m) Hi) as (r & p' & o' & E' & Hi' & _).
  exists p, (st, m), r, p', o'; split; [exact Hi|]; split; [exact E'|exact Hi'].
Defined.

(** A device that grants every request. *)
Definition granting_os : OsApi := {|
  os := unit;
  os_open o := (3, o);
  os_close _ o := o;
  os_ioctl _ _ o := Some (0, NoReply, o);
  os_setaffinity _ _ o := (true, o);
  os_mmap _ o := (Some 4096, o);
  os_munmap _ _ o := o;
  os_page_size := 4096;
  os_stat _ _ := None;
  os_tasks _ := None;
  os_vector _ o := (4096, o);
  os_fopen _ o := (true, o);
  strerror := dec_u64;
|}.

Definition collecting : profiler :=
  initial_profiler None true 8 ⟦ pf_device_fd := 3 ⟧ ⟦ pf_window_open := true ⟧ ⟦ pf_auto_fallback_active := true ⟧.

(** Stop before the first start, two starts, a stop and one more start. *)
Lemma window_calls_refine_protocol_witness :
  exists p' o' t, @run_calls granting_os [CallStop; CallStart; CallStart; CallStop; CallStart] (collecting, (tt, [])) =
    Some (Ok tt, (p', (o', t))) /\
    t = [STOP_WINDOW; RESET_SESSION; START_WINDOW; STOP_WINDOW; START_WINDOW] /\ in_mode (Explicit true) p'.
Proof.
  destruct (window_calls_refine_protocol granting_os [CallStop; CallStart; CallStart; CallStop; CallStart] collecting tt)
    as (p' & o' & t & E & Ht & Hm & _).
  - intros fd cmd o _; exists NoReply, o; reflexivity.
  - split; [reflexivity|]; split; reflexivity.
  - exists p', o', t; split; [exact E|]; split; [exact Ht|exact Hm].
Defined.

(** The controller after the device was opened and the targets were chosen, as the session 1. *)
Definition run_config : ctl_config := mk_config (txt "run.hotpc") 4 6 1024 RD_CALLCHAIN_OFF 8192 16384.
Definition set_up : profiler :=
  initial_profiler None true 8 ⟦ pf_config := run_config ⟧ ⟦ pf_table := run_targets ⟧ ⟦ pf_device_fd := 1 ⟧.
Definition opened : kmod := snd (rd_wpctl_open 100 (initial_state 0 toy0)).

Lemma session_setup_accepted_witness :
  exists w ses, @configure_session run_os (set_up, (opened, ∅)) =
      Some (Ok tt, (set_up, (set_session 1 ses (set_world w opened), ∅))) /\
    configured_as 100 run_config ses /\ targets ses = uapi_target <$> tt_targets run_targets /\
    dwarf_stack_bytes ses = 0 /\ Forall (fun t => rd_validate_target t = 0) (targets ses).
Proof.
  assert (H := @session_setup_accepted toy_kernel toy_user 100 run_getenv demo_realpath run_popen (Some run_maps)
    (txt "/bin/a.out") (Some run_manifest) set_up run_config run_targets opened ∅).
  destruct H as (r & w & ses & E & Hc & Hr).
  - vm_compute; reflexivity.
  - vm_compute; reflexivity.
  - reflexivity.
  - reflexivity.
  - vm_compute; reflexivity.
  - done.
  - vm_compute; reflexivity.
  - intros l w _; split; [done|]; exists (snd (us_vector l w)); cbn; by rewrite Z.eqb_refl.
  - intros n k w; reflexivity.
  - replace (forallb usable_target (tt_targets run_targets)) with true in Hr by (vm_compute; reflexivity).
    destruct Hr as (-> & _ & Ht & _ & Hv); exists w, ses; split; [exact E|]; split; [exact Hc|]; split; [exact Ht|].
    split; [|exact Hv]; apply Hc.
Defined.

End CtlDemo.
