(* ===== verification/ResultFiles.v ===== *)
(** The result files of the targeted phase: [write_info] and the four writers it
    calls in [src/targeted_rd.cc], and the destructor that runs them.

    [filed] extends an operating system with the content of the files the process
    writes, so the operations of [TargetedCtl.v] run on it unchanged; opening
    truncates, output is appended, and what was written before a throw stays. *)
From S2P Require Import Prelude Uapi Buckets EffAddr KernelApi KTypes Lifecycle Session CText AsmDecode Objdump ProcMaps.
From S2P Require Import LoadTargets Effects TargetedCtl.
Import Buckets AsmDecode Objdump ProcMaps LoadTargets TargetedCtl.

Module ResultFiles.

(** * Files *)

(** [writable path]: output to an open stream of [path] reaches the file. *)
Definition filed (writable : text -> bool) (O : OsApi) : OsApi := {|
  os := @os O * gmap text text;
  os_open s := let '(fd, o) := os_open s.1 in (fd, (o, s.2));
  os_close fd s := (os_close fd s.1, s.2);
  os_ioctl fd cmd s := '(r, o) ← os_ioctl fd cmd s.1; Some (r, (o, s.2));
  os_setaffinity tid cpu s := let '(r, o) := os_setaffinity tid cpu s.1 in (r, (o, s.2));
  os_mmap bytes s := let '(r, o) := os_mmap bytes s.1 in (r, (o, s.2));
  os_munmap base bytes s := (os_munmap base bytes s.1, s.2);
  os_page_size := os_page_size;
  os_stat tid s := os_stat tid s.1;
  os_tasks s := os_tasks s.1;
  os_vector l s := let '(r, o) := os_vector l s.1 in (r, (o, s.2));
  os_fopen path s :=
    let '(ok, o) := os_fopen path s.1 in (ok, (o, if ok then <[path := []]> s.2 else s.2));
  strerror := strerror;
|}.

(** * Lines *)

Definition endl (l : text) : text := l ++ [NEWLINE].
Definition tabbed (fields : list text) : text := join TAB fields.

(** A line per bucket that is not empty. *)
Definition bucket_lines (line : Z -> Z -> text) (buckets : list Z) : list text :=
  concat (imap (fun b count => if count =? 0 then [] else [line (Z.of_nat b) count]) buckets).

Definition histogram_line (pc_offset bucket count : Z) : text :=
  tabbed [hex0x pc_offset; dec_u64 (bucket_lo bucket); dec_u64 (bucket_hi bucket); dec_u64 count].

Definition pair_line (r : rd_wpctl_pair_hist_req) (bucket count : Z) : text :=
  tabbed [hex0x (phr_seed_pc_offset r); dec_u64 (phr_seed_context_id r); hex0x (phr_reuse_pc r);
          dec_u64 (phr_reuse_context_id r); dec_u64 (bucket_lo bucket); dec_u64 (bucket_hi bucket); dec_u64 count].

Definition context_line (r : rd_wpctl_context_req) : text :=
  tabbed ([dec_u64 (cr_context_id r); dec_u64 (cr_depth r)] ++
          imap (fun i ip => if Z.of_nat i <? cr_depth r then hex0x ip else txt "0x0") (cr_ips r)).

Definition event_line (r : rd_wpctl_dwarf_event_req) : text :=
  tabbed [dec_u64 (ev_event_index r); dec_s (ev_tid r); dec_u64 (ev_target_index r); hex0x (ev_seed_pc_offset r);
          hex0x (ev_seed_pc r); hex0x (ev_reuse_pc r); dec_u64 (bucket_lo (ev_bucket r)); dec_u64 (bucket_hi (ev_bucket r));
          dec_u64 (ev_delta r); hex0x (snap_sp (ev_seed r)); hex0x (snap_sp (ev_reuse r));
          dec_u64 (snap_stack_size (ev_seed r)); dec_u64 (snap_stack_size (ev_reuse r))].

(** ** The raw event *)

(** [n] bytes of an integer, low byte first. *)
Fixpoint le_bytes (n : nat) (z : Z) : text :=
  match n with
  | O => []
  | S n' => chr (z mod 256) :: le_bytes n' (z / 256)
  end.

(** The memory of a [rd_wpctl_dwarf_snapshot]; [residue] is what its stack array
    holds behind the [stack_size] bytes that were copied. *)
Definition snapshot_bytes (residue : text) (s : rd_wpctl_dwarf_snapshot) : text :=
  concat (le_bytes 8 <$> snap_regs s) ++ le_bytes 8 (snap_sp s) ++ le_bytes 8 (snap_pc s) ++
  le_bytes 8 (snap_pstate s) ++ le_bytes 8 (snap_stack_base s) ++ le_bytes 4 (snap_stack_size s) ++
  le_bytes 4 0 ++ (chr <$> snap_stack s) ++ residue.

(** The memory of a [rd_wpctl_dwarf_event_req]. *)
Definition event_bytes (residue : rd_wpctl_dwarf_snapshot -> text) (r : rd_wpctl_dwarf_event_req) : text :=
  le_bytes 4 (ev_thread_index r) ++ le_bytes 4 (ev_event_index r) ++ le_bytes 1 (ev_used r) ++
  le_bytes 1 (ev_bucket r) ++ le_bytes 6 0 ++ le_bytes 4 (ev_tid r) ++ le_bytes 4 (ev_target_index r) ++
  le_bytes 8 (ev_seed_pc_offset r) ++ le_bytes 8 (ev_seed_pc r) ++ le_bytes 8 (ev_reuse_pc r) ++
  le_bytes 8 (ev_seed_access r) ++ le_bytes 8 (ev_hit_access r) ++ le_bytes 8 (ev_delta r) ++
  snapshot_bytes (residue (ev_seed r)) (ev_seed r) ++ snapshot_bytes (residue (ev_reuse r)) (ev_reuse r).

(** ** Replies *)

(** The request structure after the ioctl: what was copied out, or as it was
    zeroed. *)
Definition layout_of (r : reply) : rd_wpctl_layout :=
  match r with LayoutReply l => l | _ => mk_layout 0 0 0 end.
Definition stats_of (i : Z) (r : reply) : rd_wpctl_thread_stats :=
  match r with
  | StatsReply s => s
  | _ => mk_thread_stats i 0 0 0 0 0 0 0 0 0 0 0 0 0 0 0 0 0 0 0 0
  end.
Definition buckets_of (r : reply) : list Z :=
  match r with HistReply _ _ l => l | _ => replicate 64 0 end.
Definition pair_of (i j : Z) (r : reply) : rd_wpctl_pair_hist_req :=
  match r with PairReply p => p | _ => mk_pair_hist_req i j 0 0 0 0 0 (replicate 64 0) end.
Definition context_of (i j : Z) (r : reply) : rd_wpctl_context_req :=
  match r with ContextReply c => c | _ => mk_context_req i j 0 0 (replicate 8 0) end.
Definition event_of (i j : Z) (r : reply) : rd_wpctl_dwarf_event_req :=
  match r with
  | EventReply e => e
  | _ => zero_dwarf_event ⟦ ev_thread_index := i ⟧ ⟦ ev_event_index := j ⟧
  end.

Definition callchain_mode_name (mode : Z) : text :=
  if mode =? RD_CALLCHAIN_OFF then txt "off" else
  if mode =? RD_CALLCHAIN_FP then txt "fp" else
  if mode =? RD_CALLCHAIN_DWARF then txt "dwarf" else txt "unknown".

(** * The writers *)

Section writers.
Context (writable : text -> bool) (O : OsApi) (residue : rd_wpctl_dwarf_snapshot -> text).
Abbreviation FO := (filed writable O).
Abbreviation ctl := (prog profiler (@os FO)).

(** Output to the stream of [path], whether or not it succeeds. *)
Definition emit (path t : text) : ctl unit := fun s =>
  Some (Ok tt, (s.1, (s.2.1, if writable path then <[path := default [] (s.2.2 !! path) ++ t]> s.2.2 else s.2.2))).
Definition open_or_throw (path : text) : ctl unit :=
  ok <-- @call profiler (@os FO) _ (@os_fopen FO path);
  if negb ok then throw (txt "cannot open " ++ path) else ret tt.
Definition put_lines (path : text) (ls : list text) : ctl unit := emit path (concat (endl <$> ls)).

(** The prefix of the files of a thread. *)
Definition thread_path (p : profiler) (tid : Z) (suffix : text) : text :=
  pf_nameprefix p ++ txt ".rd2.t" ++ dec_s tid ++ suffix.

Definition histogram_header : text := tabbed [txt "pc_offset"; txt "bucket_lo"; txt "bucket_hi"; txt "count"].

Definition write_thread_histograms (stats : rd_wpctl_thread_stats) (thread_index : Z) : ctl unit :=
  p <-- get;
  let log := thread_path p (st_tid stats) (txt ".hist.log2.txt") in
  open_or_throw log;;
  put_lines log [histogram_header];;
  forM (imap (fun i t => (Z.of_nat i, t)) (tt_targets (pf_table p))) (fun '(target_index, t) =>
    r <-- ioctl_or_throw (txt "RDKIOC_GET_LOG2_HIST") (GET_LOG2_HIST (Some (thread_index, target_index)));
    put_lines log (bucket_lines (histogram_line (ht_pc_offset t)) (buckets_of r))).

Definition pair_header : text :=
  tabbed [txt "seed_pc_offset"; txt "seed_context_id"; txt "reuse_pc"; txt "reuse_context_id"; txt "bucket_lo";
          txt "bucket_hi"; txt "count"].

Definition write_thread_pair_histograms (stats : rd_wpctl_thread_stats) (thread_index : Z) : ctl unit :=
  p <-- get;
  let log := thread_path p (st_tid stats) (txt ".pair.hist.log2.txt") in
  open_or_throw log;;
  put_lines log [pair_header];;
  forM (seqZ 0 RD_WPCTL_MAX_PAIR_HISTS) (fun entry_index =>
    r <-- ioctl_or_throw (txt "RDKIOC_GET_PAIR_HIST_ENTRY") (GET_PAIR_HIST_ENTRY (Some (thread_index, entry_index)));
    let req := pair_of thread_index entry_index r in
    if negb (truthy (phr_used req)) then ret tt else
    put_lines log (bucket_lines (pair_line req) (phr_buckets req))).

Definition context_header : text :=
  tabbed ([txt "context_id"; txt "depth"] ++ ((fun i => txt "ip" ++ dec_u64 i) <$> seqZ 0 RD_WPCTL_MAX_CALLCHAIN_DEPTH)).

Definition write_thread_contexts (stats : rd_wpctl_thread_stats) (thread_index : Z) : ctl unit :=
  p <-- get;
  let log := thread_path p (st_tid stats) (txt ".contexts.txt") in
  open_or_throw log;;
  put_lines log [context_header];;
  forM (seqZ 1 RD_WPCTL_MAX_CONTEXTS) (fun context_id =>
    r <-- ioctl_or_throw (txt "RDKIOC_GET_CONTEXT_ENTRY") (GET_CONTEXT_ENTRY (Some (thread_index, context_id)));
    let req := context_of thread_index context_id r in
    if negb (truthy (cr_used req)) then ret tt else
    put_lines log [context_line req]).

Definition dwarf_header : text :=
  tabbed [txt "event_index"; txt "tid"; txt "target_index"; txt "seed_pc_offset"; txt "seed_pc"; txt "reuse_pc";
          txt "bucket_lo"; txt "bucket_hi"; txt "delta"; txt "seed_sp"; txt "reuse_sp"; txt "seed_stack_size";
          txt "reuse_stack_size"].

(** Both streams are opened before either is tested. *)
Definition write_thread_dwarf_events (stats : rd_wpctl_thread_stats) (thread_index : Z) : ctl unit :=
  p <-- get;
  let bin_path := thread_path p (st_tid stats) (txt ".dwarf.raw.bin") in
  let txt_path := thread_path p (st_tid stats) (txt ".dwarf.raw.txt") in
  bin_ok <-- @call profiler (@os FO) _ (@os_fopen FO bin_path);
  txt_ok <-- @call profiler (@os FO) _ (@os_fopen FO txt_path);
  if negb bin_ok then throw (txt "cannot open " ++ bin_path) else
  if negb txt_ok then throw (txt "cannot open " ++ txt_path) else
  put_lines txt_path [dwarf_header];;
  forM (seqZ 0 (st_dwarf_event_used stats)) (fun event_index =>
    r <-- ioctl_or_throw (txt "RDKIOC_GET_DWARF_EVENT") (GET_DWARF_EVENT (Some (thread_index, event_index)));
    let req := event_of thread_index event_index r in
    if negb (truthy (ev_used req)) then ret tt else
    emit bin_path (event_bytes residue req);;
    if negb (writable bin_path) then throw (txt "write failed for " ++ bin_path) else
    put_lines txt_path [event_line req]).

(** ** The information file *)

(** [name=value]. *)
Definition key (name : string) (value : text) : text := txt name ++ "="%char :: value.

Definition module_map_line (e : module_map_entry) : text :=
  key "module_map" (tabbed [dec_u64 (mm_module_id e); mm_path e; hex0x (mm_vm_start e); hex0x (mm_vm_end e);
                            hex0x (mm_file_offset e)]).
Definition target_line (i : nat) (t : hot_target) : text :=
  key "target" (tabbed [dec_u64 (Z.of_nat i); hex0x (ht_pc_offset t); hex0x (ht_abs_pc t);
                        dec_u64 (ht_aggregated_samples t); ht_mnemonic t; ht_operands t]).
Definition rejected_line (t : rejected_target) : text :=
  key "rejected_target" (tabbed [hex0x (rj_pc_offset t); dec_u64 (rj_aggregated_samples t); rj_reason t]).
Definition thread_line (s : rd_wpctl_thread_stats) : text :=
  key "thread" (tabbed (dec_s (st_tid s) :: dec_s (st_cpu s) :: (dec_u64 <$>
    [st_candidate_samples s; st_reservoir_seen s; st_reservoir_accepted s; st_reservoir_rejected s; st_hits s;
     st_evictions s; st_dropped s; st_pair_hist_used s; st_pair_hist_dropped s; st_context_used s;
     st_context_dropped s; st_callchain_failed s; st_callchain_truncated s; st_dwarf_event_used s;
     st_dwarf_event_dropped s; st_dwarf_stack_copy_failed s; st_dwarf_stack_bytes s]))).

Definition instruction_support : text :=
  txt "aarch64 objdump-parsed ldr/str/ldur/stur with [base], [base,#imm], [base,index{,extend #shift}]".

(** The lines before the threads; [maps] is the content of [/proc/self/maps]. *)
Definition info_lines (realpath : text -> option text) (maps : option text) (p : profiler) : list text :=
  let c := pf_config p in
  let dwarf := cf_callchain_mode c =? RD_CALLCHAIN_DWARF in
  let modules := snapshot_runtime_module_maps realpath maps in
  let table := pf_table p in
  [key "mode" (txt "targeted_rd"); key "targeted_rd_backend" (txt "kernel_module");
   key "targeted_rd_seed_source" (txt "execute_breakpoint");
   key "targeted_rd_rd_source" (txt "kernel_perf_event_read_value"); key "targeted_rd_binary_patch" (txt "0");
   key "hist_format" (txt "log2_only"); key "pair_hist_present" (txt "1");
   key "pair_hist_key" (txt "seed_pc_offset,seed_context_id,reuse_pc,reuse_context_id");
   key "pair_hist_reuse_pc_identity" (txt "raw_va"); key "pair_hist_capacity" (dec_u64 RD_WPCTL_MAX_PAIR_HISTS);
   key "callchain_present" (txt (if cf_callchain_mode c =? RD_CALLCHAIN_OFF then "0" else "1"));
   key "callchain_mode" (callchain_mode_name (cf_callchain_mode c));
   key "callchain_max_depth" (dec_u64 RD_WPCTL_MAX_CALLCHAIN_DEPTH);
   key "context_capacity" (dec_u64 RD_WPCTL_MAX_CONTEXTS)] ++
  (if dwarf then
     [key "dwarf_unwind_present" (txt "1"); key "dwarf_stack_bytes" (dec_u64 (cf_dwarf_stack_bytes c));
      key "dwarf_event_capacity" (dec_u64 (cf_dwarf_event_capacity c))] else []) ++
  [key "window_mode" (txt (if pf_explicit_window_seen p then "explicit" else "auto_fallback"))] ++
  (if pf_auto_window_discarded p then [key "auto_window_discarded_on_first_explicit" (txt "1")] else []) ++
  [key "target_file" (cf_target_file c); key "main_binary" (pf_main_binary_path p);
   key "pc_identity" (txt "raw_va"); key "module_map_version" (txt "1");
   key "module_map_scope" (txt "targeted_rd_current_run");
   key "module_map_fields" (txt "module_id,path,vm_start,vm_end,file_offset");
   key "module_map_count" (dec_u64 (zlen modules))] ++
  (module_map_line <$> modules) ++
  [key "instruction_support" instruction_support; key "rd_event" (txt "mem_access");
   key "candidate_source" (txt "sparse_execute_breakpoint_samples");
   key "breakpoint_sample_period" (dec_u64 (cf_bp_sample_period c)); key "bp_capacity" (dec_u64 (cf_bp_capacity c));
   key "reservoir_capacity" (dec_u64 (cf_watchpoint_capacity c));
   key "watchpoint_count" (dec_u64 (cf_watchpoint_capacity c));
   key "target_filter_policy" (txt "drop_unsupported_hotspots");
   key "requested_target_count" (dec_u64 (tt_candidate_target_count table));
   key "candidate_target_count" (dec_u64 (tt_candidate_target_count table));
   key "capacity_truncated_target_count" (dec_u64 (tt_capacity_truncated_target_count table));
   key "rejected_target_count" (dec_u64 (zlen (tt_rejected_targets table)));
   key "cpu_binding" (txt "exclusive_process_local"); key "target_count" (dec_u64 (zlen (tt_targets table)))] ++
  imap target_line (tt_targets table) ++ (rejected_line <$> tt_rejected_targets table).

(** The thirteen totals, in the order they are printed. *)
Definition total_names : list string :=
  ["seed_samples"; "watchpoint_hits"; "evicted_pending_samples"; "dropped_pending_samples"; "pair_hist_used";
   "pair_hist_dropped"; "context_used"; "context_dropped"; "callchain_failed"; "callchain_truncated";
   "dwarf_event_used"; "dwarf_event_dropped"; "dwarf_stack_copy_failed"]%string.
Definition thread_totals (s : rd_wpctl_thread_stats) : list Z :=
  [st_reservoir_accepted s; st_hits s; st_evictions s; st_dropped s; st_pair_hist_used s; st_pair_hist_dropped s;
   st_context_used s; st_context_dropped s; st_callchain_failed s; st_callchain_truncated s; st_dwarf_event_used s;
   st_dwarf_event_dropped s; st_dwarf_stack_copy_failed s].
Definition add_totals (totals : list Z) (s : rd_wpctl_thread_stats) : list Z :=
  zip_with (fun a b => u64 (a + b)) totals (thread_totals s).
Definition total_lines (totals : list Z) : list text :=
  zip_with (fun n v => key n (dec_u64 v)) total_names totals.

Definition info_path (p : profiler) : text := pf_nameprefix p ++ txt ".rd2.info".

(** One thread: its line in the information file, then its own files. *)
Definition write_thread (i : Z) : ctl rd_wpctl_thread_stats :=
  p <-- get;
  r <-- ioctl_or_throw (txt "RDKIOC_GET_THREAD_STATS") (GET_THREAD_STATS (Some i));
  let stats := stats_of i r in
  put_lines (info_path p) [thread_line stats];;
  write_thread_histograms stats i;;
  write_thread_pair_histograms stats i;;
  (if cf_callchain_mode (pf_config p) =? RD_CALLCHAIN_FP then write_thread_contexts stats i else ret tt);;
  (if cf_callchain_mode (pf_config p) =? RD_CALLCHAIN_DWARF then write_thread_dwarf_events stats i else ret tt);;
  ret stats.

Fixpoint write_threads (ix : list Z) (totals : list Z) : ctl (list Z) :=
  match ix with
  | [] => ret totals
  | i :: more => stats <-- write_thread i; write_threads more (add_totals totals stats)
  end.

Definition write_info (realpath : text -> option text) (maps : option text) : ctl unit :=
  p <-- get;
  r <-- ioctl_or_throw (txt "RDKIOC_GET_LAYOUT") GET_LAYOUT;
  let layout := layout_of r in
  put_lines (info_path p) (info_lines realpath maps p);;
  put_lines (info_path p) [key "thread_count" (dec_u64 (layout_thread_count layout))];;
  totals <-- write_threads (seqZ 0 (layout_thread_count layout)) (replicate 13 0);
  put_lines (info_path p) (total_lines totals).

(** ** The destructor *)

Definition unregister_all : ctl unit :=
  p <-- get;
  forM (map_to_list (pf_threads p)).*1 (fun tid =>
    p <-- get;
    match pf_threads p !! tid with
    | Some b => if tb_active b then unregister_thread_locked tid else ret tt
    | None => ret tt
    end).

(** The value is the warning the destructor prints. *)
Definition destroy (realpath : text -> option text) (maps : option text) : ctl (option text) :=
  warning <-- try_catch (
    p <-- get;
    (if pf_window_open p then stop_window_locked else ret tt);;
    unregister_all;;
    write_info realpath maps);
  p <-- get;
  (if 0 <=? pf_device_fd p then @call profiler (@os FO) _ (fun o => (tt, @os_close FO (pf_device_fd p) o)) else ret tt);;
  ret warning.

End writers.

End ResultFiles.
