(* ===== verification/RawEvents.v ===== *)
(** The binary event file of DWARF mode: [write_thread_dwarf_events] writes the
    memory of each [rd_wpctl_dwarf_event_req]; the post-processor reads the file
    as an array of little-endian structures ([DwarfEvent] and [Snapshot] of
    [postproc/resolve_dwarf_pairs.py]).  The reader here has that layout; the
    theorem is the round trip of a whole file. *)
From S2P Require Import Prelude Uapi KernelApi KTypes Session CText Effects TargetedCtl ResultFiles.
Import ResultFiles.

Module RawEvents.

(** * Readers *)

Definition reader (A : Type) : Type := text -> option (A * text).
Definition rret {A} (a : A) : reader A := fun s => Some (a, s).
Definition rthen {A B} (r : reader A) (f : A -> reader B) : reader B := fun s => '(a, s') ← r s; f a s'.
Notation "x <-- r ; k" := (rthen r (fun x => k)) (at level 100, r at level 90, k at level 200, right associativity).

(** [r] consumes exactly [bytes] and returns [a]. *)
Definition reads {A} (r : reader A) (bytes : text) (a : A) : Prop := forall rest, r (bytes ++ rest) = Some (a, rest).

Lemma reads_ret {A} (a : A) : reads (rret a) [] a.
Proof. done. Qed.

Lemma reads_then {A B} (r : reader A) (f : A -> reader B) b1 b2 a b :
  reads r b1 a -> reads (f a) b2 b -> reads (rthen r f) (b1 ++ b2) b.
Proof. intros H1 H2 rest; unfold rthen; rewrite <- app_assoc, H1, some_bind; apply H2. Qed.

(** An unsigned field of [n] bytes. *)
Fixpoint uint (n : nat) : reader Z := fun s =>
  match n, s with
  | O, _ => Some (0, s)
  | S n', c :: s' => '(v, s'') ← uint n' s'; Some (code c + 256 * v, s'')
  | S _, [] => None
  end.
Definition sint32 : reader Z := v <-- uint 4; rret (s32 v).
(** [n] raw bytes. *)
Definition raw (n : nat) : reader text := fun s => if (n <=? length s)%nat then Some (take n s, drop n s) else None.
Fixpoint array {A} (n : nat) (r : reader A) : reader (list A) :=
  match n with
  | O => rret []
  | S n' => x <-- r; l <-- array n' r; rret (x :: l)
  end.

Lemma code_chr z : 0 <= z < 256 -> code (chr z) = z.
Proof. intros Hz; unfold code, chr; rewrite N_ascii_embedding by lia; lia. Qed.

Lemma reads_uint n : forall z, 0 <= z < 256 ^ Z.of_nat n -> reads (uint n) (le_bytes n z) z.
Proof.
  induction n as [|n IH]; intros z Hz rest; [cbn in *; do 2 f_equal; lia|]; cbn [le_bytes app uint].
  rewrite IH, some_bind by (rewrite Nat2Z.inj_succ, Z.pow_succ_r in Hz by lia; split; [apply Z.div_pos; lia|];
    apply Z.div_lt_upper_bound; lia).
  rewrite code_chr by (apply Z.mod_pos_bound; lia); do 2 f_equal; pose proof (Z.div_mod z 256); lia.
Qed.

Lemma le_bytes_mod n : forall z, le_bytes n z = le_bytes n (z mod 256 ^ Z.of_nat n).
Proof.
  induction n as [|n IH]; intros z; [done|]; cbn [le_bytes].
  rewrite Nat2Z.inj_succ, Z.pow_succ_r by lia; set (m := 256 ^ Z.of_nat n); assert (0 < m) by (apply Z.pow_pos_nonneg; lia).
  rewrite Z.rem_mul_r by lia; f_equal.
  - f_equal; rewrite (Z.mul_comm 256), Z.mod_add by lia; by rewrite Z.mod_mod by lia.
  - pose proof (Z.mod_pos_bound z 256); rewrite (Z.mul_comm 256), Z.div_add, (Z.div_small (z mod 256)) by lia; apply IH.
Qed.

Lemma reads_sint32 z : -2147483648 <= z < 2147483648 -> reads sint32 (le_bytes 4 z) z.
Proof.
  intros Hz; rewrite le_bytes_mod, <- (app_nil_r (le_bytes 4 _)); eapply reads_then.
  - apply reads_uint; apply Z.mod_pos_bound; lia.
  - intros rest; unfold rret; do 2 f_equal; unfold s32; change (256 ^ Z.of_nat 4) with 4294967296.
    unfold u32; rewrite Z.mod_mod by lia; split_if; pose proof (Z.mod_pos_bound z 4294967296); pose proof (Z.div_mod z 4294967296).
    all: destruct (decide (0 <= z)); [rewrite Z.mod_small in * by lia; lia|].
    all: assert (z / 4294967296 = -1) by (symmetry; apply (Z.div_unique_pos _ _ _ (z + 4294967296)); lia); lia.
Qed.

Lemma reads_raw s : reads (raw (length s)) s s.
Proof.
  intros rest; unfold raw; rewrite (proj2 (Nat.leb_le _ _)) by (rewrite length_app; lia).
  by rewrite take_app_length, drop_app_length.
Qed.

Lemma reads_array {A} (r : reader A) (enc : A -> text) l :
  Forall (fun a => reads r (enc a) a) l -> reads (array (length l) r) (concat (enc <$> l)) l.
Proof.
  induction 1 as [|a l Ha _ IH]; [apply reads_ret|]; cbn [length array fmap list_fmap concat].
  eapply reads_then; [exact Ha|]; rewrite <- (app_nil_r (concat _)); eapply reads_then; [exact IH|apply reads_ret].
Qed.

(** * The structures *)

(** [Snapshot]: of the stack array only the first [stack_size] bytes count. *)
Definition read_snapshot : reader rd_wpctl_dwarf_snapshot :=
  regs <-- array 31 (uint 8); sp <-- uint 8; pc <-- uint 8; pstate <-- uint 8; stack_base <-- uint 8;
  stack_size <-- uint 4; _ <-- uint 4; stack <-- raw (Z.to_nat RD_WPCTL_MAX_DWARF_STACK_BYTES);
  rret (mk_dwarf_snapshot regs sp pc pstate stack_base stack_size (code <$> take (Z.to_nat stack_size) stack)).

Definition read_event : reader rd_wpctl_dwarf_event_req :=
  thread_index <-- uint 4; event_index <-- uint 4; used <-- uint 1; bucket <-- uint 1; _ <-- uint 6;
  tid <-- sint32; target_index <-- uint 4; seed_pc_offset <-- uint 8; seed_pc <-- uint 8; reuse_pc <-- uint 8;
  seed_access <-- uint 8; hit_access <-- uint 8; delta <-- uint 8; seed <-- read_snapshot; reuse <-- read_snapshot;
  rret (mk_dwarf_event_req thread_index event_index used bucket tid target_index seed_pc_offset seed_pc reuse_pc
          seed_access hit_access delta seed reuse).

(** Events up to the end of the file; a file of [n] bytes has fewer than [n]. *)
Fixpoint read_events (fuel : nat) (s : text) : option (list rd_wpctl_dwarf_event_req) :=
  match fuel, s with
  | _, [] => Some []
  | O, _ => None
  | S f, _ => '(e, s') ← read_event s; l ← read_events f s'; Some (e :: l)
  end.
Definition read_event_file (s : text) : option (list rd_wpctl_dwarf_event_req) := read_events (length s) s.

(** The widths of the C members. *)
Definition snapshot_wf (s : rd_wpctl_dwarf_snapshot) : Prop :=
  length (snap_regs s) = 31%nat /\ Forall (fun x => is_u64 x) (snap_regs s) /\ is_u64 (snap_sp s) /\ is_u64 (snap_pc s) /\
  is_u64 (snap_pstate s) /\ is_u64 (snap_stack_base s) /\ snap_stack_size s = zlen (snap_stack s) /\
  snap_stack_size s <= RD_WPCTL_MAX_DWARF_STACK_BYTES /\ Forall (fun b => 0 <= b < 256) (snap_stack s).
Definition event_wf (e : rd_wpctl_dwarf_event_req) : Prop :=
  is_u32 (ev_thread_index e) /\ is_u32 (ev_event_index e) /\ 0 <= ev_used e < 256 /\ 0 <= ev_bucket e < 256 /\
  -2147483648 <= ev_tid e < 2147483648 /\ is_u32 (ev_target_index e) /\ is_u64 (ev_seed_pc_offset e) /\
  is_u64 (ev_seed_pc e) /\ is_u64 (ev_reuse_pc e) /\ is_u64 (ev_seed_access e) /\ is_u64 (ev_hit_access e) /\
  is_u64 (ev_delta e) /\ snapshot_wf (ev_seed e) /\ snapshot_wf (ev_reuse e).

(** The stack array is full with its residue. *)
Definition residue_fills (residue : rd_wpctl_dwarf_snapshot -> text) : Prop :=
  forall s, snapshot_wf s -> zlen (residue s) = RD_WPCTL_MAX_DWARF_STACK_BYTES - zlen (snap_stack s).

Lemma decode_stack l : Forall (fun b => 0 <= b < 256) l -> code <$> (chr <$> l) = l.
Proof. induction 1 as [|b l Hb _ IH]; [done|]; cbn; by rewrite code_chr, IH. Qed.

Lemma reads_snapshot residue s :
  residue_fills residue -> snapshot_wf s -> reads read_snapshot (snapshot_bytes (residue s) s) s.
Proof.
  intros Hr Hwf; pose proof (Hr s Hwf) as Hlen; destruct Hwf as (W1 & W2 & W3 & W4 & W5 & W6 & W7 & W8 & W9).
  unfold read_snapshot, snapshot_bytes; eapply reads_then.
  { rewrite <- W1; apply reads_array; eapply Forall_impl; [exact W2|]; intros x Hx; by apply reads_uint. }
  do 6 (eapply reads_then; [apply reads_uint; try (unfold RD_WPCTL_MAX_DWARF_STACK_BYTES in *; lia); done|]).
  rewrite <- (app_nil_r (_ ++ residue s)); eapply reads_then.
  - assert (E : Z.to_nat RD_WPCTL_MAX_DWARF_STACK_BYTES = length ((chr <$> snap_stack s) ++ residue s)).
    { rewrite length_app, length_fmap; unfold RD_WPCTL_MAX_DWARF_STACK_BYTES in *; lia. }
    rewrite E; apply reads_raw.
  - intros rest; unfold rret; do 2 f_equal; rewrite W7, Nat2Z.id, take_app_le, <- (length_fmap chr), firstn_all by (rewrite length_fmap; lia).
    rewrite decode_stack by done.
    rewrite length_fmap, <- W7; by destruct s.
Qed.

Lemma reads_event residue e :
  residue_fills residue -> event_wf e -> reads read_event (event_bytes residue e) e.
Proof.
  intros Hr (W1 & W2 & W3 & W4 & W5 & W6 & W7 & W8 & W9 & W10 & W11 & W12 & W13 & W14); unfold read_event, event_bytes.
  do 5 (eapply reads_then; [apply reads_uint; try done; lia|]); eapply reads_then; [by apply reads_sint32|].
  do 7 (eapply reads_then; [by apply reads_uint|]); eapply reads_then; [by apply reads_snapshot|].
  rewrite <- (app_nil_r (snapshot_bytes _ (ev_reuse e))); eapply reads_then; [by apply reads_snapshot|].
  destruct e; apply reads_ret.
Qed.

Lemma event_bytes_nonempty residue e : event_bytes residue e <> [].
Proof. done. Qed.

Lemma read_events_ok residue evs : residue_fills residue -> Forall event_wf evs -> forall fuel,
  (length evs <= fuel)%nat -> read_events fuel (concat (event_bytes residue <$> evs)) = Some evs.
Proof.
  intros Hr; induction 1 as [|e evs He _ IH]; intros fuel Hf; [by destruct fuel|].
  cbn [length] in Hf; destruct fuel as [|fuel]; [lia|]; cbn [fmap list_fmap concat].
  assert (Hev : read_event (event_bytes residue e ++ concat (event_bytes residue <$> evs)) =
    Some (e, concat (event_bytes residue <$> evs))) by (by apply reads_event).
  pose proof (event_bytes_nonempty residue e) as Hne; destruct (event_bytes residue e) as [|c r]; [done|].
  cbn [app read_events] in *; by rewrite Hev, some_bind, IH by lia.
Qed.

Lemma events_shorter residue (evs : list rd_wpctl_dwarf_event_req) :
  (length evs <= length (concat (event_bytes residue <$> evs)))%nat.
Proof.
  induction evs as [|e evs IH]; [done|]; cbn [fmap list_fmap concat length]; rewrite length_app.
  pose proof (event_bytes_nonempty residue e); destruct (event_bytes residue e); [done|]; cbn [length]; lia.
Qed.

(** C37. The binary event file is an array of event structures: read back with the
    layout of the post-processor it gives exactly the events that were written,
    in order, registers and copied stack bytes included, whatever the rest of the
    stack arrays holds. *)
Theorem event_file_roundtrip (residue : rd_wpctl_dwarf_snapshot -> text) (evs : list rd_wpctl_dwarf_event_req)
    (Hr : residue_fills residue) (Hwf : Forall event_wf evs) :
  read_event_file (concat (event_bytes residue <$> evs)) = Some evs.
Proof. apply read_events_ok; [done|done|apply events_shorter]. Qed.

(** An event whose seed has three bytes of stack. *)
Definition demo_snapshot : rd_wpctl_dwarf_snapshot :=
  mk_dwarf_snapshot (seqZ 0 31) 281470681743360 4660 0 281470681743360 3 [1; 255; 16].
Definition demo_event : rd_wpctl_dwarf_event_req :=
  mk_dwarf_event_req 0 0 1 5 100 0 4660 187650000000564 187650000000600 1000 1020 20 demo_snapshot zero_snapshot.
Definition demo_residue (s : rd_wpctl_dwarf_snapshot) : text := replicate (Z.to_nat (RD_WPCTL_MAX_DWARF_STACK_BYTES - zlen (snap_stack s))) NUL.

Lemma event_file_roundtrip_witness :
  read_event_file (concat (event_bytes demo_residue <$> [demo_event; demo_event])) = Some [demo_event; demo_event].
Proof.
  apply event_file_roundtrip.
  - intros s (_ & _ & _ & _ & _ & _ & H & H' & _); unfold demo_residue, RD_WPCTL_MAX_DWARF_STACK_BYTES in *.
    rewrite length_replicate; lia.
  - assert (H : event_wf demo_event) by (apply (bool_decide_unpack _); vm_compute; exact I).
    constructor; [exact H|constructor; [exact H|constructor]].
Defined.

End RawEvents.
