(* ===== verification/ResultText.v ===== *)
(** The histogram file of a thread as text: a reader of its format, and the round
    trip through what [write_thread_histograms] prints. *)
From S2P Require Import Prelude Uapi Buckets EffAddr KernelApi KTypes Session CText AsmDecode Manifest Effects TargetedCtl ResultFiles.
Import Buckets AsmDecode Manifest ResultFiles.

Module ResultText.

(** * The histogram file as text *)

(** A line: the offset, the interval of the bucket and its count. *)
Definition hist_row : Type := Z * Z * Z * Z.
Definition row_count (r : hist_row) : Z := r.2.
Definition row_ok (r : hist_row) : Prop :=
  let '(pc, lo, hi, n) := r in is_u64 pc /\ is_u64 lo /\ is_u64 hi /\ is_u64 n.

(** A reader of the file format. *)
Definition read_row (line : text) : option hist_row :=
  match split_tab line with
  | [pc; lo; hi; n] => Some (strtoull 0 pc, strtoull 10 lo, strtoull 10 hi, strtoull 10 n)
  | _ => None
  end.
Definition read_histogram (content : text) : option (list hist_row) :=
  match getlines NEWLINE content with
  | header :: lines => if bool_decide (header = histogram_header) then mapM read_row lines else None
  | [] => None
  end.

Definition row_line (r : hist_row) : text :=
  let '(pc, lo, hi, n) := r in tabbed [hex0x pc; dec_u64 lo; dec_u64 hi; dec_u64 n].

(** The rows of one target: its buckets that are not empty. *)
Definition bucket_rows (pc : Z) (buckets : list Z) : list hist_row :=
  concat (imap (fun b n => if n =? 0 then [] else [(pc, bucket_lo (Z.of_nat b), bucket_hi (Z.of_nat b), n)]) buckets).

Lemma concat_imap_fmap {A B C} (f : B -> C) (g : nat -> A -> list B) l :
  concat (imap (fun i x => f <$> g i x) l) = f <$> concat (imap g l).
Proof.
  revert g; induction l as [|x l IH]; intros g; [done|]; rewrite !imap_cons; cbn [concat].
  rewrite fmap_app; f_equal; apply (IH (fun i => g (S i))).
Qed.

Lemma bucket_lines_rows pc buckets :
  bucket_lines (histogram_line pc) buckets = row_line <$> bucket_rows pc buckets.
Proof.
  unfold bucket_lines, bucket_rows; rewrite <- concat_imap_fmap; f_equal; apply imap_ext.
  intros i n _; by destruct (n =? 0).
Qed.

Lemma bucket_rows_sum pc buckets : sumZ (row_count <$> bucket_rows pc buckets) = sumZ buckets.
Proof.
  unfold bucket_rows; rewrite <- concat_imap_fmap.
  assert (H : forall k, sumZ (concat (imap (fun i n => row_count <$> (if n =? 0 then [] else
    [(pc, bucket_lo (Z.of_nat (k + i)), bucket_hi (Z.of_nat (k + i)), n)])) buckets)) = sumZ buckets).
  { induction buckets as [|n l IH]; intros k; [done|]; rewrite imap_cons; cbn [concat].
    rewrite sumZ_app, sumZ_cons; f_equal.
    - destruct (n =? 0) eqn:E; unfold sumZ, row_count; cbn; lia.
    - rewrite <- (IH (S k)); do 2 f_equal; apply imap_ext; intros i x _; cbn.
      destruct (x =? 0); [done|]; cbn; do 3 f_equal; f_equal; lia. }
  apply (H 0%nat).
Qed.

Lemma bucket_bounds b : is_u64 (bucket_lo b) /\ is_u64 (bucket_hi b).
Proof. unfold bucket_lo, bucket_hi, U64_MAX; repeat split_if; split; try lia; apply u64_range. Qed.

Lemma bucket_rows_ok pc buckets :
  is_u64 pc -> Forall (fun x => is_u64 x) buckets -> Forall row_ok (bucket_rows pc buckets).
Proof.
  intros Hpc Hb; apply Forall_concat, Forall_lookup; intros i l Hl.
  apply list_lookup_imap_Some in Hl as (n & Hn & ->); rewrite Forall_lookup in Hb; pose proof (Hb _ _ Hn).
  destruct (n =? 0); constructor; [|constructor]; destruct (bucket_bounds (Z.of_nat i)); split_and!; try done; lia.
Qed.

Lemma row_line_reads r : row_ok r -> free_of NEWLINE (row_line r) /\ read_row (row_line r) = Some r.
Proof.
  destruct r as [[[pc lo] hi] n]; intros (H1 & H2 & H3 & H4).
  assert (Hp : Forall (Forall plain) [hex0x pc; dec_u64 lo; dec_u64 hi; dec_u64 n]).
  { rewrite !Forall_cons; split_and!; try (apply dec_plain; lia); [|constructor].
    apply Forall_app; split; [repeat constructor|apply hex_plain; lia]. }
  split.
  - change (free_of NEWLINE (hex0x pc ++ TAB :: dec_u64 lo ++ TAB :: dec_u64 hi ++ TAB :: dec_u64 n)).
    rewrite !Forall_cons in Hp; destruct Hp as (P1 & P2 & P3 & P4 & _); apply plain_free in P1, P2, P3, P4.
    repeat (apply free_of_app; split; [tauto|]; constructor; [done|]); tauto.
  - unfold read_row, row_line, tabbed, split_tab; rewrite getlines_join.
    + by rewrite strtoull_hex0x, !strtoull_dec.
    + eapply Forall_impl; [exact Hp|]; intros f Hf; by apply plain_free.
    + cbn; apply print_u_nonempty; lia.
Qed.

Lemma histogram_reads rows :
  Forall row_ok rows ->
  read_histogram (concat (endl <$> histogram_header :: (row_line <$> rows))) = Some rows.
Proof.
  intros Hr; unfold read_histogram; rewrite (getlines_concat NEWLINE).
  - rewrite bool_decide_eq_true_2 by done; apply mapM_Some_2, Forall2_fmap_l, Forall_Forall2_diag.
    eapply Forall_impl; [exact Hr|]; intros r Hok; by apply row_line_reads.
  - constructor; [vm_compute; repeat constructor|]; apply Forall_fmap; eapply Forall_impl; [exact Hr|].
    intros r Hok; by apply row_line_reads.
Qed.

End ResultText.
