(* ===== verification/ResultKernel.v ===== *)
(** The controller with its files on top of the kernel module: the extended
    system implements the interface of [CtlInv.v], and in every reachable state
    the session holds the targets and the mode that the controller loaded. *)
From S2P Require Import Prelude Uapi Buckets EffAddr KernelApi KTypes Tables Callchain Handlers Sampling HitSpec.
From S2P Require Import Lifecycle Session SessionInv RdModule CText AsmDecode Objdump ProcMaps LoadTargets.
From S2P Require Import Effects TargetedCtl CtlInv CtlKernel ResultFiles.
Import EffAddr AsmDecode Objdump ProcMaps LoadTargets TargetedCtl CtlInv ResultFiles.

(** * Files do not concern the device *)

#[export] Instance filed_device (writable : text -> bool) (O : OsApi) (D : RdDevice O) : RdDevice (filed writable O).
Proof.
  refine {| os_valid := fun s : @os (filed writable O) => os_valid s.1;
            dv_ok := fun fd (s : @os (filed writable O)) => dv_ok fd s.1;
            dv_running := fun fd (s : @os (filed writable O)) => dv_running fd s.1;
            dv_active := fun fd (s : @os (filed writable O)) => dv_active fd s.1;
            dv_mapped := fun s : @os (filed writable O) => dv_mapped s.1;
            dv_step := fun fd (s s' : @os (filed writable O)) => dv_step fd s.1 s'.1 /\ s'.2 = s.2 |}.
  - intros fd [o fs] [o' fs'] Hok [Hs _]; by apply (dv_step_keeps fd o o').
  - intros fd cmd [o fs] Hok Hc; destruct (dv_ioctl fd cmd o Hok Hc) as (ret & rep & o' & E & H).
    exists ret, rep, (o', fs); cbn; rewrite E; done.
  - intros fd tid cpu [o fs] Hok; pose proof (dv_affinity fd tid cpu o Hok) as H; cbn.
    by destruct (os_setaffinity tid cpu o).
  - intros fd bytes [o fs] Hok; pose proof (dv_mmap fd bytes o Hok) as H; cbn in *.
    by destruct (os_mmap bytes o) as [[base|] o'].
  - intros fd base bytes [o fs] Hok; exact (dv_munmap fd base bytes o Hok).
  - intros path [o fs] Hv; pose proof (os_fopen_valid path o Hv) as H; cbn; by destruct (os_fopen path o).
  - intros [o fs] Hv; pose proof (dv_open o Hv) as H; cbn; by destruct (os_open o).
  - intros fd cfg [o fs] Hok Hc; destruct (dv_config fd cfg o Hok Hc) as (ret & rep & o' & E & H).
    exists ret, rep, (o', fs); cbn; rewrite E; done.
  - intros fd l [o fs] Hok Hl Ht; pose proof (dv_load fd l o Hok Hl Ht) as H; cbn in *.
    destruct (os_vector l o) as [ptr o1]; destruct H as (ret & rep & o' & E & H).
    exists ret, rep, (o', fs); cbn; rewrite E; done.
Defined.

Module ResultKernel.

(** * What no operation changes *)

Section stable.
Context `{K : KernelApi} {KL : KernelLaws K} {KV : KernelValues K} {U : UserApi K} {UL : UserLaws KL U}.
Context (other_events : gset Z) (other_refs : Z -> Z) (tgid : Z) (writable : text -> bool).
Abbreviation FK := (filed writable (kernel_os tgid)).
Abbreviation ctl := (prog profiler (@os FK)).
Abbreviation k_ok := (CtlKernel.k_ok other_events other_refs).
Abbreviation state := (profiler * @os FK)%type.

Definition module_of (s : state) : kmod := fst (fst (snd s)).

#[local] Instance session_le_trans : Transitive session_le.
Proof.
  intros a b c (H1 & H2 & H3) (G1 & G2 & G3); split; [congruence|]; split.
  - intros Hc; destruct (H2 Hc) as [Hb E]; destruct (G2 Hb) as [? E']; split; [done|congruence].
  - intros Hl; destruct (H3 Hl) as (Hb & E & E2); destruct (G3 Hb) as (? & E' & E2'); split_and!; congruence.
Qed.

(** The members that are fixed by the construction, and a session that is only
    completed. *)
Record evolves (s s' : state) : Prop := {
  ev_fd : pf_device_fd s'.1 = pf_device_fd s.1;
  ev_table : pf_table s'.1 = pf_table s.1;
  ev_config : pf_config s'.1 = pf_config s.1;
  ev_name : pf_nameprefix s'.1 = pf_nameprefix s.1;
  ev_ok : k_ok (pf_device_fd s.1) s'.2.1;
  ev_session ses : km_sessions (module_of s) !! pf_device_fd s.1 = Some ses ->
    exists ses', km_sessions (module_of s') !! pf_device_fd s.1 = Some ses' /\ session_le ses ses';
}.

Lemma evolves_refl s : k_ok (pf_device_fd s.1) s.2.1 -> evolves s s.
Proof. intros H; split; try done; intros ses Hs; exists ses; split; [done|reflexivity]. Qed.

Lemma evolves_ok s s' : evolves s s' -> k_ok (pf_device_fd s'.1) s'.2.1.
Proof. intros [E _ _ _ H _]; by rewrite E. Qed.

Lemma evolves_trans s1 s2 s3 : evolves s1 s2 -> evolves s2 s3 -> evolves s1 s3.
Proof.
  intros [A1 A2 A3 A4 A5 A6] [B1 B2 B3 B4 B5 B6]; rewrite A1 in *; split; try congruence.
  intros ses Hs; destruct (A6 ses Hs) as (ses2 & H2 & L2); destruct (B6 ses2 H2) as (ses3 & H3 & L3).
  exists ses3; split; [done|by transitivity ses2].
Qed.

Definition stable {A} (m : ctl A) : Prop :=
  forall s r s', k_ok (pf_device_fd s.1) s.2.1 -> m s = Some (r, s') -> evolves s s'.

Lemma stable_pure {A} (m : ctl A) : (forall s, exists r, m s = Some (r, s)) -> stable m.
Proof. intros H s r s' Hok E; destruct (H s) as (r' & E'); assert (s' = s) as -> by congruence; by apply evolves_refl. Qed.

Lemma stable_ret {A} (a : A) : stable (ret a).
Proof. apply stable_pure; intros s; by eexists. Qed.
Lemma stable_throw {A} e : stable (A := A) (throw e).
Proof. apply stable_pure; intros s; by eexists. Qed.
Lemma stable_get : stable get.
Proof. apply stable_pure; intros s; by eexists. Qed.
Lemma stable_lift {A} (r : result A) : stable (lift r).
Proof. apply stable_pure; intros s; by eexists. Qed.
Lemma stable_crash {A} (r : option A) : stable (crash_if_none r).
Proof.
  intros s r' s' Hok E; unfold crash_if_none in E; apply bind_Some in E as (a & _ & [= _ <-]).
  by apply evolves_refl.
Qed.
Lemma stable_bind {A B} (m : ctl A) (f : A -> ctl B) : stable m -> (forall a, stable (f a)) -> stable (bind m f).
Proof.
  intros Hm Hf s r s' Hok E; unfold bind in E; destruct (m s) as [[[a|e] s1]|] eqn:E1; [|by simplify_eq; eauto|done].
  pose proof (Hm s _ s1 Hok E1) as H1; eapply evolves_trans; [exact H1|]; eapply Hf; [exact (evolves_ok _ _ H1)|exact E].
Qed.
Lemma stable_try (m : ctl unit) : stable m -> stable (try_catch m).
Proof. intros Hm s r s' Hok ([r1 s1] & E & [= _ <-])%bind_Some; by eapply Hm. Qed.
Lemma stable_modify f :
  (forall p, pf_device_fd (f p) = pf_device_fd p /\ pf_table (f p) = pf_table p /\
             pf_config (f p) = pf_config p /\ pf_nameprefix (f p) = pf_nameprefix p) ->
  stable (modify f).
Proof.
  intros H s r s' Hok [= _ <-]; destruct (H s.1) as (? & ? & ? & ?); split; try done.
  intros ses Hs; exists ses; split; [done|reflexivity].
Qed.
Lemma stable_forM {A} (l : list A) (f : A -> ctl unit) : (forall a, stable (f a)) -> stable (forM l f).
Proof. intros Hf; induction l as [|a l IH]; [apply stable_ret|]; apply stable_bind; [done|]; intros _; exact IH. Qed.

(** A system call that leaves the sessions and the invariant of the module. *)
Lemma stable_call {A} (f : @os FK -> A * @os FK) :
  (forall fd o, k_ok fd o.1 -> k_ok fd (f o).2.1 /\ km_sessions (fst (fst (f o).2)) = km_sessions (fst (fst o))) ->
  stable (call f).
Proof.
  intros Hf [p o] r s' Hok E; unfold call in E; cbn [fst snd] in *; destruct (Hf _ o Hok) as [H1 H2].
  destruct (f o) as [a o']; injection E as _ <-; cbn [fst snd] in *; split; try done.
  unfold module_of; cbn [fst snd]; rewrite H2; intros ses Hs; exists ses; split; [done|reflexivity].
Qed.

Lemma on_world_ok {A} (f : world -> A * world) fd (o : kmod * mem) :
  same_resources (km_world o.1) (f (km_world o.1)).2 -> k_ok fd o ->
  k_ok fd (on_world f o).2 /\ km_sessions (on_world f o).2.1 = km_sessions o.1.
Proof.
  intros Hw Hok; destruct (on_world_keeps other_events other_refs f fd o Hw Hok) as [H _].
  split; [exact H|]; unfold on_world; by destruct (f (km_world o.1)).
Qed.

Lemma stable_ioctl cmd : runtime_cmd cmd -> stable (device_ioctl cmd).
Proof.
  intros Hc [p [[st m] fs]] r s' [Hi [ses Hs]] E; cbn [fst snd] in *; unfold device_ioctl in E.
  apply bind_Some in E as ([r1 o1] & E1 & [= _ <-]); cbn in E1.
  destruct (ioctl_inv _ _ st (pf_device_fd p) ses cmd true Hi Hs (runtime_cmd_wf cmd _ Hc)) as (ret & rep & st' & E3 & Hi' & _).
  rewrite E3, !some_bind in E1; injection E1 as _ <-.
  pose proof (ioctl_sessions _ _ st _ ses cmd true _ st' Hi Hs E3) as Hle.
  destruct (ioctl_view _ _ _ ses cmd true st ret rep st' Hi Hs (runtime_cmd_wf cmd _ Hc) E3) as [_ V].
  assert (His : is_Some (km_sessions st' !! pf_device_fd p)) by (destruct (ret <? 0); apply V).
  split; try done; cbn [fst snd].
  intros ses1 Hs1; destruct His as [ses2 Hs2]; exists ses2; split; [exact Hs2|]; by eapply Hle.
Qed.

Lemma stable_ioctl_or_throw name cmd : runtime_cmd cmd -> stable (ioctl_or_throw name cmd).
Proof.
  intros Hc; apply stable_bind; [by apply stable_ioctl|]; intros [ret rep]; split_if; [apply stable_throw|apply stable_ret].
Qed.

(** ** The operations *)

Lemma stable_setaffinity tid cpu : stable (call (@os_setaffinity FK tid cpu)).
Proof.
  apply stable_call; intros fd [o fs] Hok; destruct (on_world_ok (us_setaffinity tid cpu) fd o) as [H1 H2];
    [apply setaffinity_keeps|done|]; cbn in *; by destruct (on_world (us_setaffinity tid cpu) o).
Qed.
Lemma stable_fopen path : stable (call (@os_fopen FK path)).
Proof.
  apply stable_call; intros fd [o fs] Hok; destruct (on_world_ok (us_fopen path) fd o) as [H1 H2];
    [apply fopen_keeps|done|]; cbn in *; by destruct (on_world (us_fopen path) o).
Qed.
Lemma stable_mmap bytes : stable (call (@os_mmap FK bytes)).
Proof. apply stable_call; intros fd [[st m] fs] Hok; cbn in *; by destruct (us_mmap bytes m). Qed.
Lemma stable_munmap base bytes : stable (call (fun o => (tt, @os_munmap FK base bytes o))).
Proof. by apply stable_call; intros fd [[st m] fs] Hok. Qed.
Lemma stable_look {A} (f : @os FK -> A) : stable (call (fun o => (f o, o))).
Proof. by apply stable_call. Qed.

Ltac stable_step :=
  lazymatch goal with
  | |- stable (bind _ _) => apply stable_bind; [|intros ?]
  | |- stable (ret _) => apply stable_ret
  | |- stable (throw _) => apply stable_throw
  | |- stable get => apply stable_get
  | |- stable (lift _) => apply stable_lift
  | |- stable (crash_if_none _) => apply stable_crash
  | |- stable (try_catch _) => apply stable_try
  | |- stable (modify _) => apply stable_modify; intros ?
  | |- stable (forM _ _) => apply stable_forM; intros ?
  | |- stable (ioctl_or_throw _ _) => apply stable_ioctl_or_throw
  | |- stable (device_ioctl _) => apply stable_ioctl
  | |- stable (call (os_setaffinity _ _)) => apply stable_setaffinity
  | |- stable (call (os_mmap _)) => apply stable_mmap
  | |- stable (call (os_fopen _)) => apply stable_fopen
  | |- stable (call (fun o => (tt, os_munmap _ _ o))) => apply stable_munmap
  | |- stable (call _) => apply stable_look
  | |- stable (if ?b then _ else _) => destruct b
  | |- stable (match ?x with _ => _ end) => destruct x
  end.
Ltac stable_tac := cbn zeta; repeat (stable_step; cbn zeta); try done.

Lemma stable_start : stable start_window_locked.
Proof. unfold start_window_locked; stable_tac. Qed.
Lemma stable_stop : stable stop_window_locked.
Proof. unfold stop_window_locked; stable_tac. Qed.
Lemma stable_reset : stable reset_session_locked.
Proof. unfold reset_session_locked; stable_tac. Qed.
Lemma stable_kernel_start : stable kernel_start.
Proof. unfold kernel_start; stable_tac; auto using stable_start, stable_stop, stable_reset. Qed.
Lemma stable_kernel_stop : stable kernel_stop.
Proof. unfold kernel_stop; stable_tac; auto using stable_stop. Qed.
Lemma stable_release cpu : stable (release_cpu_locked cpu).
Proof. apply stable_modify; intros p; by split_if. Qed.
Lemma stable_unmap scratch bytes : stable (unmap scratch bytes).
Proof. unfold unmap; stable_tac. Qed.
Lemma stable_undo {A} tid b tb e : stable (A := A) (undo_registration tid b tb e).
Proof. unfold undo_registration; stable_tac; auto using stable_release, stable_unmap. Qed.
Lemma stable_allocate caller : stable (allocate_cpu_locked caller).
Proof. unfold allocate_cpu_locked; stable_tac. Qed.
Lemma stable_pin tid cpu : stable (pin_tid_to_cpu tid cpu).
Proof. unfold pin_tid_to_cpu; stable_tac. Qed.
Lemma stable_register caller tid : stable (register_thread_locked caller tid).
Proof.
  unfold register_thread_locked; apply stable_bind; [apply stable_get|]; intros p.
  destruct (pf_threads p !! tid) as [[t c sc by_ ba st []]|]; stable_tac; auto using stable_undo, stable_allocate, stable_pin.
Qed.
Lemma stable_unregister tid : stable (unregister_thread_locked tid).
Proof.
  unfold unregister_thread_locked; apply stable_bind; [apply stable_get|]; intros p.
  destruct (pf_threads p !! tid) as [[t c sc by_ ba st []]|]; stable_tac; auto using stable_release, stable_unmap.
Qed.
Lemma stable_initial caller : stable (register_initial_threads caller).
Proof. unfold register_initial_threads; stable_tac; apply stable_register. Qed.

(** ** Steps *)

Abbreviation FD := (filed_device writable (kernel_os tgid) (kernel_device other_events other_refs tgid)).

Lemma step_evolves s s' :
  k_ok (pf_device_fd s.1) s.2.1 -> @call_step FK FD s s' -> evolves s s'.
Proof.
  intros Hok Hs; destruct Hs as [s r s' E|s r s' E|caller s r s' E|caller s r s' E|p [[st m] fs] [[st' m'] fs'] [[Em Hs] Ef]].
  - by eapply stable_kernel_start.
  - by eapply stable_kernel_stop.
  - refine (stable_bind _ _ (stable_register caller caller) _ _ _ _ Hok E); intros b; apply stable_ret.
  - by eapply stable_unregister.
  - cbn [fst snd] in *; destruct Hok as [Hi [ses Hse]]; cbn [fst snd] in *.
    destruct Hs as [(a & Hwf & He & Hrun)|(w & -> & Hw)].
    + pose proof (run_inv _ _ a st st' Hi Hwf Hrun) as Hi2.
      destruct (run_elsewhere _ _ _ ses a st st' Hi Hse Hwf He Hrun) as (V1 & _).
      pose proof (run_sessions _ _ a st st' Hi Hwf Hrun) as Hle; split; try done; cbn [fst snd].
      unfold module_of; cbn [fst snd]; intros ses1 Hs1; destruct V1 as [ses2 Hs2]; exists ses2; split; [done|by eapply Hle].
    + split; try done; cbn [fst snd]; [split; [by apply km_inv_balanced|by exists ses]|].
      intros ses1 Hs1; exists ses1; split; [done|reflexivity].
Qed.

(** * What was loaded *)

Definition loaded_as (p : profiler) (ses : rd_session) : Prop :=
  configured ses = true /\ targets_loaded ses = true /\
  targets ses = uapi_target <$> tt_targets (pf_table p) /\
  target_count ses = zlen (tt_targets (pf_table p)) /\
  callchain_mode ses = cf_callchain_mode (pf_config p).

Definition table_ok (p : profiler) : Prop := Forall (fun t => is_u64 (ht_pc_offset t)) (tt_targets (pf_table p)).

Definition loaded (s : state) : Prop :=
  k_ok (pf_device_fd s.1) s.2.1 /\ table_ok s.1 /\
  exists ses, km_sessions (module_of s) !! pf_device_fd s.1 = Some ses /\ loaded_as s.1 ses.

Lemma evolves_loaded s s' : evolves s s' -> loaded s -> loaded s'.
Proof.
  intros He (Hok & Ht & ses & Hs & L1 & L2 & L3 & L4 & L5); pose proof (evolves_ok _ _ He) as Hok'.
  destruct He as [E1 E2 E3 E4 E5 E6]; destruct (E6 ses Hs) as (ses' & Hs' & _ & Hc & Hl).
  split; [exact Hok'|]; split; [unfold table_ok; by rewrite E2|]; exists ses'; rewrite E1; split; [done|].
  destruct (Hc L1) as [C1 C2]; destruct (Hl L2) as (C3 & C4 & C5); unfold params in C2.
  unfold loaded_as; rewrite E2, E3; split_and!; congruence.
Qed.

Lemma bind_Ok {A B} (m : ctl A) (f : A -> ctl B) s b s' :
  bind m f s = Some (Ok b, s') -> exists a s1, m s = Some (Ok a, s1) /\ f a s1 = Some (Ok b, s').
Proof. unfold bind; destruct (m s) as [[[a|e] s1]|]; intros H; [by eexists _, _|done|done]. Qed.

Lemma ioctl_Ok name cmd p st m fs rep s' :
  @ioctl_or_throw FK name cmd (p, ((st, m), fs)) = Some (Ok rep, s') ->
  exists ret st', rd_wpctl_ioctl (pf_device_fd p) cmd true st = Some (ret, rep, st') /\ 0 <= ret /\
    s' = (p, ((st', m), fs)).
Proof.
  intros (r & s1 & E & H)%bind_Ok; unfold device_ioctl in E; apply bind_Some in E as ([r1 o1] & E1 & [= -> <-]).
  cbn in E1; destruct (rd_wpctl_ioctl (pf_device_fd p) cmd true st) as [[[ret rep1] st1]|] eqn:Ei; [|done].
  rewrite !some_bind in E1; injection E1 as <- <-; cbn [fst snd] in H; destruct (ret <? 0) eqn:El; [done|].
  injection H as -> <-; exists ret, st1; split; [done|]; split; [lia|done].
Qed.

Lemma config_success sp ses cfg st ret st' :
  km_sessions st !! sp = Some ses -> rd_session_config_locked sp cfg st = Some (ret, st') -> 0 <= ret ->
  exists ses', km_sessions st' !! sp = Some ses' /\ km_world st' = km_world st /\ configured ses' = true /\
    callchain_mode ses' = cfg_callchain_mode cfg.
Proof.
  intros Hs; unfold rd_session_config_locked; rewrite Hs, some_bind.
  repeat (split_if; [intros [= <- <-]; unfold EBUSY, EINVAL; lia|]); intros [= <- <-] _.
  eexists; split; [cbn; by rewrite lookup_insert_eq|done].
Qed.

Lemma load_success sp ses ptr l st ret st' :
  km_sessions st !! sp = Some ses -> rd_load_targets_locked sp (mk_batch ptr (zlen l)) st = Some (ret, st') -> 0 <= ret ->
  (forall l' w', memdup_user_targets ptr (zlen l) (km_world st) = (inr l', w') -> l' = l) ->
  exists ses', km_sessions st' !! sp = Some ses' /\ targets_loaded ses' = true /\ targets ses' = l /\
    target_count ses' = zlen l.
Proof.
  intros Hs E Hret Hmd; unfold rd_load_targets_locked in E; rewrite Hs, some_bind in E; cbn [batch_ptr batch_count] in E.
  repeat (split_if; [injection E as <- <-; unfold EINVAL in *; lia|]).
  pose proof (memdup_error ptr (zlen l) (km_world st)) as Herr.
  destruct (memdup_user_targets ptr (zlen l) (km_world st)) as [[err|l'] w1].
  { injection E as <- <-; specialize (Herr err w1 eq_refl); lia. }
  rewrite (Hmd l' w1 eq_refl) in E; destruct (kcalloc (zlen l) 56 w1) as [ok w2]; destruct ok; cbn [negb] in E;
    [|injection E as <- <-; unfold ENOMEM in *; lia].
  rewrite (array_prefix_full l (zlen l) eq_refl), some_bind in E.
  split_if; injection E as <- <-; [unfold EINVAL in *; lia|].
  eexists; split; [cbn; by rewrite lookup_insert_eq|done].
Qed.

Lemma configure_loaded p st m fs s' :
  k_ok (pf_device_fd p) (st, m) -> cfg_ok (session_cfg (pf_config p)) ->
  zlen (tt_targets (pf_table p)) < 4294967296 -> Forall target_ok (uapi_target <$> tt_targets (pf_table p)) ->
  table_ok p -> @configure_session FK (p, ((st, m), fs)) = Some (Ok tt, s') -> loaded s' /\ s'.1 = p.
Proof.
  intros Hok Hc Hlen Ht Htab E; pose proof Hok as [Hi [ses Hs]]; cbn [fst snd] in *.
  apply bind_Ok in E as (p1 & s1 & [= <- <-] & E); apply bind_Ok in E as (rep1 & s2 & E1 & E).
  apply ioctl_Ok in E1 as (ret1 & st1 & E1 & Hr1 & ->).
  destruct (ki_sessions _ _ st Hi _ _ Hs) as [Hfd _].
  assert (Hok1 : k_ok (pf_device_fd p) (st1, m)).
  { destruct (@dv_config FK FD (pf_device_fd p) _ ((st, m), fs) Hok Hc) as (x & y & [[st2 m2] fs2] & E2 & H2 & _).
    cbn in E2; rewrite E1, !some_bind in E2; injection E2 as _ _ -> -> _; exact H2. }
  unfold rd_wpctl_ioctl in E1; rewrite (proj2 (Z.eqb_neq _ 0)), Hs, some_bind in E1 by lia.
  unfold command in E1; apply bind_Some in E1 as ([r1 st2] & E1 & [= -> _ ->]).
  destruct (config_success _ _ _ _ _ _ Hs E1 Hr1) as (ses1 & Hs1 & _ & C1 & C2).
  cbn zeta in E; apply bind_Ok in E as (ptr & s3 & E2 & E); unfold call in E2; cbn [fst snd] in E2.
  set (l := uapi_target <$> tt_targets (pf_table p)) in *; assert (Hl : zlen l = zlen (tt_targets (pf_table p))) by (unfold l; by rewrite length_fmap).
  pose proof (@dv_load FK FD (pf_device_fd p) l ((st1, m), fs) Hok1 ltac:(lia) Ht) as Hload.
  pose proof (on_world_ok (us_vector l) (pf_device_fd p) (st1, m) (vector_keeps l _) Hok1) as [Hok2 Hsw].
  pose proof (vector_memdup l (km_world st1)) as Hmd; unfold on_world in *; cbn in E2, Hload; unfold on_world in E2, Hload; cbn [fst snd] in *.
  destruct (us_vector l (km_world st1)) as [ptr' w]; cbn [fst snd] in *; injection E2 as <- <-.
  rewrite u32_id in E by lia; apply bind_Ok in E as (rep3 & s4 & E3 & [= <-]).
  apply ioctl_Ok in E3 as (ret3 & st3 & E3 & Hr3 & ->); split; [|done].
  destruct Hload as (x & y & [[st4 m4] fs4] & E4 & H4 & _); cbn in E4; rewrite E3, !some_bind in E4; injection E4 as _ _ -> -> _.
  split; [exact H4|]; split; [exact Htab|].
  assert (Hs1' : km_sessions (set_world w st1) !! pf_device_fd p = Some ses1) by done.
  pose proof (proj1 Hok2) as Hi2; pose proof (ioctl_sessions _ _ _ _ _ _ _ _ _ Hi2 Hs1' E3) as Hle.
  unfold rd_wpctl_ioctl in E3; rewrite (proj2 (Z.eqb_neq _ 0)), Hs1', some_bind in E3 by lia.
  unfold command in E3; apply bind_Some in E3 as ([r3 st5] & E3 & [= -> _ ->]).
  destruct (load_success _ ses1 ptr' l _ _ _ Hs1' E3 Hr3 Hmd) as (ses3 & Hs3 & L1 & L2 & L3).
  exists ses3; split; [exact Hs3|]; destruct (Hle _ _ _ Hs1' Hs3) as (_ & Hcf & _); destruct (Hcf C1) as [C3 C4].
  unfold params in C4; cbn [fst]; split_and!; try done; [lia|]; cbn in C2; congruence.
Qed.

(** ** Reachable states *)

Section reachable.
Context (getenv realpath : text -> option text) (readlink : option text) (popen : text -> option (text * Z)).
Context (maps : option text) (read_file : text -> option text) (caller : Z).
Context (name : option text) (is_pin : bool) (num_cpus : Z).
Hypothesis Hcount32 : forall config tbl, parse_environment getenv = Ok config ->
  load_targets realpath popen maps (read_self_exe_path realpath readlink) (cf_target_file config)
    (cf_bp_capacity config) (read_file (cf_target_file config)) = Ok tbl -> sane_targets tbl.

Lemma construct_loaded o s :
  @os_valid FK FD o ->
  @construct FK getenv realpath readlink popen maps read_file caller (initial_profiler name is_pin num_cpus, o) =
    Some (Ok tt, s) ->
  loaded s.
Proof.
  intros Hv E; apply bind_Ok in E as (config & s1 & E1 & E); unfold lift in E1.
  destruct (parse_environment getenv) as [c|] eqn:Ec; [|done]; injection E1 as -> <-.
  apply bind_Ok in E as ([] & s2 & [= <-] & E); cbn zeta in E; split_if; [done|].
  apply bind_Ok in E as ([] & s3 & [= <-] & E); apply bind_Ok in E as (p3 & s4 & [= <- <-] & E); cbn zeta in E.
  apply bind_Ok in E as (ok & s5 & E2 & E); unfold call in E2; cbn [fst snd] in E2.
  match type of E2 with context [@os_fopen FK ?path o] => pose proof (@os_fopen_valid FK FD path o Hv) as Hv1 end.
  destruct (@os_fopen FK _ o) as [ok' o1]; injection E2 as -> <-; cbn [snd] in Hv1; split_if; [done|].
  apply bind_Ok in E as (fd & s6 & E3 & E); unfold call in E3; cbn [fst snd] in E3.
  pose proof (@dv_open FK FD o1 Hv1) as Ho; destruct (@os_open FK o1) as [fd' o2]; injection E3 as -> <-.
  apply bind_Ok in E as ([] & s7 & [= <-] & E); destruct (fd <? 0) eqn:Efd; [done|].
  destruct Ho as (Hok & _); [lia|]; apply bind_Ok in E as (tbl & s8 & E4 & E); unfold lift in E4.
  destruct (load_targets _ _ _ _ _ _ _) as [t|] eqn:El; [|done]; injection E4 as -> <-.
  apply bind_Ok in E as ([] & s9 & [= <-] & E); apply bind_Ok in E as ([] & s10 & E5 & E).
  pose proof (Hcount32 _ _ eq_refl El) as Hsane; pose proof (uapi_targets_ok _ _ _ _ _ _ _ _ El) as Htg.
  destruct o2 as [[st m] fs]; cbn [fst snd] in E5.
  match type of E5 with configure_session (?p, _) = _ => set (p1 := p) in * end.
  destruct (configure_loaded p1 st m fs s10 Hok (parsed_config_ok getenv config Ec) Hsane Htg) as [Hl Hp];
    [exact (load_targets_offsets _ _ _ _ _ _ _ _ El)|exact E5|].
  apply bind_Ok in E as ([] & s11 & E6 & E); pose proof (stable_initial caller _ _ _ (proj1 Hl) E6) as H6.
  pose proof (evolves_loaded _ _ H6 Hl) as L6; apply bind_Ok in E as ([] & s12 & E7 & E).
  pose proof (stable_start _ _ _ (proj1 L6) E7) as H7; pose proof (evolves_loaded _ _ H7 L6) as L7.
  by injection E as <-.
Qed.

Lemma reachable_loaded s :
  @ctl_reachable FK FD getenv realpath readlink popen maps read_file caller name is_pin num_cpus s -> loaded s.
Proof.
  induction 1 as [o s Hv E|s s' _ IH Hs]; [by eapply construct_loaded|].
  eapply evolves_loaded; [|exact IH]; eapply step_evolves; [apply IH|exact Hs].
Qed.

End reachable.

End stable.

End ResultKernel.
