(* ===== verification/ResultSpec.v ===== *)
(** The end of a run: from every reachable state of the controller and the module
    the destructor closes the window, unregisters every thread, writes every
    result file and closes the session; the histogram file of a thread, read
    back, is what the module recorded for it. *)
From S2P Require Import Prelude Uapi Buckets EffAddr KernelApi KTypes Tables Callchain Handlers Sampling HitSpec.
From S2P Require Import Lifecycle Session SessionInv RdModule CText AsmDecode Objdump ProcMaps LoadTargets Manifest.
From S2P Require Import Effects TargetedCtl CtlInv CtlKernel ResultFiles ResultText ResultKernel.
Import Buckets EffAddr Contexts PairHist AsmDecode Objdump ProcMaps LoadTargets Manifest TargetedCtl CtlInv.
Import ResultFiles ResultText ResultKernel.

Module ResultSpec.

(** * Downloading *)

Section download.
Context `{K : KernelApi} {KL : KernelLaws K}.
Context (other_events : gset Z) (other_refs : Z -> Z).
Abbreviation km_inv := (SessionInv.km_inv other_events other_refs).
Context (sp : Z) (ses : rd_session) (st : kmod).
Hypothesis (Hi : km_inv st) (Hs : km_sessions st !! sp = Some ses).

(** The counters of thread [th], number [i]. *)
Definition stats_for (i : Z) (s : rd_session) (th : rd_thread_ctx) : rd_wpctl_thread_stats :=
  mk_thread_stats i (t_tid th) (t_cpu th) (if t_active th then 1 else 0)
    (candidate_samples th) (reservoir_seen th) (reservoir_accepted th)
    (reservoir_rejected th) (hits th) (evictions th) (dropped th) (pair_hist_used th)
    (pair_hist_dropped th) (context_used th) (context_dropped th) (callchain_failed th)
    (callchain_truncated th) (dwarf_event_used th) (dwarf_event_dropped th)
    (dwarf_stack_copy_failed th) (dwarf_stack_bytes s).

Lemma session_nonzero : sp <> 0.
Proof. destruct (ki_sessions _ _ st Hi sp ses Hs); lia. Qed.

Lemma thread_number i tp :
  s_threads ses !!z i = Some tp -> exists th, km_threads st !! tp = Some th /\ thread_inv ses th.
Proof.
  intros [_ E%list_elem_of_lookup_2]%zlookup_Some.
  destruct (session_threads_live _ _ st sp ses tp Hi Hs E) as (th & Ht & _ & Htv & _); eauto.
Qed.

Context (i tp : Z) (th : rd_thread_ctx).
Hypothesis (Hn : s_threads ses !!z i = Some tp) (Ht : km_threads st !! tp = Some th).

Lemma thread_here : thread_inv ses th.
Proof. destruct (thread_number i tp Hn) as (th' & Ht' & H); by assert (th' = th) as <- by congruence. Qed.

Ltac enter := unfold rd_wpctl_ioctl; rewrite (proj2 (Z.eqb_neq sp 0) session_nonzero), Hs, some_bind; unfold query.

Lemma get_stats : rd_wpctl_ioctl sp (GET_THREAD_STATS (Some i)) true st = Some (0, StatsReply (stats_for i ses th), st).
Proof.
  enter; unfold rd_get_thread_stats_locked, with_thread, rd_find_thread_by_index; rewrite Hn, Ht, !some_bind; reflexivity.
Qed.

Definition hist_row_at (h : list Z) (j : Z) : list Z := take 64 (drop (Z.to_nat (j * 64)) h).

Lemma get_hist h j :
  t_log2_hist th = Some h -> 0 <= j < target_count ses ->
  rd_wpctl_ioctl sp (GET_LOG2_HIST (Some (i, j))) true st = Some (0, HistReply i j (hist_row_at h j), st).
Proof.
  intros Hh Hj; enter; unfold rd_get_hist_locked, with_thread, rd_find_thread_by_index, RD_WPCTL_LOG2_BUCKETS.
  destruct (rs_hist _ _ (ti_results _ _ thread_here)) as (h' & Hh' & Hl & _); assert (h' = h) as -> by congruence.
  rewrite Hn, Ht, some_bind, (proj2 (Z.leb_gt _ _)), Hh by lia.
  rewrite copy_buckets_ok, !some_bind by lia; reflexivity.
Qed.

Lemma get_pair j :
  0 <= j < RD_WPCTL_MAX_PAIR_HISTS ->
  exists r, rd_wpctl_ioctl sp (GET_PAIR_HIST_ENTRY (Some (i, j))) true st = Some (0, PairReply r, st).
Proof.
  intros Hj; enter; unfold rd_get_pair_hist_locked, with_thread, rd_find_thread_by_index.
  destruct (rs_pairs _ _ (ti_results _ _ thread_here)) as (t & Hp & Hw).
  rewrite Hn, Ht, some_bind, (proj2 (Z.leb_gt _ _)), Hp by lia.
  destruct (proj2 (zlookup_is_Some t j)) as [x ->]; [rewrite (pair_len _ _ Hw); lia|]; rewrite !some_bind.
  by eexists.
Qed.

Lemma get_context j :
  0 < j <= RD_WPCTL_MAX_CONTEXTS ->
  exists r, rd_wpctl_ioctl sp (GET_CONTEXT_ENTRY (Some (i, j))) true st = Some (0, ContextReply r, st).
Proof.
  intros Hj; enter; unfold rd_get_context_locked, with_thread, rd_find_thread_by_index.
  destruct (rs_ctxs _ _ (ti_results _ _ thread_here)) as (t & Hp & Hw).
  rewrite Hn, Ht, some_bind; assert ((j =? 0) || (RD_WPCTL_MAX_CONTEXTS <? j) = false) as -> by lia; rewrite Hp.
  destruct (proj2 (zlookup_is_Some t (j - 1))) as [x ->]; [rewrite (ctx_len _ _ Hw); lia|]; rewrite !some_bind.
  by eexists.
Qed.

Lemma get_event j :
  callchain_mode ses = RD_CALLCHAIN_DWARF -> 0 <= j < dwarf_event_used th ->
  (forall n k w, (kcalloc n k w).1 = true) ->
  exists r w, rd_wpctl_ioctl sp (GET_DWARF_EVENT (Some (i, j))) true st = Some (0, EventReply r, set_world w st) /\
    same_resources (km_world st) w.
Proof.
  intros Hm Hj Halloc; enter; unfold rd_get_dwarf_event_locked, rd_find_thread_by_index.
  pose proof (rs_events _ _ (ti_results _ _ thread_here)) as He; unfold events_ok in He.
  destruct (t_dwarf_events th) as [evs|] eqn:Ee; [|done]; destruct He as (_ & Hl & Hu & _).
  rewrite Hn, Ht, some_bind, (proj2 (Z.leb_gt _ _)) by lia.
  pose proof (kcalloc_keeps 1 sizeof_dwarf_event (km_world st)) as Hk.
  specialize (Halloc 1 sizeof_dwarf_event (km_world st)).
  destruct (kcalloc 1 sizeof_dwarf_event (km_world st)) as [ok w]; cbn [fst snd] in *; subst ok; cbn [negb]; rewrite Ee.
  destruct (proj2 (zlookup_is_Some evs j)) as [x ->]; [lia|]; rewrite !some_bind; by eexists _, w.
Qed.

End download.

(** * File names *)

Definition thread_suffixes : list text :=
  [txt ".hist.log2.txt"; txt ".pair.hist.log2.txt"; txt ".contexts.txt"; txt ".dwarf.raw.bin"; txt ".dwarf.raw.txt"].
(** The files of a run that belong to no thread or to thread [tid]. *)
Definition thread_files (p : profiler) (tid : Z) : list text := info_path p :: (thread_path p tid <$> thread_suffixes).
Definition hist_path (p : profiler) (tid : Z) : text := thread_path p tid (txt ".hist.log2.txt").

Lemma cut_at c a b a' b' : free_of c a -> free_of c a' -> a ++ c :: b = a' ++ c :: b' -> a = a' /\ b = b'.
Proof.
  intros H; revert a'; induction H as [|x a Hx _ IH]; intros [|y a'] H' E; cbn in E.
  - by injection E as <-.
  - injection E as <- _; apply Forall_cons in H' as [H' _]; by rewrite ceqb_refl in H'.
  - injection E as -> _; by rewrite ceqb_refl in Hx.
  - injection E as -> E; apply Forall_cons in H' as [_ H']; by destruct (IH a' H' E) as [-> ->].
Qed.

Lemma dec_no_dot z : 0 <= z -> free_of "." (dec_u64 z).
Proof. intros Hz; apply print_u_forall; [lia|done|]; apply (forall_below 16); repeat constructor. Qed.

Lemma thread_path_inj p t1 t2 s1 s2 :
  is_u64 t1 -> is_u64 t2 -> s1 ∈ thread_suffixes -> s2 ∈ thread_suffixes ->
  thread_path p t1 s1 = thread_path p t2 s2 -> t1 = t2 /\ s1 = s2.
Proof.
  intros H1 H2 Hs1 Hs2 E; unfold thread_path in E; do 2 apply (inj (app _)) in E.
  assert (Hdot : forall s, s ∈ thread_suffixes -> exists r, s = "."%char :: r).
  { intros s; unfold thread_suffixes; rewrite !elem_of_cons, elem_of_nil; intros [->|[->|[->|[->|[->|[]]]]]]; by eexists. }
  destruct (Hdot s1 Hs1) as [r1 ->], (Hdot s2 Hs2) as [r2 ->]; unfold dec_s in E.
  rewrite !(proj2 (Z.ltb_ge _ 0)) in E by lia.
  apply cut_at in E as [E ->]; [|apply dec_no_dot; lia..]; split; [|done].
  by rewrite <- (strtoull_dec t1 H1), <- (strtoull_dec t2 H2), E.
Qed.

Lemma hist_path_other p t1 t2 : is_u64 t1 -> is_u64 t2 -> t1 <> t2 -> hist_path p t1 ∉ thread_files p t2.
Proof.
  intros H1 H2 Hne; unfold thread_files; rewrite elem_of_cons, list_elem_of_fmap; intros [E|(sf & E & Hsf)].
  - unfold hist_path, thread_path, info_path in E; by apply (inj (app _)) in E.
  - apply Hne; apply thread_path_inj in E as [-> _]; try done; apply list_elem_of_here.
Qed.

(** * The writers *)

(** The rows of a histogram file: the targets' buckets that are not empty. *)
Definition histogram_rows (targets : list hot_target) (h : list Z) : list hist_row :=
  concat (imap (fun j t => bucket_rows (ht_pc_offset t) (hist_row_at h (Z.of_nat j))) targets).
Definition histogram_content (targets : list hot_target) (h : list Z) : text :=
  concat (endl <$> histogram_header :: (row_line <$> histogram_rows targets h)).

Section writers.
Context `{K : KernelApi} {KL : KernelLaws K} {KV : KernelValues K} {U : UserApi K} {UL : UserLaws KL U}.
Context (other_events : gset Z) (other_refs : Z -> Z) (tgid : Z) (writable : text -> bool).
Context (residue : rd_wpctl_dwarf_snapshot -> text).
Abbreviation FK := (filed writable (kernel_os tgid)).
Abbreviation ctl := (prog profiler (@os FK)).
Abbreviation km_inv := (SessionInv.km_inv other_events other_refs).

Hypothesis Hw : forall path, writable path = true.
Hypothesis Hopen : forall path w, (us_fopen path w).1 = true.
Hypothesis Halloc : forall n k w, (kcalloc n k w).1 = true.

(** ** Primitives *)

Lemma wp_query name cmd p st m fs rep st' Q :
  rd_wpctl_ioctl (pf_device_fd p) cmd true st = Some (0, rep, st') ->
  Q (Ok rep) (p, ((st', m), fs)) -> @wpc False profiler (@os FK) _ (ioctl_or_throw name cmd) Q (p, ((st, m), fs)).
Proof. intros E HQ; unfold wpc, ioctl_or_throw, bind, device_ioctl; cbn; by rewrite E. Qed.

Definition appended (path t : text) (fs : gmap text text) : gmap text text :=
  <[path := default [] (fs !! path) ++ t]> fs.

Lemma wp_emit path t p o fs Q :
  Q (Ok tt) (p, (o, appended path t fs)) -> @wpc False profiler (@os FK) _ (emit writable (kernel_os tgid) path t) Q (p, (o, fs)).
Proof. unfold wpc, emit; cbn; by rewrite Hw. Qed.

Lemma wp_put_lines path ls p o fs Q :
  Q (Ok tt) (p, (o, appended path (concat (endl <$> ls)) fs)) ->
  @wpc False profiler (@os FK) _ (put_lines writable (kernel_os tgid) path ls) Q (p, (o, fs)).
Proof. apply wp_emit. Qed.

(** Opening a file changes the kernel's state only. *)
Lemma wp_fopen path p st m fs Q :
  (forall w, same_resources (km_world st) w -> Q (Ok true) (p, ((set_world w st, m), <[path := []]> fs))) ->
  @wpc False profiler (@os FK) _ (call (@os_fopen FK path)) Q (p, ((st, m), fs)).
Proof.
  intros HQ; unfold wpc, call; cbn; unfold on_world; cbn [fst snd].
  pose proof (fopen_keeps path (km_world st)) as Hk; specialize (Hopen path (km_world st)).
  destruct (us_fopen path (km_world st)) as [ok w]; cbn [fst snd] in *; subst ok; by apply HQ.
Qed.

Lemma wp_open path p st m fs Q :
  (forall w, same_resources (km_world st) w -> Q (Ok tt) (p, ((set_world w st, m), <[path := []]> fs))) ->
  @wpc False profiler (@os FK) _ (open_or_throw writable (kernel_os tgid) path) Q (p, ((st, m), fs)).
Proof. intros HQ; apply wp_bind, wp_fopen; intros w Hk; by apply HQ. Qed.

(** ** One thread *)

Section one_thread.
Context (p : profiler) (ses : rd_session) (i tp : Z) (th : rd_thread_ctx) (st : kmod) (m : mem) (fs0 : gmap text text).
Hypothesis (Hi : km_inv st) (Hs : km_sessions st !! pf_device_fd p = Some ses).
Hypothesis (Hn : s_threads ses !!z i = Some tp) (Ht : km_threads st !! tp = Some th).
Hypothesis (Hl : loaded_as p ses).

(** The module differs from [st] in the kernel's state only. *)
Definition at_module (fs : gmap text text) (s : profiler * @os FK) : Prop :=
  exists w, s = (p, ((set_world w st, m), fs)) /\ same_resources (km_world st) w.

Lemma same_trans w w' : same_resources (km_world st) w -> same_resources w w' -> same_resources (km_world st) w'.
Proof. intros [A1 A2] [B1 B2]; split; congruence. Qed.

Lemma hist_loop h ts k log base w :
  t_log2_hist th = Some h -> Z.of_nat k + zlen ts <= target_count ses -> same_resources (km_world st) w ->
  @wpc False profiler (@os FK) _ (forM (imap (fun j t => (Z.of_nat (k + j), t)) ts) (fun '(target_index, t) =>
      r <-- ioctl_or_throw (txt "RDKIOC_GET_LOG2_HIST") (GET_LOG2_HIST (Some (i, target_index)));
      put_lines writable (kernel_os tgid) log (bucket_lines (histogram_line (ht_pc_offset t)) (buckets_of r))))
    (fun r s' => r = Ok tt /\ s' = (p, ((set_world w st, m), <[log := base ++ concat (endl <$> (row_line <$>
       concat (imap (fun j t => bucket_rows (ht_pc_offset t) (hist_row_at h (Z.of_nat (k + j)))) ts)))]> fs0)))
    (p, ((set_world w st, m), <[log := base]> fs0)).
Proof.
  intros Hh; revert k base; induction ts as [|t ts IH]; intros k base Hk Hkw.
  { apply wp_ret; cbn; by rewrite app_nil_r. }
  rewrite !imap_cons; cbn [forM]; apply wp_bind, wp_bind; cbn [length] in Hk.
  assert (Hi' : km_inv (set_world w st)) by (by apply km_inv_world).
  eapply wp_query; [eapply (get_hist _ _ _ ses (set_world w st) Hi' Hs i tp th Hn Ht h (Z.of_nat (k + 0)) Hh); lia|].
  apply wp_put_lines; cbn [buckets_of]; unfold appended; rewrite lookup_insert_eq, insert_insert_eq; cbn [default].
  rewrite bucket_lines_rows; eapply wp_mono.
  - rewrite (imap_ext _ (fun j t => (Z.of_nat (S k + j), t))); [|intros j x _; cbn; do 2 f_equal; lia].
    apply (IH (S k)); [lia|done].
  - intros r s' [-> ->]; split; [done|]; do 3 f_equal; cbn [concat]; rewrite !fmap_app, concat_app, <- app_assoc.
    do 6 f_equal; apply imap_ext; intros j x _; cbn; do 3 f_equal; lia.
Qed.

Lemma write_histograms_spec h stats fs w :
  t_log2_hist th = Some h -> same_resources (km_world st) w -> fs = fs0 ->
  @wpc False profiler (@os FK) _ (write_thread_histograms writable (kernel_os tgid) stats i)
    (fun r s' => r = Ok tt /\ at_module (<[thread_path p (st_tid stats) (txt ".hist.log2.txt") :=
       histogram_content (tt_targets (pf_table p)) h]> fs) s') (p, ((set_world w st, m), fs)).
Proof.
  intros Hh Hkw ->; apply wp_bind, wp_get, wp_bind, wp_open; intros w1 Hw1; cbn [fst snd].
  apply wp_bind, wp_put_lines; unfold appended; rewrite lookup_insert_eq, insert_insert_eq; cbn [default app].
  assert (Hk1 : same_resources (km_world st) w1) by (by eapply same_trans).
  destruct Hl as (_ & _ & _ & Hcount & _); eapply wp_mono.
  - apply (hist_loop h (tt_targets (pf_table p)) 0 _ _ w1 Hh); [lia|done].
  - intros r s' [-> ->]; split; [done|]; exists w1; split; [|done]; do 3 f_equal.
Qed.

(** The other writers only touch their own files. *)
Definition touched (ps : list text) (fs : gmap text text) (s : profiler * @os FK) : Prop :=
  exists fs', at_module fs' s /\ forall q, q ∉ ps -> fs' !! q = fs !! q.

Lemma appended_other path t fs q : q <> path -> appended path t fs !! q = fs !! q.
Proof. intros Hne; unfold appended; by rewrite lookup_insert_ne. Qed.

Lemma touched_put ps path ls fs s :
  path ∈ ps -> touched ps fs s ->
  @wpc False profiler (@os FK) _ (put_lines writable (kernel_os tgid) path ls) (fun r s' => r = Ok tt /\ touched ps fs s') s.
Proof.
  intros Hp (fs' & (w & -> & Hkw) & Hq); apply wp_put_lines; split; [done|].
  eexists; split; [exists w; split; [reflexivity|done]|]; intros q Hn'; rewrite appended_other; [by apply Hq|congruence].
Qed.

Lemma touched_open ps path fs s :
  path ∈ ps -> touched ps fs s ->
  @wpc False profiler (@os FK) _ (call (@os_fopen FK path)) (fun r s' => r = Ok true /\ touched ps fs s') s.
Proof.
  intros Hp (fs' & (w & -> & Hkw) & Hq); apply wp_fopen; intros w1 Hw1; split; [done|].
  eexists; split; [exists w1; split; [reflexivity|by eapply same_trans]|]; intros q Hn'.
  rewrite lookup_insert_ne; [by apply Hq|congruence].
Qed.

(** A request that succeeds in every state of the kernel. *)
Lemma touched_query {A} name cmd ps fs s (f : reply -> ctl A) Q :
  (forall w, same_resources (km_world st) w -> exists rep w', same_resources (km_world st) w' /\
     rd_wpctl_ioctl (pf_device_fd p) cmd true (set_world w st) = Some (0, rep, set_world w' st)) ->
  touched ps fs s -> (forall rep s', touched ps fs s' -> wp (f rep) Q s') ->
  @wpc False profiler (@os FK) _ (bind (ioctl_or_throw name cmd) f) Q s.
Proof.
  intros Hq (fs' & (w & -> & Hkw) & Hf) HQ; destruct (Hq w Hkw) as (rep & w' & Hkw' & E).
  apply wp_bind; eapply wp_query; [exact E|]; apply HQ; exists fs'; split; [by exists w'|done].
Qed.

Lemma write_pairs_spec stats fs s :
  let log := thread_path p (st_tid stats) (txt ".pair.hist.log2.txt") in
  at_module fs s ->
  @wpc False profiler (@os FK) _ (write_thread_pair_histograms writable (kernel_os tgid) stats i) (fun r s' => r = Ok tt /\ touched [log] fs s') s.
Proof.
  intros log Hs0; assert (Hlog : log ∈ [log]) by (by apply list_elem_of_singleton).
  assert (H0 : touched [log] fs s) by (by exists fs); pose proof Hs0 as (w0 & -> & _).
  apply wp_bind, wp_get, wp_bind, wp_bind; cbn [fst]; fold log; eapply wp_mono; [by apply touched_open|].
  intros r s1 [-> H1]; apply wp_ret, wp_bind; eapply wp_mono; [by apply touched_put|]; intros r s2 [-> H2].
  apply wp_forM_ok; [done|]; intros j s3 Hj%elem_of_seqZ H3; eapply touched_query; [|exact H3|].
  - intros w Hkw; assert (Hi' : km_inv (set_world w st)) by (by apply km_inv_world).
    destruct (get_pair _ _ _ ses (set_world w st) Hi' Hs i tp th Hn Ht j) as (r & E); [lia|].
    exists (PairReply r), w; split; [done|exact E].
  - intros rep s4 H4; cbn zeta; apply wp_if; intros _; [by apply wp_ret|by apply touched_put].
Qed.

Lemma write_contexts_spec stats fs s :
  let log := thread_path p (st_tid stats) (txt ".contexts.txt") in
  at_module fs s ->
  @wpc False profiler (@os FK) _ (write_thread_contexts writable (kernel_os tgid) stats i) (fun r s' => r = Ok tt /\ touched [log] fs s') s.
Proof.
  intros log Hs0; assert (Hlog : log ∈ [log]) by (by apply list_elem_of_singleton).
  assert (H0 : touched [log] fs s) by (by exists fs); pose proof Hs0 as (w0 & -> & _).
  apply wp_bind, wp_get, wp_bind, wp_bind; cbn [fst]; fold log; eapply wp_mono; [by apply touched_open|].
  intros r s1 [-> H1]; apply wp_ret, wp_bind; eapply wp_mono; [by apply touched_put|]; intros r s2 [-> H2].
  apply wp_forM_ok; [done|]; intros j s3 Hj%elem_of_seqZ H3; eapply touched_query; [|exact H3|].
  - intros w Hkw; assert (Hi' : km_inv (set_world w st)) by (by apply km_inv_world).
    destruct (get_context _ _ _ ses (set_world w st) Hi' Hs i tp th Hn Ht j) as (r & E); [lia|].
    exists (ContextReply r), w; split; [done|exact E].
  - intros rep s4 H4; cbn zeta; apply wp_if; intros _; [by apply wp_ret|by apply touched_put].
Qed.

Lemma touched_emit ps path t fs s :
  path ∈ ps -> touched ps fs s ->
  @wpc False profiler (@os FK) _ (emit writable (kernel_os tgid) path t) (fun r s' => r = Ok tt /\ touched ps fs s') s.
Proof.
  intros Hp (fs' & (w & -> & Hkw) & Hq); apply wp_emit; split; [done|].
  eexists; split; [exists w; split; [reflexivity|done]|]; intros q Hn'; rewrite appended_other; [by apply Hq|congruence].
Qed.

Lemma write_events_spec stats fs s :
  let bin := thread_path p (st_tid stats) (txt ".dwarf.raw.bin") in
  let log := thread_path p (st_tid stats) (txt ".dwarf.raw.txt") in
  at_module fs s -> callchain_mode ses = RD_CALLCHAIN_DWARF -> st_dwarf_event_used stats = dwarf_event_used th ->
  @wpc False profiler (@os FK) _ (write_thread_dwarf_events writable (kernel_os tgid) residue stats i)
    (fun r s' => r = Ok tt /\ touched [bin; log] fs s') s.
Proof.
  intros bin log Hs0 Hm Hused; assert (Hb : bin ∈ [bin; log]) by apply list_elem_of_here.
  assert (Hlog : log ∈ [bin; log]) by (apply list_elem_of_further, list_elem_of_here).
  assert (H0 : touched [bin; log] fs s) by (by exists fs); pose proof Hs0 as (w0 & -> & _).
  apply wp_bind, wp_get, wp_bind; cbn [fst]; fold bin; fold log; eapply wp_mono; [by apply touched_open|]; intros r s1 [-> H1].
  apply wp_bind; eapply wp_mono; [by apply touched_open|]; intros r s2 [-> H2]; cbn [negb].
  apply wp_bind; eapply wp_mono; [by apply touched_put|]; intros r s3 [-> H3].
  apply wp_forM_ok; [done|]; intros j s4 Hj%elem_of_seqZ H4; eapply touched_query; [|exact H4|].
  - intros w Hkw; assert (Hi' : km_inv (set_world w st)) by (by apply km_inv_world).
    destruct (get_event _ _ _ ses (set_world w st) Hi' Hs i tp th Hn Ht j Hm) as (r & w' & E & Hk'); [lia|exact Halloc|].
    exists (EventReply r), w'; split; [by eapply same_trans|exact E].
  - intros rep s5 H5; cbn zeta; apply wp_if; intros _; [by apply wp_ret|].
    apply wp_bind; eapply wp_mono; [by apply touched_emit|]; intros r s6 [-> H6]; rewrite Hw; by apply touched_put.
Qed.

End one_thread.

(** ** All threads *)

Lemma write_thread_spec p ses i tp th st m h fs s :
  km_inv st -> km_sessions st !! pf_device_fd p = Some ses -> s_threads ses !!z i = Some tp ->
  km_threads st !! tp = Some th -> loaded_as p ses -> t_log2_hist th = Some h -> is_u64 (t_tid th) ->
  at_module p st m fs s ->
  @wpc False profiler (@os FK) _ (write_thread writable (kernel_os tgid) residue i)
    (fun r s' => r = Ok (stats_for i ses th) /\ exists fs', at_module p st m fs' s' /\
       fs' !! hist_path p (t_tid th) = Some (histogram_content (tt_targets (pf_table p)) h) /\
       forall q, q ∉ thread_files p (t_tid th) -> fs' !! q = fs !! q) s.
Proof.
  intros Hi Hs Hn Ht Hl Hh Htid (w & -> & Hkw); apply wp_bind, wp_get, wp_bind; cbn [fst].
  assert (Hi' : km_inv (set_world w st)) by (by apply km_inv_world).
  eapply wp_query; [exact (get_stats _ _ _ ses _ Hi' Hs i tp th Hn Ht)|]; cbn zeta; cbn [stats_of].
  apply wp_bind, wp_put_lines, wp_bind; eapply wp_mono.
  { eapply (write_histograms_spec p ses i tp th st m _ Hi Hs Hn Ht Hl h (stats_for i ses th)); [done|done|reflexivity]. }
  cbn [st_tid stats_for]; set (path := thread_path p (t_tid th) (txt ".hist.log2.txt")).
  intros r s1 [-> H1]; apply wp_bind; eapply wp_mono; [by eapply (write_pairs_spec p ses i tp th st m Hi Hs Hn Ht)|].
  cbn [st_tid stats_for]; intros r s2 [-> (fs2 & H2 & F2)]; apply wp_bind.
  assert (Hctx : wp (if cf_callchain_mode (pf_config p) =? RD_CALLCHAIN_FP
                     then write_thread_contexts writable (kernel_os tgid) (stats_for i ses th) i else ret tt)
    (fun r s' => r = Ok tt /\ touched p st m [thread_path p (t_tid th) (txt ".contexts.txt")] fs2 s') s2).
  { apply wp_if; intros _; [by eapply (write_contexts_spec p ses i tp th st m Hi Hs Hn Ht)|apply wp_ret; split; [done|by exists fs2]]. }
  eapply wp_mono; [exact Hctx|]; intros r s3 [-> (fs3 & H3 & F3)]; apply wp_bind; destruct Hl as (_ & _ & _ & _ & Hmode).
  assert (Hev : wp (if cf_callchain_mode (pf_config p) =? RD_CALLCHAIN_DWARF
                    then write_thread_dwarf_events writable (kernel_os tgid) residue (stats_for i ses th) i else ret tt)
    (fun r s' => r = Ok tt /\ touched p st m [thread_path p (t_tid th) (txt ".dwarf.raw.bin");
       thread_path p (t_tid th) (txt ".dwarf.raw.txt")] fs3 s') s3).
  { apply wp_if; intros E; [eapply (write_events_spec p ses i tp th st m Hi Hs Hn Ht); [done|lia|done]|].
    apply wp_ret; split; [done|by exists fs3]. }
  eapply wp_mono; [exact Hev|]; intros r s4 [-> (fs4 & H4 & F4)]; apply wp_ret; split; [done|]; exists fs4; split; [done|].
  assert (Hne : forall sf, sf ∈ thread_suffixes -> sf <> txt ".hist.log2.txt" -> path <> thread_path p (t_tid th) sf).
  { intros sf Hsf Hd E; apply Hd; symmetry; eapply thread_path_inj in E as [_ E]; try done; apply list_elem_of_here. }
  split.
  - rewrite F4, F3, F2; [apply lookup_insert_eq|..];
      rewrite ?elem_of_cons, elem_of_nil; intros Hx; repeat destruct Hx as [Hx|Hx]; try done;
      revert Hx; apply Hne; try done; unfold thread_suffixes; rewrite !elem_of_cons; tauto.
  - intros q Hq; unfold thread_files, thread_suffixes in Hq; cbn [fmap list_fmap] in Hq; rewrite !not_elem_of_cons in Hq.
    destruct Hq as (Q0 & Q1 & Q2 & Q3 & Q4 & Q5 & _).
    rewrite F4, F3, F2, lookup_insert_ne, appended_other; try done; rewrite ?not_elem_of_cons; split_and!; try done;
      apply not_elem_of_nil.
Qed.

(** Thread number [j] of the session, and its histogram. *)
Definition numbered (ses : rd_session) (st : kmod) (j : Z) (th : rd_thread_ctx) : Prop :=
  exists tp, s_threads ses !!z j = Some tp /\ km_threads st !! tp = Some th.
(** No later thread has its id. *)
Definition last_of_tid (ses : rd_session) (st : kmod) (j : Z) (th : rd_thread_ctx) : Prop :=
  forall k th', j < k -> numbered ses st k th' -> t_tid th' <> t_tid th.

Lemma later_with_id ses st j tid :
  (exists k th', j < k /\ numbered ses st k th' /\ t_tid th' = tid) \/
  (forall k th', j < k -> numbered ses st k th' -> t_tid th' <> tid).
Proof.
  set (has (k : Z) := match s_threads ses !!z k with
    | Some tp => match km_threads st !! tp with Some th => t_tid th =? tid | None => false end
    | None => false end).
  destruct (existsb has (seqZ (j + 1) (zlen (s_threads ses) - j))) eqn:E.
  - left; apply existsb_exists in E as (k & Hk%list_elem_of_In%elem_of_seqZ & H); unfold has in H.
    destruct (s_threads ses !!z k) as [tp|] eqn:E1; [|done]; destruct (km_threads st !! tp) as [th|] eqn:E2; [|done].
    exists k, th; split_and!; [lia|by exists tp|lia].
  - right; intros k th' Hk (tp & E1 & E2) Ht; apply not_true_iff_false in E; apply E, existsb_exists; exists k.
    split; [apply list_elem_of_In, elem_of_seqZ; apply zlookup_Some in E1 as [? _]; lia|].
    unfold has; rewrite E1, E2; lia.
Qed.

(** Every registered id has a last thread. *)
Lemma last_registration ses st j th :
  numbered ses st j th ->
  exists k th', j <= k /\ numbered ses st k th' /\ t_tid th' = t_tid th /\ last_of_tid ses st k th'.
Proof.
  remember (Z.to_nat (zlen (s_threads ses) - j)) as n eqn:En; revert j th En.
  induction (lt_wf n) as [n _ IH]; intros j th -> Hj.
  pose proof Hj as (tp & [Hr _]%zlookup_Some & _).
  destruct (later_with_id ses st j (t_tid th)) as [(k & th' & Hk & Hnum & Et)|Hno]; cycle 1.
  { exists j, th; split_and!; [lia|done|done|]; intros k th' Hk Hnum Et; by apply (Hno k th'). }
  pose proof Hnum as (tp' & [Hr' _]%zlookup_Some & _).
  destruct (IH (Z.to_nat (zlen (s_threads ses) - k)) ltac:(lia) k th' eq_refl Hnum) as (k2 & th2 & H1 & H2 & H3 & H4).
  exists k2, th2; split_and!; [lia|done|congruence|done].
Qed.

Lemma write_threads_spec p ses st m n : forall k totals fs s,
  km_inv st -> km_sessions st !! pf_device_fd p = Some ses -> loaded_as p ses ->
  (forall j th, numbered ses st j th -> is_u64 (t_tid th)) ->
  0 <= k -> k + Z.of_nat n = zlen (s_threads ses) -> at_module p st m fs s ->
  @wpc False profiler (@os FK) _ (write_threads writable (kernel_os tgid) residue (seqZ k (Z.of_nat n)) totals)
    (fun r s' => is_ok r = true /\ exists fs', at_module p st m fs' s' /\
       (forall j th h, k <= j -> numbered ses st j th -> last_of_tid ses st j th -> t_log2_hist th = Some h ->
          fs' !! hist_path p (t_tid th) = Some (histogram_content (tt_targets (pf_table p)) h)) /\
       (forall q, (forall j th, k <= j -> numbered ses st j th -> q ∉ thread_files p (t_tid th)) -> fs' !! q = fs !! q)) s.
Proof.
  induction n as [|n IH]; intros k totals fs s Hi Hs Hl Htid Hk Hn Hat.
  { apply wp_ret; split; [done|]; exists fs; split; [done|]; split; [|done].
    intros j th h Hj (tp & [Hr _]%zlookup_Some & _); lia. }
  rewrite seqZ_cons by lia; cbn [write_threads]; apply wp_bind.
  replace (Z.pred (Z.of_nat (S n))) with (Z.of_nat n) by lia; replace (Z.succ k) with (k + 1) by lia.
  destruct (proj2 (zlookup_is_Some (s_threads ses) k)) as [tp Htp]; [lia|].
  destruct (thread_number _ _ _ ses st Hi Hs k tp Htp) as (th & Ht & Htv).
  destruct (rs_hist _ _ (ti_results _ _ Htv)) as (h & Hh & _).
  assert (Hnk : numbered ses st k th) by (by exists tp).
  eapply wp_mono; [eapply (write_thread_spec p ses k tp th st m h fs s); try done; by eapply Htid|].
  intros r s1 [-> (fs1 & H1 & C1 & F1)]; eapply wp_mono; [apply (IH (k + 1) _ fs1); try done; lia|].
  intros r s2 [Hr (fs2 & H2 & C2 & F2)]; split; [done|]; exists fs2; split; [done|]; split.
  - intros j th2 h2 Hj Hnj Hlast Hh2; destruct (decide (j = k)) as [->|Hne]; [|apply (C2 j); [lia|done..]].
    destruct Hnj as (tp2 & E1 & E2); assert (tp2 = tp) as -> by congruence; assert (th2 = th) as -> by congruence.
    assert (h2 = h) as -> by congruence; rewrite F2; [done|]; intros j' th' Hj' Hnj'.
    apply hist_path_other; [by eapply Htid|by eapply Htid|]; apply not_eq_sym, (Hlast j'); [lia|done].
  - intros q Hq; rewrite F2; [|intros j th' Hj; apply Hq; lia]; apply F1; by apply (Hq k th); [lia|].
Qed.

Lemma get_layout p ses st :
  km_inv st -> km_sessions st !! pf_device_fd p = Some ses ->
  rd_wpctl_ioctl (pf_device_fd p) GET_LAYOUT true st = Some (0, LayoutReply (rd_get_layout_locked ses), st).
Proof.
  intros Hi Hs; unfold rd_wpctl_ioctl.
  by rewrite (proj2 (Z.eqb_neq _ 0) (session_nonzero _ _ _ ses st Hi Hs)), Hs, some_bind.
Qed.

Lemma hist_path_info p tid : hist_path p tid <> info_path p.
Proof. intros E; unfold hist_path, thread_path, info_path in E; by apply (inj (app _)) in E. Qed.

Lemma write_info_spec realpath maps p ses st m fs :
  km_inv st -> km_sessions st !! pf_device_fd p = Some ses -> loaded_as p ses ->
  (forall j th, numbered ses st j th -> is_u64 (t_tid th)) -> zlen (s_threads ses) < 4294967296 ->
  @wpc False profiler (@os FK) _ (write_info writable (kernel_os tgid) residue realpath maps)
    (fun r s' => r = Ok tt /\ exists fs', at_module p st m fs' s' /\
       forall j th h, 0 <= j -> numbered ses st j th -> last_of_tid ses st j th -> t_log2_hist th = Some h ->
         fs' !! hist_path p (t_tid th) = Some (histogram_content (tt_targets (pf_table p)) h)) (p, ((st, m), fs)).
Proof.
  intros Hi Hs Hl Htid Hlen; apply wp_bind, wp_get, wp_bind; cbn [fst].
  eapply wp_query; [by apply (get_layout p ses)|]; cbn zeta; cbn [layout_of rd_get_layout_locked layout_thread_count].
  rewrite u32_id by lia; apply wp_bind, wp_put_lines, wp_bind, wp_put_lines, wp_bind; eapply wp_mono.
  { apply (write_threads_spec p ses st m (length (s_threads ses)) 0); try done.
    exists (km_world st); split; [destruct st as [? ? ? []]; reflexivity|done]. }
  intros r s1 [Hr (fs1 & (w & -> & Hkw) & C1 & _)]; destruct r as [totals|e]; [|done]; apply wp_put_lines; split; [done|].
  eexists; split; [exists w; split; [reflexivity|done]|]; intros j th h Hj H1 H2 H3.
  rewrite appended_other; [by eapply C1|apply hist_path_info].
Qed.

(** ** The end of the run *)

Abbreviation FD := (filed_device writable (kernel_os tgid) (kernel_device other_events other_refs tgid)).
Abbreviation ctl_inv := (@CtlInv.ctl_inv FK FD).
Abbreviation evolves := (ResultKernel.evolves other_events other_refs tgid writable).

(** Nothing that was recorded is lost from [st0] to [st]. *)
Definition results_kept (fd : Z) (st0 st : kmod) : Prop :=
  (s_threads <$> km_sessions st !! fd) = (s_threads <$> km_sessions st0 !! fd) /\
  forall tp, (kept_results <$> km_threads st !! tp) = (kept_results <$> km_threads st0 !! tp).

Lemma results_kept_trans fd st1 st2 st3 : results_kept fd st1 st2 -> results_kept fd st2 st3 -> results_kept fd st1 st3.
Proof. intros [A1 A2] [B1 B2]; split; [congruence|]; intros tp; by rewrite B2. Qed.

(** A state on the way to the end: what the destructor has done so far. *)
Record ending (s0 s : profiler * @os FK) : Prop := {
  en_inv : ctl_inv s;
  en_evolves : evolves s0 s;
  en_kept : results_kept (pf_device_fd s0.1) (module_of tgid writable s0) (module_of tgid writable s);
  en_files : s.2.2 = s0.2.2;
}.

Lemma wp_stable {A} (m : ctl A) s :
  ResultKernel.stable other_events other_refs tgid writable m -> CtlKernel.k_ok other_events other_refs (pf_device_fd s.1) s.2.1 ->
  is_Some (m s) -> @wpc False profiler (@os FK) _ m (fun _ s' => evolves s s') s.
Proof. intros Hm Hok [[r s'] E]; unfold wpc; rewrite E; by eapply Hm. Qed.

Lemma stop_ending s0 s :
  ending s0 s -> @wpc False profiler (@os FK) _ stop_window_locked (fun r s' => r = Ok tt /\ ending s0 s') s.
Proof.
  intros [E1 E2 E3 E4]; pose proof (evolves_ok _ _ _ _ _ _ E2) as Hok.
  pose proof (ctl_stop_inv s E1) as H1; pose proof (wp_stable stop_window_locked s
    (stable_stop other_events other_refs tgid writable) Hok (wp_total _ _ _ H1)) as H2.
  assert (H3 : @wpc False profiler (@os FK) _ stop_window_locked (fun r s' => r = Ok tt /\ s'.2.2 = s.2.2 /\
    results_kept (pf_device_fd s.1) (module_of tgid writable s) (module_of tgid writable s')) s).
  { destruct s as [p [[st m] fs]]; destruct Hok as [Hi [ses Hs]]; cbn [fst snd] in *.
    apply wp_bind, wp_get, wp_if; intros _; [by apply wp_ret|].
    destruct (stop_window_inv _ _ st (pf_device_fd p) ses Hi Hs) as (st' & E & Hi' & Hse & Hth).
    apply wp_bind; eapply wp_query; [|apply wp_modify; split; [done|split; [done|]]].
    - unfold rd_wpctl_ioctl; rewrite (proj2 (Z.eqb_neq _ 0) (session_nonzero _ _ _ ses st Hi Hs)), Hs, some_bind.
      unfold command; by rewrite E.
    - unfold module_of; cbn [fst snd]; split; [|by rewrite Hth]; rewrite Hse, lookup_insert_eq, Hs; done. }
  eapply wp_mono; [exact (wp_and _ _ _ _ H1 (wp_and _ _ _ _ H2 H3))|].
  intros r s' [[F1 _] [F2 (-> & F3 & F4)]]; split; [done|]; split; [done| | |congruence].
  - by eapply evolves_trans.
  - rewrite (ev_fd _ _ _ _ _ _ E2) in F4; by eapply results_kept_trans.
Qed.

Lemma unregister_ending tid s0 s :
  ending s0 s -> @wpc False profiler (@os FK) _ (unregister_thread_locked tid) (fun r s' => r = Ok tt /\ ending s0 s' /\ unregistered tid s s') s.
Proof.
  intros [E1 E2 E3 E4]; pose proof (evolves_ok _ _ _ _ _ _ E2) as Hok.
  pose proof (unregister_spec tid s E1) as H1; pose proof (wp_stable (unregister_thread_locked tid) s
    (stable_unregister other_events other_refs tgid writable tid) Hok (wp_total _ _ _ H1)) as H2.
  assert (H3 : @wpc False profiler (@os FK) _ (unregister_thread_locked tid) (fun r s' => r = Ok tt /\ s'.2.2 = s.2.2 /\
    results_kept (pf_device_fd s.1) (module_of tgid writable s) (module_of tgid writable s')) s).
  { destruct s as [p [[st m] fs]]; pose proof Hok as [Hi [ses Hs]]; cbn [fst snd] in *.
    apply wp_bind, wp_get; cbn [fst]; destruct (pf_threads p !! tid) as [[t cpu sc by_ ba str []]|] eqn:E; [|by apply wp_ret..].
    destruct E1 as (_ & [_ _ Hact] & _); destruct (Hact tid) as [_ Hx]; cbn [fst snd] in Hx.
    destruct (proj1 (elem_of_active _ _ _ _ Hs) (Hx ltac:(by eexists))) as (tp & th & Hin & Ht & Ha & Htid).
    destruct (unregister_active _ _ st _ ses tid tp th Hi Hs Hin Ht Htid Ha) as (th' & w & Eu & Hi' & _ & Hk).
    assert (Hkept : results_kept (pf_device_fd p) st (detached_state tp th' w st)).
    { split; [done|]; intros tp'; cbn; destruct (decide (tp = tp')) as [<-|Hne]; [|by rewrite lookup_insert_ne].
      by rewrite lookup_insert_eq, Ht; cbn; rewrite Hk. }
    apply wp_bind; eapply wp_query.
    { unfold rd_wpctl_ioctl; rewrite (proj2 (Z.eqb_neq _ 0) (session_nonzero _ _ _ ses st Hi Hs)), Hs, some_bind.
      unfold command; by rewrite Eu. }
    apply wp_bind; unfold unmap; destruct sc as [base|]; [apply wp_call|apply wp_ret];
      apply wp_bind, wp_modify, wp_modify; split; done. }
  eapply wp_mono; [exact (wp_and _ _ _ _ H1 (wp_and _ _ _ _ H2 H3))|].
  intros r s' [(F1 & _ & F5) [F2 (-> & F3 & F4)]]; split; [done|]; split; [|done]; split; [done| | |congruence].
  - by eapply evolves_trans.
  - rewrite (ev_fd _ _ _ _ _ _ E2) in F4; by eapply results_kept_trans.
Qed.

Lemma unregister_all_ending s0 s :
  ending s0 s -> @wpc False profiler (@os FK) _ (unregister_all writable (kernel_os tgid))
    (fun r s' => r = Ok tt /\ ending s0 s' /\ forall tid b, pf_threads s'.1 !! tid = Some b -> tb_active b = false) s.
Proof.
  intros He; apply wp_bind, wp_get.
  assert (Hall : forall tid b, pf_threads s.1 !! tid = Some b -> tb_active b = true -> tid ∈ (map_to_list (pf_threads s.1)).*1).
  { intros tid b Hb _; apply list_elem_of_fmap; exists (tid, b); split; [done|by apply elem_of_map_to_list]. }
  revert Hall; generalize (map_to_list (pf_threads s.1)).*1 as l; intros l; revert s He.
  induction l as [|tid l IH]; intros s He Hall; cbn [forM].
  { apply wp_ret; split; [done|]; split; [done|]; intros tid b Hb; destruct (tb_active b) eqn:Ea; [|done].
    by destruct (not_elem_of_nil tid (Hall tid b Hb Ea)). }
  apply wp_bind, wp_bind, wp_get.
  assert (Hstep : @wpc False profiler (@os FK) _ (match pf_threads s.1 !! tid with
                      | Some b => if tb_active b then unregister_thread_locked tid else ret tt
                      | None => ret tt end) (fun r s' => r = Ok tt /\ ending s0 s' /\ unregistered tid s s') s).
  { destruct (pf_threads s.1 !! tid) as [b|] eqn:Eb.
    - apply wp_if; intros Ea; [by apply unregister_ending|]; apply wp_ret; split; [done|]; split; [done|].
      split; [|done]; intros b' Hb'; congruence.
    - apply wp_ret; split; [done|]; split; [done|]; split; [|done]; intros b' Hb'; congruence. }
  eapply wp_mono; [exact Hstep|]; intros r s' (-> & He' & U1 & U2); apply IH; [done|]; intros t b Hb Ha.
  destruct (decide (t = tid)) as [->|Hne]; [by rewrite (U1 b Hb) in Ha|]; rewrite U2 in Hb by done.
  by apply Hall in Hb as [?|?]%elem_of_cons.
Qed.

Lemma close_session fd st m fs st' :
  rd_wpctl_release fd st = Some st' -> @os_close FK fd ((st, m), fs) = ((st', m), fs).
Proof. intros E; cbn; by rewrite E. Qed.

Lemma destroy_body_spec realpath maps p ses st m fs :
  ctl_inv (p, ((st, m), fs)) -> loaded other_events other_refs tgid writable (p, ((st, m), fs)) ->
  km_sessions st !! pf_device_fd p = Some ses ->
  (forall j th, numbered ses st j th -> is_u64 (t_tid th)) -> zlen (s_threads ses) < 4294967296 ->
  @wpc False profiler (@os FK) _ (p <-- get; (if pf_window_open p then stop_window_locked else ret tt);;
      unregister_all writable (kernel_os tgid);; write_info writable (kernel_os tgid) residue realpath maps)
    (fun r s' => r = Ok tt /\ exists s2, ending (p, ((st, m), fs)) s2 /\ (forall tid b, pf_threads s2.1 !! tid = Some b -> tb_active b = false) /\
       exists fs', at_module s2.1 (module_of tgid writable s2) s2.2.1.2 fs' s' /\
       forall j th h, 0 <= j -> numbered ses st j th -> last_of_tid ses st j th -> t_log2_hist th = Some h ->
         fs' !! hist_path p (t_tid th) = Some (histogram_content (tt_targets (pf_table p)) h)) (p, ((st, m), fs)).
Proof.
  intros Hinv Hload Hs Htid Hlen; set (s0 := (p, ((st, m), fs)) : profiler * @os FK) in *.
  assert (H0 : ending s0 s0) by (split; [done|by apply evolves_refl, Hload|done|done]).
  apply wp_bind, wp_get, wp_bind.
  assert (Hstop : @wpc False profiler (@os FK) _ (if pf_window_open s0.1 then stop_window_locked else ret tt) (fun r s' => r = Ok tt /\ ending s0 s') s0).
  { apply wp_if; intros _; [by apply stop_ending|by apply wp_ret]. }
  eapply wp_mono; [exact Hstop|]; intros r s1 [-> H1]; apply wp_bind.
  eapply wp_mono; [by apply unregister_all_ending|]; intros r s2 (-> & H2 & Hin).
  pose proof (evolves_loaded _ _ _ _ _ _ (en_evolves _ _ H2) Hload) as (_ & _ & ses2 & Hs2 & L2).
  pose proof (evolves_ok _ _ _ _ _ _ (en_evolves _ _ H2)) as [Hi2 _].
  pose proof H2 as [_ V2 [K1 K2] _]; destruct V2 as [V1 V2 V3 V4 V5 V6].
  unfold module_of in K1, K2; cbn [fst snd s0] in K1, K2, V1, V2, V3, V4.
  rewrite <- V1 in K1; unfold module_of in Hs2; rewrite Hs2, V1, Hs in K1; cbn in K1; injection K1 as K1.
  destruct s2 as [p2 [[st2 m2] fs2]]; cbn [fst snd] in *.
  assert (Hnum : forall j th2, numbered ses2 st2 j th2 -> exists th, numbered ses st j th /\ kept_results th = kept_results th2).
  { intros j th2 (tp & N1 & N2); rewrite K1 in N1; specialize (K2 tp); rewrite N2 in K2; symmetry in K2.
    apply fmap_Some in K2 as (th & Hth & E); exists th; split; [by exists tp|done]. }
  assert (Hnum2 : forall j th, numbered ses st j th -> exists th2, numbered ses2 st2 j th2 /\ kept_results th2 = kept_results th).
  { intros j th (tp & N1 & N2); rewrite <- K1 in N1; specialize (K2 tp); rewrite N2 in K2.
    apply fmap_Some in K2 as (th2 & Hth & E); exists th2; split; [by exists tp|done]. }
  eapply wp_mono; [apply (write_info_spec realpath maps p2 ses2 st2 m2 fs2 Hi2 Hs2 L2)|].
  - intros j th2 N; destruct (Hnum j th2 N) as (th & N' & E); unfold kept_results in E.
    assert (t_tid th2 = t_tid th) as -> by congruence; by eapply Htid.
  - by rewrite K1.
  - intros r s3 [-> (fs3 & H3 & C3)]; split; [done|]; exists (p2, ((st2, m2), fs2)); split; [done|]; split; [done|].
    exists fs3; split; [exact H3|]; intros j th h Hj N Hlast Hh; destruct (Hnum2 j th N) as (th2 & N2 & E).
    unfold kept_results in E; assert (Et : t_tid th2 = t_tid th) by congruence.
    assert (Eh : t_log2_hist th2 = Some h) by congruence.
    unfold hist_path, thread_path in *; rewrite <- Et, <- V2, <- V4; eapply C3; [done|done| |done].
    intros k th' Hk Nk; destruct (Hnum k th' Nk) as (th0 & N0 & E0); unfold kept_results in E0.
    rewrite Et; assert (t_tid th' = t_tid th0) as -> by congruence; by eapply Hlast.
Qed.

Lemma destroy_spec realpath maps p ses st m fs :
  ctl_inv (p, ((st, m), fs)) -> loaded other_events other_refs tgid writable (p, ((st, m), fs)) ->
  km_sessions st !! pf_device_fd p = Some ses ->
  (forall j th, numbered ses st j th -> is_u64 (t_tid th)) -> zlen (s_threads ses) < 4294967296 ->
  @wpc False profiler (@os FK) _ (destroy writable (kernel_os tgid) residue realpath maps)
    (fun r s' => r = Ok None /\ km_sessions (module_of tgid writable s') !! pf_device_fd p = None /\
       (forall tid b, pf_threads s'.1 !! tid = Some b -> tb_active b = false) /\
       forall j th h, 0 <= j -> numbered ses st j th -> last_of_tid ses st j th -> t_log2_hist th = Some h ->
         s'.2.2 !! hist_path p (t_tid th) = Some (histogram_content (tt_targets (pf_table p)) h)) (p, ((st, m), fs)).
Proof.
  intros Hinv Hload Hs Htid Hlen; set (s0 := (p, ((st, m), fs)) : profiler * @os FK) in *.
  pose proof (destroy_body_spec realpath maps p ses st m fs Hinv Hload Hs Htid Hlen) as Hbody; fold s0 in Hbody.
  apply wp_bind; unfold try_catch, wpc at 1; unfold wpc at 1 in Hbody.
  match type of Hbody with match ?x with _ => _ end => destruct x as [[r s3]|]; [|done] end; rewrite some_bind.
  destruct Hbody as (-> & s2 & H2 & Hin & fs' & (w & -> & Hkw) & C3); apply wp_bind, wp_get, wp_bind; cbn [fst snd].
  pose proof (evolves_ok _ _ _ _ _ _ (en_evolves _ _ H2)) as [Hi2 [ses2 Hs2]].
  pose proof (ev_fd _ _ _ _ _ _ (en_evolves _ _ H2)) as Hfd; cbn [fst s0] in Hfd.
  assert (Hi3 : km_inv (set_world w (module_of tgid writable s2))) by (by apply km_inv_world).
  assert (Hs3 : km_sessions (set_world w (module_of tgid writable s2)) !! pf_device_fd s2.1 = Some ses2) by exact Hs2.
  destruct (ki_sessions _ _ _ Hi3 _ _ Hs3) as [Hpos _].
  rewrite (proj2 (Z.leb_le 0 _)) by (cbn in Hpos |- *; lia); apply wp_call, wp_ret; cbn [fst snd].
  destruct (release_inv _ _ _ _ ses2 Hi3 Hs3) as (st4 & E4 & _ & Hse & _).
  rewrite (close_session _ _ _ _ _ E4); unfold module_of at 1; cbn [fst snd]; rewrite Hse, Hfd, lookup_delete_eq; done.
Qed.

End writers.

(** The counts of a histogram file. *)
Lemma rows_sum_from ts (f : Z -> list Z) : forall k,
  sumZ (row_count <$> concat (imap (fun j t => bucket_rows (ht_pc_offset t) (f (Z.of_nat (k + j)))) ts)) =
  sumZ (concat (f <$> seqZ (Z.of_nat k) (zlen ts))).
Proof.
  induction ts as [|t ts IH]; intros k; [done|]; rewrite imap_cons; cbn [concat length].
  rewrite seqZ_cons by lia; cbn [fmap list_fmap concat]; rewrite fmap_app, !sumZ_app, bucket_rows_sum, Nat.add_0_r.
  f_equal; replace (Z.pred (Z.of_nat (S (length ts)))) with (zlen ts) by lia.
  replace (Z.succ (Z.of_nat k)) with (Z.of_nat (S k)) by lia; rewrite <- IH; do 3 f_equal.
  apply imap_ext; intros j x _; cbn; do 2 f_equal; lia.
Qed.

Lemma histogram_rows_sum ts h : zlen h = zlen ts * 64 -> sumZ (row_count <$> histogram_rows ts h) = sumZ h.
Proof. intros Hl; unfold histogram_rows; etransitivity; [apply (rows_sum_from ts (hist_row_at h) 0)|by apply hist_rows_sum]. Qed.

Lemma histogram_rows_ok ts h :
  Forall (fun t => is_u64 (ht_pc_offset t)) ts -> Forall (fun x => is_u64 x) h -> Forall row_ok (histogram_rows ts h).
Proof.
  intros Ht Hh; apply Forall_concat, Forall_lookup; intros i l Hl; apply list_lookup_imap_Some in Hl as (t & Hx & ->).
  rewrite Forall_lookup in Ht; apply bucket_rows_ok; [by eapply Ht|]; by apply Forall_take, Forall_drop.
Qed.

(** * The destructor *)

Section destructor.
Context `{K : KernelApi} {KL : KernelLaws K} {KV : KernelValues K} {U : UserApi K} {UL : UserLaws KL U}.
Context (other_events : gset Z) (other_refs : Z -> Z) (tgid : Z) (writable : text -> bool).
Context (residue : rd_wpctl_dwarf_snapshot -> text).
Context (getenv realpath : text -> option text) (readlink : option text) (popen : text -> option (text * Z)).
Context (maps : option text) (read_file : text -> option text) (caller : Z).
Context (name : option text) (is_pin : bool) (num_cpus : Z).
Abbreviation FK := (filed writable (kernel_os tgid)).
Abbreviation FD := (filed_device writable (kernel_os tgid) (kernel_device other_events other_refs tgid)).

(** What the run relies on: files can be opened and written, memory suffices,
    thread ids are C integers, and threads and targets fit their 32-bit counts. *)
Record run_conditions (st : kmod) : Prop := {
  rc_cpus : 0 <= num_cpus;
  rc_writable path : writable path = true;
  rc_fopen path w : (us_fopen path w).1 = true;
  rc_alloc n k w : (kcalloc n k w).1 = true;
  rc_tids tp th : km_threads st !! tp = Some th -> 0 <= t_tid th < 2147483648;
  rc_threads sp ses : km_sessions st !! sp = Some ses -> zlen (s_threads ses) < 4294967296;
  rc_targets config tbl : parse_environment getenv = Ok config ->
    load_targets realpath popen maps (read_self_exe_path realpath readlink) (cf_target_file config)
      (cf_bp_capacity config) (read_file (cf_target_file config)) = Ok tbl -> sane_targets tbl;
}.

(** C7. The results of a run reach the disk.  When files can be opened and
    written, memory suffices and the counts of threads and targets fit 32 bits,
    then from every state that the controller and the module can reach, the
    destructor runs to its end without a warning, closes the session and leaves
    no thread registered.  Every thread of the session has a histogram file for
    its id.  When several contexts of the session have that id, because the thread
    was registered again, the file is that of the last one; it reads back as the
    buckets that are not empty of each target, with the offset of the target and
    the interval of the bucket, and its counts add up to the hits of that context,
    modulo [2^64]. *)
Theorem destructor_writes_histograms (p : profiler) (st : kmod) (m : mem) (fs : gmap text text)
    (Hc : run_conditions st)
    (Hr : @ctl_reachable FK FD getenv realpath readlink popen maps read_file caller name is_pin num_cpus
            (p, ((st, m), fs))) :
  exists p' st' m' fs',
    destroy writable (kernel_os tgid) residue realpath maps (p, ((st, m), fs)) = Some (Ok None, (p', ((st', m'), fs'))) /\
    km_sessions st' !! pf_device_fd p = None /\
    (forall tid b, pf_threads p' !! tid = Some b -> tb_active b = false) /\
    exists ses, km_sessions st !! pf_device_fd p = Some ses /\
      forall j th0, numbered ses st j th0 ->
      exists k th h content, j <= k /\ numbered ses st k th /\ t_tid th = t_tid th0 /\ last_of_tid ses st k th /\
        t_log2_hist th = Some h /\ fs' !! hist_path p (t_tid th0) = Some content /\
        read_histogram content = Some (histogram_rows (tt_targets (pf_table p)) h) /\
        sumZ (row_count <$> histogram_rows (tt_targets (pf_table p)) h) ≡₆₄ hits th.
Proof.
  destruct Hc as [C1 C2 C3 C4 C5 C6 C7].
  pose proof (reachable_loaded _ _ _ _ _ _ _ _ _ _ _ _ _ _ C7 _ Hr) as Hload.
  pose proof (reachable_ctl_inv _ _ _ _ _ _ _ _ _ _ C1 C7 _ Hr) as Hinv.
  pose proof Hload as ([Hi _] & Htab & ses & Hs & _ & _ & _ & Hcount & _); unfold module_of in Hs; cbn [fst snd] in *.
  pose proof (destroy_spec other_events other_refs tgid writable residue C2 C3 C4 realpath maps p ses st m fs Hinv Hload Hs) as H.
  unfold wpc in H; destruct (destroy _ _ _ _ _ _) as [[r [p' [[st' m'] fs']]]|].
  2: { exfalso; apply H; [|by eapply C6]; intros j th (tp & _ & Ht); specialize (C5 tp th Ht); lia. }
  destruct H as (-> & H1 & H2 & H3); [intros j th (tp & _ & Ht); specialize (C5 tp th Ht); lia|by eapply C6|].
  exists p', st', m', fs'; split; [done|]; split; [done|]; split; [done|]; exists ses; split; [done|].
  intros j th0 Hnum; destruct (last_registration ses st j th0 Hnum) as (k & th & Hjk & Hk & Htid & Hlast).
  pose proof Hk as (tp & Hj & Ht); pose proof (thread_here _ _ _ ses st Hi Hs k tp th Hj Ht) as Htv.
  destruct (rs_hist _ _ (ti_results _ _ Htv)) as (h & Hh & Hl & Hrange).
  eexists k, th, h, _; split; [done|]; split; [done|]; split; [done|]; split; [done|]; split; [done|].
  rewrite <- Htid; split; [apply (H3 k th h); try done; apply zlookup_Some in Hj as [? _]; lia|].
  split; [apply histogram_reads; by apply histogram_rows_ok|]; rewrite histogram_rows_sum by lia.
  destruct (ti_balanced _ _ Htv) as (_ & _ & _ & B4 & _); unfold hist_total in B4; rewrite Hh in B4; by rewrite <- B4.
Qed.

End destructor.

End ResultSpec.
