(* ===== verification/ResultDemo.v ===== *)
(** The end of a run on the small concrete kernel: the theorem of [ResultSpec.v]
    applied after the construction of [CtlDemo.v], and a thread that registers
    twice and keeps only its second result file. *)
From S2P Require Import Prelude Uapi Buckets EffAddr KernelApi KTypes Tables Callchain Handlers Sampling HitSpec.
From S2P Require Import Lifecycle Session SessionInv RdModule CText AsmDecode Objdump ProcMaps Hotspots LoadTargets.
From S2P Require Import Manifest Effects TargetedCtl CtlInv CtlKernel CtlSpec CtlDemo ResultFiles ResultText ResultKernel ResultSpec.
Import Toy EffAddr AsmDecode Objdump ProcMaps LoadTargets Manifest TargetedCtl CtlInv CtlDemo.
Import ResultFiles ResultText ResultKernel ResultSpec.

Module ResultDemo.

Definition disk (path : text) : bool := true.
Definition no_residue (s : rd_wpctl_dwarf_snapshot) : text := [].
Abbreviation disk_os := (filed disk run_os).
Abbreviation disk_dev := (filed_device disk run_os ctl_dev).
Abbreviation disk_machine := ((run_machine, ∅) : @os disk_os).
Abbreviation disk_construct :=
  (@construct disk_os run_getenv demo_realpath run_link run_popen (Some run_maps) run_file 100
     (initial_profiler None true 8, disk_machine)).

Lemma disk_constructs :
  exists p st m fs, disk_construct = Some (Ok tt, (p, ((st, m), fs))) /\
    map_Forall (fun _ th => 0 <= t_tid th < 2147483648) (km_threads st) /\
    map_Forall (fun _ ses => zlen (s_threads ses) < 4294967296) (km_sessions st).
Proof.
  assert (H : match disk_construct with
              | Some (Ok _, (_, ((st, _), _))) =>
                  bool_decide (map_Forall (fun _ th => 0 <= t_tid th < 2147483648) (km_threads st)) &&
                  bool_decide (map_Forall (fun _ ses => zlen (s_threads ses) < 4294967296) (km_sessions st))
              | _ => false end = true) by (vm_compute; reflexivity).
  destruct disk_construct as [[[[]|] [p [[st m] fs]]]|]; [|done|done]; exists p, st, m, fs; split; [done|].
  apply andb_prop in H as [H1%bool_decide_eq_true H2%bool_decide_eq_true]; by split.
Qed.

Abbreviation disk_reachable :=
  (@ctl_reachable disk_os disk_dev run_getenv demo_realpath run_link run_popen (Some run_maps) run_file 100 None true 8).

Lemma disk_reached s : disk_construct = Some (Ok tt, s) -> disk_reachable s.
Proof.
  intros H; eapply (@reach_constructed disk_os disk_dev _ _ _ _ _ _ _ _ _ _ disk_machine); [|exact H].
  exact run_started_valid.
Qed.

Lemma destructor_writes_histograms_witness :
  exists p st m fs p' st' m' fs', disk_construct = Some (Ok tt, (p, ((st, m), fs))) /\
    destroy disk run_os no_residue demo_realpath (Some run_maps) (p, ((st, m), fs)) =
      Some (Ok None, (p', ((st', m'), fs'))) /\
    km_sessions st' !! pf_device_fd p = None /\
    exists ses, km_sessions st !! pf_device_fd p = Some ses /\
      forall j th, numbered ses st j th -> is_Some (fs' !! hist_path p (t_tid th)).
Proof.
  destruct disk_constructs as (p & st & m & fs & E & Htids & Hthreads).
  destruct (@destructor_writes_histograms toy_kernel toy_laws toy_values toy_user toy_user_laws events0 refs0 100 disk
    no_residue run_getenv demo_realpath run_link run_popen (Some run_maps) run_file 100 None true 8 p st m fs)
    as (p' & st' & m' & fs' & H1 & H2 & _ & ses & H4 & H5).
  - split; [lia|reflexivity|reflexivity|reflexivity|exact Htids|exact Hthreads|exact run_target_count].
  - exact (disk_reached _ E).
  - exists p, st, m, fs, p', st', m', fs'; split; [exact E|]; split; [exact H1|]; split; [exact H2|].
    exists ses; split; [exact H4|]; intros j th Hj; destruct (H5 j th Hj) as (k & th' & h & content & _ & _ & _ & _ & _ & H6 & _).
    exists content; exact H6.
Defined.

(** ** Two registrations of one thread *)

(** Thread 100 leaves and comes back: the module has two contexts for it. *)
Definition twice : option (result (option text) * (profiler * @os disk_os)) :=
  match disk_construct with
  | Some (Ok _, s) =>
      (unregister_current_thread 100;; register_current_thread 100;;
       destroy disk run_os no_residue demo_realpath (Some run_maps)) s
  | _ => None
  end.

(** The information file reports two threads; there is one histogram file and one
    pair file, those of the second context. *)
Example second_registration_overwrites :
  match twice with
  | Some (Ok None, (p, (_, fs))) =>
      bool_decide (key "thread_count" (txt "2") ∈ getlines NEWLINE (default [] (fs !! info_path p))) &&
      bool_decide (size fs = 3%nat)
  | _ => false
  end = true.
Proof. vm_compute; reflexivity. Qed.

End ResultDemo.
