(* ===== verification/Starter.v ===== *)
(** The preload entry points of [src/starter.cc]: the environment variables that
    select a profiler, its creation and destruction with the library, and the C
    interface that the program and the thread hook call.

    The library state is the two global pointers [lib_perp] and
    [lib_targeted_rd]; the two profilers act on their own view of the operating
    system. *)
From S2P Require Import Prelude Uapi CText ProcMaps Effects TargetedCtl PerfEvents Monitor Periodic ResultFiles.
Import PerfEvents Monitor ResultFiles.

Module Starter.

(** ** Settings *)

Definition read_period (getenv : text -> option text) : Z :=
  match getenv (txt "RD_PERIOD") with Some env => atoi env | None => 0 end.

(** The body of the loop that looks for the power of two; [n << 1] on an [int] as
    the compiler translates it. *)
Definition double_step (bufsize n : Z) : Z + Z :=
  if n <=? bufsize then inl (s32 (Z.shiftl n 1)) else inr (Z.shiftr n 1).
(** [None]: the loop does not end. *)
Definition parse_bufsize (env_bufsize : text) : option Z :=
  let bufsize := atoi env_bufsize in
  if negb (bufsize =? 0) then
    match iter_loop (double_step bufsize) 6 1 with inr n => Some n | inl _ => None end
  else Some 1.

(** A variable that is set and not empty; the default is 1. *)
Definition env_bufsize (getenv : text -> option text) (name : text) : option Z :=
  match TargetedCtl.env_set getenv name with Some env => parse_bufsize env | None => Some 1 end.

Record settings := mk_settings {
  se_period : Z;
  se_name : text;
  se_perp_mode : perp_mode;
  se_targeted_rd : bool;
  se_is_pin : bool;
  se_ringbufsize : Z;
  se_auxbufsize : Z;
}.

(** What [commf.get] leaves in [comm]. *)
Definition read_comm (file : option text) : text :=
  match file with Some content => take 255 (getline_rest content) | None => [] end.

(** [RD_ENABLE] is set and [RD_TARGET], if any, is this process. *)
Definition selected (getenv : text -> option text) (comm : text) : bool :=
  match getenv (txt "RD_ENABLE") with
  | None => false
  | Some _ =>
      match TargetedCtl.env_set getenv (txt "RD_TARGET") with
      | Some target => bool_decide (comm = target)
      | None => true
      end
  end.

Definition output_name (getenv : text -> option text) (pid : Z) : text :=
  let name := default (txt "rd") (getenv (txt "RD_NAME")) in
  match getenv (txt "RD_PIDNAME") with
  | Some pidname => if negb (atoi pidname =? 0) then name ++ dec_s pid else name
  | None => name
  end.

Definition parse_mode (getenv : text -> option text) : result (perp_mode * bool) :=
  match TargetedCtl.env_set getenv (txt "RD_MODE") with
  | None => Ok (PERP_OFF, false)
  | Some mode =>
      if bool_decide (mode = txt "perp") then Ok (PERP_ROOFLINE, false) else
      if bool_decide (mode = txt "noperp") then Ok (PERP_NONE, false) else
      if bool_decide (mode = txt "pf") then Ok (PERP_PREFETCH, false) else
      if bool_decide (mode = txt "targeted_rd") then Ok (PERP_OFF, true) else
      Throw (txt "unknown mode")
  end.

(** The variables in the order in which they are read; [None]: a buffer size on
    which [parse_bufsize] does not return. *)
Definition parse_settings (getenv : text -> option text) (pid : Z) : option (result settings) :=
  match parse_mode getenv with
  | Throw e => Some (Throw e)
  | Ok (mode, targeted_rd_mode) =>
      let is_pin := match TargetedCtl.env_set getenv (txt "RD_PIN_CPU") with
                    | Some pin => negb (atoi pin =? 0)
                    | None => false
                    end in
      ringbufsize ← env_bufsize getenv (txt "RD_BUFSIZE");
      auxbufsize ← env_bufsize getenv (txt "RD_AUXBUFSIZE");
      Some (Ok (mk_settings (read_period getenv) (output_name getenv pid) mode targeted_rd_mode is_pin
                  ringbufsize auxbufsize))
  end.

Definition unsetenv (name : text) (getenv : text -> option text) : text -> option text :=
  fun n => if bool_decide (n = name) then None else getenv n.

(** ** The library *)

Record lib := mk_lib {
  lib_perp : option periodic;
  lib_targeted_rd : option profiler;
}.
#[export] Instance eta_lib : Eta lib := fun r => mk_lib (lib_perp r) (lib_targeted_rd r).

(** What the library reads of the process. *)
Record process := mk_process {
  pr_getenv : text -> option text;
  pr_comm : option text;
  pr_pid : Z;
  pr_caller : Z;
  pr_num_cpus : Z;
  pr_realpath : text -> option text;
  pr_readlink : option text;
  pr_popen : text -> option (text * Z);
  pr_maps : option text;
  pr_read_file : text -> option text;
}.

Section library.
Context `{Pf : PerfApi} (a : architecture) (beyond : bool).
Context (writable : text -> bool) (Os : OsApi) (residue : rd_wpctl_dwarf_snapshot -> text).
Abbreviation FO := (filed writable Os).
Abbreviation ctl := (prog profiler (@os FO)).
Abbreviation lprog := (prog lib (perf_os * @os FO)).

(** A call of a profiler through its pointer, if it is not null. *)
Definition on_perp (m : prog periodic perf_os unit) : lprog unit := fun s =>
  match lib_perp s.1 with
  | None => Some (Ok tt, s)
  | Some pp => '(r, (pp, po)) ← m (pp, s.2.1); Some (r, (s.1 ⟦ lib_perp := Some pp ⟧, (po, s.2.2)))
  end.
Definition on_targeted (m : ctl unit) : lprog unit := fun s =>
  match lib_targeted_rd s.1 with
  | None => Some (Ok tt, s)
  | Some t => '(r, (t, o)) ← m (t, s.2.2); Some (r, (s.1 ⟦ lib_targeted_rd := Some t ⟧, (s.2.1, o)))
  end.

(** [new PeriodicProfiler(...)] and [new TargetedRdProfiler(name, true)]: the
    pointer is stored only when the constructor returns. *)
Definition create_perp (pr : process) (se : settings) : lprog unit := fun s =>
  let init := Periodic.initial_periodic a beyond (se_period se) (se_perp_mode se) (se_ringbufsize se) (se_auxbufsize se)
                (pr_num_cpus pr) (se_is_pin se) in
  '(r, (pp, po)) ← Periodic.construct (pr_getenv pr) (se_name se) (init, s.2.1);
  Some (r, ((match r with Ok _ => s.1 ⟦ lib_perp := Some pp ⟧ | Throw _ => s.1 end), (po, s.2.2))).
Definition create_targeted (pr : process) (se : settings) : lprog unit := fun s =>
  '(r, (t, o)) ← TargetedCtl.construct (O := FO) (pr_getenv pr) (pr_realpath pr) (pr_readlink pr) (pr_popen pr) (pr_maps pr)
                   (pr_read_file pr) (pr_caller pr)
                   (TargetedCtl.initial_profiler (Some (se_name se)) true (pr_num_cpus pr), s.2.2);
  Some (r, ((match r with Ok _ => s.1 ⟦ lib_targeted_rd := Some t ⟧ | Throw _ => s.1 end), (s.2.1, o))).

(** The constructor of the library.  The value is the environment it leaves; the
    profilers read theirs after [RD_ENABLE] has been removed. *)
Definition lib_init (pr : process) : lprog (text -> option text) :=
  if negb (selected (pr_getenv pr) (read_comm (pr_comm pr))) then ret (pr_getenv pr) else
  let env := unsetenv (txt "RD_ENABLE") (pr_getenv pr) in
  let pr := mk_process env (pr_comm pr) (pr_pid pr) (pr_caller pr) (pr_num_cpus pr) (pr_realpath pr) (pr_readlink pr)
              (pr_popen pr) (pr_maps pr) (pr_read_file pr) in
  r <-- crash_if_none (parse_settings env (pr_pid pr));
  se <-- lift r;
  (if se_targeted_rd se then create_targeted pr se
   else if negb (bool_decide (se_perp_mode se = PERP_OFF)) then create_perp pr se else ret tt);;
  ret env.

(** The destructor of the library; [last] rounds of the background thread precede
    its end, and [line_size] is what [sysconf] says of the first cache.  A
    destructor that throws ends the process. *)
Definition lib_deinit (pr : process) (line_size : Z) (last : nat) : lprog unit :=
  terminate_on_throw (on_perp (Periodic.destroy (pr_read_file pr (txt "/proc/self/cmdline")) line_size last;; ret tt));;
  modify (fun l => l ⟦ lib_perp := None ⟧);;
  terminate_on_throw (on_targeted (ResultFiles.destroy writable Os residue (pr_realpath pr) (pr_maps pr);; ret tt));;
  modify (fun l => l ⟦ lib_targeted_rd := None ⟧).

(** ** The C interface *)

(** A null tag reaches [strlen]. *)
Definition rd_start (tag : option text) : lprog unit :=
  on_perp (match tag with Some t => Periodic.kernel_start t | None => crash_if_none None end);;
  on_targeted (TargetedCtl.kernel_start (O := FO)).

Definition rd_stop : lprog unit :=
  on_perp Periodic.kernel_stop;;
  on_targeted (TargetedCtl.kernel_stop (O := FO)).

Definition rd_tag_addr (tag : text) (start_ end_ : Z) : lprog unit :=
  on_perp (Periodic.on_mon (tag_addr tag start_ end_)).

(** The two loops of a field: to the next space, which on a line without one runs
    past the end ([None]), and past the spaces. *)
Fixpoint skip_word (p : text) : option text :=
  match p with
  | [] => None
  | c :: p' => if isspace c then Some p else skip_word p'
  end.
Fixpoint skip_fields (n : nat) (p : text) : option text :=
  match n with
  | O => Some p
  | S n => p ← skip_word p; skip_fields n (skip_while isspace p)
  end.

(** The range and the path of a line. *)
Definition maps_line (line : text) : option (Z * Z * text) :=
  let start_ := strtoull 16 line in
  match strto_end 16 line with
  | [] => None
  | _ :: p =>
      let end_ := strtoull 16 p in
      path ← skip_fields 5 (strto_end 16 p);
      Some (start_, end_, path)
  end.

Definition rd_tag_from_maps (tag file : text) (maps : option text) : lprog unit :=
  on_perp (forM (match maps with Some content => getlines NEWLINE content | None => [] end) (fun line =>
    l <-- crash_if_none (maps_line line);
    let '(start_, end_, path) := l in
    if bool_decide (file = path) then Periodic.on_mon (tag_addr tag start_ end_) else ret tt)).

(** Exceptions of the profilers become warnings. *)
Definition rd_on_thread_start (tid : Z) : lprog unit :=
  try_catch (on_perp (Periodic.on_mon (register_current_thread tid)));;
  try_catch (on_targeted (TargetedCtl.register_current_thread (O := FO) tid));;
  ret tt.

Definition rd_on_thread_stop (tid : Z) : lprog unit :=
  try_catch (on_perp (Periodic.on_mon (unregister_current_thread tid)));;
  try_catch (on_targeted (TargetedCtl.unregister_current_thread (O := FO) tid));;
  ret tt.

End library.

End Starter.
