(* ===== verification/StarterSpec.v ===== *)
(** What the preload entry points promise: which process is profiled and by which
    profiler, how buffer sizes are rounded, and which ranges a file tag covers. *)
From S2P Require Import Prelude Uapi CText ProcMaps Effects TargetedCtl PerfEvents Monitor Periodic ResultFiles Starter.
Import ProcMaps PerfEvents Monitor ResultFiles Starter.

Module StarterSpec.

(** ** Buffer sizes *)

Lemma s32_small z : -2147483648 <= z < 2147483648 -> s32 z = z.
Proof.
  intros H; unfold s32, u32; pose proof (Z.div_mod z 4294967296 ltac:(lia)); pose proof (Z.mod_pos_bound z 4294967296 ltac:(lia)).
  destruct (Z.ltb_spec (z mod 4294967296) 2147483648); lia.
Qed.

(** A power of two below the bound of [int]. *)
Definition small_power (n : Z) : Prop := exists i, 0 <= i <= 30 /\ n = 2 ^ i.

Lemma double_power b i : 0 <= i -> 2 ^ i <= b < 1073741824 ->
  i < 30 /\ double_step b (2 ^ i) = inl (2 ^ (i + 1)).
Proof.
  intros H0 [H1 H2]; assert (Hi : i < 30) by (apply (Z.pow_lt_mono_r_iff 2); lia); split; [done|].
  unfold double_step; destruct (Z.leb_spec (2 ^ i) b); [|lia]; f_equal.
  rewrite Z.shiftl_mul_pow2, Z.pow_1_r, Z.pow_add_r, Z.pow_1_r by lia.
  apply s32_small; assert (2 ^ i <= 2 ^ 29) by (apply Z.pow_le_mono_r; lia); lia.
Qed.

Lemma double_ends b : 1 <= b < 1073741824 -> exists r, iter_loop (double_step b) 6 1 = inr r.
Proof.
  intros Hb; apply (iter_loop_terminates (double_step b) small_power (fun n => 31 - Z.log2 n)); [|by exists 0|done].
  intros n n' (i & Hi & ->) E; assert (Hle : 2 ^ i <= b).
  { unfold double_step in E; destruct (Z.leb_spec (2 ^ i) b); [done|discriminate]. }
  destruct (double_power b i) as [H30 E']; [lia|lia|]; rewrite E in E'; injection E' as ->.
  rewrite !Z.log2_pow2 by lia; split; [exists (i + 1)|]; lia.
Qed.

Lemma double_loop b k : 1 <= b < 1073741824 -> forall i, 0 <= i -> i + Z.of_nat k = Z.log2 b + 1 ->
  loops (double_step b) (2 ^ i) (2 ^ Z.log2 b).
Proof.
  intros Hb; destruct (Z.log2_spec b) as [L1 L2]; [lia|]; pose proof (Z.log2_nonneg b) as L0.
  induction k as [|k IH]; intros i Hi Hk.
  - apply loops_done; replace i with (Z.succ (Z.log2 b)) by lia; unfold double_step.
    destruct (Z.leb_spec (2 ^ Z.succ (Z.log2 b)) b); [lia|]; f_equal.
    rewrite Z.shiftr_div_pow2, Z.pow_succ_r, Z.pow_1_r, Z.mul_comm, Z.div_mul by lia; done.
  - assert (2 ^ i <= 2 ^ Z.log2 b) by (apply Z.pow_le_mono_r; lia).
    eapply loops_step; [apply double_power; lia|]; apply IH; lia.
Qed.

(** The states of the loop when the size is too large: powers of two, then the
    sign bit, then zero for ever. *)
Lemma double_diverges b n : 1073741824 <= b < 2147483648 -> small_power n \/ n = -2147483648 \/ n = 0 ->
  exists n', double_step b n = inl n' /\ (small_power n' \/ n' = -2147483648 \/ n' = 0).
Proof.
  intros Hb [(i & Hi & ->)|[-> | ->]]; unfold double_step.
  - assert (2 ^ i <= 2 ^ 30) by (apply Z.pow_le_mono_r; lia); destruct (Z.leb_spec (2 ^ i) b); [|lia].
    eexists; split; [done|]; rewrite Z.shiftl_mul_pow2 by lia; destruct (Z.eq_dec i 30) as [->|Hne]; [by right; left|left].
    exists (i + 1); split; [lia|]; rewrite Z.pow_add_r, Z.pow_1_r by lia.
    assert (2 ^ i <= 2 ^ 29) by (apply Z.pow_le_mono_r; lia); apply s32_small; lia.
  - destruct (Z.leb_spec (-2147483648) b); [|lia]; eexists; split; [done|]; by right; right.
  - destruct (Z.leb_spec 0 b); [|lia]; eexists; split; [done|]; by right; right.
Qed.

Lemma double_never_ends b n r : 1073741824 <= b < 2147483648 -> small_power n \/ n = -2147483648 \/ n = 0 ->
  ~ loops (double_step b) n r.
Proof.
  intros Hb Hn H; induction H as [n r E|n n' r E _ IH]; destruct (double_diverges b n Hb Hn) as (n2 & E2 & H2);
    rewrite E2 in E; [done|]; injection E as <-; by apply IH.
Qed.

Lemma atoi_range s : -2147483648 <= atoi s < 2147483648.
Proof.
  unfold atoi, s32, u32; pose proof (Z.mod_pos_bound (strtoll 10 s) 4294967296 ltac:(lia)).
  destruct (Z.ltb_spec (strtoll 10 s mod 4294967296) 2147483648); lia.
Qed.

(** C40. A buffer size is rounded down to a power of two: the largest that is not above
    it, for every size from 1 to [2^30 - 1] MiB.  Zero and text that is no number
    give 1, a negative size gives 0, and from [2^30] on the loop never ends. *)
Theorem bufsize_rounds_down (env : text) :
  let b := atoi env in
  (b = 0 -> parse_bufsize env = Some 1) /\
  (b < 0 -> parse_bufsize env = Some 0) /\
  (0 < b < 1073741824 -> exists n, parse_bufsize env = Some n /\ n = 2 ^ Z.log2 b /\ n <= b < 2 * n) /\
  (1073741824 <= b -> parse_bufsize env = None /\ forall n, ~ loops (double_step b) 1 n).
Proof.
  intros b; assert (Hr : -2147483648 <= b < 2147483648) by apply atoi_range; unfold parse_bufsize; fold b; split_and!; intros Hb.
  - by rewrite Hb.
  - destruct (Z.eqb_spec b 0) as [|_]; [lia|]; cbn [negb].
    assert (E : double_step b 1 = inr 0) by (unfold double_step; destruct (Z.leb_spec 1 b); [lia|done]).
    cbn [iter_loop]; by rewrite E.
  - destruct (Z.eqb_spec b 0); [lia|]; cbn [negb]; destruct (double_ends b) as [r Er]; [lia|]; rewrite Er.
    exists r; destruct (Z.log2_spec b) as [L1 L2]; [lia|]; rewrite Z.pow_succ_r in L2 by apply Z.log2_nonneg.
    assert (E : r = 2 ^ Z.log2 b); [|by rewrite E]; pose proof (Z.log2_nonneg b).
    eapply loops_det; [by eapply iter_loop_sound|]; apply (double_loop b (Z.to_nat (Z.log2 b + 1)) ltac:(lia) 0); lia.
  - assert (H1 : small_power 1) by (by exists 0); split; [|intros n; apply double_never_ends; [lia|by left]].
    destruct (Z.eqb_spec b 0); [lia|]; cbn [negb]; destruct (iter_loop (double_step b) 6 1) as [|r] eqn:E; [done|].
    apply iter_loop_sound in E; by apply double_never_ends in E; [|lia|left].
Qed.

(** ** Tags for a mapped file *)

Lemma skip_word_word w c r : Forall (fun c => isspace c = false) w -> isspace c = true ->
  skip_word (w ++ c :: r) = Some (c :: r).
Proof. intros Hw Hc; induction Hw as [|d w Hd _ IH]; cbn; [by rewrite Hc|by rewrite Hd]. Qed.

Lemma skip_fields_word n w s : Forall (fun c => isspace c = false) w ->
  skip_fields (S n) (w ++ SPACE :: s) = skip_fields n (skip_while isspace s).
Proof. intros Hw; cbn [skip_fields]; by rewrite skip_word_word. Qed.

Lemma skip_while_word w s : word w -> skip_while isspace (w ++ s) = w ++ s.
Proof. intros [Hne Hw]; destruct w as [|c w]; [done|]; inversion Hw; subst; by apply skip_while_stop. Qed.

(** What the C interface reads from a line of the maps file. *)
Lemma maps_line_print m : mapping_wf m -> maps_line (print_mapping m) = Some (mp_start m, mp_end m, mp_path m).
Proof.
  intros (H1 & H2 & H3 & _ & _ & H4 & H5 & H6 & _ & H8 & _); unfold maps_line, print_mapping.
  set (rest := mp_perms m ++ _); unfold strto_end; cbn zeta.
  replace ((pad_hex 8 (mp_start m) ++ "-"%char :: pad_hex 8 (mp_end m)) ++ SPACE :: rest)
    with (pad_hex 8 (mp_start m) ++ "-"%char :: (pad_hex 8 (mp_end m) ++ SPACE :: rest)) by (rewrite <- app_assoc; done).
  rewrite strto_pad_hex by done; rewrite strtoull_pad_hex by done; cbn [snd].
  rewrite strto_pad_hex by done; rewrite strtoull_pad_hex by done; cbn [snd]; unfold rest.
  change (SPACE :: mp_perms m ++ ?s) with ([] ++ SPACE :: mp_perms m ++ s).
  rewrite (skip_fields_word 4 []) by done; rewrite skip_while_word by done.
  rewrite skip_fields_word by apply H4; rewrite skip_while_word by (by apply word_pad_hex).
  rewrite skip_fields_word by (by apply word_pad_hex); rewrite skip_while_word by done.
  rewrite skip_fields_word by apply H5; rewrite skip_while_word by done.
  rewrite skip_fields_word by apply H6; cbn [skip_fields]; rewrite skip_spaces, H8; reflexivity.
Qed.

Section library.
Context `{Pf : PerfApi} (a : architecture) (beyond : bool).
Context (writable : text -> bool) (Os : OsApi) (residue : rd_wpctl_dwarf_snapshot -> text).

(** The ranges of the mappings of a file. *)
Definition ranges_of (tag file : text) (ms : list mapping) : list (text * Z * Z) :=
  (fun m => (tag, mp_start m, mp_end m)) <$> filter (fun m => file = mp_path m) ms.

Definition add_tags (ts : list (text * Z * Z)) (pp : periodic) : periodic :=
  pp ⟦ pp_mon ::= fun p => p ⟦ mo_addr_tags ::= fun l => l ++ ts ⟧ ⟧.

Lemma add_tags_app t1 t2 pp : add_tags t2 (add_tags t1 pp) = add_tags (t1 ++ t2) pp.
Proof. unfold add_tags, upd; cbn; by rewrite <- app_assoc. Qed.
Lemma add_tags_nil pp : add_tags [] pp = pp.
Proof. destruct pp as [m b t]; destruct m; unfold add_tags, upd; cbn; by rewrite app_nil_r. Qed.

Lemma tag_lines tag file ms : Forall mapping_wf ms -> forall (pp : periodic) (po : perf_os),
  forM (print_mapping <$> ms) (fun line =>
    l <-- crash_if_none (maps_line line);
    let '(start_, end_, path) := l in
    if bool_decide (file = path) then Periodic.Periodic.on_mon (tag_addr tag start_ end_) else ret tt) (pp, po) =
  Some (Ok tt, (add_tags (ranges_of tag file ms) pp, po)).
Proof.
  unfold ranges_of; induction 1 as [|m ms Hm _ IH]; intros pp po; [cbn; by rewrite add_tags_nil|].
  cbn [fmap list_fmap forM]; unfold bind at 1 2, crash_if_none; rewrite maps_line_print by done; cbn [mbind option_bind].
  rewrite filter_cons; destruct (decide (file = mp_path m)) as [E|E].
  - rewrite bool_decide_true by done; unfold Periodic.Periodic.on_mon, tag_addr, modify; cbn [mbind option_bind fst snd].
    etrans; [apply IH|]; symmetry; do 3 f_equal; exact (eq_sym (add_tags_app [(tag, mp_start m, mp_end m)] _ pp)).
  - rewrite bool_decide_false by done; cbn; by rewrite IH.
Qed.

(** [rd_tag_from_maps] on a maps file as the kernel prints it: the ranges of
    exactly the mappings of the named file are tagged, in their order, and nothing
    else of the library changes. *)
Theorem file_tag_covers_its_mappings (tag file : text) (ms : list mapping) (l : lib) (pp : periodic)
    (po : perf_os) (o : @os (filed writable Os))
    (Hms : Forall mapping_wf ms) (Hpp : lib_perp l = Some pp) :
  rd_tag_from_maps writable Os tag file (Some (maps_text ms)) (l, (po, o)) =
  Some (Ok tt, (l ⟦ lib_perp := Some (add_tags (ranges_of tag file ms) pp) ⟧, (po, o))).
Proof.
  unfold rd_tag_from_maps, on_perp; cbn [fst snd]; rewrite Hpp, maps_text_lines, tag_lines by done; reflexivity.
Qed.

(** A library that was not initialised. *)
Definition no_lib : lib := mk_lib None None.

Lemma create_perp_lib pr se l o r s' :
  create_perp a beyond writable Os pr se (l, o) = Some (r, s') ->
  lib_targeted_rd s'.1 = lib_targeted_rd l /\ (is_Some (lib_perp s'.1) -> is_Some (lib_perp l) \/ r = Ok tt).
Proof.
  unfold create_perp; destruct (Periodic.Periodic.construct _ _ _) as [[r1 [pp po]]|]; [|done]; rewrite some_bind.
  intros [= <- <-]; cbn; destruct r1 as [[]|e]; cbn; split; auto.
Qed.

Lemma create_targeted_lib pr se l o r s' :
  create_targeted writable Os pr se (l, o) = Some (r, s') ->
  lib_perp s'.1 = lib_perp l /\ (is_Some (lib_targeted_rd s'.1) -> is_Some (lib_targeted_rd l) \/ r = Ok tt).
Proof.
  unfold create_targeted; destruct (TargetedCtl.TargetedCtl.construct _ _ _ _ _ _ _ _) as [[r1 [t o1]]|]; [|done]; rewrite some_bind.
  intros [= <- <-]; cbn; destruct r1 as [[]|e]; cbn; split; auto.
Qed.

(** The mode that the environment selects. *)
Definition selects (pr : process) (mode : perp_mode) (targeted : bool) : Prop :=
  parse_mode (unsetenv (txt "RD_ENABLE") (pr_getenv pr)) = Ok (mode, targeted).

Lemma parse_mode_targeted getenv mode : parse_mode getenv = Ok (mode, true) -> mode = PERP_OFF.
Proof. unfold parse_mode; intros E; repeat case_match; congruence. Qed.

Lemma settings_mode getenv pid se : parse_settings getenv pid = Some (Ok se) ->
  parse_mode getenv = Ok (se_perp_mode se, se_targeted_rd se).
Proof.
  unfold parse_settings; destruct (parse_mode getenv) as [[mode targeted]|e]; [|done].
  destruct (env_bufsize getenv (txt "RD_BUFSIZE")); [|done]; rewrite some_bind.
  destruct (env_bufsize getenv (txt "RD_AUXBUFSIZE")); [|done]; rewrite some_bind; by intros [= <-].
Qed.

Lemma child_not_selected getenv comm : selected (unsetenv (txt "RD_ENABLE") getenv) comm = false.
Proof. unfold selected, unsetenv; by rewrite bool_decide_true. Qed.


End library.

End StarterSpec.
