(* ===== verification/StarterDemo.v ===== *)
(** The preload entry points on the small systems of [MonitorDemo.v] and
    [CtlDemo.v]. *)
From S2P Require Import Prelude Uapi CText ProcMaps Effects TargetedCtl PerfEvents Monitor Periodic ResultFiles Starter.
From S2P Require Import MonitorInv MonitorDemo CtlDemo StarterSpec.
Import ProcMaps PerfEvents Monitor ResultFiles Starter MonitorDemo StarterSpec.

Module StarterDemo.

#[local] Existing Instance toy_perf.
Abbreviation demo_os := CtlDemo.CtlDemo.granting_os.
Definition all_writable (path : text) : bool := true.
#[local] Abbreviation world := (@perf_os toy_perf * @os (filed all_writable demo_os))%type.

(** [RD_ENABLE=1 RD_MODE=perp RD_PERIOD=1000 RD_TARGET=app RD_BUFSIZE=6]. *)
Definition demo_env (name : text) : option text :=
  if bool_decide (name = txt "RD_ENABLE") then Some (txt "1") else
  if bool_decide (name = txt "RD_MODE") then Some (txt "perp") else
  if bool_decide (name = txt "RD_PERIOD") then Some (txt "1000") else
  if bool_decide (name = txt "RD_TARGET") then Some (txt "app") else
  if bool_decide (name = txt "RD_BUFSIZE") then Some (txt "6") else None.

Definition demo_process : process :=
  mk_process demo_env (Some (txt "app" ++ [NEWLINE])) 1234 100 8 demo_realpath (Some (txt "/bin/app")) (fun _ => None)
    None (fun _ => None).

(** The sizes that are read: 6 MiB is rounded down to 4. *)
Example demo_settings : parse_settings demo_env 1234 =
  Some (Ok (mk_settings 1000 (txt "rd") PERP_ROOFLINE false false 4 1)).
Proof. vm_compute; reflexivity. Qed.

Definition profiled (x : option (result (text -> option text) * (lib * world))) : bool :=
  match x with
  | Some (Ok _, (l, _)) => match lib_perp l with Some _ => true | None => false end
  | _ => false
  end.

Section start.
Context (o : @os (filed all_writable demo_os)).

Lemma demo_profiled : profiled (lib_init AARCH64 false all_writable demo_os demo_process (no_lib, (start_os 100, o))) = true.
Proof. vm_compute; reflexivity. Qed.

Lemma profiled_lib x : profiled x = true -> exists env l o', x = Some (Ok env, (l, o')) /\ is_Some (lib_perp l).
Proof.
  destruct x as [[[env|e] [l o']]|]; cbn; [|done|done]; destruct (lib_perp l) as [pp|] eqn:E; [|done].
  intros _; exists env, l, o'; rewrite E; eauto.
Qed.

End start.

Definition disk : @os (filed all_writable demo_os) := (tt, ∅).


(** The two mappings of the program are tagged, the third is not. *)
Lemma file_tag_covers_its_mappings_witness :
  exists l : lib, rd_tag_from_maps all_writable demo_os (txt "code") (txt "/bin/a.out") (Some (maps_text (demo_map 65536)))
    (mk_lib (Some (mk_periodic demo_initial false (txt "init"))) None, (start_os 100, disk)) =
    Some (Ok tt, (l, (start_os 100, disk))) /\
  (mo_addr_tags <$> (pp_mon <$> lib_perp l)) = Some [(txt "code", 61440, 65536); (txt "code", 65536, 73728)].
Proof.
  eexists; split; [apply (file_tag_covers_its_mappings all_writable demo_os); [apply demo_map_wf; lia|reflexivity]|].
  vm_compute; reflexivity.
Defined.

End StarterDemo.
